(* ===== verification/_CoqProject ===== *)
-Q . S2P
Prelude.v
Protocol.v
Os.v
Bus.v
Sim.v
BusProps.v
BusFrames.v
Float32.v
Calib.v
Libc.v
Prog.v
Shm.v
Layout.v
Ctx.v
Control.v
ControlProps.v
ControlThms.v
ControlTyped.v
ControlBus.v
Supervisor.v
SupervisorProps.v
SupervisorThms.v
SupervisorTrace.v
PyClient.v
Double.v
Client.v
System.v
SystemProps.v
SystemThms.v
Daemon.v
DaemonThms.v
Tool.v
ToolThms.v
Log.v
