(* ===== verification/Prelude.v ===== *)
(** * Verification of the SO-101 leader/follower daemon

    The program drives two six-joint SO-101 arms over serial buses of Feetech STS3215
    servos: a person moves the leader by hand and the follower copies it.  [so101d]
    runs three threads.  The control thread (daemon/src/control.c) owns both buses
    and, on a fixed grid of time slots, reads the leader, reads the follower, obeys the
    requested mode, moves the follower's goals and publishes a snapshot in a shared
    memory segment under a seqlock.  The supervisor (daemon/src/supervisor.c) watches
    the snapshots, latches faults, lowers the requested mode, and serves the commands
    clients leave in a mailbox guarded by two semaphores.  The main thread
    (daemon/src/so101d.c) starts them, feeds the systemd watchdog and shuts down.
    Three tools stand beside it: [so101ctl] sends commands and shows snapshots, [so101_log]
    records every cycle, [fts_tool] examines a bus.

    ** Files, from the bottom up

    - [Prelude]: C integers at their width ([wrap_u], [wrap_s]), bytes, generic lemmas
      on lists and options, the state-and-error monad [M].
    - [Protocol] (driver/src/feetech.c, no I/O): checksum, packets, the status parser
      with each of its returns, the sign-magnitude codec, the baud table.
    - [Os]: the system calls the driver makes, as a class of operations [OS] on an
      abstract world, and classes of the documented laws the driver relies on.
    - [Bus] (driver/src/feetech.c, the rest): every function that touches the tty, in a
      state monad over the bus record and the world of [Os].
    - [Sim]: a concrete world -- a line of bytes with a clock -- that satisfies the laws
      of [Os]; the witnesses run on it.
    - [BusProps]: theorems on [Bus]; [BusFrames]: what a transaction leaves alone (a view
      of the world no call changes is kept by every program over them) and that it is total.
    - [Float32]: binary32 arithmetic with round to nearest even, on integers counting
      units of 2^-149; monotonicity and error bounds.
    - [Calib] (daemon/src/calib.c): the scanner of calibration files on their bytes,
      with strstr, strchr, strtol and isspace written out, and the two joint maps
      [calib_normalize], [calib_unnormalize] in the arithmetic of [Float32].
    - [Libc]: atoi and strtoull, on the strtol of [Calib]; [Double]: binary64 arithmetic,
      on the Standard Library's specification.
    - [Prog]: threads as programs over events: [prog E A], their executions ([run],
      [shared_run]) and two program logics, [always] (properties of the trace of
      events) and [holds] (a shared state other threads change between any two
      operations).
    - [Shm] (daemon/include/so101_shm.h): the constants, the snapshot, the commands, and
      the seqlock word by word as two step relations; [Layout]: the structs as lists of
      members, the compiler's placement of them, and the bytes of the segment.
    - [Ctx] (daemon/include/so101d.h): the configuration and the defaults of [main].
    - [Control] (daemon/src/control.c): the whole control thread over [ctl_ev], one
      definition per numbered part of its loop; [ControlProps]: a specification per
      part and the thread's invariant; [ControlThms]: the theorems; [ControlTyped]: what
      the thread publishes fits the types of the segment's fields, which the theorems of
      [PyClient] ask for; [ControlBus]: its events
      carried out by the functions of [Bus] on two ports, [reopen_bus] and the sleep
      included.
    - [Supervisor] (daemon/src/supervisor.c): the whole supervisor over [sup_ev], with
      [sup_step] saying what an operation does to the shared state; [SupervisorProps]:
      the pure supervisor [sup_model] and the proof that the thread refines it under
      interference; [SupervisorThms]: the theorems on the shared state; [SupervisorTrace]:
      the refinement with the inputs of [sup_model] read off the thread's own operations,
      and the theorems on what was read in which turn.
    - [PyClient] (clients/python/so101.py): the formats, offsets and constants of the
      Python client, as literals of its own, and its reading of the segment and writing
      of the mailbox, on the bytes of [Layout].
    - [Client] (daemon/tools/so101ctl.c): the client over [cli_ev], with [cli_step].
    - [System]: the control thread, the supervisor and any number of clients interleaved
      on one segment; [SystemProps]: each thread meets the others' assumptions;
      [SystemThms]: the theorems on the whole.
    - [Daemon] (daemon/src/so101d.c): options, set-up, threads, watchdog loop and shutdown
      of [main] over [main_ev], with [main_step]; [DaemonThms]: the theorems, by monitors
      that read the trace of operations.
    - [Tool], [ToolThms] (driver/tools/fts_tool.c) in the monad of [Bus]; [Log]
      (daemon/tools/so101_log.c) over [log_ev].

    ** How the parts meet

    A thread never mentions another one.  The control thread is a program over the
    results of its operations (bus reads, the clock, the mode request, the fault word):
    a theorem of [ControlThms] holds for every sequence of results, so whatever the
    supervisor, the clients or the servos do.  The supervisor runs on the part of the
    segment it shares, and a theorem of [SupervisorThms] holds under any interference
    that respects [sup_env]: others do not write the mode request, the answer, the
    beat, or fault bits other than TORQUE_REFUSED -- the one bit the control thread
    sets and clears, which [Control] shows it does with [FaultsOr] and [FaultsAnd].
    That a snapshot read is one that was published whole, which both assume of
    [ReadSnapshot] and [Publish], is the theorem on the seqlock in [Shm].

    The assumptions are discharged where the parts are put together.  In [System] every
    operation of a thread is one step on the shared segment, and [SystemProps] shows that
    the control thread and the clients are such an interference ([sys_step_env]), so what
    [SupervisorThms] shows of the supervisor alone holds in the system.  [ControlBus]
    does the same downwards: played on the driver, the control thread's results satisfy
    [ctl_ok], the hypothesis of [ControlThms].  And [Daemon] provides the beginning:
    when [main] starts the threads the segment is [set_up], where the theorems of [System]
    start from, and [ctx_of] makes the threads' configuration out of the options.  The
    system calls under [Bus] are the class [OS] with the laws [OSLaws], [OSStream],
    [OSFds] and [OSSleep] of [Os]; [Sim] is an instance of all of them.

    ** What is shown

    - Protocol and bus: building and parsing are inverse, the parser is sound, blind to
      how the stream was cut into reads, and detects a corrupted byte (of the header and
      of LEN not every one); one [rx_status]
      takes one packet off the line; a sync read that succeeds returns the data of
      checksummed replies, succeeds with that data when the servos answer in time
      ([prompt]), and always terminates; a sync write puts exactly one packet on the wire
      or refuses its arguments; no descriptor leaks.
      On two real buses the control thread runs any number of cycles.
    - Calibration: an arm printed as JSON, in whatever white space, is read back; only usable joints are
      accepted; the joint maps are monotone, stay in range and lose at most one tick.
    - Seqlock: no torn read under any interleaving, the writer never waits.
    - Control: torque is switched on only at a position just read and just written as
      goal; goals move at most a step per cycle and stay in the calibrated range; the
      requested mode is obeyed in the cycle that reads it; the time grid is kept and
      missed slots counted; reconnections are rare; HOLD converges; the thread ends
      limp.
    - Supervisor: the requested mode is safe for the latched faults, ESTOP lasts until
      RESET, only a command raises the mode; every turn does what the pure supervisor
      makes of what the turn read; a fault bit is raised exactly by its cause in the
      inputs, a temperature or voltage fault exactly by the fifth bad reading in a row, a
      stall by 300 ms without a new cycle between two turns that read a snapshot; every
      command is answered; a dead client's mailbox lock is recovered.  (TORQUE_REFUSED,
      which the control thread sets and clears, is outside what is said of latched bits.)
    - The system: a stopped arm stays limp until somebody resets it, whatever clients
      come; the requested mode is safe between any two turns of the supervisor; the mailbox
      is written by the holder of its lock only, of whom there is one unless the supervisor
      took the lock from a client that was not dead.
    - The segment: the formats and offsets of the Python client read the snapshot that was
      published, field by field, and its mailbox is what the daemon finds.
    - [main]: on every path, failures included, what the threads use is acquired before
      and released after them, under the lock that keeps other daemons out, and the names
      left behind are exactly accounted for; the segment is complete when they start;
      systemd is sent a notification exactly when both have moved; what the check of the
      options guarantees.
    - The tools: [fts_tool] only ever reads from the servos, and its commands return;
      [so101_log] writes every new cycle once and counts the others exactly.

    ** Fuel and bounds

    Loops of the C code that are not structural take fuel.  [write_all], [fill_rx],
    [rx_loop] and [raw_loop] have theorems with a bound that suffices from the bytes in
    flight and the deadline; [skip_slots] gets [S (now - next)] from [next_slot], enough
    for any positive period; the loops of the two threads run while the daemon does,
    and their theorems hold for every number of turns; so do those of the watchdog loop
    and of the recorder.  [rx_fuel timeout] is enough for one status packet, and on top of
    it 256 and the number of signals that may still interrupt a write or a sleep for any
    transaction or command.  The counters of bad snapshots
    are C [int]s and their overflow is undefined: theorems over [n] turns ask that [n]
    fit one.  Millisecond and nanosecond clocks are taken not to overflow 64 bits.

    ** Not modelled

    The text of messages and of the CSV rows (they are events with their arguments; the
    notifications to systemd and the joint names are bytes), jitter_test.c (it measures the
    machine), the C tests (their expectations are examples here), the ROS bridge, and of
    the Python client its waiting (sleeps, semaphores, polling for the answer) and its
    conversion of units.  With an
    echoing adapter (option -e) a storm of signals can prolong [swallow_echo] beyond any
    deadline, so the termination theorems are for adapters without echo.
    The memory model is sequentially consistent: the acquire and release fences of the
    code are what makes it so, and are not themselves modelled. *)

From Stdlib Require Export ZArith Lia List Bool.
From stdpp Require Export base tactics numbers list option.

#[global] Open Scope Z_scope.

(** ** C integers

    A [w]-bit C integer is a [Z].  [wrap_u w] is the conversion to an unsigned
    type of width [w], [wrap_s w] the conversion to a two's complement signed
    type of that width (what gcc and clang define for out-of-range values). *)

Definition wrap_u (w z : Z) : Z := z mod 2 ^ w.
Definition wrap_s (w z : Z) : Z := (z + 2 ^ (w - 1)) mod 2 ^ w - 2 ^ (w - 1).

Abbreviation u8 := (wrap_u 8).
Abbreviation u16 := (wrap_u 16).
Abbreviation u32 := (wrap_u 32).
Abbreviation u64 := (wrap_u 64).
Abbreviation i16 := (wrap_s 16).
Abbreviation i32 := (wrap_s 32).
Abbreviation i64 := (wrap_s 64).

(** The range predicates of the two families. *)
Definition in_u (w z : Z) : Prop := 0 <= z < 2 ^ w.
Definition in_s (w z : Z) : Prop := - 2 ^ (w - 1) <= z < 2 ^ (w - 1).

Abbreviation byte := (in_u 8).
Abbreviation bytes := (Forall (in_u 8)).

Create HintDb cint.

Lemma wrap_u_range w z : 0 <= w -> in_u w (wrap_u w z).
Proof. intros. apply Z.mod_pos_bound. lia. Qed.

Lemma wrap_u_id w z : in_u w z -> wrap_u w z = z.
Proof. apply Z.mod_small. Qed.

Lemma wrap_s_range w z : 1 <= w -> in_s w (wrap_s w z).
Proof.
  intros. unfold in_s, wrap_s.
  pose proof (Z.mod_pos_bound (z + 2 ^ (w - 1)) (2 ^ w)).
  replace (2 ^ w) with (2 * 2 ^ (w - 1)) in *
    by (rewrite <- Z.pow_succ_r by lia; f_equal; lia).
  lia.
Qed.

Lemma wrap_s_id w z : 1 <= w -> in_s w z -> wrap_s w z = z.
Proof.
  intros ? Hz. unfold in_s, wrap_s in *.
  replace (2 ^ w) with (2 * 2 ^ (w - 1)) in *
    by (rewrite <- Z.pow_succ_r by lia; f_equal; lia).
  rewrite Z.mod_small; lia.
Qed.

#[export] Hint Resolve wrap_u_range wrap_s_range : cint.
#[export] Hint Extern 1 (0 <= _) => lia : cint.
#[export] Hint Extern 1 (1 <= _) => lia : cint.

(** [in_u]/[in_s] at a literal width, unfolded so that [lia] can use them. *)
Ltac cranges :=
  unfold in_u, in_s in *;
  repeat match goal with
  | H : context [2 ^ ?n] |- _ =>
      let v := eval vm_compute in (2 ^ n) in
      match v with Zpos _ => change (2 ^ n) with v in H end
  | |- context [2 ^ ?n] =>
      let v := eval vm_compute in (2 ^ n) in
      match v with Zpos _ => change (2 ^ n) with v end
  end.
Ltac clia := cranges; lia.

(** ** Boolean tests of the code *)

(** Case analysis on every integer comparison of the goal, then on those of the
    context; impossible branches are closed by [lia]. *)
Ltac zcase_one :=
  match goal with
  | |- context [Z.eqb ?a ?b] => destruct (Z.eqb_spec a b)
  | |- context [Z.ltb ?a ?b] => destruct (Z.ltb_spec a b)
  | |- context [Z.leb ?a ?b] => destruct (Z.leb_spec a b)
  | |- context [Z.gtb ?a ?b] => rewrite (Z.gtb_ltb a b)
  | |- context [Z.geb ?a ?b] => rewrite (Z.geb_leb a b)
  | |- context [Nat.eqb ?a ?b] => destruct (Nat.eqb_spec a b)
  | |- context [Nat.ltb ?a ?b] => destruct (Nat.ltb_spec a b)
  | |- context [Nat.leb ?a ?b] => destruct (Nat.leb_spec a b)
  end.
Ltac zcases := repeat (zcase_one; cbn [andb orb negb]; try (exfalso; lia)).


(** ** Bits *)

Lemma land_ones_mod a n : 0 <= n -> Z.land a (2 ^ n - 1) = a mod 2 ^ n.
Proof. intros. rewrite <- Z.land_ones by lia. f_equal. rewrite Z.ones_equiv. lia. Qed.

Lemma land_pow2_testbit a n :
  0 <= n -> Z.land a (2 ^ n) = if Z.testbit a n then 2 ^ n else 0.
Proof.
  intros. apply Z.bits_inj'. intros i Hi. rewrite Z.land_spec, Z.pow2_bits_eqb by lia.
  destruct (Z.eqb_spec n i) as [->|]; [|rewrite andb_false_r].
  - rewrite andb_true_r. destruct (Z.testbit a i) eqn:E; [|by rewrite Z.bits_0].
    by rewrite Z.pow2_bits_true.
  - destruct (Z.testbit a n); [|by rewrite Z.bits_0]. by rewrite Z.pow2_bits_false.
Qed.

(** A sum with a clear bit is a bitwise or. *)
Lemma lor_pow2_add a n : 0 <= n -> 0 <= a < 2 ^ n -> Z.lor a (2 ^ n) = a + 2 ^ n.
Proof.
  intros. symmetry. apply Z.add_nocarry_lor. apply Z.bits_inj'. intros i Hi.
  rewrite Z.land_spec, Z.bits_0, Z.pow2_bits_eqb by lia.
  destruct (Z.eqb_spec n i) as [->|]; [|by rewrite andb_false_r].
  rewrite <- (Z.mod_small a (2 ^ i)) by lia. by rewrite Z.mod_pow2_bits_high by lia.
Qed.

(** ** Lists *)

(** C array reads: the index is in bounds wherever the code reads. *)
Definition at_ (l : list Z) (i : nat) : Z := nth i l 0.

(** [memcpy(&l[off], src, length src)]: the bytes outside the window stay. *)
Definition memcpy_at (l : list Z) (off : nat) (src : list Z) : list Z :=
  take off l ++ src ++ drop (off + length src) l.

Lemma length_memcpy_at l off src :
  (off + length src <= length l)%nat -> length (memcpy_at l off src) = length l.
Proof. intros. unfold memcpy_at. rewrite !length_app, length_take, length_drop. lia. Qed.

Lemma at_app_l l1 l2 i : (i < length l1)%nat -> at_ (l1 ++ l2) i = at_ l1 i.
Proof. apply app_nth1. Qed.

Lemma at_app_r l1 l2 i : (length l1 <= i)%nat -> at_ (l1 ++ l2) i = at_ l2 (i - length l1).
Proof. apply app_nth2. Qed.

Lemma at_drop l n i : at_ (drop n l) i = at_ l (n + i).
Proof. revert l. induction n; destruct l; simpl; auto. by destruct i. Qed.

Lemma at_lookup l i : (i < length l)%nat -> l !! i = Some (at_ l i).
Proof. intros. unfold at_. destruct (nth_lookup_or_length l i 0); [done|lia]. Qed.

Lemma at_byte l i : bytes l -> byte (at_ l i).
Proof.
  intros H. unfold at_. destruct (Nat.ltb_spec i (length l)).
  - eapply List.Forall_forall; [|by apply nth_In].
    by apply List.Forall_forall in H || exact H.
  - rewrite nth_overflow by lia. clia.
Qed.

#[export] Hint Resolve at_byte : cint.

(** ** A state monad with fuel

    [M S A] is a computation on the state [S]; [None] is a loop that ran out of
    its fuel (never a result of the code).  The binders are stdpp's
    [x ← m; k]. *)

Definition M (S A : Type) : Type := S -> option (A * S).

#[export] Instance M_ret S : MRet (M S) := fun A a s => Some (a, s).
#[export] Instance M_bind S : MBind (M S) :=
  fun A B f m s => match m s with Some (a, s') => f a s' | None => None end.

Definition out_of_fuel {S A} : M S A := fun _ => None.
Definition lift {S A} (f : S -> A * S) : M S A := fun s => Some (f s).

Lemma M_bind_some {S A B} (m : M S A) (f : A -> M S B) s r :
  (m ≫= f) s = Some r <-> exists a s', m s = Some (a, s') /\ f a s' = Some r.
Proof.
  unfold mbind, M_bind. destruct (m s) as [[a s']|]; split.
  - eauto.
  - by intros (? & ? & [= <- <-] & ?).
  - done.
  - by intros (? & ? & ? & ?).
Qed.
