(* ===== verification/Protocol.v ===== *)
(** * The Feetech wire protocol (driver/include/feetech.h, the pure half of
    driver/src/feetech.c)

    Checksum, instruction packets, the status-packet scanner and the
    sign-magnitude codec.  Buffers are byte lists; a C pointer/length pair is
    the list of the bytes it designates. *)

From S2P Require Import Prelude.

(** ** Constants of feetech.h *)

Definition FTS_BROADCAST_ID : Z := 0xFE.
Definition FTS_MAX_PKT : Z := 250.
Definition FTS_RXBUF_SIZE : nat := 1024.

Definition FTS_INST_PING : Z := 0x01.
Definition FTS_INST_READ : Z := 0x02.
Definition FTS_INST_WRITE : Z := 0x03.
Definition FTS_INST_SYNC_READ : Z := 0x82.
Definition FTS_INST_SYNC_WRITE : Z := 0x83.

Definition STS_TORQUE_ENABLE : Z := 40.
Definition STS_GOAL_POSITION : Z := 42.
Definition STS_PRESENT_POSITION : Z := 56.

Definition FTS_OK : Z := 0.
Definition FTS_ERR_IO : Z := -1.
Definition FTS_ERR_TIMEOUT : Z := -2.
Definition FTS_ERR_CHECKSUM : Z := -3.
Definition FTS_ERR_BAD_PKT : Z := -4.
Definition FTS_ERR_ARG : Z := -5.
Definition FTS_ERR_ID : Z := -6.

(** ** Checksum and instruction packets *)

(** [unsigned sum = 0; for (...) sum += bytes[i]; return (uint8_t)(~sum & 0xFF)] *)
Definition fts_checksum (bs : list Z) : Z :=
  let sum := fold_left (fun sum b => u32 (sum + b)) bs 0 in
  u8 (Z.land (u32 (Z.lnot sum)) 0xFF).

(** The bytes written to [out]; [[]] is the [return 0] of an oversized packet. *)
Definition fts_build_packet (id inst : Z) (params : list Z) : list Z :=
  let nparams := Z.of_nat (length params) in
  if nparams + 6 >? FTS_MAX_PKT then []
  else
    let body := [id; u8 (nparams + 2); inst] ++ params in
    [0xFF; 0xFF] ++ body ++ [fts_checksum body].

(** ** The status-packet scanner *)

Record fts_packet := mk_packet {
  pkt_id : Z;
  pkt_error : Z;
  pkt_data : list Z;      (* [data] and [ndata] *)
}.

(** Return value of [fts_parse_status]: 1, 0 or a negative code. *)
Inductive status_result :=
| Found (pkt : fts_packet)
| NeedMore
| Corrupt (code : Z).

(** [while (i + 1 < len && !(buf[i] == 0xFF && buf[i+1] == 0xFF)) i++;] *)
Fixpoint skip_to_header (buf : list Z) : nat :=
  match buf with
  | b0 :: ((b1 :: _) as rest) =>
      if (b0 =? 0xFF) && (b1 =? 0xFF) then 0%nat else S (skip_to_header rest)
  | _ => 0%nat
  end.

(** The result and [*consumed]. *)
Definition fts_parse_status (buf : list Z) : status_result * nat :=
  let len := length buf in
  let i := skip_to_header buf in
  if (len <=? i + 1)%nat then
    (NeedMore,
     if negb (len =? 0)%nat && (at_ buf (len - 1) =? 0xFF) then (len - 1)%nat else len)
  else if (len - i <? 4)%nat then (NeedMore, i)
  else
    let id := at_ buf (i + 2) in
    let plen := at_ buf (i + 3) in
    if (id =? 0xFF) || (plen <? 2) || (plen >? FTS_MAX_PKT - 4) then
      (Corrupt FTS_ERR_BAD_PKT, (i + 1)%nat)
    else
      let total := (Z.to_nat plen + 4)%nat in
      if (len - i <? total)%nat then (NeedMore, i)
      else if negb (fts_checksum (take (total - 3) (drop (i + 2) buf))
                    =? at_ buf (i + total - 1)) then
        (Corrupt FTS_ERR_CHECKSUM, (i + 2)%nat)
      else
        (Found {| pkt_id := id;
                  pkt_error := at_ buf (i + 4);
                  pkt_data := take (Z.to_nat (plen - 2)) (drop (i + 5) buf) |},
         (i + total)%nat).

(** ** Sign-magnitude integers *)

Definition fts_decode_sm (raw sign_bit : Z) : Z :=
  let mask := u16 (Z.shiftl 1 sign_bit) in
  let mag := Z.land raw (mask - 1) in
  if Z.land raw mask =? 0 then mag else - mag.

Definition fts_encode_sm (value sign_bit : Z) : Z :=
  let mask := u16 (Z.shiftl 1 sign_bit) in
  if value <? 0 then u16 (Z.lor (Z.land (u32 (- value)) (mask - 1)) mask)
  else u16 (Z.land (u32 value) (mask - 1)).

(** ** Small tables *)

(** [speed_t] values of the Linux termios ABI. *)
Definition B38400 : Z := 0x0F.
Definition B57600 : Z := 0x1001.
Definition B115200 : Z := 0x1002.
Definition B500000 : Z := 0x1005.
Definition B1000000 : Z := 0x1008.

Definition baud_to_speed (baud : Z) : Z :=
  if baud =? 1000000 then B1000000
  else if baud =? 500000 then B500000
  else if baud =? 115200 then B115200
  else if baud =? 57600 then B57600
  else if baud =? 38400 then B38400
  else 0.

(** ** Facts about the checksum *)

Definition zsum (l : list Z) : Z := fold_right Z.add 0 l.

Lemma zsum_app l1 l2 : zsum (l1 ++ l2) = zsum l1 + zsum l2.
Proof. induction l1; simpl; lia. Qed.

Lemma checksum_fold bs a :
  wrap_u 32 (fold_left (fun sum b => u32 (sum + b)) bs a) = u32 (a + zsum bs).
Proof.
  revert a. induction bs as [|b bs IH]; intros a; simpl; [by rewrite Z.add_0_r|].
  rewrite IH. unfold wrap_u. rewrite Zplus_mod_idemp_l. f_equal. lia.
Qed.

(** The checksum is the one's complement of the byte sum, modulo 256. *)
Lemma checksum_sum bs : fts_checksum bs = (-1 - zsum bs) mod 256.
Proof.
  unfold fts_checksum. set (s := fold_left _ _ _).
  assert (Hs : s mod 2 ^ 32 = zsum bs mod 2 ^ 32) by apply (checksum_fold bs 0).
  unfold wrap_u. change 0xFF with (2 ^ 8 - 1). rewrite land_ones_mod by lia.
  rewrite Z.mod_mod by lia.
  replace (Z.lnot s) with (-1 - s) by (unfold Z.lnot; lia).
  change (2 ^ 8) with 256. change (2 ^ 32) with (256 * 2 ^ 24) in *.
  assert (Hs8 : s mod 256 = zsum bs mod 256).
  { rewrite (Z.mod_eq s (256 * 2 ^ 24)), (Z.mod_eq (zsum bs) (256 * 2 ^ 24)) in Hs by lia.
    replace s with (zsum bs + (2 ^ 24 * (s / (256 * 2 ^ 24) - zsum bs / (256 * 2 ^ 24))) * 256)
      by lia.
    by rewrite Z_mod_plus_full. }
  rewrite (Z.mod_eq (-1 - s) (256 * 2 ^ 24)) by lia.
  replace (-1 - s - 256 * 2 ^ 24 * ((-1 - s) / (256 * 2 ^ 24)))
    with (-1 - s + - (2 ^ 24 * ((-1 - s) / (256 * 2 ^ 24))) * 256) by lia.
  rewrite Z_mod_plus_full. by rewrite Zminus_mod, Hs8, <- Zminus_mod.
Qed.

Lemma checksum_byte bs : byte (fts_checksum bs).
Proof. unfold fts_checksum. auto with cint. Qed.
#[export] Hint Resolve checksum_byte : cint.

(** ** Facts about the header search *)

Lemma skip_cons2 b0 b1 rest :
  skip_to_header (b0 :: b1 :: rest)
  = if (b0 =? 0xFF) && (b1 =? 0xFF) then 0%nat else S (skip_to_header (b1 :: rest)).
Proof. reflexivity. Qed.

Arguments skip_to_header : simpl never.

(** Induction over the scan: the empty and one-byte buffers, then the test. *)
Ltac skip_induction buf IH :=
  induction buf as [|b0 [|b1 rest] IH];
  [ | | repeat rewrite <- app_comm_cons; rewrite ?skip_cons2; rewrite ?app_comm_cons;
        destruct ((b0 =? 0xFF) && (b1 =? 0xFF)) eqn:Hhd ].

Lemma skip_bound buf : (skip_to_header buf <= length buf - 1)%nat.
Proof. skip_induction buf IH; cbn [length] in *; try done; lia. Qed.

Lemma skip_found buf :
  (skip_to_header buf + 1 < length buf)%nat ->
  at_ buf (skip_to_header buf) = 0xFF /\ at_ buf (skip_to_header buf + 1) = 0xFF.
Proof.
  skip_induction buf IH; cbn [length] in *; try lia.
  - intros _. apply andb_true_iff in Hhd as [?%Z.eqb_eq ?%Z.eqb_eq]. by subst.
  - intros. apply IH. lia.
Qed.

Lemma skip_app buf more :
  (skip_to_header buf + 1 < length buf)%nat ->
  skip_to_header (buf ++ more) = skip_to_header buf.
Proof.
  skip_induction buf IH; cbn [length] in *; lia.
Qed.

Lemma skip_app_ge buf more :
  (length buf <= skip_to_header buf + 1)%nat ->
  (length buf - 1 <= skip_to_header (buf ++ more))%nat.
Proof.
  skip_induction buf IH; cbn [length] in *; lia.
Qed.

Lemma skip_app_ge_last buf more :
  (length buf <= skip_to_header buf + 1)%nat -> at_ buf (length buf - 1) <> 0xFF ->
  more <> [] ->
  (length buf <= skip_to_header (buf ++ more))%nat.
Proof.
  intros Hn Hl Hm. destruct more as [|m more]; [done|]. clear Hm. revert Hn Hl.
  skip_induction buf IH; cbn [length] in *; try lia.
  - intros _ Hl. cbn in Hl. cbn [app]. rewrite skip_cons2.
    destruct (Z.eqb_spec b0 255); [done|]. simpl. lia.
  - intros Hn Hl. apply le_n_S, IH; [lia|]. intros E. apply Hl. rewrite <- E.
    cbn [Nat.sub]. by rewrite !Nat.sub_0_r.
Qed.

Lemma skip_drop n buf :
  (n <= skip_to_header buf)%nat -> skip_to_header (drop n buf) = (skip_to_header buf - n)%nat.
Proof.
  revert buf. induction n as [|n IH]; intros buf Hn; [by rewrite drop_0, Nat.sub_0_r|].
  destruct buf as [|b0 [|b1 rest]]; [done|unfold skip_to_header in Hn; lia|].
  rewrite skip_cons2 in *. destruct (_ && _); [lia|]. cbn [drop].
  rewrite IH by lia. lia.
Qed.

(** Junk in front of a header: no FF FF pair, not even with a following FF. *)
Definition header_free (junk : list Z) : Prop :=
  skip_to_header (junk ++ [0xFF]) = length junk.

Lemma header_free_skip junk more :
  header_free junk -> skip_to_header (junk ++ 0xFF :: 0xFF :: more) = length junk.
Proof.
  unfold header_free. revert more.
  induction junk as [|b0 [|b1 rest] IH]; intros more; [done|..].
  - cbn [app]. rewrite !skip_cons2. destruct (b0 =? 255); [done|]. done.
  - rewrite <- !app_comm_cons, !skip_cons2. rewrite !app_comm_cons.
    destruct (_ && _); [done|]. intros [= H]. cbn [length]. f_equal. by apply IH.
Qed.

(** ** Facts about the scanner *)

Definition shift (n : nat) (r : status_result * nat) : status_result * nat :=
  (r.1, (n + r.2)%nat).

Lemma shift_0 r : shift 0 r = r.
Proof. by destruct r. Qed.

(** The bytes before the header are skipped: scanning a buffer is scanning any
    suffix that still starts at or before its first header. *)
Lemma parse_drop n buf :
  (n <= skip_to_header buf)%nat ->
  fts_parse_status buf = shift n (fts_parse_status (drop n buf)).
Proof.
  intros Hn. pose proof (skip_bound buf).
  unfold fts_parse_status. rewrite skip_drop, length_drop by done.
  set (i := skip_to_header buf) in *.
  destruct (Nat.eq_dec n O) as [->|].
  { rewrite drop_0, !Nat.sub_0_r, shift_0. done. }
  assert ((length buf - n <=? i - n + 1)%nat = (length buf <=? i + 1)%nat) as ->
    by (destruct (Nat.leb_spec (length buf) (i + 1)); [apply Nat.leb_le|apply Nat.leb_gt]; lia).
  destruct (Nat.leb_spec (length buf) (i + 1)).
  { rewrite !at_drop. unfold shift; cbn [fst snd]. f_equal.
    replace (n + (length buf - n - 1))%nat with (length buf - 1)%nat by lia.
    zcases; lia. }
  rewrite !at_drop, !drop_drop.
  replace (length buf - n - (i - n))%nat with (length buf - i)%nat by lia.
  replace (n + (i - n + 2))%nat with (i + 2)%nat by lia.
  replace (n + (i - n + 3))%nat with (i + 3)%nat by lia.
  replace (n + (i - n + 4))%nat with (i + 4)%nat by lia.
  replace (n + (i - n + 5))%nat with (i + 5)%nat by lia.
  set (total := (Z.to_nat (at_ buf (i + 3)) + 4)%nat).
  replace (n + (i - n + total - 1))%nat with (i + total - 1)%nat by lia.
  repeat case_match; unfold shift; cbn [fst snd]; f_equal; lia.
Qed.

(** More bytes never change a verdict. *)
Lemma parse_app_stable buf more r c :
  fts_parse_status buf = (r, c) -> r <> NeedMore ->
  fts_parse_status (buf ++ more) = (r, c).
Proof.
  unfold fts_parse_status. intros Hp Hr. rewrite length_app.
  destruct (Nat.leb_spec (length buf) (skip_to_header buf + 1)); [congruence|].
  rewrite skip_app by done. set (i := skip_to_header buf) in *.
  destruct (Nat.ltb_spec (length buf - i) 4); [congruence|].
  rewrite (proj2 (Nat.leb_gt _ _)), (proj2 (Nat.ltb_ge _ _)) by lia.
  rewrite (at_app_l buf more (i + 2)), (at_app_l buf more (i + 3)) by lia.
  destruct (_ || _ || _) eqn:Hbad; [done|].
  apply orb_false_iff in Hbad as [[_ Hlo%Z.ltb_ge]%orb_false_iff _].
  set (total := (Z.to_nat (at_ buf (i + 3)) + 4)%nat) in *.
  destruct (Nat.ltb_spec (length buf - i) total); [congruence|].
  rewrite (proj2 (Nat.ltb_ge _ _)) by lia.
  rewrite !drop_app_le, !take_app_le, !at_app_l by (rewrite ?length_drop; lia). done.
Qed.

(** What [NeedMore] keeps is all that matters: dropping [*consumed] and
    appending more input gives the same outcome as never having dropped. *)
Lemma parse_need_more_resume buf more c :
  fts_parse_status buf = (NeedMore, c) ->
  (c <= length buf)%nat /\
  fts_parse_status (buf ++ more) = shift c (fts_parse_status (drop c buf ++ more)).
Proof.
  intros Hp. assert (Hc : (c <= length buf)%nat /\
    (more = [] /\ (c <= skip_to_header buf \/ c = length buf)%nat \/
     (c <= skip_to_header (buf ++ more))%nat)).
  { pose proof (skip_bound buf). unfold fts_parse_status in Hp.
    destruct (Nat.leb_spec (length buf) (skip_to_header buf + 1)).
    - pose proof (skip_app_ge buf more ltac:(lia)).
      pose proof (skip_app_ge_last buf more ltac:(lia)) as Hl.
      destruct (Z.eqb_spec (at_ buf (length buf - 1)) 255); destruct (Nat.eqb_spec (length buf) O);
        cbn [negb andb] in Hp; injection Hp as <-; split; try lia.
      destruct more as [|m more']; [left; split; [done|by right]|right].
      by apply Hl.
    - rewrite skip_app by lia.
      repeat case_match; try discriminate; injection Hp as <-; split; lia. }
  destruct Hc as [Hle Hc]. split; [done|].
  destruct Hc as [[-> [Hc|Hc]]|Hc].
  - rewrite !app_nil_r. by apply parse_drop.
  - subst c. rewrite !app_nil_r, drop_all, Hp. unfold shift; simpl. f_equal. lia.
  - rewrite <- drop_app_le by done. by apply parse_drop.
Qed.

Lemma parse_consumed_le buf : ((fts_parse_status buf).2 <= length buf)%nat.
Proof.
  pose proof (skip_bound buf). unfold fts_parse_status.
  repeat case_match; cbn [snd]; repeat match goal with
  | H : (_ <=? _)%nat = true |- _ => apply Nat.leb_le in H
  | H : (_ <=? _)%nat = false |- _ => apply Nat.leb_gt in H
  | H : (_ <? _)%nat = true |- _ => apply Nat.ltb_lt in H
  | H : (_ <? _)%nat = false |- _ => apply Nat.ltb_ge in H end; lia.
Qed.

Lemma parse_progress buf r c :
  fts_parse_status buf = (r, c) -> r <> NeedMore -> (1 <= c)%nat.
Proof.
  unfold fts_parse_status. intros Hp Hr.
  repeat case_match; try congruence; injection Hp as <- <-; lia.
Qed.

(** ** Frames *)

(** The unit the two directions of the bus share: FF FF, then ID LEN x data, then
    the checksum, where x is the instruction or the servo's error byte. *)
Definition frame_body (id x : Z) (data : list Z) : list Z :=
  [id; Z.of_nat (length data) + 2; x] ++ data.
Definition frame (id x : Z) (data : list Z) : list Z :=
  [0xFF; 0xFF] ++ frame_body id x data ++ [fts_checksum (frame_body id x data)].

Lemma length_frame id x data : length (frame id x data) = (length data + 6)%nat.
Proof. unfold frame, frame_body. rewrite !length_app. simpl. lia. Qed.

Lemma build_packet_frame id inst params :
  Z.of_nat (length params) <= 244 -> fts_build_packet id inst params = frame id inst params.
Proof.
  intros. unfold fts_build_packet, FTS_MAX_PKT. rewrite Z.gtb_ltb.
  rewrite (proj2 (Z.ltb_ge _ _)) by lia. rewrite (wrap_u_id 8) by clia. done.
Qed.

Lemma build_packet_too_long id inst params :
  244 < Z.of_nat (length params) -> fts_build_packet id inst params = [].
Proof.
  intros. unfold fts_build_packet, FTS_MAX_PKT. rewrite Z.gtb_ltb.
  by rewrite (proj2 (Z.ltb_lt _ _)) by lia.
Qed.

Lemma frame_bytes id x data :
  byte id -> byte x -> bytes data -> Z.of_nat (length data) <= 244 -> bytes (frame id x data).
Proof.
  intros. unfold frame, frame_body. rewrite !Forall_app, !Forall_cons_iff.
  split_and!; auto with cint; clia.
Qed.

(** The scanner on a buffer that starts with a header. *)
Lemma parse_header_eq id plen tail :
  fts_parse_status (0xFF :: 0xFF :: id :: plen :: tail)
  = if (id =? 0xFF) || (plen <? 2) || (246 <? plen) then (Corrupt FTS_ERR_BAD_PKT, 1%nat)
    else if Z.of_nat (length tail) <? plen then (NeedMore, 0%nat)
    else if fts_checksum (id :: plen :: take (Z.to_nat plen - 1) tail)
            =? at_ tail (Z.to_nat plen - 1)
    then (Found {| pkt_id := id; pkt_error := at_ tail 0;
                   pkt_data := take (Z.to_nat (plen - 2)) (drop 1 tail) |},
          (Z.to_nat plen + 4)%nat)
    else (Corrupt FTS_ERR_CHECKSUM, 2%nat).
Proof.
  unfold fts_parse_status, FTS_MAX_PKT. rewrite skip_cons2. cbn [Z.eqb andb Pos.eqb].
  change (at_ _ (0 + 2)) with id. change (at_ _ (0 + 3)) with plen.
  change (drop (0 + 2) _) with (id :: plen :: tail).
  change (drop (0 + 5) (255 :: 255 :: id :: plen :: tail)) with (drop 1 tail).
  change (at_ (255 :: 255 :: id :: plen :: tail) (0 + 4)) with (at_ tail 0).
  cbn [length]. rewrite (proj2 (Nat.leb_gt _ _)) by lia.
  rewrite (proj2 (Nat.ltb_ge _ _)) by lia.
  rewrite Z.gtb_ltb. change (250 - 4) with 246.
  destruct (_ || _ || _) eqn:Hbad; [done|].
  apply orb_false_iff in Hbad as [[_ Hlo%Z.ltb_ge]%orb_false_iff Hhi%Z.ltb_ge].
  set (n := Z.to_nat plen). assert (Z.of_nat n = plen) by lia.
  destruct (Z.ltb_spec (Z.of_nat (length tail)) plen).
  { by rewrite (proj2 (Nat.ltb_lt _ _)) by lia. }
  rewrite (proj2 (Nat.ltb_ge _ _)) by lia.
  replace (n + 4 - 3)%nat with (S (S (n - 1))) by lia.
  replace (0 + (n + 4) - 1)%nat with (4 + (n - 1))%nat by lia.
  cbn [take]. change (at_ _ (4 + (n - 1))) with (at_ tail (n - 1)).
  rewrite Nat.add_0_l. by destruct (_ =? _).
Qed.

Lemma parse_at_header id plen tail :
  id <> 0xFF -> 2 <= plen <= 246 -> plen <= Z.of_nat (length tail) ->
  fts_parse_status (0xFF :: 0xFF :: id :: plen :: tail)
  = if fts_checksum (id :: plen :: take (Z.to_nat plen - 1) tail)
       =? at_ tail (Z.to_nat plen - 1)
    then (Found {| pkt_id := id; pkt_error := at_ tail 0;
                   pkt_data := take (Z.to_nat (plen - 2)) (drop 1 tail) |},
          (Z.to_nat plen + 4)%nat)
    else (Corrupt FTS_ERR_CHECKSUM, 2%nat).
Proof.
  intros. rewrite parse_header_eq. zcases; done.
Qed.

Lemma parse_frame junk id x data rest :
  header_free junk -> id <> 0xFF -> Z.of_nat (length data) <= 244 ->
  fts_parse_status (junk ++ frame id x data ++ rest)
  = (Found {| pkt_id := id; pkt_error := x; pkt_data := data |},
     (length junk + (length data + 6))%nat).
Proof.
  intros Hj Hid Hn. unfold frame. cbn [app].
  rewrite (parse_drop (length junk)) by (by rewrite header_free_skip).
  rewrite drop_app_length. unfold frame_body. cbn [app].
  rewrite parse_at_header by (rewrite ?length_app; simpl; rewrite ?length_app; simpl; lia).
  set (n := length data). set (chk := fts_checksum (id :: Z.of_nat n + 2 :: x :: data)).
  assert (HT : take (Z.to_nat (Z.of_nat n + 2) - 1) (x :: (data ++ [chk]) ++ rest) = x :: data).
  { replace (Z.to_nat (Z.of_nat n + 2) - 1)%nat with (S n) by lia. cbn [take]. f_equal.
    rewrite <- app_assoc. by apply take_app_length'. }
  rewrite HT. fold chk. 
  assert (HA : at_ (x :: (data ++ [chk]) ++ rest) (Z.to_nat (Z.of_nat n + 2) - 1) = chk).
  { replace (Z.to_nat (Z.of_nat n + 2) - 1)%nat with (S n) by lia.
    change (at_ ((data ++ [chk]) ++ rest) n = chk).
    rewrite <- app_assoc, at_app_r by (unfold n; lia). unfold n. by rewrite Nat.sub_diag. }
  rewrite HA, Z.eqb_refl. unfold shift; cbn [fst snd].
  replace (Z.to_nat (Z.of_nat n + 2 - 2)) with n by lia.
  cbn [drop]. rewrite drop_0, <- app_assoc, take_app_length' by done.
  f_equal. lia.
Qed.

(** Conversely, what the scanner accepts is such a frame, with clean junk before. *)
Lemma parse_found_frame buf p c :
  fts_parse_status buf = (Found p, c) ->
  exists junk rest,
    buf = junk ++ frame (pkt_id p) (pkt_error p) (pkt_data p) ++ rest /\
    length junk = skip_to_header buf /\
    c = (length junk + length (pkt_data p) + 6)%nat /\
    pkt_id p <> 0xFF /\ Z.of_nat (length (pkt_data p)) <= 244.
Proof.
  intros Hp. pose proof (skip_bound buf) as Hb.
  set (i := skip_to_header buf) in *. set (junk := take i buf).
  rewrite (parse_drop i) in Hp by done.
  assert (Hd : skip_to_header (drop i buf) = O) by (rewrite skip_drop by done; lia).
  assert (Hlj : length junk = i) by (unfold junk; rewrite length_take; lia).
  assert (Hbuf : buf = junk ++ drop i buf) by (unfold junk; by rewrite take_drop).
  destruct (drop i buf) as [|b0 [|b1 [|id [|plen tail]]]] eqn:E;
    try (unfold fts_parse_status in Hp; rewrite ?Hd in Hp; cbn in Hp; discriminate).
  assert (b0 = 255 /\ b1 = 255) as [-> ->].
  { rewrite skip_cons2 in Hd. destruct (_ && _) eqn:F; [|lia].
    by apply andb_true_iff in F as [?%Z.eqb_eq ?%Z.eqb_eq]. }
  assert (id <> 255 /\ 2 <= plen <= 246 /\ plen <= Z.of_nat (length tail)) as (Hid & Hpl & Hl).
  { rewrite parse_header_eq in Hp.
    destruct (Z.eqb_spec id 255), (Z.ltb_spec plen 2), (Z.ltb_spec 246 plen),
      (Z.ltb_spec (Z.of_nat (length tail)) plen); try discriminate. lia. }
  rewrite parse_at_header in Hp by done.
  destruct (Z.eqb_spec (fts_checksum (id :: plen :: take (Z.to_nat plen - 1) tail))
              (at_ tail (Z.to_nat plen - 1))) as [Hc|]; [|discriminate].
  unfold shift in Hp; cbn [fst snd] in Hp. injection Hp as <- <-. cbn [pkt_id pkt_error pkt_data].
  destruct tail as [|x tail]; [cbn in Hl; lia|]. cbn [length] in Hl.
  set (n := Z.to_nat (plen - 2)). cbn [drop]. rewrite drop_0.
  assert (Hn : length (take n tail) = n) by (rewrite length_take; lia).
  exists junk, (drop (S n) tail). rewrite Hn. split; [|repeat split; lia || done].
  rewrite Hbuf at 1. f_equal. unfold frame, frame_body. rewrite Hn.
  replace (Z.of_nat n + 2) with plen by lia. cbn [app at_ nth].
  replace (Z.to_nat plen - 1)%nat with (S n) in Hc by lia. cbn [take] in Hc.
  change (at_ (x :: tail) (S n)) with (at_ tail n) in Hc. rewrite Hc.
  do 5 f_equal. rewrite <- app_assoc, <- (take_drop n tail) at 1. f_equal.
  apply drop_S, at_lookup. lia.
Qed.

(** ** Draining a byte stream

    A receiver that uses [*consumed] as feetech.h documents it ("bytes the caller
    may drop", set on every return): it parses until it needs more bytes and drops
    what it may, and gives the packets in order and the bytes it keeps.  It is a
    specification, not a function of the driver.  [rx_status] itself drops nothing
    when it needs more bytes; that the packets it takes are the ones of this
    receiver is proved in [BusProps] ([rx_status_exact]).  [fuel] bounds the number of
    scanner calls; every call but the last drops at least one byte, so
    [S (length buf)] is enough ([drain_fuel]). *)

Fixpoint drain (fuel : nat) (buf : list Z) : list fts_packet * list Z :=
  match fuel with
  | O => ([], buf)
  | S fuel' =>
      match fts_parse_status buf with
      | (Found p, c) => let r := drain fuel' (drop c buf) in (p :: r.1, r.2)
      | (Corrupt _, c) => drain fuel' (drop c buf)
      | (NeedMore, c) => ([], drop c buf)
      end
  end.

Definition drain_all (buf : list Z) : list fts_packet * list Z := drain (S (length buf)) buf.

Lemma drain_fuel n m buf :
  (length buf < n)%nat -> (length buf < m)%nat -> drain n buf = drain m buf.
Proof.
  revert m buf. induction n as [|n IH]; intros [|m] buf Hn Hm; try lia.
  cbn [drain]. destruct (fts_parse_status buf) as [r c] eqn:E.
  pose proof (parse_consumed_le buf) as Hc. rewrite E in Hc. cbn [snd] in Hc.
  destruct r; [pose proof (parse_progress _ _ _ E ltac:(done))|done|
               pose proof (parse_progress _ _ _ E ltac:(done))];
    by rewrite (IH m) by (rewrite length_drop; lia).
Qed.

Lemma drain_all_unfold buf :
  drain_all buf =
  match fts_parse_status buf with
  | (Found p, c) => let r := drain_all (drop c buf) in (p :: r.1, r.2)
  | (Corrupt _, c) => drain_all (drop c buf)
  | (NeedMore, c) => ([], drop c buf)
  end.
Proof.
  unfold drain_all at 1. cbn [drain]. destruct (fts_parse_status buf) as [r c] eqn:E.
  pose proof (parse_consumed_le buf) as Hc. rewrite E in Hc. cbn [snd] in Hc.
  unfold drain_all.
  destruct r; [pose proof (parse_progress _ _ _ E ltac:(done))|done|
               pose proof (parse_progress _ _ _ E ltac:(done))];
    by rewrite (drain_fuel (length buf) (S (length (drop c buf)))) by (rewrite length_drop; lia).
Qed.

(** Induction on a buffer along the scanner's calls. *)
Lemma drain_ind (P : list Z -> Prop) :
  (forall buf, (forall r c, fts_parse_status buf = (r, c) -> r <> NeedMore ->
                            P (drop c buf)) -> P buf) ->
  forall buf, P buf.
Proof.
  intros H buf. induction buf as [buf IH] using (induction_ltof1 _ (@length Z)).
  apply H. intros r c E Hr. apply IH. unfold ltof.
  pose proof (parse_progress _ _ _ E Hr). pose proof (parse_consumed_le buf) as Hc.
  rewrite E in Hc. cbn [snd] in Hc. rewrite length_drop. lia.
Qed.

Lemma drain_all_app a b :
  drain_all (a ++ b) =
  let r := drain_all a in
  let r' := drain_all (r.2 ++ b) in
  (r.1 ++ r'.1, r'.2).
Proof.
  induction a as [a IH] using drain_ind. cbn zeta in *.
  rewrite (drain_all_unfold a), (drain_all_unfold (a ++ b)).
  destruct (fts_parse_status a) as [r c] eqn:E.
  pose proof (parse_consumed_le a) as Hc. rewrite E in Hc. cbn [snd] in Hc.
  destruct r as [p| |code].
  - rewrite (parse_app_stable _ b _ _ E) by done. rewrite drop_app_le by done.
    by rewrite (IH _ _ eq_refl) by done.
  - destruct (parse_need_more_resume a b c E) as [_ ->]. cbn [fst snd app].
    rewrite drain_all_unfold. unfold shift.
    destruct (fts_parse_status (drop c a ++ b)) as [r' c'].
    rewrite <- drop_app_le by done. cbn [fst snd]. rewrite drop_drop.
    destruct r'; cbn [fst snd]; by rewrite <- ?surjective_pairing.
  - rewrite (parse_app_stable _ b _ _ E) by done. rewrite drop_app_le by done.
    by apply (IH _ _ eq_refl).
Qed.

(** ** Corrupted frames *)

Lemma checksum_update l1 l2 b b' :
  byte b -> byte b' -> b <> b' ->
  fts_checksum (l1 ++ b' :: l2) <> fts_checksum (l1 ++ b :: l2).
Proof.
  rewrite !checksum_sum, !zsum_app. simpl. intros Hb Hb' Hne H.
  apply Hne. clear Hne. set (s1 := zsum l1) in *. set (s2 := zsum l2) in *.
  assert (Hd : (b - b') mod 256 = 0).
  { replace (b - b') with ((-1 - (s1 + (b' + s2))) - (-1 - (s1 + (b + s2)))) by lia.
    rewrite Zminus_mod, H, Z.sub_diag. done. }
  apply Z.mod_divide in Hd as [k Hk]; [|done]. clia.
Qed.

(** ** Facts about the sign-magnitude codec *)

Section SignMagnitude.
Context (k : Z) (Hk : 1 <= k <= 15).

Lemma sm_mask : u16 (Z.shiftl 1 k) = 2 ^ k.
Proof.
  rewrite Z.shiftl_1_l. apply wrap_u_id. split; [lia|]. apply Z.pow_lt_mono_r; lia.
Qed.

Lemma sm_pow : 0 < 2 ^ k <= 2 ^ 15.
Proof. split; [lia|]. apply Z.pow_le_mono_r; lia. Qed.

Lemma decode_sm_eq raw :
  fts_decode_sm raw k = if Z.testbit raw k then - (raw mod 2 ^ k) else raw mod 2 ^ k.
Proof.
  unfold fts_decode_sm. rewrite sm_mask, land_ones_mod, land_pow2_testbit by lia.
  pose proof sm_pow. destruct (Z.testbit raw k); zcases; lia.
Qed.

Lemma encode_sm_eq v :
  Z.abs v < 2 ^ k -> fts_encode_sm v k = if v <? 0 then 2 ^ k - v else v.
Proof.
  intros Hv. pose proof sm_pow. unfold fts_encode_sm. rewrite sm_mask.

  destruct (Z.ltb_spec v 0).
  - rewrite (wrap_u_id 32) by clia. rewrite land_ones_mod, Z.mod_small by lia.
    rewrite lor_pow2_add by lia. rewrite wrap_u_id; clia.
  - rewrite (wrap_u_id 32) by clia. rewrite land_ones_mod, Z.mod_small by lia.
    apply wrap_u_id. clia.
Qed.

Lemma decode_sm_bound raw : Z.abs (fts_decode_sm raw k) < 2 ^ k.
Proof.
  rewrite decode_sm_eq. pose proof sm_pow.
  pose proof (Z.mod_pos_bound raw (2 ^ k)). destruct (Z.testbit raw k); lia.
Qed.

Lemma decode_encode_sm v : Z.abs v < 2 ^ k -> fts_decode_sm (fts_encode_sm v k) k = v.
Proof.
  intros Hv. pose proof sm_pow. rewrite encode_sm_eq, decode_sm_eq by done.
  destruct (Z.ltb_spec v 0).
  - replace (2 ^ k - v) with (- v + 1 * 2 ^ k) by lia.
    rewrite Z_mod_plus_full, Z.mod_small by lia.

    rewrite Z.mul_1_l, <- lor_pow2_add, Z.lor_spec, Z.pow2_bits_true by lia.
    rewrite orb_true_r. lia.
  - rewrite Z.mod_small by lia.
    rewrite <- (Z.mod_small v (2 ^ k)) at 1 by lia. rewrite Z.mod_pow2_bits_high by lia. done.
Qed.
End SignMagnitude.

(** ** Properties *)

(** C23: a packet made by [fts_build_packet] (a status packet has the same layout,
    with the servo's error byte in place of the instruction), preceded by junk
    without a header and followed by anything, is found by [fts_parse_status]
    with its ID, error byte and data, and exactly junk plus packet is consumed. *)
Theorem parse_build_roundtrip junk id err data rest :
  header_free junk -> id <> 0xFF -> Z.of_nat (length data) <= 244 ->
  fts_parse_status (junk ++ fts_build_packet id err data ++ rest)
  = (Found {| pkt_id := id; pkt_error := err; pkt_data := data |},
     (length junk + length (fts_build_packet id err data))%nat).
Proof. intros. rewrite build_packet_frame, length_frame by done. by apply parse_frame. Qed.

Lemma parse_build_roundtrip_witness :
  fts_parse_status ([0x12; 0x00] ++ fts_build_packet 3 0 [0x00; 0x08] ++ [0x55])
  = (Found {| pkt_id := 3; pkt_error := 0; pkt_data := [0x00; 0x08] |}, 10%nat).
Proof. apply (parse_build_roundtrip [0x12; 0x00] 3 0 [0x00; 0x08] [0x55]); [reflexivity|lia|simpl; lia]. Defined.

(** C27: soundness of the scanner: whatever it reports as a packet is, byte for
    byte, a well-formed packet of the buffer with that ID, error byte and data
    (in particular its checksum verifies), at the place given by [*consumed]. *)
Theorem parse_status_sound buf p c :
  fts_parse_status buf = (Found p, c) ->
  exists junk rest,
    buf = junk ++ fts_build_packet (pkt_id p) (pkt_error p) (pkt_data p) ++ rest /\
    length junk = skip_to_header buf /\
    c = (length junk + length (fts_build_packet (pkt_id p) (pkt_error p) (pkt_data p)))%nat /\
    pkt_id p <> 0xFF /\ Z.of_nat (length (pkt_data p)) <= 244.
Proof.
  intros (junk & rest & Hb & Hj & Hc & Hid & Hn)%parse_found_frame.
  exists junk, rest. rewrite build_packet_frame, length_frame by done.
  split_and!; try done. lia.
Qed.

Lemma parse_status_sound_witness :
  exists junk rest,
    [0x12; 0xFF; 0xFF; 0x01; 0x02; 0x00; 0xFC; 0x07]
    = junk ++ fts_build_packet 1 0 [] ++ rest.
Proof.
  destruct (parse_status_sound [0x12; 0xFF; 0xFF; 0x01; 0x02; 0x00; 0xFC; 0x07]
              {| pkt_id := 1; pkt_error := 0; pkt_data := [] |} 7) as (junk & rest & H & _).
  - vm_compute. reflexivity.
  - exists junk, rest. exact H.
Defined.

(** C28: the packets a receiver gets out of a byte stream, and the bytes it keeps
    for later, do not depend on how [read] cut the stream into chunks: draining
    one chunk and then what was kept followed by the next chunk gives what
    draining the two together gives. *)
Theorem stream_chunking a b :
  drain_all (a ++ b) =
  let r := drain_all a in
  let r' := drain_all (r.2 ++ b) in
  (r.1 ++ r'.1, r'.2).
Proof. apply drain_all_app. Qed.

Lemma parse_forged id plen tail chk rest :
  id <> 0xFF -> plen = Z.of_nat (length tail) + 1 -> 1 <= Z.of_nat (length tail) <= 245 ->
  fts_checksum (id :: plen :: tail) <> chk ->
  fts_parse_status (0xFF :: 0xFF :: id :: plen :: tail ++ chk :: rest)
  = (Corrupt FTS_ERR_CHECKSUM, 2%nat).
Proof.
  intros Hid Hp Hl Hc. rewrite parse_at_header by (rewrite ?length_app; simpl; lia).
  replace (Z.to_nat plen - 1)%nat with (length tail) by lia.
  rewrite take_app_length, at_app_r, Nat.sub_diag by done.
  by rewrite (proj2 (Z.eqb_neq _ _)).
Qed.

(** A wrong byte behind LEN. *)
Lemma corrupted_tail id err data rest j b :
  byte err -> bytes data -> byte b -> id <> 0xFF -> Z.of_nat (length data) <= 244 ->
  let plen := Z.of_nat (length data) + 2 in
  let chk := fts_checksum (id :: plen :: err :: data) in
  (S (S (S (S j))) < length data + 6)%nat -> b <> at_ (err :: data ++ [chk]) j ->
  fts_parse_status (0xFF :: 0xFF :: id :: plen :: <[j := b]> (err :: data ++ [chk]) ++ rest)
  = (Corrupt FTS_ERR_CHECKSUM, 2%nat).
Proof.
  intros Herr Hdata Hb HidF Hn plen chk Hi Hne.
  change (err :: data ++ [chk]) with ((err :: data) ++ [chk]) in *.
  assert (Hj : at_ ((err :: data) ++ [chk]) j <> b) by (intros E; by apply Hne).
  destruct (Nat.ltb_spec j (length (err :: data))).
  - rewrite insert_app_l, <- app_assoc by done.
    apply parse_forged; [done|rewrite length_insert; simpl; lia..|].
    rewrite at_app_l in Hj by done. rewrite insert_take_drop by done.
    unfold chk. rewrite <- (take_drop_middle (err :: data) j _ (at_lookup _ _ H)) at 3.
    apply (checksum_update (id :: plen :: take j (err :: data))); auto.
    apply at_byte. by constructor.
  - assert (j = length (err :: data)) as -> by (simpl in *; lia).
    rewrite insert_app_r_alt, Nat.sub_diag, <- app_assoc by lia.
    rewrite at_app_r, Nat.sub_diag in Hj by lia.
    by apply parse_forged; [done|simpl; lia..|].
Qed.

(** C29: a single wrong byte in the ID, error, data or checksum of a packet, or a
    LEN outside 2..246, is always detected: the packet is dropped with
    [FTS_ERR_CHECKSUM] and its header consumed, or, when the wrong ID is 0xFF or LEN
    is out of range, with [FTS_ERR_BAD_PKT] and one byte consumed, so that the scan
    resumes inside it.  (Not covered: a wrong header byte, which is no header, and
    a wrong LEN within the range, which moves the frame boundary.) *)
Theorem corrupted_byte_detected id err data rest i b :
  byte id -> byte err -> bytes data -> byte b ->
  id <> 0xFF -> Z.of_nat (length data) <= 244 ->
  (i = 2 \/ 4 <= i < length data + 6)%nat \/ (i = 3%nat /\ (b < 2 \/ 246 < b)) ->
  b <> at_ (fts_build_packet id err data) i ->
  fts_parse_status (<[i := b]> (fts_build_packet id err data) ++ rest)
  = if ((i =? 2)%nat && (b =? 0xFF)) || (i =? 3)%nat then (Corrupt FTS_ERR_BAD_PKT, 1%nat)
    else (Corrupt FTS_ERR_CHECKSUM, 2%nat).
Proof.
  intros Hid Herr Hdata Hb HidF Hn Hi Hne. rewrite build_packet_frame in * by done.
  unfold frame, frame_body in *. cbn [app] in *. set (plen := Z.of_nat (length data) + 2) in *.
  destruct Hi as [[->|Hi]|[-> Hi]].
  - cbn [at_ nth] in Hne. cbn [list_insert insert app Nat.eqb andb orb]. rewrite orb_false_r.
    destruct (Z.eqb_spec b 0xFF) as [->|HbF]; [by rewrite parse_header_eq|].
    rewrite <- app_assoc. apply (parse_forged b plen (err :: data)); [done|simpl; lia|simpl; lia|].
    apply (checksum_update [] (plen :: err :: data)); auto.
  - destruct i as [|[|[|[|j]]]]; try lia. cbn [Nat.eqb andb orb].
    apply (corrupted_tail id err data rest j b); try done; lia.
  - cbn [list_insert insert app Nat.eqb andb orb]. rewrite parse_header_eq.
    destruct Hi as [H|H]; apply Z.ltb_lt in H; by rewrite H, ?orb_true_r.
Qed.

Lemma corrupted_byte_detected_witness :
  fts_parse_status (<[5%nat := 0x09]> (fts_build_packet 2 0 [0x08; 0x01]) ++ [])
  = (Corrupt FTS_ERR_CHECKSUM, 2%nat) /\
  fts_parse_status (<[3%nat := 0xF7]> (fts_build_packet 2 0 [0x08; 0x01]) ++ [])
  = (Corrupt FTS_ERR_BAD_PKT, 1%nat).
Proof.
  split.
  - apply (corrupted_byte_detected 2 0 [0x08; 0x01] [] 5 0x09);
      try clia; try (repeat constructor; clia); try (simpl; lia); vm_compute; congruence.
  - apply (corrupted_byte_detected 2 0 [0x08; 0x01] [] 3 0xF7);
      try clia; try (repeat constructor; clia); try (simpl; lia); vm_compute; congruence.
Defined.

(** The sign-magnitude codec with sign bit [k] (10, 11 and 15 in the control
    table): every value of magnitude below [2^k] survives encoding and decoding,
    the encoding fits in 16 bits, and decoding never leaves that range. *)
Theorem sign_magnitude_roundtrip k v raw :
  1 <= k <= 15 -> Z.abs v < 2 ^ k ->
  fts_decode_sm (fts_encode_sm v k) k = v /\
  in_u 16 (fts_encode_sm v k) /\
  Z.abs (fts_decode_sm raw k) < 2 ^ k.
Proof.
  intros Hk Hv. split_and!.
  - by apply decode_encode_sm.
  - unfold fts_encode_sm. destruct (_ <? _); auto with cint.
  - by apply decode_sm_bound.
Qed.

Lemma sign_magnitude_roundtrip_witness :
  fts_decode_sm (fts_encode_sm (-5) 11) 11 = -5 /\
  in_u 16 (fts_encode_sm (-5) 11) /\ Z.abs (fts_decode_sm 0x0405 11) < 2 ^ 11.
Proof. apply (sign_magnitude_roundtrip 11 (-5) 0x0405); lia. Defined.
