(* ===== verification/Os.v ===== *)
(** * The system calls the driver makes

    The kernel and libc side of driver/src/feetech.c: an interface, never a
    definition.  [OS W] lists the calls on a world [W]; [OSLaws W] states the
    documented behaviour the driver relies on.  The development is parametric
    in both; [Sim.v] gives a concrete world that satisfies them. *)

From stdpp Require Import strings.
From S2P Require Import Prelude.

(** [struct timespec]. *)
Record timespec := mk_timespec { tv_sec : Z; tv_nsec : Z }.
Definition ts_ns (t : timespec) : Z := tv_sec t * 1000000000 + tv_nsec t.

(** A call that may fail: [-1] with [errno == EINTR] or with another errno. *)
Inductive io_result (A : Type) :=
| IoOk (a : A)
| IoIntr
| IoFail.
Arguments IoOk {A} a.
Arguments IoIntr {A}.
Arguments IoFail {A}.

(** [poll] on one descriptor: its error returns, 0, or [revents] as the two tests
    the code makes of it (POLLIN; POLLERR, POLLHUP or POLLNVAL). *)
Inductive poll_result :=
| PollIntr
| PollFail
| PollTimeout
| PollEvents (pollin : bool) (err_hup_nval : bool).

(** The fields of [struct termios] that [fts_open] sets. *)
Record termios := mk_termios {
  c_iflag : Z; c_oflag : Z; c_cflag : Z; c_lflag : Z;
  vmin : Z; vtime : Z; ispeed : Z; ospeed : Z
}.

Class OS (W : Type) := {
  os_clock : W -> timespec * W;                     (* CLOCK_MONOTONIC *)
  os_write : Z -> list Z -> W -> io_result nat * W;
  os_poll : Z -> Z -> W -> poll_result * W;         (* fd, timeout in ms *)
  os_read : Z -> nat -> W -> io_result (list Z) * W;
  os_flush_in : Z -> W -> W;                        (* tcflush(TCIFLUSH) *)
  os_flush_io : Z -> W -> W;                        (* tcflush(TCIOFLUSH) *)
  os_open : string -> W -> option Z * W;
  os_excl : Z -> W -> W;                            (* ioctl(TIOCEXCL) *)
  os_tcgetattr : Z -> W -> option termios * W;
  os_tcsetattr : Z -> termios -> W -> bool * W;
  os_cfmakeraw : termios -> termios;
  os_close : Z -> W -> W
}.

(** What POSIX and Linux document of them.  [os_time] is the instant the clock
    would show; [os_intr] bounds how often [write] may still be interrupted by a
    signal before it makes progress. *)
Class OSLaws (W : Type) {os : OS W} := {
  os_time : W -> Z;
  os_intr : W -> nat;
  clock_reads_time w : let '(ts, w') := os_clock w in
    os_time w <= ts_ns ts <= os_time w' /\ 0 <= tv_nsec ts < 1000000000 /\ 0 <= tv_sec ts;
  flush_time fd w : os_time w <= os_time (os_flush_in fd w);
  write_time fd bs w : os_time w <= os_time (os_write fd bs w).2;
  read_time fd n w : os_time w <= os_time (os_read fd n w).2;
  (* poll takes a positive time *)
  poll_time fd ms w : os_time w < os_time (os_poll fd ms w).2;
  (* read stores at most the requested number of bytes *)
  read_size fd n w bs : (os_read fd n w).1 = IoOk bs -> (length bs <= n)%nat /\ bytes bs;
  (* write of a non-empty buffer takes at least one of its bytes *)
  write_size fd bs w k : bs <> [] -> (os_write fd bs w).1 = IoOk k -> (1 <= k <= length bs)%nat;
  write_intr fd bs w : (os_write fd bs w).1 = IoIntr ->
    (os_intr (os_write fd bs w).2 < os_intr w)%nat;
  write_intr_le fd bs w : (os_intr (os_write fd bs w).2 <= os_intr w)%nat
}.

(** The byte streams.  [os_input w fd] is what will still arrive on [fd] (the
    kernel's queue and everything the servos are going to send), [os_output w fd]
    what has been handed to the kernel.  [read] takes a prefix of the former,
    [write] extends the latter; nothing is assumed of what [TCIFLUSH] discards. *)
Class OSStream (W : Type) {os : OS W} := {
  os_input : W -> Z -> list Z;
  os_output : W -> Z -> list Z;
  clock_input w fd : os_input (os_clock w).2 fd = os_input w fd;
  poll_input f ms w fd : os_input (os_poll f ms w).2 fd = os_input w fd;
  read_input fd n w bs : (os_read fd n w).1 = IoOk bs ->
    os_input w fd = bs ++ os_input (os_read fd n w).2 fd;
  read_input_fail fd n w : (forall bs, (os_read fd n w).1 <> IoOk bs) ->
    os_input (os_read fd n w).2 fd = os_input w fd;
  write_input f bs w fd : os_input (os_write f bs w).2 fd = os_input w fd;
  clock_output w fd : os_output (os_clock w).2 fd = os_output w fd;
  poll_output f ms w fd : os_output (os_poll f ms w).2 fd = os_output w fd;
  read_output f n w fd : os_output (os_read f n w).2 fd = os_output w fd;
  flush_output f w fd : os_output (os_flush_in f w) fd = os_output w fd;
  write_output fd bs w k : (os_write fd bs w).1 = IoOk k ->
    os_output (os_write fd bs w).2 fd = os_output w fd ++ take k bs;
  write_output_fail fd bs w : (forall k, (os_write fd bs w).1 <> IoOk k) ->
    os_output (os_write fd bs w).2 fd = os_output w fd
}.

(** The descriptor table: [open] adds a fresh descriptor, [close] removes it,
    and every other call leaves it alone. *)
Class OSFds (W : Type) {os : OS W} := {
  os_fds : W -> list Z;
  open_some path w fd : (os_open path w).1 = Some fd ->
    0 <= fd /\ (fd ∉ os_fds w) /\ os_fds (os_open path w).2 = fd :: os_fds w;
  open_none path w : (os_open path w).1 = None -> os_fds (os_open path w).2 = os_fds w;
  excl_fds fd w : os_fds (os_excl fd w) = os_fds w;
  tcgetattr_fds fd w : os_fds (os_tcgetattr fd w).2 = os_fds w;
  tcsetattr_fds fd t w : os_fds (os_tcsetattr fd t w).2 = os_fds w;
  flush_io_fds fd w : os_fds (os_flush_io fd w) = os_fds w;
  close_fds fd w : os_fds (os_close fd w) = filter (fun x => x <> fd) (os_fds w);
  clock_fds w : os_fds (os_clock w).2 = os_fds w;
  write_fds fd bs w : os_fds (os_write fd bs w).2 = os_fds w;
  poll_fds fd ms w : os_fds (os_poll fd ms w).2 = os_fds w;
  read_fds fd n w : os_fds (os_read fd n w).2 = os_fds w;
  flush_in_fds fd w : os_fds (os_flush_in fd w) = os_fds w
}.

(** [clock_nanosleep] to an absolute time: true when a signal interrupted it.  Signals
    may do so only finitely often; the call opens and closes nothing. *)
Class OSSleep (W : Type) {os : OS W} {laws : OSLaws W} {fds : OSFds W} := {
  os_nanosleep : timespec -> W -> bool * W;
  nanosleep_intr ts w : (os_nanosleep ts w).1 = true ->
    (os_intr (os_nanosleep ts w).2 < os_intr w)%nat;
  nanosleep_fds ts w : os_fds (os_nanosleep ts w).2 = os_fds w
}.
