(* ===== verification/Bus.v ===== *)
(** * Bus I/O (the second half of driver/src/feetech.c)

    The [fts_bus] state and every operation on it, over the system calls of
    [Os.v].  [rxbuf] holds the [rxlen] valid bytes of the C array.  The two
    unbounded loops ([write_all], [rx_status]) and those that call them take
    fuel; [rx_status_terminates] and [sync_read_terminates] show how much is enough. *)

From stdpp Require Import strings.
From S2P Require Import Prelude Os Protocol.

Record fts_stats := mk_stats {
  tx_packets : Z;
  rx_ok : Z;
  timeouts : Z;
  checksum_errors : Z;
  bytes_discarded : Z
}.

Record fts_bus := mk_bus {
  fd : Z;
  timeout_ms : Z;
  echo : bool;
  last_servo_error : Z;
  stats : fts_stats;
  rxbuf : list Z          (* rxbuf[0 .. rxlen) *)
}.

Definition rxlen (b : fts_bus) : nat := length (rxbuf b).

Definition no_stats : fts_stats := mk_stats 0 0 0 0 0.

(** Field updates. *)
Definition set_fd (v : Z) (b : fts_bus) : fts_bus :=
  mk_bus v (timeout_ms b) (echo b) (last_servo_error b) (stats b) (rxbuf b).
Definition set_timeout (v : Z) (b : fts_bus) : fts_bus :=
  mk_bus (fd b) v (echo b) (last_servo_error b) (stats b) (rxbuf b).
Definition set_echo (v : bool) (b : fts_bus) : fts_bus :=
  mk_bus (fd b) (timeout_ms b) v (last_servo_error b) (stats b) (rxbuf b).
Definition set_servo_error (v : Z) (b : fts_bus) : fts_bus :=
  mk_bus (fd b) (timeout_ms b) (echo b) v (stats b) (rxbuf b).
Definition set_rxbuf (v : list Z) (b : fts_bus) : fts_bus :=
  mk_bus (fd b) (timeout_ms b) (echo b) (last_servo_error b) (stats b) v.
Definition set_stats (f : fts_stats -> fts_stats) (b : fts_bus) : fts_bus :=
  mk_bus (fd b) (timeout_ms b) (echo b) (last_servo_error b) (f (stats b)) (rxbuf b).

(** The counters are [uint32_t]. *)
Definition count_tx (s : fts_stats) : fts_stats :=
  mk_stats (u32 (tx_packets s + 1)) (rx_ok s) (timeouts s) (checksum_errors s) (bytes_discarded s).
Definition count_rx_ok (s : fts_stats) : fts_stats :=
  mk_stats (tx_packets s) (u32 (rx_ok s + 1)) (timeouts s) (checksum_errors s) (bytes_discarded s).
Definition count_timeout (s : fts_stats) : fts_stats :=
  mk_stats (tx_packets s) (rx_ok s) (u32 (timeouts s + 1)) (checksum_errors s) (bytes_discarded s).
Definition count_checksum (s : fts_stats) : fts_stats :=
  mk_stats (tx_packets s) (rx_ok s) (timeouts s) (u32 (checksum_errors s + 1)) (bytes_discarded s).
Definition count_discarded (n : nat) (s : fts_stats) : fts_stats :=
  mk_stats (tx_packets s) (rx_ok s) (timeouts s) (checksum_errors s)
           (u32 (bytes_discarded s + u32 (Z.of_nat n))).

(** [drop_rx]: forget the first [n] bytes of the buffer. *)
Definition drop_rx (n : nat) (b : fts_bus) : fts_bus :=
  if (rxlen b <=? n)%nat then set_rxbuf [] b else set_rxbuf (drop n (rxbuf b)) b.

Section Bus.
Context {W : Type} {os : OS W}.

(** Computations on a bus and the world. *)
#[local] Abbreviation B := (M (fts_bus * W)).
Definition get_bus : B fts_bus := lift (fun s => (s.1, s)).
Definition upd_bus (f : fts_bus -> fts_bus) : B unit := lift (fun s => (tt, (f s.1, s.2))).
Definition sys {A} (f : W -> A * W) : B A :=
  lift (fun s => let r := f s.2 in (r.1, (s.1, r.2))).
Definition sys_ (f : W -> W) : B unit := lift (fun s => (tt, (s.1, f s.2))).

Definition now_ms : B Z :=
  ts ← sys os_clock;
  mret (tv_sec ts * 1000 + Z.quot (tv_nsec ts) 1000000).

(** ** Opening and closing *)

(** Linux termios flag bits. *)
Definition CLOCAL : Z := 0x800.
Definition CREAD : Z := 0x80.
Definition CSTOPB : Z := 0x40.
Definition PARENB : Z := 0x100.
Definition CRTSCTS : Z := 0x80000000.
Definition IXON : Z := 0x400.
Definition IXOFF : Z := 0x1000.
Definition IXANY : Z := 0x800.

Definition clear_bits (x mask : Z) : Z := Z.land x (u32 (Z.lnot mask)).

(** The [termios] block of [fts_open], from [cfmakeraw] to [cfsetospeed]. *)
Definition raw_settings (spd : Z) (tio : termios) : termios :=
  let tio := os_cfmakeraw tio in
  let cflag := Z.lor (c_cflag tio) (Z.lor CLOCAL CREAD) in
  let cflag := clear_bits cflag (Z.lor CSTOPB (Z.lor PARENB CRTSCTS)) in
  let iflag := clear_bits (c_iflag tio) (Z.lor IXON (Z.lor IXOFF IXANY)) in
  mk_termios iflag (c_oflag tio) cflag (c_lflag tio) 0 0 spd spd.

Definition fts_open (path : string) (baud : Z) : B Z :=
  upd_bus (fun _ => mk_bus (-1) 10 false 0 no_stats []);;
  let spd := baud_to_speed baud in
  if spd =? 0 then mret FTS_ERR_ARG
  else
    r ← sys (os_open path);
    match r with
    | None => mret FTS_ERR_IO
    | Some fd =>
        sys_ (os_excl fd);;
        tio ← sys (os_tcgetattr fd);
        match tio with
        | None => sys_ (os_close fd);; mret FTS_ERR_IO
        | Some tio =>
            ok ← sys (os_tcsetattr fd (raw_settings spd tio));
            if negb ok then sys_ (os_close fd);; mret FTS_ERR_IO
            else
              sys_ (os_flush_io fd);;
              upd_bus (set_fd fd);;
              mret FTS_OK
        end
    end.

Definition fts_close : B unit :=
  b ← get_bus;
  (if 0 <=? fd b then sys_ (os_close (fd b)) else mret tt);;
  upd_bus (set_fd (-1)).

(** ** Raw input and output *)

Fixpoint write_all (fuel : nat) (fd : Z) (buf : list Z) : B Z :=
  match fuel with
  | O => out_of_fuel
  | S fuel =>
      match buf with
      | [] => mret FTS_OK
      | _ =>
          w ← sys (os_write fd buf);
          match w with
          | IoIntr => write_all fuel fd buf
          | IoFail => mret FTS_ERR_IO
          | IoOk k => write_all fuel fd (drop k buf)
          end
      end
  end.

Definition fill_rx (deadline : Z) : B Z :=
  now ← now_ms;
  let remaining := deadline - now in
  let remaining := if remaining <? 0 then 0 else remaining in
  b ← get_bus;
  r ← sys (os_poll (fd b) (i32 remaining));
  match r with
  | PollIntr => mret 0
  | PollFail => mret FTS_ERR_IO
  | PollTimeout => mret FTS_ERR_TIMEOUT
  | PollEvents pollin err =>
      if negb pollin && err then mret FTS_ERR_IO
      else
        (if (FTS_RXBUF_SIZE <=? rxlen b)%nat then
           upd_bus (fun b => set_rxbuf [] (set_stats (count_discarded (rxlen b)) b))
         else mret tt);;
        b ← get_bus;
        n ← sys (os_read (fd b) (FTS_RXBUF_SIZE - rxlen b));
        match n with
        | IoIntr => mret 0
        | IoFail => mret FTS_ERR_IO
        | IoOk [] => mret FTS_ERR_IO
        | IoOk bs => upd_bus (fun b => set_rxbuf (rxbuf b ++ bs) b);; mret FTS_OK
        end
  end.

(** The loop that swallows the echo: [while (bus->rxlen < len) ...]. *)
Fixpoint swallow_echo (fuel : nat) (len : nat) (deadline : Z) : B Z :=
  match fuel with
  | O => out_of_fuel
  | S fuel =>
      b ← get_bus;
      if (rxlen b <? len)%nat then
        rc ← fill_rx deadline;
        if rc =? FTS_ERR_TIMEOUT then mret FTS_OK
        else if rc <? 0 then mret rc
        else swallow_echo fuel len deadline
      else mret FTS_OK
  end.

Definition tx_packet (fuel : nat) (pkt : list Z) : B Z :=
  b ← get_bus;
  sys_ (os_flush_in (fd b));;
  upd_bus (set_rxbuf []);;
  rc ← write_all fuel (fd b) pkt;
  if negb (rc =? 0) then mret rc
  else
    upd_bus (set_stats count_tx);;
    if echo b then
      now ← now_ms;
      let deadline := now + timeout_ms b in
      rc ← swallow_echo fuel (length pkt) deadline;
      if rc <? 0 then mret rc
      else upd_bus (drop_rx (length pkt));; mret FTS_OK
    else mret FTS_OK.

(** ** Receiving a status packet *)

(** The [for (;;)] of [rx_status].  The second component is what the [memcpy]
    put at [out] ([*nout] is its length); it is empty unless FTS_OK. *)
Fixpoint rx_loop (fuel : nat) (expect_id : Z) (cap : nat) (deadline : Z) : B (Z * list Z) :=
  match fuel with
  | O => out_of_fuel
  | S fuel =>
      b ← get_bus;
      match fts_parse_status (rxbuf b) with
      | (Found pkt, consumed) =>
          let junk := (consumed - (length (pkt_data pkt) + 6))%nat in
          upd_bus (set_stats (count_discarded junk));;
          if negb (pkt_id pkt =? expect_id) then
            upd_bus (drop_rx consumed);;
            mret (FTS_ERR_ID, [])
          else
            upd_bus (fun b => drop_rx consumed (set_servo_error (pkt_error pkt) b));;
            upd_bus (set_stats count_rx_ok);;
            mret (FTS_OK, take cap (pkt_data pkt))
      | (Corrupt code, consumed) =>
          (if code =? FTS_ERR_CHECKSUM then upd_bus (set_stats count_checksum) else mret tt);;
          upd_bus (fun b => drop_rx consumed (set_stats (count_discarded consumed) b));;
          rx_loop fuel expect_id cap deadline
      | (NeedMore, _) =>
          now ← now_ms;
          if deadline <? now then
            upd_bus (set_stats count_timeout);;
            mret (FTS_ERR_TIMEOUT, [])
          else
            rc ← fill_rx deadline;
            if rc =? FTS_ERR_TIMEOUT then
              upd_bus (set_stats count_timeout);;
              mret (FTS_ERR_TIMEOUT, [])
            else if rc <? 0 then mret (rc, [])
            else rx_loop fuel expect_id cap deadline
      end
  end.

Definition rx_status (fuel : nat) (expect_id : Z) (cap : nat) : B (Z * list Z) :=
  b ← get_bus;
  now ← now_ms;
  rx_loop fuel expect_id cap (now + timeout_ms b).

(** ** The transactions *)

Definition fts_ping (fuel : nat) (id : Z) : B Z :=
  let pkt := fts_build_packet id FTS_INST_PING [] in
  rc ← tx_packet fuel pkt;
  if negb (rc =? 0) then mret rc
  else r ← rx_status fuel id 0; mret r.1.

(** [None] is a NULL pointer; the result carries the caller's buffer. *)
Definition fts_read (fuel : nat) (id addr : Z) (out : option (list Z)) (len : Z)
    : B (Z * option (list Z)) :=
  match out with
  | None => mret (FTS_ERR_ARG, None)
  | Some buf =>
      if len =? 0 then mret (FTS_ERR_ARG, out)
      else
        let pkt := fts_build_packet id FTS_INST_READ [addr; len] in
        rc ← tx_packet fuel pkt;
        if negb (rc =? 0) then mret (rc, out)
        else
          '(rc, got) ← rx_status fuel id (Z.to_nat len);
          let out := Some (memcpy_at buf 0 got) in
          if negb (rc =? 0) then mret (rc, out)
          else mret (if Z.of_nat (length got) =? len then FTS_OK else FTS_ERR_BAD_PKT, out)
  end.

Definition fts_write (fuel : nat) (id addr : Z) (data : option (list Z)) (len : Z) : B Z :=
  match data with
  | None => mret FTS_ERR_ARG
  | Some data =>
      if (len =? 0) || (len + 7 >? FTS_MAX_PKT) then mret FTS_ERR_ARG
      else
        let params := addr :: take (Z.to_nat len) data in
        let pkt := fts_build_packet id FTS_INST_WRITE params in
        rc ← tx_packet fuel pkt;
        if negb (rc =? 0) then mret rc
        else if id =? FTS_BROADCAST_ID then mret FTS_OK
        else r ← rx_status fuel id 0; mret r.1
  end.

(** [for (k = 0; k < n; k++)] of [fts_sync_read], over the IDs still to answer. *)
Fixpoint sync_read_loop (fuel : nat) (ids : list Z) (k len : nat) (out : list Z)
    (first_err : Z) : B (Z * list Z) :=
  match ids with
  | [] => mret (first_err, out)
  | id :: ids =>
      '(rc, got) ← rx_status fuel id len;
      let out := memcpy_at out (k * len) got in
      let rc := if (rc =? FTS_OK) && negb (length got =? len)%nat then FTS_ERR_BAD_PKT else rc in
      let first_err := if negb (rc =? 0) && (first_err =? 0) then rc else first_err in
      if rc =? FTS_ERR_TIMEOUT then mret (first_err, out)
      else sync_read_loop fuel ids (S k) len out first_err
  end.

Definition fts_sync_read (fuel : nat) (ids : list Z) (addr len : Z) (out : option (list Z))
    : B (Z * option (list Z)) :=
  match out with
  | None => mret (FTS_ERR_ARG, None)
  | Some buf =>
      let n := Z.of_nat (length ids) in
      if (n =? 0) || (len =? 0) || (n + 8 >? FTS_MAX_PKT) then mret (FTS_ERR_ARG, out)
      else
        let params := addr :: len :: ids in
        let pkt := fts_build_packet FTS_BROADCAST_ID FTS_INST_SYNC_READ params in
        rc ← tx_packet fuel pkt;
        if negb (rc =? 0) then mret (rc, out)
        else
          '(rc, buf) ← sync_read_loop fuel ids 0 (Z.to_nat len) buf FTS_OK;
          mret (rc, Some buf)
  end.

(** The parameter block of [fts_sync_write] after [addr] and [len]: each ID
    followed by its [len] bytes of [data]. *)
Fixpoint sync_params (ids : list Z) (len : nat) (data : list Z) : list Z :=
  match ids with
  | [] => []
  | id :: ids => id :: take len data ++ sync_params ids len (drop len data)
  end.

Definition fts_sync_write (fuel : nat) (ids : list Z) (addr len : Z) (data : option (list Z))
    : B Z :=
  match data with
  | None => mret FTS_ERR_ARG
  | Some data =>
      let n := Z.of_nat (length ids) in
      let nparams := 2 + n * (len + 1) in
      if (n =? 0) || (len =? 0) || (nparams + 6 >? FTS_MAX_PKT) then mret FTS_ERR_ARG
      else
        let params := addr :: len :: sync_params ids (Z.to_nat len) data in
        let pkt := fts_build_packet FTS_BROADCAST_ID FTS_INST_SYNC_WRITE params in
        tx_packet fuel pkt
  end.

(** [fts_raw_ping]: the receive loop, then the call; the result is the return
    value, the packet sent and the raw bytes received. *)
Fixpoint raw_loop (fuel : nat) (cap : nat) (deadline : Z) (got : list Z) : B (list Z) :=
  match fuel with
  | O => out_of_fuel
  | S fuel =>
      if (length got <? cap)%nat then
        now ← now_ms;
        let rem := deadline - now in
        if rem <=? 0 then mret got
        else
          b ← get_bus;
          r ← sys (os_poll (fd b) (i32 rem));
          match r with
          | PollEvents _ _ =>
              r ← sys (os_read (fd b) (cap - length got));
              match r with
              | IoOk [] | IoIntr | IoFail => mret got
              | IoOk bs => raw_loop fuel cap deadline (got ++ bs)
              end
          | _ => mret got
          end
      else mret got
  end.

Definition fts_raw_ping (fuel : nat) (id : Z) (cap : nat) (wait_ms : Z)
    : B (Z * list Z * list Z) :=
  let tx := fts_build_packet id FTS_INST_PING [] in
  b ← get_bus;
  sys_ (os_flush_in (fd b));;
  rc ← write_all fuel (fd b) tx;
  if negb (rc =? 0) then mret (rc, tx, [])
  else
    now ← now_ms;
    got ← raw_loop fuel cap (now + wait_ms) [];
    mret (Z.of_nat (length got), tx, got).
End Bus.
