(* ===== verification/Sim.v ===== *)
(** * A simulated world

    One tty whose input arrives in given chunks and whose output is recorded, and
    a clock that advances a microsecond per call.  It satisfies every assumption
    of [Os.v], so the theorems stated over [OSLaws], [OSStream] and [OSFds] can
    be instantiated and evaluated. *)

From stdpp Require Import strings.
From S2P Require Import Prelude Os.

Record sim := mk_sim {
  sm_now : N;                 (* ns *)
  sm_rx : list (list Z);      (* chunks still to arrive *)
  sm_tx : list Z;             (* bytes written *)
  sm_fds : list Z             (* open descriptors *)
}.

Definition tick (n : N) (w : sim) : sim := mk_sim (sm_now w + n) (sm_rx w) (sm_tx w) (sm_fds w).

(** The queue after its first [n] bytes of the first chunk were read. *)
Definition take_chunk (n : nat) (rx : list (list Z)) : list Z * list (list Z) :=
  match rx with
  | [] => ([], [])
  | c :: cs => (map u8 (take n c), match drop n c with [] => cs | c' => c' :: cs end)
  end.

Definition fresh_fd (l : list Z) : Z := foldr Z.max 2 l + 1.

#[export] Instance sim_os : OS sim := {
  os_clock w := (mk_timespec (Z.of_N (sm_now w) / 1000000000) (Z.of_N (sm_now w) mod 1000000000),
                 tick 1000 w);
  os_write fd bs w := (IoOk (length bs), mk_sim (sm_now w) (sm_rx w) (sm_tx w ++ bs) (sm_fds w));
  os_poll fd ms w :=
    match sm_rx w with
    | [] => (PollTimeout, tick (1000 + Z.to_N (ms * 1000000)) w)
    | _ => (PollEvents true false, tick 1000 w)
    end;
  os_read fd n w :=
    let r := take_chunk n (sm_rx w) in
    (IoOk r.1, mk_sim (sm_now w) r.2 (sm_tx w) (sm_fds w));
  os_flush_in fd w := w;
  os_flush_io fd w := w;
  os_open path w :=
    if decide (path = EmptyString) then (None, w)
    else let fd := fresh_fd (sm_fds w) in
         (Some fd, mk_sim (sm_now w) (sm_rx w) (sm_tx w) (fd :: sm_fds w));
  os_excl fd w := w;
  os_tcgetattr fd w := (Some (mk_termios 0 0 0 0 0 0 0 0), w);
  os_tcsetattr fd t w := (true, w);
  os_cfmakeraw t := t;
  os_close fd w :=
    mk_sim (sm_now w) (sm_rx w) (sm_tx w) (filter (fun x => x <> fd) (sm_fds w))
}.

#[export] Program Instance sim_laws : OSLaws sim := {|
  os_time w := Z.of_N (sm_now w);
  os_intr w := 0%nat
|}.
Next Obligation.
  intros w. cbn. unfold ts_ns; cbn.
  pose proof (Z.div_mod (Z.of_N (sm_now w)) 1000000000).
  pose proof (Z.mod_pos_bound (Z.of_N (sm_now w)) 1000000000).
  pose proof (Z.div_pos (Z.of_N (sm_now w)) 1000000000). lia.
Qed.
Next Obligation. done. Qed.
Next Obligation. done. Qed.
Next Obligation. done. Qed.
Next Obligation. intros fd ms w. cbn. destruct (sm_rx w); cbn; lia. Qed.
Next Obligation.
  intros fd n w bs. cbn. intros [= <-]. destruct (sm_rx w) as [|c cs]; cbn.
  { split; [lia|constructor]. }
  rewrite length_map, length_take. split; [lia|].
  apply List.Forall_forall. intros x [y [<- _]]%in_map_iff. auto with cint.
Qed.
Next Obligation. intros fd bs w k Hbs. cbn. intros [= <-]. destruct bs; [done|cbn; lia]. Qed.
Next Obligation. done. Qed.
Next Obligation. done. Qed.

#[export] Program Instance sim_stream : OSStream sim := {|
  os_input w fd := map u8 (concat (sm_rx w));
  os_output w fd := sm_tx w
|}.
Next Obligation. done. Qed.
Next Obligation. intros f ms w fd. cbn. by destruct (sm_rx w) eqn:E; cbn; rewrite ?E. Qed.
Next Obligation.
  intros fd n w bs. cbn. intros [= <-]. destruct (sm_rx w) as [|c cs]; [done|]. cbn.
  rewrite <- map_app. f_equal. destruct (drop n c) eqn:E; cbn.
  - rewrite <- (take_drop n c) at 1. by rewrite E, app_nil_r.
  - rewrite <- (take_drop n c) at 1. by rewrite E, <- app_assoc.
Qed.
Next Obligation. intros fd n w H. cbn in *. by destruct (H _ eq_refl). Qed.
Next Obligation. done. Qed.
Next Obligation. done. Qed.
Next Obligation. intros f ms w fd. cbn. by destruct (sm_rx w). Qed.
Next Obligation. done. Qed.
Next Obligation. done. Qed.
Next Obligation. intros fd bs w k. cbn. intros [= <-]. by rewrite take_ge. Qed.
Next Obligation. intros fd bs w H. cbn in *. by destruct (H _ eq_refl). Qed.

Lemma fresh_fd_gt l x : x ∈ l -> x < fresh_fd l.
Proof.
  unfold fresh_fd. induction l as [|y l IH]; [by intros ?%not_elem_of_nil|].
  intros [->|H]%elem_of_cons; cbn; [lia|]. specialize (IH H). lia.
Qed.

#[export] Program Instance sim_fdlaws : OSFds sim := {| os_fds w := sm_fds w |}.
Next Obligation.
  intros path w fd. cbn. destruct (decide _); [done|]. intros [= <-]. split_and!; [|..|done].
  - unfold fresh_fd. induction (sm_fds w); cbn; lia.
  - intros H%fresh_fd_gt. lia.
Qed.
Next Obligation. intros path w. cbn. by destruct (decide _). Qed.
Next Obligation. done. Qed.
Next Obligation. done. Qed.
Next Obligation. done. Qed.
Next Obligation. done. Qed.
Next Obligation. done. Qed.
Next Obligation. done. Qed.
Next Obligation. done. Qed.
Next Obligation. intros fd ms w. cbn. by destruct (sm_rx w). Qed.
Next Obligation. done. Qed.
Next Obligation. done. Qed.

#[export] Program Instance sim_sleep : OSSleep sim := {|
  os_nanosleep ts w := (false, mk_sim (N.max (sm_now w) (Z.to_N (ts_ns ts))) (sm_rx w) (sm_tx w) (sm_fds w))
|}.
Next Obligation. done. Qed.
Next Obligation. done. Qed.
