(* ===== verification/BusProps.v ===== *)
(** * Correctness of the bus driver

    Theorems about [Bus.v], over any world that satisfies the documented
    behaviour of [Os.v]. *)

From stdpp Require Import strings.
From S2P Require Import Prelude Os Protocol Bus Sim.

(** ** Running the monad *)

(** One step of a computation in a hypothesis: split a bind. *)
Ltac mstep H :=
  lazymatch type of H with
  | (_ ≫= _) _ = Some _ =>
      apply M_bind_some in H; destruct H as (? & ? & ? & H)
  end.

Section Steps.
Context {W : Type} {os : OS W}.

Lemma bind_lift {S A C} (f : S -> A * S) (k : A -> M S C) s :
  (lift f ≫= k) s = k (f s).1 (f s).2.
Proof. unfold mbind, M_bind, lift. by destruct (f s). Qed.

Lemma bind_get {C} (k : fts_bus -> M (fts_bus * W) C) (s : fts_bus * W) : (get_bus ≫= k) s = k s.1 s.
Proof. done. Qed.

Lemma bind_upd {C} f (k : unit -> M (fts_bus * W) C) (s : fts_bus * W) :
  (upd_bus f ≫= k) s = k tt (f s.1, s.2).
Proof. done. Qed.

Lemma bind_sys {A C} (f : W -> A * W) (k : A -> M (fts_bus * W) C) (s : fts_bus * W) :
  (sys f ≫= k) s = k (f s.2).1 (s.1, (f s.2).2).
Proof. done. Qed.

Lemma bind_sys_ {C} (f : W -> W) (k : unit -> M (fts_bus * W) C) (s : fts_bus * W) :
  (sys_ f ≫= k) s = k tt (s.1, f s.2).
Proof. done. Qed.

Lemma bind_ret {S A C} (a : A) (k : A -> M S C) s : ((mret a : M S A) ≫= k) s = k a s.
Proof. done. Qed.

Lemma bind_run {S A C} (m : M S A) (k : A -> M S C) s a s' :
  m s = Some (a, s') -> (m ≫= k) s = k a s'.
Proof. unfold mbind, M_bind. by intros ->. Qed.

Lemma bind_if {S A C} (c : bool) (m1 m2 : M S A) (k : A -> M S C) s :
  ((if c then m1 else m2) ≫= k) s = if c then (m1 ≫= k) s else (m2 ≫= k) s.
Proof. by destruct c. Qed.

Lemma bind_assoc {S A C D} (m : M S A) (f : A -> M S C) (k : C -> M S D) s :
  ((m ≫= f) ≫= k) s = (m ≫= (fun a => f a ≫= k)) s.
Proof. unfold mbind, M_bind. by destruct (m s) as [[]|]. Qed.

Lemma ret_some {S A} (a a' : A) (s s' : S) : (mret a : M S A) s = Some (a', s') <-> a' = a /\ s' = s.
Proof. unfold mret, M_ret. split; [by intros [= -> ->]|by intros [-> ->]]. Qed.
End Steps.

Create Rewrite HintDb monad.
#[export] Hint Rewrite @bind_get @bind_upd @bind_sys @bind_sys_ @bind_ret @bind_assoc : monad.

(** Push a computation through its calls. *)
Ltac mrun := repeat (autorewrite with monad; cbn beta iota; cbn [fst snd]).
Tactic Notation "mrun_in" hyp(H) :=
  repeat (autorewrite with monad in H; cbn beta iota in H; cbn [fst snd] in H).

(** ** Frame properties of the bus state *)

(** The settings a transaction never changes. *)
Definition same_settings (b b' : fts_bus) : Prop :=
  fd b' = fd b /\ timeout_ms b' = timeout_ms b /\ echo b' = echo b.

Lemma same_settings_refl b : same_settings b b.
Proof. done. Qed.
Lemma same_settings_trans b1 b2 b3 :
  same_settings b1 b2 -> same_settings b2 b3 -> same_settings b1 b3.
Proof. unfold same_settings. intuition congruence. Qed.

Definition bus_ok (b : fts_bus) : Prop :=
  (rxlen b <= FTS_RXBUF_SIZE)%nat /\ bytes (rxbuf b).

Lemma rxbuf_drop_rx n b : rxbuf (drop_rx n b) = drop n (rxbuf b).
Proof.
  unfold drop_rx, rxlen. destruct (Nat.leb_spec (length (rxbuf b)) n); [|done].
  cbn. by rewrite drop_ge.
Qed.

Lemma drop_rx_settings n b : same_settings b (drop_rx n b).
Proof. unfold drop_rx. by destruct (_ <=? _)%nat. Qed.

Lemma fd_drop_rx n b : fd (drop_rx n b) = fd b.
Proof. apply drop_rx_settings. Qed.
Lemma timeout_drop_rx n b : timeout_ms (drop_rx n b) = timeout_ms b.
Proof. apply drop_rx_settings. Qed.
Lemma echo_drop_rx n b : echo (drop_rx n b) = echo b.
Proof. apply drop_rx_settings. Qed.
Lemma servo_error_drop_rx n b : last_servo_error (drop_rx n b) = last_servo_error b.
Proof. unfold drop_rx. by destruct (_ <=? _)%nat. Qed.

Create Rewrite HintDb bus.
#[export] Hint Rewrite rxbuf_drop_rx fd_drop_rx timeout_drop_rx echo_drop_rx
  servo_error_drop_rx : bus.
(** Compute the fields of an updated bus. *)
Ltac bus_simpl := unfold same_settings; cbn [fst snd]; repeat (autorewrite with bus; cbn).

Lemma bus_ok_drop n b b' : bus_ok b -> rxbuf b' = drop n (rxbuf b) -> bus_ok b'.
Proof.
  unfold bus_ok, rxlen. intros [? ?] ->. rewrite length_drop. split; [lia|].
  by apply Forall_drop.
Qed.

Section Laws.
Context {W : Type} {os : OS W} {laws : OSLaws W} {stream : OSStream W}.
Implicit Types (b : fts_bus) (w : W).

(** What the receiver has and will have: the buffered bytes, then the rest of
    the line. *)
Definition line (s : fts_bus * W) : list Z := rxbuf s.1 ++ os_input s.2 (fd s.1).

(** The effect of receiving, whatever came of it: time passes, the settings and
    the output stay, the buffer stays within bounds, and unless the buffer was
    full, bytes only move from the line into it. *)
Definition received (s s' : fts_bus * W) : Prop :=
  os_time s.2 <= os_time s'.2 /\ same_settings s.1 s'.1 /\
  (bus_ok s.1 -> bus_ok s'.1) /\
  ((rxlen s.1 < FTS_RXBUF_SIZE)%nat -> line s' = line s) /\
  (forall fd, os_output s'.2 fd = os_output s.2 fd).

Lemma received_refl s : received s s.
Proof. unfold received. split_and!; auto using same_settings_refl; lia. Qed.

Lemma received_trans s1 s2 s3 : received s1 s2 -> received s2 s3 ->
  (rxlen s2.1 <= rxlen s1.1)%nat -> received s1 s3.
Proof.
  intros (T1 & S1 & O1 & L1 & P1) (T2 & S2 & O2 & L2 & P2) Hle. unfold received.
  split_and!; [lia|by eapply same_settings_trans|by auto| |by intros; rewrite P2, P1].
  intros H. rewrite L2 by lia. by auto.
Qed.

Lemma now_ms_run b w :
  exists now w', now_ms (b, w) = Some (now, (b, w')) /\ received (b, w) (b, w') /\
    now * 1000000 <= os_time w' /\ os_time w < (now + 1) * 1000000 /\
    (forall fd, os_input w' fd = os_input w fd).
Proof.
  unfold now_ms. mrun. pose proof (clock_reads_time w) as H.
  pose proof (clock_input w) as Hi. pose proof (clock_output w) as Ho.
  destruct (os_clock w) as [ts w']. cbn [fst snd] in *. unfold ts_ns in H.
  do 2 eexists. split; [done|].
  rewrite Z.quot_div_nonneg by lia.
  pose proof (Z.div_mod (tv_nsec ts) 1000000). pose proof (Z.mod_pos_bound (tv_nsec ts) 1000000).
  unfold received, line; cbn. split_and!; try done; try lia.
  intros _. by rewrite Hi.
Qed.

Definition fill_code (rc : Z) : Prop :=
  rc = FTS_OK \/ rc = FTS_ERR_IO \/ rc = FTS_ERR_TIMEOUT.

Lemma fill_rx_run deadline s :
  exists rc s', fill_rx deadline s = Some (rc, s') /\ fill_code rc /\
    received s s' /\ os_time s.2 < os_time s'.2.
Proof.
  destruct s as [b w]. unfold fill_rx, received, fill_code.
  destruct (now_ms_run b w) as (now & w1 & Hnow & Hr1 & _ & _ & Hi1).
  destruct Hr1 as (Ht1 & _ & _ & _ & Ho1). cbn [fst snd] in *.
  rewrite (bind_run _ _ _ _ _ Hnow). mrun.
  set (ms := i32 _). pose proof (poll_time (fd b) ms w1) as Ht2.
  pose proof (poll_input (fd b) ms w1) as Hi2. pose proof (poll_output (fd b) ms w1) as Ho2.
  destruct (os_poll (fd b) ms w1) as [r w2]. cbn [fst snd] in *.
  assert (Hstay : received (b, w) (b, w2) /\ os_time w < os_time w2).
  { unfold received, line; cbn. split_and!; try done; [lia|by rewrite Hi2, Hi1| |lia].
    intros; by rewrite Ho2, Ho1. }
  destruct r as [| | |pollin err]; try (do 2 eexists; split; [done|]; by auto).
  destruct (negb pollin && err); [do 2 eexists; split; [done|]; by auto|].
  set (b1 := if (FTS_RXBUF_SIZE <=? rxlen b)%nat
             then set_rxbuf [] (set_stats (count_discarded (rxlen b)) b) else b).
  assert (Hb1 : same_settings b b1 /\ (bus_ok b -> bus_ok b1) /\
    (rxlen b1 < FTS_RXBUF_SIZE)%nat /\ ((rxlen b < FTS_RXBUF_SIZE)%nat -> b1 = b)).
  { unfold b1, bus_ok, rxlen, FTS_RXBUF_SIZE.
    destruct (Nat.leb_spec 1024 (length (rxbuf b))); cbn; split_and!; try done; try lia.
    intros _. split; [lia|constructor]. }
  destruct Hb1 as (Hs1 & Hok1 & Hlen1 & Hsame1).
  rewrite bind_run with (a := tt) (s' := (b1, w2));
    [|by unfold b1; destruct (_ <=? _)%nat].
  clearbody b1. mrun. set (room := (FTS_RXBUF_SIZE - rxlen b1)%nat).
  pose proof (read_time (fd b1) room w2) as Ht3.
  pose proof (read_size (fd b1) room w2) as Hsz.
  pose proof (read_input (fd b1) room w2) as Hin.
  pose proof (read_input_fail (fd b1) room w2) as Hfail.
  pose proof (read_output (fd b1) room w2) as Ho3.
  destruct (os_read (fd b1) room w2) as [n w3]. cbn [fst snd] in *.
  destruct Hstay as ((_ & _ & _ & Hline & Ho) & Ht). cbn [fst snd] in *.
  assert (Hnone : (forall bs, n <> IoOk bs) \/ n = IoOk [] ->
    received (b, w) (b1, w3) /\ os_time w < os_time w3).
  { intros Hn. assert (Hi : os_input w3 (fd b1) = os_input w2 (fd b1)).
    { destruct Hn as [Hn|Hn]; [by apply Hfail|]. by rewrite (Hin [] Hn). }
    unfold received, line in *; cbn in *.
    split_and!; [lia|done|done| |by intros; rewrite Ho3, Ho|lia].
    intros Hlt. rewrite Hi, (Hsame1 Hlt). by apply Hline. }
  destruct n as [bs| |]; [destruct bs as [|x bs]|..];
    try (do 2 eexists; split; [done|]; split; [by auto|]; apply Hnone; auto; by left).
  clear Hnone Hfail. mrun. set (b2 := set_rxbuf _ b1).
  destruct (Hsz _ eq_refl) as [Hlen Hbytes]. specialize (Hin _ eq_refl).
  exists FTS_OK, (b2, w3). split; [done|]. split; [by auto|].
  unfold received, line in *; cbn [fst snd] in *.
  split_and!; [lia|done| | |by intros; rewrite Ho3, Ho|lia].
  - intros Hb. destruct (Hok1 Hb) as [_ ?]. unfold bus_ok, b2, rxlen; cbn [rxbuf set_rxbuf].
    rewrite length_app. unfold room, rxlen in *. split; [lia|]. by apply Forall_app.
  - intros Hlt. rewrite <- Hline by done. pose proof (Hsame1 Hlt); subst b1.
    cbn. by rewrite Hin, <- app_assoc.
Qed.

(** ** Termination *)

(** Fuel for a receive loop with the given deadline: every turn either takes
    clock time (at most until the deadline) or drops buffered bytes. *)
Definition rx_measure (deadline : Z) (s : fts_bus * W) : nat :=
  Z.to_nat ((deadline + 1) * 1000000 - os_time s.2) * (FTS_RXBUF_SIZE + 1) + rxlen s.1.

Lemma rx_measure_received deadline s s' :
  received s s' -> os_time s.2 < os_time s'.2 -> bus_ok s.1 ->
  os_time s.2 < (deadline + 1) * 1000000 ->
  (rx_measure deadline s' < rx_measure deadline s)%nat.
Proof.
  intros (_ & _ & Hok & _) Ht Hb Hd. destruct (Hok Hb) as [Hlen' _].
  unfold rx_measure.
  assert (Z.to_nat ((deadline + 1) * 1000000 - os_time s'.2)
          < Z.to_nat ((deadline + 1) * 1000000 - os_time s.2))%nat by lia.
  nia.
Qed.

Lemma rx_measure_drop deadline b b' w :
  (rxlen b' < rxlen b)%nat -> (rx_measure deadline (b', w) < rx_measure deadline (b, w))%nat.
Proof. unfold rx_measure; cbn. lia. Qed.

Lemma rx_loop_total fuel id cap deadline s :
  bus_ok s.1 -> (rx_measure deadline s < fuel)%nat ->
  is_Some (rx_loop fuel id cap deadline s).
Proof.
  revert s. induction fuel as [|fuel IH]; intros s Hok Hf; [lia|].
  destruct s as [b w]. cbn [fst] in Hok. cbn [rx_loop]. mrun.
  destruct (fts_parse_status (rxbuf b)) as [[pkt| |code] consumed] eqn:E.
  - mrun. destruct (negb _); mrun; by eexists.
  - destruct (now_ms_run b w) as (now & w1 & Hnow & Hr1 & Hlo & Hhi & _).
    rewrite (bind_run _ _ _ _ _ Hnow).
    destruct (Z.ltb_spec deadline now); [mrun; by eexists|].
    destruct (fill_rx_run deadline (b, w1)) as (rc & s2 & Hrun & _ & Hr2 & Ht2).
    rewrite (bind_run _ _ _ _ _ Hrun).
    destruct (rc =? FTS_ERR_TIMEOUT); [mrun; by eexists|].
    destruct (rc <? 0); [by eexists|].
    pose proof (received_trans _ _ _ Hr1 Hr2 ltac:(done)) as Hr.
    apply IH; [by apply Hr|].
    assert (os_time w < os_time s2.2) by (destruct Hr1 as [? _]; cbn in *; lia).
    pose proof (rx_measure_received deadline _ _ Hr ltac:(done) Hok ltac:(cbn; lia)). lia.
  - pose proof (parse_consumed_le (rxbuf b)) as Hc. rewrite E in Hc. cbn [snd] in Hc.
    pose proof (parse_progress _ _ _ E ltac:(done)).
    assert (Hgo : forall b1, rxbuf b1 = rxbuf b ->
      is_Some (rx_loop fuel id cap deadline
        (drop_rx consumed (set_stats (count_discarded consumed) b1), w))).
    { intros b1 Hb1. apply IH; cbn [fst].
      - apply (bus_ok_drop consumed b); [done|]. rewrite rxbuf_drop_rx. cbn. by rewrite Hb1.
      - assert (rxlen (drop_rx consumed (set_stats (count_discarded consumed) b1))
                < rxlen b)%nat.
        { unfold rxlen. rewrite rxbuf_drop_rx. cbn. rewrite Hb1, length_drop. lia. }
        pose proof (rx_measure_drop deadline _ _ w H0). lia. }
    destruct (code =? FTS_ERR_CHECKSUM); mrun; by apply Hgo.
Qed.

(** A fuel that is enough for one [rx_status] at a given timeout. *)
Definition rx_fuel (timeout : Z) : nat :=
  S (Z.to_nat (Z.max 0 (timeout + 1) * 1000000) * (FTS_RXBUF_SIZE + 1) + FTS_RXBUF_SIZE).

Lemma rx_status_total fuel id cap s :
  bus_ok s.1 -> (rx_fuel (timeout_ms s.1) <= fuel)%nat ->
  is_Some (rx_status fuel id cap s).
Proof.
  intros Hok Hf. destruct s as [b w]. unfold rx_status. mrun.
  destruct (now_ms_run b w) as (now & w' & Hnow & Hr & Hlo & _).
  rewrite (bind_run _ _ _ _ _ Hnow). cbn [fst snd] in *.
  apply rx_loop_total; [done|]. destruct Hok as [Hlen _].
  unfold rx_measure, rx_fuel in *; cbn [fst snd].
  assert (Z.to_nat ((now + timeout_ms b + 1) * 1000000 - os_time w')
          <= Z.to_nat (Z.max 0 (timeout_ms b + 1) * 1000000))%nat by lia.
  nia.
Qed.

(** ** What a receive does to the packet stream *)

(** The packets still to come on the line, and the bytes after them. *)
Definition packets (s : fts_bus * W) : list fts_packet * list Z := drain_all (line s).

(** Lines on which the receive buffer never fills up: a stretch the scanner
    cannot use yet is shorter than the buffer.  (The buffer is emptied when it
    is full, see [full_buffer_loses_packet].) *)
Definition no_overflow (l : list Z) : Prop :=
  forall a m z, l = a ++ m ++ z -> (fts_parse_status m).1 = NeedMore ->
  (length m < FTS_RXBUF_SIZE)%nat.

Lemma no_overflow_short l : (length l < FTS_RXBUF_SIZE)%nat -> no_overflow l.
Proof. intros H a m z -> _. rewrite !length_app in H. lia. Qed.

Lemma no_overflow_drop n l : no_overflow l -> no_overflow (drop n l).
Proof.
  intros H a m z E Hm. apply (H (take n l ++ a) m z); [|done].
  by rewrite <- app_assoc, <- E, take_drop.
Qed.

Lemma no_overflow_rxlen b w c :
  no_overflow (line (b, w)) -> fts_parse_status (rxbuf b) = (NeedMore, c) ->
  (rxlen b < FTS_RXBUF_SIZE)%nat.
Proof. intros H E. apply (H [] (rxbuf b) (os_input w (fd b))); [done|by rewrite E]. Qed.

(** The four ways [rx_status] ends.  The expected packet and a foreign packet
    are taken off the stream, exactly one; after a timeout or an I/O error
    every packet of the stream is still there. *)
Inductive rx_outcome (id : Z) (cap : nat) (s s' : fts_bus * W) : Z * list Z -> Prop :=
| rx_packet p :
    pkt_id p = id -> packets s = (p :: (packets s').1, (packets s').2) ->
    last_servo_error s'.1 = pkt_error p ->
    rx_outcome id cap s s' (FTS_OK, take cap (pkt_data p))
| rx_foreign p :
    pkt_id p <> id -> packets s = (p :: (packets s').1, (packets s').2) ->
    rx_outcome id cap s s' (FTS_ERR_ID, [])
| rx_timeout : packets s = packets s' -> rx_outcome id cap s s' (FTS_ERR_TIMEOUT, [])
| rx_io : packets s = packets s' -> rx_outcome id cap s s' (FTS_ERR_IO, []).

(** A scanner verdict on the buffer is one on the line. *)
Lemma packets_step b w r c b' :
  fts_parse_status (rxbuf b) = (r, c) -> r <> NeedMore ->
  rxbuf b' = drop c (rxbuf b) -> fd b' = fd b ->
  packets (b, w) = match r with
                   | Found p => (p :: (packets (b', w)).1, (packets (b', w)).2)
                   | _ => packets (b', w)
                   end /\
  (no_overflow (line (b, w)) -> no_overflow (line (b', w))).
Proof.
  intros E Hr Hb' Hfd. pose proof (parse_consumed_le (rxbuf b)) as Hc.
  rewrite E in Hc. cbn [snd] in Hc. unfold packets, line; cbn [fst snd].
  rewrite Hb', Hfd, <- drop_app_le by done. split.
  - rewrite drain_all_unfold, (parse_app_stable _ _ _ _ E) by done. by destruct r.
  - apply no_overflow_drop.
Qed.

Lemma rx_outcome_pre id cap s0 s s' r :
  packets s0 = packets s -> rx_outcome id cap s s' r -> rx_outcome id cap s0 s' r.
Proof. intros E H. inversion H; subst; econstructor; rewrite ?E; eauto. Qed.

Definition rx_post (id : Z) (cap : nat) (s s' : fts_bus * W) (r : Z * list Z) : Prop :=
  rx_outcome id cap s s' r /\ no_overflow (line s') /\
  same_settings s.1 s'.1 /\ (forall fd, os_output s'.2 fd = os_output s.2 fd).

Lemma rx_post_quiet id cap s0 s s' r :
  received s0 s -> line s = line s0 ->
  rx_post id cap s s' r -> rx_post id cap s0 s' r.
Proof.
  intros (_ & Hs & _ & _ & Ho) Hl (H1 & H2 & H3 & H4).
  unfold rx_post. split_and!.
  - eapply rx_outcome_pre; [|exact H1]. unfold packets. by rewrite Hl.
  - done.
  - by eapply same_settings_trans.
  - intros. by rewrite H4, Ho.
Qed.

Lemma rx_post_stop id cap s rc f :
  rc = FTS_ERR_TIMEOUT \/ rc = FTS_ERR_IO ->
  (forall b, rxbuf (f b) = rxbuf b /\ same_settings b (f b)) ->
  no_overflow (line s) -> rx_post id cap s (f s.1, s.2) (rc, []).
Proof.
  intros Hrc Hf Hno. destruct (Hf s.1) as [Hb Hs].
  assert (Hl : line (f s.1, s.2) = line s)
    by (unfold line; cbn; rewrite Hb; destruct Hs as [-> _]; done).
  unfold rx_post. split_and!; [|by rewrite Hl|done..].
  destruct Hrc as [->| ->]; econstructor; unfold packets; by rewrite Hl.
Qed.

Lemma rx_loop_exact fuel id cap deadline s r s' :
  rx_loop fuel id cap deadline s = Some (r, s') ->
  no_overflow (line s) -> rx_post id cap s s' r.
Proof.
  revert s. induction fuel as [|fuel IH]; intros [b w] Hrun Hlen; [done|].
  cbn [rx_loop] in Hrun. mrun_in Hrun.
  destruct (fts_parse_status (rxbuf b)) as [[pkt| |code] consumed] eqn:E.
  - assert (Hstep : forall b', rxbuf b' = drop consumed (rxbuf b) -> fd b' = fd b ->
      packets (b, w) = (pkt :: (packets (b', w)).1, (packets (b', w)).2) /\
      no_overflow (line (b', w)))
      by (intros b' ??; destruct (packets_step b w (Found pkt) consumed b'); auto).
    mrun_in Hrun. destruct (Z.eqb_spec (pkt_id pkt) id) as [Hid|Hid]; cbn [negb] in Hrun;
      mrun_in Hrun; injection Hrun as <- <-;
      unfold rx_post; (split; [econstructor; try done|split_and!; try done]);
      try (apply Hstep); by bus_simpl.
  - destruct (now_ms_run b w) as (now & w1 & Hnow & Hr1 & _).
    rewrite (bind_run _ _ _ _ _ Hnow) in Hrun. cbn beta in Hrun.
    pose proof (no_overflow_rxlen b w _ Hlen E) as Hfit.
    assert (Hl1 : line (b, w1) = line (b, w)) by (by apply Hr1).
    destruct (deadline <? now).
    { mrun_in Hrun. injection Hrun as <- <-.
      apply (rx_post_quiet _ _ _ (b, w1)); [done|done|].
      apply (rx_post_stop _ _ (b, w1)); [by left|done|by rewrite Hl1]. }
    destruct (fill_rx_run deadline (b, w1)) as (rc & [b2 w2] & Hfill & Hrc & Hr2 & _).
    rewrite (bind_run _ _ _ _ _ Hfill) in Hrun. cbn beta in Hrun.
    pose proof (received_trans _ _ _ Hr1 Hr2 ltac:(done)) as Hr.
    assert (Hl2 : line (b2, w2) = line (b, w)) by (by apply Hr).
    apply (rx_post_quiet _ _ _ (b2, w2)); [done|done|].
    destruct Hrc as [->|[->| ->]]; cbn in Hrun; mrun_in Hrun.
    + apply IH; [done|by rewrite Hl2].
    + injection Hrun as <- <-.
      apply (rx_post_stop _ _ (b2, w2) _ (fun b => b)); [by right|done|by rewrite Hl2].
    + injection Hrun as <- <-.
      apply (rx_post_stop _ _ (b2, w2)); [by left|done|by rewrite Hl2].
  - pose (b1 := if code =? FTS_ERR_CHECKSUM then set_stats count_checksum b else b).
    rewrite bind_run with (a := tt) (s' := (b1, w)) in Hrun;
      [|by unfold b1; destruct (_ =? _)].
    mrun_in Hrun. set (b2 := drop_rx _ _) in Hrun.
    assert (Hb1 : rxbuf b1 = rxbuf b /\ same_settings b b1) by (unfold b1; by destruct (_ =? _)).
    destruct Hb1 as [Hb1 Hs1].
    assert (Hb2 : rxbuf b2 = drop consumed (rxbuf b) /\ same_settings b b2).
    { unfold b2. rewrite rxbuf_drop_rx. cbn. rewrite Hb1. split; [done|].
      eapply same_settings_trans; [exact Hs1|]. by bus_simpl. }
    destruct Hb2 as [Hb2 Hs2].
    destruct (packets_step b w _ _ b2 E ltac:(done) Hb2 ltac:(apply Hs2)) as [Hp Hl].
    destruct (IH _ Hrun (Hl Hlen)) as (H1 & H2 & H3 & H4).
    unfold rx_post. split_and!; [by eapply rx_outcome_pre|done|by eapply same_settings_trans|done].
Qed.

Lemma rx_status_exact fuel id cap s r s' :
  rx_status fuel id cap s = Some (r, s') ->
  no_overflow (line s) -> rx_post id cap s s' r.
Proof.
  destruct s as [b w]. unfold rx_status. intros Hrun Hlen. mrun_in Hrun.
  destruct (now_ms_run b w) as (now & w1 & Hnow & Hr1 & _ & _ & Hi).
  rewrite (bind_run _ _ _ _ _ Hnow) in Hrun. cbn beta in Hrun.
  assert (Hl : line (b, w1) = line (b, w)) by (unfold line; cbn; by rewrite Hi).
  apply (rx_post_quiet _ _ _ (b, w1)); [done|done|].
  apply (rx_loop_exact _ _ _ _ _ _ _ Hrun). by rewrite Hl.
Qed.

(** ** Transmitting *)

Lemma write_all_exact fuel f buf b w rc s' :
  write_all fuel f buf (b, w) = Some (rc, s') ->
  s'.1 = b /\ (rc = FTS_OK \/ rc = FTS_ERR_IO) /\
  (forall fd, os_input s'.2 fd = os_input w fd) /\
  (rc = FTS_OK -> os_output s'.2 f = os_output w f ++ buf).
Proof.
  revert buf w. induction fuel as [|fuel IH]; intros buf w Hrun; [done|].
  cbn [write_all] in Hrun. destruct buf as [|x buf].
  { injection Hrun as <- <-. rewrite app_nil_r. auto. }
  set (l := x :: buf) in *. mrun_in Hrun.
  pose proof (write_input f l w) as Hi. pose proof (write_output f l w) as Ho.
  pose proof (write_output_fail f l w) as Hf.
  destruct (os_write f l w) as [r w1]. cbn [fst snd] in *.
  destruct r as [k| |].
  - destruct (IH _ _ Hrun) as (H1 & H2 & H3 & H4). split_and!; [done|done|by intros; rewrite H3|].
    intros Hrc. rewrite (H4 Hrc), (Ho k eq_refl), <- app_assoc. by rewrite take_drop.
  - destruct (IH _ _ Hrun) as (H1 & H2 & H3 & H4). split_and!; [done|done|by intros; rewrite H3|].
    intros Hrc. by rewrite (H4 Hrc), Hf.
  - injection Hrun as <- <-. split_and!; auto. done.
Qed.

Lemma write_all_total fuel f buf b w :
  (length buf + os_intr w < fuel)%nat -> is_Some (write_all fuel f buf (b, w)).
Proof.
  revert buf w. induction fuel as [|fuel IH]; intros buf w Hf; [lia|].
  cbn [write_all]. destruct buf as [|x buf]; [by eexists|]. set (l := x :: buf) in *.
  mrun. pose proof (write_size f l w) as Hs. pose proof (write_intr f l w) as Hi.
  pose proof (write_intr_le f l w) as Hle.
  destruct (os_write f l w) as [r w1]. cbn [fst snd] in *.
  destruct r as [k| |]; [|by apply IH; specialize (Hi eq_refl); lia|by eexists].
  destruct (Hs k ltac:(done) eq_refl). apply IH. rewrite length_drop. lia.
Qed.

Lemma swallow_echo_exact fuel len deadline s rc s' :
  swallow_echo fuel len deadline s = Some (rc, s') ->
  same_settings s.1 s'.1 /\ (bus_ok s.1 -> bus_ok s'.1) /\ (rc = FTS_OK \/ rc = FTS_ERR_IO) /\
  (forall fd, os_output s'.2 fd = os_output s.2 fd).
Proof.
  revert s. induction fuel as [|fuel IH]; intros s Hrun; [done|].
  cbn [swallow_echo] in Hrun. mrun_in Hrun.
  destruct (rxlen s.1 <? len)%nat.
  - destruct (fill_rx_run deadline s) as (rc1 & s1 & Hfill & Hrc & Hr & _).
    rewrite (bind_run _ _ _ _ _ Hfill) in Hrun. cbn beta in Hrun.
    destruct Hr as (_ & Hs & Hok & _ & Ho).
    destruct Hrc as [->|[->| ->]]; cbn in Hrun;
      try (injection Hrun as <- <-; split_and!; auto; fail).
    destruct (IH _ Hrun) as (H1 & H2 & H3 & H4).
    split_and!; [by eapply same_settings_trans|auto|done|by intros; rewrite H4, Ho].
  - injection Hrun as <- <-. split_and!; auto using same_settings_refl.
Qed.

(** After a successful [tx_packet] exactly the packet is on the wire.  Without
    echo the receive buffer is empty and the line is what [tcflush] left of it. *)
Lemma tx_packet_exact fuel pkt s rc s' :
  tx_packet fuel pkt s = Some (rc, s') ->
  same_settings s.1 s'.1 /\ bus_ok s'.1 /\ (rc = FTS_OK \/ rc = FTS_ERR_IO) /\
  (rc = FTS_OK -> os_output s'.2 (fd s.1) = os_output s.2 (fd s.1) ++ pkt) /\
  (echo s.1 = false -> line s' = os_input (os_flush_in (fd s.1) s.2) (fd s.1)).
Proof.
  destruct s as [b w]. unfold tx_packet. intros Hrun. mrun_in Hrun.
  apply M_bind_some in Hrun as (rc1 & [b1 w1] & E & Hrun).
  destruct (write_all_exact _ _ _ _ _ _ _ E) as (Hb1 & Hrc & Hi & Ho).
  cbn [fst snd] in *. subst b1.
  pose proof (flush_output (fd b) w (fd b)) as Hfo.
  assert (Hempty : bus_ok (set_rxbuf [] b)) by (split; [cbn; lia|constructor]).
  assert (Hline : line (set_rxbuf [] b, w1) = os_input (os_flush_in (fd b) w) (fd b))
    by (unfold line; cbn; by rewrite Hi).
  destruct Hrc as [->| ->]; cbn [FTS_OK FTS_ERR_IO Z.eqb negb] in Hrun; mrun_in Hrun.
  - specialize (Ho eq_refl). rewrite Hfo in Ho.
    destruct (echo b) eqn:Eecho.
    + set (b2 := set_stats count_tx (set_rxbuf [] b)) in *.
      destruct (now_ms_run b2 w1) as (now & w2 & Hnow & (_ & _ & _ & _ & Ho2) & _).
      rewrite (bind_run _ _ _ _ _ Hnow) in Hrun. cbn [fst snd] in *.
      apply M_bind_some in Hrun as (rc2 & [b3 w3] & E2 & Hrun).
      destruct (swallow_echo_exact _ _ _ _ _ _ E2) as (Hs3 & Hok3 & Hrc2 & Ho3).
      cbn [fst snd] in *.
      assert (bus_ok b3) by (by apply Hok3).
      destruct Hrc2 as [->| ->]; cbn in Hrun; mrun_in Hrun; injection Hrun as <- <-; cbn [fst snd].
      * split_and!; [|by eapply bus_ok_drop; [|apply rxbuf_drop_rx]|auto|by intros; rewrite Ho3, Ho2|done].
        eapply same_settings_trans; [exact Hs3|apply drop_rx_settings].
      * split_and!; auto; done.
    + injection Hrun as <- <-. split_and!; auto; done.
  - injection Hrun as <- <-. split_and!; auto; done.
Qed.

Lemma tx_packet_total fuel pkt s :
  echo s.1 = false -> (length pkt + os_intr (os_flush_in (fd s.1) s.2) < fuel)%nat ->
  is_Some (tx_packet fuel pkt s).
Proof.
  destruct s as [b w]. intros He Hf. unfold tx_packet. mrun. cbn [fst snd] in *.
  destruct (write_all_total fuel (fd b) pkt (set_rxbuf [] b) _ Hf) as [[rc1 s1] E].
  rewrite (bind_run _ _ _ _ _ E). destruct (negb _); [by eexists|]. mrun. rewrite He. by eexists.
Qed.

(** ** Sync read *)

(** A reply of servo [id] with (at least) the [len] bytes asked for. *)
Definition reply (len : nat) (id : Z) (p : fts_packet) : Prop :=
  pkt_id p = id /\ length (take len (pkt_data p)) = len.
Definition payloads (len : nat) (ps : list fts_packet) : list Z :=
  concat (map (fun p => take len (pkt_data p)) ps).

Lemma memcpy_at_app a x y src :
  length x = length src -> memcpy_at (a ++ x ++ y) (length a) src = a ++ src ++ y.
Proof.
  intros H. unfold memcpy_at. rewrite take_app_length. do 2 f_equal.
  rewrite <- H, <- drop_drop, drop_app_length. by rewrite drop_app_length.
Qed.

(** One turn of the loop: the code of the turn, and the copied bytes. *)
Lemma sync_turn fuel id len s rc got s1 :
  rx_status fuel id len s = Some ((rc, got), s1) -> no_overflow (line s) ->
  no_overflow (line s1) /\ same_settings s.1 s1.1 /\
  (forall fd, os_output s1.2 fd = os_output s.2 fd) /\ (length got <= len)%nat /\
  let rc' := if (rc =? FTS_OK) && negb (length got =? len)%nat then FTS_ERR_BAD_PKT else rc in
  rc' <= 0 /\
  (rc' = FTS_OK -> exists p, reply len id p /\ got = take len (pkt_data p) /\
     packets s = (p :: (packets s1).1, (packets s1).2)) /\
  (forall p ps r, packets s = (p :: ps, r) -> reply len id p ->
     rc' = FTS_OK /\ packets s1 = (ps, r) \/ rc' = FTS_ERR_TIMEOUT \/ rc' = FTS_ERR_IO).
Proof.
  intros Hrun Hno. destruct (rx_status_exact _ _ _ _ _ _ Hrun Hno) as (Hout & Hno' & Hs & Ho).
  inversion Hout as [p Hid Hp _ E|p Hid Hp E|Hp E|Hp E]; subst; cbn zeta.
  - cbn [Z.eqb FTS_OK andb]. split_and!; try done; [rewrite length_take; lia|..];
      destruct (Nat.eqb_spec (length (take len (pkt_data p))) len) as [El|El];
      cbn [negb]; try done.
    + intros _. by exists p.
    + intros p' ps r Hp' _. left. split; [done|]. rewrite Hp in Hp'.
      rewrite (surjective_pairing (packets s1)). congruence.
    + intros p' ps r Hp' [_ Hl]. rewrite Hp in Hp'. congruence.
  - change (FTS_ERR_ID =? FTS_OK) with false. cbn [andb length].
    split_and!; try done; [lia|]. intros p' ps r Hp' [Hid' _]. rewrite Hp in Hp'. congruence.
  - change (FTS_ERR_TIMEOUT =? FTS_OK) with false. cbn [andb length].
    split_and!; try done; [lia|]. by auto.
  - change (FTS_ERR_IO =? FTS_OK) with false. cbn [andb length].
    split_and!; try done; [lia|]. by auto.
Qed.

Lemma sync_loop_sound fuel ids k len out fe s rc out' s' :
  sync_read_loop fuel ids k len out fe s = Some ((rc, out'), s') ->
  no_overflow (line s) ->
  same_settings s.1 s'.1 /\ (forall fd, os_output s'.2 fd = os_output s.2 fd) /\
  (fe <> FTS_OK -> rc = fe) /\
  (forall a x y, out = a ++ x ++ y -> length a = (k * len)%nat ->
     length x = (length ids * len)%nat -> rc = FTS_OK -> fe = FTS_OK ->
     exists ps, Forall2 (reply len) ids ps /\
       packets s = (ps ++ (packets s').1, (packets s').2) /\
       out' = a ++ payloads len ps ++ y).
Proof.
  revert k out fe s. induction ids as [|id ids IH]; intros k out fe s Hrun Hno;
    cbn [sync_read_loop] in Hrun.
  { injection Hrun as <- <- <-. split_and!; auto using same_settings_refl.
    intros a x y -> _ Hx _ _. exists []. destruct x; [|done]. split; [constructor|].
    split; [apply surjective_pairing|done]. }
  apply M_bind_some in Hrun as ([rc1 got] & s1 & E & Hrun).
  destruct (sync_turn _ _ _ _ _ _ _ E Hno) as (Hno1 & Hs1 & Ho1 & Hgot & Hneg & Hok & _).
  set (rc2 := if _ && _ then _ else _) in *. cbn beta iota zeta in Hrun. fold rc2 in Hrun. clearbody rc2.
  set (fe2 := if _ && _ then _ else _) in *.
  assert (Hfe : (fe <> FTS_OK -> fe2 = fe) /\ (fe = FTS_OK -> fe2 = rc2)).
  { unfold fe2. change FTS_OK with 0. destruct (Z.eqb_spec fe 0), (Z.eqb_spec rc2 0);
      cbn [negb andb]; split; intros; congruence. }
  destruct Hfe as [Hfe1 Hfe2].
  destruct (Z.eqb_spec rc2 FTS_ERR_TIMEOUT) as [Et|Et].
  { injection Hrun as <- <- <-. split_and!; auto.
    intros; subst fe. rewrite Hfe2 in * by done. rewrite Et in *. done. }
  destruct (IH _ _ _ _ Hrun Hno1) as (Hs & Ho & Hrc & Hps).
  split_and!; [by eapply same_settings_trans|by intros; rewrite Ho, Ho1| |].
  - intros H. rewrite Hrc, Hfe1 by (rewrite ?Hfe1 by done; done). done.
  - intros a x y -> Ha Hx Hrc0 ->. rewrite Hfe2 in * by done.
    destruct (Z.eq_dec rc2 FTS_OK) as [E2|E2]; [|by rewrite (Hrc E2) in Hrc0].
    destruct (Hok E2) as (p & Hrep & -> & Hp). destruct Hrep as [Hid Hl].
    cbn [length] in Hx. set (got := take len (pkt_data p)) in *.
    assert (Hsplit : x = take len x ++ drop len x) by (by rewrite take_drop).
    assert (length (take len x) = len) as Hlx by (rewrite length_take; lia).
    destruct (Hps (a ++ got) (drop len x) y) as (ps & Hf & Hpk & ->); try done.
    + rewrite Hsplit at 1. rewrite <- !app_assoc. rewrite <- Ha, memcpy_at_app by congruence.
      done.
    + rewrite length_app. lia.
    + rewrite length_drop. lia.
    + exists (p :: ps). split; [by constructor|]. split.
      * rewrite Hp, Hpk. done.
      * unfold payloads. cbn. by rewrite <- !app_assoc.
Qed.

(** Receiving takes no time back. *)
Lemma rx_loop_time fuel id cap deadline s r s' :
  rx_loop fuel id cap deadline s = Some (r, s') -> os_time s.2 <= os_time s'.2.
Proof.
  revert s. induction fuel as [|fuel IH]; intros [b w] Hrun; [done|].
  cbn [rx_loop] in Hrun. mrun_in Hrun. cbn [snd].
  destruct (fts_parse_status (rxbuf b)) as [[pkt| |code] consumed].
  - destruct (negb _); mrun_in Hrun; by injection Hrun as <- <-.
  - destruct (now_ms_run b w) as (now & w1 & Hnow & (Ht & _) & _).
    rewrite (bind_run _ _ _ _ _ Hnow) in Hrun. cbn beta in Hrun. cbn [snd] in Ht.
    destruct (deadline <? now); [mrun_in Hrun; by injection Hrun as <- <-|].
    destruct (fill_rx_run deadline (b, w1)) as (rc & s2 & Hfill & _ & _ & Ht2).
    rewrite (bind_run _ _ _ _ _ Hfill) in Hrun. cbn [snd] in Ht2.
    destruct (rc =? FTS_ERR_TIMEOUT); [mrun_in Hrun; injection Hrun as <- <-; cbn; lia|].
    destruct (rc <? 0); [injection Hrun as <- <-; cbn; lia|]. specialize (IH _ Hrun). lia.
  - destruct (code =? FTS_ERR_CHECKSUM); mrun_in Hrun; apply (IH _ Hrun).
Qed.

Lemma write_all_time fuel f buf b w rc s' :
  write_all fuel f buf (b, w) = Some (rc, s') -> os_time w <= os_time s'.2.
Proof.
  revert buf w. induction fuel as [|fuel IH]; intros buf w Hrun; [done|].
  cbn [write_all] in Hrun. destruct buf as [|x buf]; [injection Hrun as <- <-; cbn; lia|].
  set (l := x :: buf) in *. mrun_in Hrun. pose proof (write_time f l w) as Ht.
  destruct (os_write f l w) as [[k| |] w1]; cbn [fst snd] in *;
    [specialize (IH _ _ Hrun); lia..|injection Hrun as <- <-; cbn; lia].
Qed.

Lemma rx_status_time fuel id cap s r s' :
  rx_status fuel id cap s = Some (r, s') -> os_time s.2 <= os_time s'.2.
Proof.
  destruct s as [b w]. unfold rx_status. intros Hrun. mrun_in Hrun.
  destruct (now_ms_run b w) as (now & w1 & Hnow & (Ht & _) & _).
  rewrite (bind_run _ _ _ _ _ Hnow) in Hrun. cbn beta in Hrun.
  pose proof (rx_loop_time _ _ _ _ _ _ _ Hrun). cbn in *. lia.
Qed.

(** ** Answers in time *)

(** The line of descriptor [f] delivers: everything still to come on it has
    arrived by the instant [T], the port does not fail, and every call costs at
    most [d] ns, besides the wait of a [poll] for what arrives by [T].  A [poll]
    that may wait until then reports the input, and a [read] after it takes some.
    [good] is the set of such worlds. *)
Section Prompt.
Context (f T d : Z) (good : W -> Prop).

Definition late (w : W) : Z := Z.max (os_time w) T.
Definition on_time (w w' : W) : Prop := good w' /\ late w' <= late w + d.

Record prompt : Prop := mk_prompt {
  prompt_clock w : good w -> on_time w (os_clock w).2;
  prompt_flush w : good w -> on_time w (os_flush_in f w);
  prompt_write bs w : good w -> on_time w (os_write f bs w).2 /\ (os_write f bs w).1 <> IoFail;
  prompt_poll ms w : good w -> os_input w f <> [] -> T <= os_time w + ms * 1000000 ->
    on_time w (os_poll f ms w).2 /\ exists err, (os_poll f ms w).1 = PollEvents true err;
  prompt_read ms n w err : good w -> (os_poll f ms w).1 = PollEvents true err -> (0 < n)%nat ->
    on_time (os_poll f ms w).2 (os_read f n (os_poll f ms w).2).2 /\
    exists bs, bs <> [] /\ (os_read f n (os_poll f ms w).2).1 = IoOk bs
}.
Context (P : prompt).

Definition pending (w : W) : Z := Z.of_nat (length (os_input w f)).

Lemma on_time_cost w : good w -> 0 <= d.
Proof.
  intros H. destruct (prompt_clock P w H) as [_ Hl]. unfold late in Hl.
  pose proof (clock_reads_time w) as Ht. destruct (os_clock w) as [ts w']. cbn in *. lia.
Qed.

Lemma now_ms_prompt b w now b' w' :
  good w -> now_ms (b, w) = Some (now, (b', w')) -> b' = b /\ on_time w w'.
Proof.
  intros Hg. unfold now_ms. mrun. pose proof (prompt_clock P w Hg) as Hc.
  destruct (os_clock w) as [ts w1]. cbn [fst snd] in *. by intros [= _ <- <-].
Qed.

Lemma write_all_prompt fuel buf b w rc s' :
  good w -> write_all fuel f buf (b, w) = Some (rc, s') ->
  rc = FTS_OK /\ good s'.2 /\
  late s'.2 <= late w + d * Z.of_nat (length buf + os_intr w).
Proof.
  revert buf w. induction fuel as [|fuel IH]; intros buf w Hg Hrun; [done|].
  pose proof (on_time_cost w Hg) as Hd. cbn [write_all] in Hrun. destruct buf as [|x buf].
  { injection Hrun as <- <-. split_and!; [done|done|cbn [snd]; nia]. }
  set (l := x :: buf) in *. mrun_in Hrun.
  pose proof (write_size f l w) as Hs. pose proof (write_intr f l w) as Hi.
  pose proof (write_intr_le f l w) as Hle.
  destruct (prompt_write P l w Hg) as [[Hg1 Hl1] Hr].
  destruct (os_write f l w) as [[k| |] w1]; cbn [fst snd] in *; [| |done].
  - destruct (Hs k ltac:(done) eq_refl). destruct (IH _ _ Hg1 Hrun) as (-> & Hg2 & Hl2).
    split_and!; [done|done|]. rewrite length_drop in Hl2. nia.
  - specialize (Hi eq_refl). destruct (IH _ _ Hg1 Hrun) as (-> & Hg2 & Hl2).
    split_and!; [done|done|]. nia.
Qed.

Lemma fill_rx_prompt deadline b w :
  fd b = f -> good w -> os_input w f <> [] -> (rxlen b < FTS_RXBUF_SIZE)%nat ->
  T <= deadline * 1000000 -> deadline * 1000000 <= os_time w + 2147483647 * 1000000 ->
  exists s', fill_rx deadline (b, w) = Some (FTS_OK, s') /\ good s'.2 /\
    late s'.2 <= late w + 3 * d /\ pending s'.2 < pending w.
Proof.
  intros Hfd Hg Hne Hlen HT Hmax. unfold fill_rx.
  destruct (now_ms_run b w) as (now & w1 & Hnow & _ & Hlo & Hhi & Hi).
  destruct (now_ms_prompt _ _ _ _ _ Hg Hnow) as [_ [Hg1 Hl1]].
  rewrite (bind_run _ _ _ _ _ Hnow). mrun. rewrite Hfd.
  set (ms := i32 _).
  assert (Hms : T <= os_time w1 + ms * 1000000).
  { unfold ms. destruct (Z.ltb_spec (deadline - now) 0); [change (i32 0) with 0; lia|].
    rewrite wrap_s_id by (unfold in_s; lia). lia. }
  destruct (prompt_poll P ms w1 Hg1 ltac:(by rewrite Hi) Hms) as [[Hg2 Hl2] [err Hp]].
  pose proof (poll_input f ms w1 f) as Hi2.
  pose proof (prompt_read P ms (FTS_RXBUF_SIZE - rxlen b)%nat w1 err Hg1 Hp ltac:(lia)) as Hread.
  destruct (os_poll f ms w1) as [r w2]. cbn [fst snd] in *. subst r. cbn [negb andb].
  rewrite (proj2 (Nat.leb_gt _ _)) by done. mrun. rewrite Hfd.
  pose proof (read_input f (FTS_RXBUF_SIZE - rxlen b)%nat w2) as Hin.
  destruct Hread as [[Hg3 Hl3] (bs & Hbs & Hr)].
  destruct (os_read f _ w2) as [r w3]. cbn [fst snd] in *. subst r.
  specialize (Hin _ eq_refl). destruct bs as [|x bs]; [done|]. mrun.
  eexists. split; [done|]. cbn [snd]. split_and!; [done|lia|].
  unfold pending. rewrite <- Hi, <- Hi2, Hin, length_app. cbn [length]. lia.
Qed.

(** The clock time a receive may still need. *)
Definition spent (w : W) : Z := late w + 4 * d * pending w.

Lemma rx_loop_prompt fuel id cap deadline s r s' p ps rest :
  rx_loop fuel id cap deadline s = Some (r, s') -> no_overflow (line s) ->
  fd s.1 = f -> good s.2 -> packets s = (p :: ps, rest) ->
  spent s.2 <= deadline * 1000000 -> deadline * 1000000 <= os_time s.2 + 2147483647 * 1000000 ->
  r.1 <> FTS_ERR_TIMEOUT /\ r.1 <> FTS_ERR_IO /\ good s'.2 /\ spent s'.2 <= spent s.2.
Proof.
  revert s. induction fuel as [|fuel IH]; intros [b w] Hrun Hno Hfd Hg Hp Hd Hmax; [done|].
  cbn [rx_loop] in Hrun. mrun_in Hrun. cbn [fst snd] in *.
  destruct (fts_parse_status (rxbuf b)) as [[pkt| |code] consumed] eqn:E.
  - destruct (negb _); mrun_in Hrun; injection Hrun as <- <-; split_and!; done.
  - pose proof (no_overflow_rxlen b w _ Hno E) as Hfit. pose proof (on_time_cost w Hg) as Hd0.
    assert (Hne : os_input w f <> []).
    { intros H. unfold packets, line in Hp. cbn [fst snd] in Hp. rewrite Hfd, H, app_nil_r in Hp.
      rewrite drain_all_unfold, E in Hp. done. }
    assert (1 <= pending w) by (unfold pending; destruct (os_input w f); [done|cbn; lia]).
    destruct (now_ms_run b w) as (now & w1 & Hnow & Hr1 & Hlo & Hhi & Hi).
    destruct (now_ms_prompt _ _ _ _ _ Hg Hnow) as [_ [Hg1 Hl1]].
    rewrite (bind_run _ _ _ _ _ Hnow) in Hrun. cbn beta in Hrun.
    unfold spent, late in Hd, Hl1.
    rewrite (proj2 (Z.ltb_ge _ _)) in Hrun by nia.
    assert (os_time w <= os_time w1) by (by destruct Hr1).
    destruct (fill_rx_prompt deadline b w1) as (s2 & Hfill & Hg2 & Hl2 & Hin2);
      [done|done|by rewrite Hi|done|nia|lia|].
    destruct (fill_rx_run deadline (b, w1)) as (rc & s2' & Hfill' & _ & Hr2 & _).
    assert (s2' = s2 /\ rc = FTS_OK) as [-> ->] by (split; congruence).
    rewrite (bind_run _ _ _ _ _ Hfill) in Hrun. cbn in Hrun.
    pose proof (received_trans _ _ _ Hr1 Hr2 ltac:(done)) as (Ht & (Hf2 & _) & _ & Hl & _).
    cbn [fst snd] in *. specialize (Hl Hfit).
    assert (spent s2.2 <= spent w) as Hs2.
    { unfold spent, late, pending in *. rewrite Hi in Hin2. nia. }
    destruct (IH _ Hrun) as (H1 & H2 & H3 & H4); [by rewrite Hl|congruence|done| | |lia|].
    { unfold packets. by rewrite Hl. }
    { unfold spent, late in *. lia. }
    split_and!; [done..|lia].
  - pose (b1 := if code =? FTS_ERR_CHECKSUM then set_stats count_checksum b else b).
    rewrite bind_run with (a := tt) (s' := (b1, w)) in Hrun;
      [|by unfold b1; destruct (_ =? _)].
    mrun_in Hrun. set (b2 := drop_rx _ _) in Hrun.
    assert (Hb2 : rxbuf b2 = drop consumed (rxbuf b) /\ fd b2 = fd b)
      by (unfold b2, b1; destruct (_ =? _); by bus_simpl).
    destruct Hb2 as [Hb2 Hf2].
    destruct (packets_step b w _ _ b2 E ltac:(done) Hb2 Hf2) as [Hpk Hl].
    apply (IH (b2, w)); [done|by apply Hl|by rewrite <- Hfd|done|by rewrite <- Hp|done|done].
Qed.

Lemma rx_status_prompt fuel id cap start s r s' p ps rest :
  rx_status fuel id cap s = Some (r, s') -> no_overflow (line s) ->
  fd s.1 = f -> good s.2 -> packets s = (p :: ps, rest) -> start <= os_time s.2 ->
  spent s.2 + d <= start + (timeout_ms s.1 - 1) * 1000000 -> timeout_ms s.1 <= 2147483647 ->
  r.1 <> FTS_ERR_TIMEOUT /\ r.1 <> FTS_ERR_IO /\ good s'.2 /\ spent s'.2 <= spent s.2 + d.
Proof.
  destruct s as [b w]. unfold rx_status. cbn [fst snd]. intros Hrun Hno Hfd Hg Hp Hs He Ht.
  mrun_in Hrun. destruct (now_ms_run b w) as (now & w1 & Hnow & Hr1 & Hlo & Hhi & Hi).
  destruct (now_ms_prompt _ _ _ _ _ Hg Hnow) as [_ [Hg1 Hl1]].
  rewrite (bind_run _ _ _ _ _ Hnow) in Hrun. cbn beta in Hrun.
  assert (Hl : line (b, w1) = line (b, w)) by (unfold line; cbn; by rewrite Hi).
  assert (Hs1 : spent w1 <= spent w + d) by (unfold spent, pending; rewrite Hi; lia).
  destruct (rx_loop_prompt _ _ _ _ _ _ _ p ps rest Hrun) as (H1 & H2 & H3 & H4);
    cbn [fst snd] in *; [by rewrite Hl|done|done|by unfold packets; rewrite Hl|lia|lia|].
  split_and!; [done..|lia].
Qed.

Lemma sync_loop_prompt fuel ids k len out start s rc out' s' ps rest r :
  sync_read_loop fuel ids k len out FTS_OK s = Some ((rc, out'), s') ->
  no_overflow (line s) -> fd s.1 = f -> good s.2 ->
  packets s = (ps ++ rest, r) -> Forall2 (reply len) ids ps -> start <= os_time s.2 ->
  spent s.2 + d * Z.of_nat (length ids) <= start + (timeout_ms s.1 - 1) * 1000000 ->
  timeout_ms s.1 <= 2147483647 -> rc = FTS_OK.
Proof.
  revert k out s ps. induction ids as [|id ids IH]; intros k out s ps Hrun Hno Hfd Hg Hp Hf Hs He Ht;
    cbn [sync_read_loop] in Hrun.
  { by injection Hrun as <- <- <-. }
  apply M_bind_some in Hrun as ([rc1 got] & s1 & E & Hrun).
  destruct (sync_turn _ _ _ _ _ _ _ E Hno) as (Hno1 & Hs1 & _ & _ & _ & _ & Hgood).
  pose proof (rx_status_time _ _ _ _ _ _ E) as Hle.
  inversion Hf as [|? p ? ps' Hrep Hf']; subst. cbn [app length] in *.
  pose proof (on_time_cost _ Hg).
  destruct (rx_status_prompt _ _ _ start _ _ _ _ _ _ E Hno Hfd Hg Hp Hs) as (H1 & H2 & Hg1 & Hsp);
    [nia|done|]. cbn [fst] in *.
  destruct (Hgood _ _ _ Hp Hrep) as [[E2 Hp1]|E2].
  - cbn beta iota zeta in Hrun. rewrite E2 in Hrun. cbn in Hrun.
    destruct Hs1 as (Hf1 & Ht1 & _).
    eapply IH; [exact Hrun|done|congruence|done|exact Hp1|done| | |congruence]; [lia|rewrite Ht1; nia].
  - exfalso. destruct (_ && _) in E2; destruct E2; done.
Qed.
End Prompt.

(** The receive buffer stays within bounds through every receive. *)
Lemma rx_loop_ok fuel id cap deadline s r s' :
  rx_loop fuel id cap deadline s = Some (r, s') -> bus_ok s.1 ->
  bus_ok s'.1 /\ same_settings s.1 s'.1.
Proof.
  revert s. induction fuel as [|fuel IH]; intros [b w] Hrun Hok; [done|].
  cbn [rx_loop] in Hrun. mrun_in Hrun. cbn [fst] in *.
  destruct (fts_parse_status (rxbuf b)) as [[pkt| |code] consumed] eqn:E.
  - destruct (negb _); mrun_in Hrun; injection Hrun as <- <-; cbn [fst];
      (split; [apply (bus_ok_drop consumed b); [done|]|]; by bus_simpl).
  - destruct (now_ms_run b w) as (now & w1 & Hnow & Hr1 & _).
    rewrite (bind_run _ _ _ _ _ Hnow) in Hrun. cbn beta in Hrun.
    destruct (deadline <? now); [mrun_in Hrun; by injection Hrun as <- <-|].
    destruct (fill_rx_run deadline (b, w1)) as (rc & [b2 w2] & Hfill & Hrc & Hr2 & _).
    rewrite (bind_run _ _ _ _ _ Hfill) in Hrun. cbn beta in Hrun.
    destruct Hr2 as (_ & Hs2 & Hok2 & _). specialize (Hok2 Hok). cbn [fst] in *.
    destruct Hrc as [->|[->| ->]]; cbn in Hrun; mrun_in Hrun;
      [|by injection Hrun as <- <-..].
    destruct (IH _ Hrun Hok2). split; [done|by eapply same_settings_trans].
  - pose (b1 := if code =? FTS_ERR_CHECKSUM then set_stats count_checksum b else b).
    rewrite bind_run with (a := tt) (s' := (b1, w)) in Hrun;
      [|by unfold b1; destruct (_ =? _)].
    mrun_in Hrun. set (b2 := drop_rx _ _) in Hrun.
    assert (Hb2 : rxbuf b2 = drop consumed (rxbuf b) /\ same_settings b b2)
      by (unfold b2, b1; destruct (_ =? _); by bus_simpl).
    destruct Hb2 as [Hb2 Hs2].
    destruct (IH _ Hrun ltac:(by apply (bus_ok_drop consumed b))).
    split; [done|by eapply same_settings_trans].
Qed.

Lemma rx_status_ok fuel id cap s r s' :
  rx_status fuel id cap s = Some (r, s') -> bus_ok s.1 ->
  bus_ok s'.1 /\ same_settings s.1 s'.1.
Proof.
  destruct s as [b w]. unfold rx_status. intros Hrun Hok. mrun_in Hrun.
  destruct (now_ms_run b w) as (now & w1 & Hnow & _).
  rewrite (bind_run _ _ _ _ _ Hnow) in Hrun. cbn beta in Hrun.
  by apply (rx_loop_ok _ _ _ _ _ _ _ Hrun).
Qed.

Lemma sync_loop_total fuel ids k len out fe s :
  bus_ok s.1 -> (rx_fuel (timeout_ms s.1) <= fuel)%nat ->
  exists r s', sync_read_loop fuel ids k len out fe s = Some (r, s') /\ bus_ok s'.1 /\
    same_settings s.1 s'.1.
Proof.
  revert k out fe s. induction ids as [|id ids IH]; intros k out fe s Hok Hf;
    cbn [sync_read_loop].
  { do 2 eexists. auto using same_settings_refl. }
  destruct (rx_status_total fuel id len s Hok Hf) as [[[rc got] s1] E].
  rewrite (bind_run _ _ _ _ _ E). cbn beta iota zeta.
  destruct (rx_status_ok _ _ _ _ _ _ E Hok) as (Hok1 & Hs1).
  match goal with |- context [if ?c =? FTS_ERR_TIMEOUT then _ else _] =>
    destruct (c =? FTS_ERR_TIMEOUT) end; [by do 2 eexists|].
  destruct (IH (S k) (memcpy_at out (k * len) got)
    (let rc' := if (rc =? FTS_OK) && negb (length got =? len)%nat then FTS_ERR_BAD_PKT else rc in
     if negb (rc' =? 0) && (fe =? 0) then rc' else fe) s1 Hok1) as (r & s' & Hrun & Hok' & Hs').
  { by rewrite (proj1 (proj2 Hs1)). }
  exists r, s'. split_and!; [done|done|by eapply same_settings_trans].
Qed.

(** The parameter block of a sync write: an ID and [len] bytes per servo. *)
Lemma length_sync_params ids len data :
  length data = (length ids * len)%nat -> length (sync_params ids len data) = (length ids * S len)%nat.
Proof.
  revert data. induction ids as [|id ids IH]; intros data Hdata; [done|].
  cbn in *. rewrite length_app, length_take, IH by (rewrite length_drop; lia). lia.
Qed.

(** The request is short enough to be sent. *)
Definition sync_read_ok (ids : list Z) (len : Z) : Prop :=
  ids <> [] /\ 0 < len /\ Z.of_nat (length ids) <= 242.

Lemma sync_read_run fuel ids addr len buf s :
  sync_read_ok ids len ->
  fts_sync_read fuel ids addr len (Some buf) s =
  (rc ← tx_packet fuel (frame FTS_BROADCAST_ID FTS_INST_SYNC_READ (addr :: len :: ids));
   if negb (rc =? 0) then mret (rc, Some buf)
   else '(rc, buf) ← sync_read_loop fuel ids 0 (Z.to_nat len) buf FTS_OK;
        mret (rc, Some buf)) s.
Proof.
  intros (Hne & Hl & Hn). unfold fts_sync_read. unfold FTS_MAX_PKT. rewrite Z.gtb_ltb.
  assert (Z.of_nat (length ids) <> 0) by (destruct ids; [done|cbn; lia]).
  rewrite (proj2 (Z.eqb_neq (Z.of_nat (length ids)) 0)) by done.
  rewrite (proj2 (Z.eqb_neq len 0)), (proj2 (Z.ltb_ge _ _)) by lia. cbn [orb].
  by rewrite build_packet_frame by (cbn [length]; lia).
Qed.
End Laws.

(** ** Properties *)

(** A simulated follower: bus and world of the witnesses.  The replies of servos
    1 and 2 to a two-byte sync read arrive after junk, cut in three chunks. *)
Definition sim_bus : fts_bus := mk_bus 3 4 false 0 no_stats [].
Definition sim_replies : list Z := frame 1 0 [0x00; 0x08] ++ frame 2 0 [0x10; 0x04].
Definition sim_line (bs : list Z) : sim :=
  mk_sim 5000 [take 3 bs; take 8 (drop 3 bs); drop 11 bs] [] [3].

(** One [rx_status] takes exactly one packet off the line: on [FTS_OK] the
    next packet, which is from the expected servo and whose data it returns; on
    [FTS_ERR_ID] the next packet, which is from another servo; on a timeout or an
    I/O error none, so that every packet still on the line can be received later. *)
Theorem rx_status_takes_one_packet {W} {os : OS W} {laws : OSLaws W} {stream : OSStream W}
    fuel id cap (s s' : fts_bus * W) rc data :
  no_overflow (line s) ->
  rx_status fuel id cap s = Some ((rc, data), s') ->
  (rc = FTS_OK /\ exists p, pkt_id p = id /\ data = take cap (pkt_data p) /\
     packets s = (p :: (packets s').1, (packets s').2)) \/
  (rc = FTS_ERR_ID /\ exists p, pkt_id p <> id /\
     packets s = (p :: (packets s').1, (packets s').2)) \/
  ((rc = FTS_ERR_TIMEOUT \/ rc = FTS_ERR_IO) /\ packets s = packets s').
Proof.
  intros Hno Hrun. destruct (rx_status_exact _ _ _ _ _ _ Hrun Hno) as [Hout _].
  inversion Hout; subst; [left|right; left|right; right..]; eauto 10.
Qed.

Lemma rx_status_takes_one_packet_witness :
  exists s', rx_status 20 1 2 (sim_bus, sim_line ([0x12] ++ sim_replies))
               = Some ((FTS_OK, [0x00; 0x08]), s') /\
    exists p, pkt_id p = 1 /\
      packets (sim_bus, sim_line ([0x12] ++ sim_replies)) = (p :: (packets s').1, (packets s').2).
Proof.
  eexists. split; [vm_compute; reflexivity|].
  destruct (rx_status_takes_one_packet 20 1 2 (sim_bus, sim_line ([0x12] ++ sim_replies))
              _ FTS_OK [0x00; 0x08]
              ltac:(apply no_overflow_short; vm_compute; lia) ltac:(vm_compute; reflexivity))
    as [(_ & p & Hid & _ & Hp)|[(H & _)|([H|H] & _)]]; [|discriminate..].
  exists p. split; [exact Hid|exact Hp].
Defined.

(** The line after the request: what [tcflush] left of the input. *)
Definition flushed {W} {os : OS W} {stream : OSStream W} (b : fts_bus) (w : W) : list Z :=
  os_input (os_flush_in (fd b) w) (fd b).

(** A successful sync read into a buffer with room to spare, of which the rest stays. *)
Lemma sync_read_replies {W} {os : OS W} {laws : OSLaws W} {stream : OSStream W}
    fuel ids addr len x y b (w : W) out' s' :
  sync_read_ok ids len -> echo b = false ->
  length x = (length ids * Z.to_nat len)%nat ->
  no_overflow (flushed b w) ->
  fts_sync_read fuel ids addr len (Some (x ++ y)) (b, w) = Some ((FTS_OK, out'), s') ->
  exists ps,
    Forall2 (reply (Z.to_nat len)) ids ps /\
    drain_all (flushed b w) = (ps ++ (packets s').1, (packets s').2) /\
    out' = Some (payloads (Z.to_nat len) ps ++ y).
Proof.
  intros Hok Hecho Hbuf Hno Hrun. rewrite sync_read_run in Hrun by done.
  apply M_bind_some in Hrun as (rc1 & s1 & Etx & Hrun).
  destruct (tx_packet_exact _ _ _ _ _ Etx) as (_ & _ & Hrc & _ & Hline).
  specialize (Hline Hecho). cbn [fst snd] in *.
  destruct Hrc as [->| ->]; cbn in Hrun; [|done].
  apply M_bind_some in Hrun as ([rc2 buf2] & s2 & Eloop & Hrun).
  injection Hrun as -> <- <-.
  destruct (sync_loop_sound _ _ _ _ _ _ _ _ _ _ Eloop) as (_ & _ & _ & Hps).
  { by rewrite Hline. }
  destruct (Hps [] x y) as (ps & Hf & Hp & ->); try done.
  exists ps. unfold packets in Hp. by rewrite Hline in Hp.
Qed.

(** C10: when [fts_sync_read] returns [FTS_OK], the next packets on the line after
    the request were one reply per servo, in the order of [ids], each with [len]
    bytes, and [out] holds exactly those bytes in that order: a stale, missing or
    short reply is never taken for data. *)
Theorem sync_read_sound {W} {os : OS W} {laws : OSLaws W} {stream : OSStream W}
    fuel ids addr len buf b (w : W) out' s' :
  sync_read_ok ids len -> echo b = false ->
  length buf = (length ids * Z.to_nat len)%nat ->
  no_overflow (flushed b w) ->
  fts_sync_read fuel ids addr len (Some buf) (b, w) = Some ((FTS_OK, out'), s') ->
  exists ps,
    Forall2 (reply (Z.to_nat len)) ids ps /\
    drain_all (flushed b w) = (ps ++ (packets s').1, (packets s').2) /\
    out' = Some (payloads (Z.to_nat len) ps).
Proof.
  intros Hok Hecho Hbuf Hno Hrun. rewrite <- (app_nil_r buf) in Hrun.
  destruct (sync_read_replies _ _ _ _ _ _ _ _ _ _ Hok Hecho Hbuf Hno Hrun) as (ps & Hf & Hd & ->).
  exists ps. by rewrite app_nil_r.
Qed.

Lemma sync_read_sound_witness :
  exists ps, Forall2 (reply 2) [1; 2] ps /\ Some [0x00; 0x08; 0x10; 0x04] = Some (payloads 2 ps).
Proof.
  edestruct (sync_read_sound 20 [1; 2] STS_PRESENT_POSITION 2 [0; 0; 0; 0] sim_bus
               (sim_line ([0x12] ++ sim_replies)) (Some [0x00; 0x08; 0x10; 0x04]))
    as (ps & Hf & Hd & Ho).
  - split; [done|]. split; [lia|cbn; lia].
  - reflexivity.
  - reflexivity.
  - apply no_overflow_short. vm_compute. lia.
  - vm_compute. reflexivity.
  - exists ps. split; [exact Hf|exact Ho].
Defined.

(** How many calls a sync read makes at most when the servos answer: the flush, the
    writes, a clock reading per servo, and four calls for each byte received. *)
Definition sync_read_calls {W} {os : OS W} {laws : OSLaws W} {stream : OSStream W}
    (ids : list Z) (b : fts_bus) (w : W) : nat :=
  (1 + (length ids + 8 + os_intr (os_flush_in (fd b) w)) + length ids
   + 4 * length (flushed b w))%nat.

Lemma tx_packet_prompt {W} {os : OS W} {laws : OSLaws W} {stream : OSStream W}
    (f T d : Z) (good : W -> Prop) (P : prompt f T d good) fuel pkt b (w : W) rc s' :
  tx_packet fuel pkt (b, w) = Some (rc, s') -> fd b = f -> echo b = false -> good w ->
  rc = FTS_OK /\ good s'.2 /\ os_time w <= os_time s'.2 /\
  spent f T d s'.2 <= Z.max (os_time w) T
    + d * Z.of_nat (1 + (length pkt + os_intr (os_flush_in f w)) + 4 * length (flushed b w)).
Proof.
  intros Hrun <- Hecho Hg. unfold tx_packet in Hrun. mrun_in Hrun.
  apply M_bind_some in Hrun as (rc1 & [b1 w1] & E & Hrun).
  destruct (write_all_exact _ _ _ _ _ _ _ E) as (Hb1 & _ & Hi & _).
  pose proof (write_all_time _ _ _ _ _ _ _ E) as Ht. pose proof (flush_time (fd b) w) as Ht0.
  destruct (prompt_flush _ _ _ _ P w Hg) as [Hg0 Hl0].
  destruct (write_all_prompt _ _ _ _ P _ _ _ _ _ _ Hg0 E) as (-> & Hg1 & Hl1).
  cbn [fst snd] in *. subst b1. cbn in Hrun. mrun_in Hrun. cbn in Hrun. rewrite Hecho in Hrun.
  injection Hrun as <- <-. cbn [snd]. split_and!; [done|done|lia|].
  unfold spent, pending, late, flushed in *. rewrite Hi. nia.
Qed.

Lemma sim_prompt f : prompt f 5000 1000 (fun w => Forall (fun c => c <> []) (sm_rx w)).
Proof.
  split; unfold on_time, late; cbn.
  - intros w Hg. split; [done|]. lia.
  - intros w Hg. split; [done|]. lia.
  - intros bs w Hg. split_and!; [done|lia|done].
  - intros ms w Hg Hne _. destruct (sm_rx w) eqn:E; [done|]. cbn. rewrite E.
    split_and!; [done|lia|by eexists].
  - intros ms n w err Hg. destruct (sm_rx w) as [|c cs] eqn:E; [done|]. cbn. rewrite E. cbn.
    intros _ Hn. inversion Hg as [|? ? Hc Hcs]; subst. split_and!; [|lia|].
    + destruct (drop n c) eqn:Ed; [done|]. by constructor.
    + eexists. split; [|done]. destruct c, n; [done|done|lia|done].
Qed.

Lemma sync_read_returns {W} {os : OS W} {laws : OSLaws W} {stream : OSStream W}
    fuel ids addr len buf b (w : W) :
  sync_read_ok ids len -> echo b = false ->
  (length ids + 9 + os_intr (os_flush_in (fd b) w) <= fuel)%nat ->
  (rx_fuel (timeout_ms b) <= fuel)%nat ->
  exists rc out s',
    fts_sync_read fuel ids addr len (Some buf) (b, w) = Some ((rc, Some out), s') /\
    bus_ok s'.1.
Proof.
  intros Hok Hecho Hf1 Hf2. rewrite sync_read_run by done.
  edestruct (tx_packet_total fuel (frame FTS_BROADCAST_ID FTS_INST_SYNC_READ (addr :: len :: ids))
               (b, w)) as [[rc s1] Etx]; [done|rewrite length_frame; cbn [length fst snd]; lia|].
  rewrite (bind_run _ _ _ _ _ Etx).
  destruct (tx_packet_exact _ _ _ _ _ Etx) as ((_ & Ht & _) & Hok1 & _). cbn [fst] in Ht.
  destruct (negb (rc =? 0)); [by do 3 eexists|].
  destruct (sync_loop_total fuel ids 0 (Z.to_nat len) buf FTS_OK s1) as ([rc2 buf2] & s2 & E & Hok2 & _);
    [done|by rewrite Ht|].
  rewrite (bind_run _ _ _ _ _ E). cbn beta iota. by do 3 eexists.
Qed.

(** C24: if every servo answers, in order, with enough bytes and in time, then
    however the replies are cut into chunks and whatever junk precedes them,
    [fts_sync_read] succeeds and [out] holds exactly their data.  In time: what is
    on the line has arrived by an instant [T], and [T] plus the cost of the calls
    (at most [d] each) is within the time-out, less the millisecond of the clock's
    resolution. *)
Theorem sync_read_complete {W} {os : OS W} {laws : OSLaws W} {stream : OSStream W}
    fuel ids addr len buf b (w : W) ps rest r (T d : Z) (good : W -> Prop) :
  sync_read_ok ids len -> echo b = false ->
  length buf = (length ids * Z.to_nat len)%nat ->
  (length ids + 9 + os_intr (os_flush_in (fd b) w) <= fuel)%nat ->
  (rx_fuel (timeout_ms b) <= fuel)%nat ->
  no_overflow (flushed b w) ->
  drain_all (flushed b w) = (ps ++ rest, r) -> Forall2 (reply (Z.to_nat len)) ids ps ->
  prompt (fd b) T d good -> good w -> os_time w <= T -> timeout_ms b <= 2147483647 ->
  T + d * Z.of_nat (sync_read_calls ids b w) <= os_time w + (timeout_ms b - 1) * 1000000 ->
  exists s', fts_sync_read fuel ids addr len (Some buf) (b, w)
             = Some ((FTS_OK, Some (payloads (Z.to_nat len) ps)), s').
Proof.
  intros Hok Hecho Hbuf Hf1 Hf2 Hno Hd Hf P Hg HT Hmax Htime.
  destruct (sync_read_returns fuel ids addr len buf b w Hok Hecho Hf1 Hf2) as (rc & out & s' & Hrun & _).
  exists s'. enough (rc = FTS_OK) as ->.
  { rewrite <- (app_nil_r buf) in Hrun.
    destruct (sync_read_replies _ _ _ _ _ _ _ _ _ _ Hok Hecho Hbuf Hno Hrun) as (ps' & Hf' & Hd' & [= ->]).
    rewrite !app_nil_r in Hrun. rewrite Hrun. rewrite Hd in Hd'. injection Hd' as Hd' _.
    apply app_inj_1 in Hd' as [-> _]; [done|].
    by rewrite <- (Forall2_length Hf), <- (Forall2_length Hf'). }
  rewrite sync_read_run in Hrun by done.
  apply M_bind_some in Hrun as (rc1 & s1 & Etx & Hrun).
  destruct (tx_packet_prompt _ _ _ _ P _ _ _ _ _ _ Etx eq_refl Hecho Hg) as (-> & Hg1 & Ht1 & Hs1).
  destruct (tx_packet_exact _ _ _ _ _ Etx) as ((Hfd1 & Hto & _) & _ & _ & _ & Hline).
  specialize (Hline Hecho). cbn [fst snd] in *. cbn in Hrun.
  apply M_bind_some in Hrun as ([rc2 buf2] & s2 & Eloop & Hrun).
  injection Hrun as <- _ _.
  eapply (sync_loop_prompt (fd b) T d good P _ _ _ _ _ (os_time w)); try done;
    rewrite ?Hline, ?Hto; try done.
  { unfold packets. rewrite Hline. exact Hd. }
  rewrite length_frame in Hs1. unfold spent, late, sync_read_calls, flushed in *. cbn [length] in *.
  nia.
Qed.

Lemma sync_read_complete_witness :
  exists s',
    fts_sync_read (rx_fuel 4 + 11) [1; 2] 56 2 (Some [0; 0; 0; 0])
      (sim_bus, sim_line ([0x12] ++ sim_replies))
    = Some ((FTS_OK, Some [0x00; 0x08; 0x10; 0x04]), s').
Proof.
  apply (sync_read_complete (rx_fuel 4 + 11) [1; 2] 56 2 [0; 0; 0; 0] sim_bus
           (sim_line ([0x12] ++ sim_replies))
           [mk_packet 1 0 [0x00; 0x08]; mk_packet 2 0 [0x10; 0x04]] [] [] 5000 1000
           (fun w => Forall (fun c => c <> []) (sm_rx w))).
  - split; [done|]. split; [lia|cbn; lia].
  - reflexivity.
  - reflexivity.
  - change (os_intr _) with 0%nat. apply Nat.le_trans with 11%nat; [cbn; lia|apply Nat.le_add_l].
  - apply Nat.le_add_r.
  - apply no_overflow_short. vm_compute. lia.
  - vm_compute. reflexivity.
  - repeat constructor.
  - apply sim_prompt.
  - repeat constructor; discriminate.
  - vm_compute. discriminate.
  - vm_compute. discriminate.
  - vm_compute. discriminate.
Defined.

(** C25: a sync read always ends, whatever the servos and the line do (silence,
    noise, a flood of garbage, a port that is gone): with the stated fuel, which
    depends only on the request and the timeout, it returns a code.  So the
    control loop cannot hang in the driver, and the receive buffer is again
    within its bounds. *)
Theorem sync_read_terminates {W} {os : OS W} {laws : OSLaws W} {stream : OSStream W}
    fuel ids addr len buf b (w : W) :
  sync_read_ok ids len -> echo b = false ->
  (length ids + 9 + os_intr (os_flush_in (fd b) w) <= fuel)%nat ->
  (rx_fuel (timeout_ms b) <= fuel)%nat ->
  exists rc out s',
    fts_sync_read fuel ids addr len (Some buf) (b, w) = Some ((rc, Some out), s') /\
    bus_ok s'.1.
Proof. apply sync_read_returns. Qed.

Lemma sync_read_terminates_witness :
  exists rc out s',
    fts_sync_read (rx_fuel 4 + 11) [1; 2] 56 2 (Some [0; 0; 0; 0]) (sim_bus, sim_line [0x12])
    = Some ((rc, Some out), s') /\ bus_ok s'.1.
Proof.
  apply sync_read_terminates; cbn [length sim_bus timeout_ms].
  - split; [done|]. split; [lia|cbn; lia].
  - reflexivity.
  - change (os_intr _) with 0%nat. apply Nat.le_trans with 11%nat; [lia|apply Nat.le_add_l].
  - apply Nat.le_add_r.
Defined.

(** C30: [fts_sync_write] refuses a request that is empty or does not fit in a
    packet: it returns [FTS_ERR_ARG] and touches neither bus nor port.  For every
    other request either exactly one packet goes on the wire (broadcast ID,
    SYNC_WRITE, then address, length and each servo's bytes after its ID) and it
    returns [FTS_OK], or the port fails and it returns [FTS_ERR_IO]. *)
Theorem sync_write_on_the_wire {W} {os : OS W} {laws : OSLaws W} {stream : OSStream W}
    fuel ids addr len data b (w : W) rc s' :
  0 <= len -> length data = (length ids * Z.to_nat len)%nat ->
  fts_sync_write fuel ids addr len (Some data) (b, w) = Some (rc, s') ->
  let params := addr :: len :: sync_params ids (Z.to_nat len) data in
  ((ids = [] \/ len = 0 \/ 244 < Z.of_nat (length params)) ->
     rc = FTS_ERR_ARG /\ s' = (b, w)) /\
  (ids <> [] -> len <> 0 -> Z.of_nat (length params) <= 244 ->
     rc = FTS_ERR_IO \/
     rc = FTS_OK /\
     os_output s'.2 (fd b)
     = os_output w (fd b) ++ fts_build_packet FTS_BROADCAST_ID FTS_INST_SYNC_WRITE params).
Proof.
  intros Hlen Hdata Hrun params.
  assert (Hp : Z.of_nat (length params) = 2 + Z.of_nat (length ids) * (len + 1)).
  { unfold params. cbn [length]. rewrite length_sync_params by lia. lia. }
  unfold fts_sync_write in Hrun. unfold FTS_MAX_PKT in Hrun. rewrite Z.gtb_ltb in Hrun.
  rewrite <- Hp in Hrun. split.
  - intros Hbad. rewrite (proj2 (orb_true_iff _ _)) in Hrun; [by injection Hrun as <- <-|].
    rewrite orb_true_iff, !Z.eqb_eq, Z.ltb_lt.
    destruct Hbad as [->|[->|H]]; [by left; left|by left; right|right; lia].
  - intros Hne Hl H. rewrite (proj2 (Z.eqb_neq (Z.of_nat _) 0)) in Hrun by (destruct ids; [done|cbn; lia]).
    rewrite (proj2 (Z.eqb_neq len 0)), (proj2 (Z.ltb_ge _ _)) in Hrun by lia. cbn [orb] in Hrun.
    destruct (tx_packet_exact _ _ _ _ _ Hrun) as (_ & _ & [->| ->] & Ho & _); [right|by left].
    split; [done|by apply Ho].
Qed.

Lemma sync_write_on_the_wire_witness :
  exists s', fts_sync_write 20 [1; 2] STS_TORQUE_ENABLE 1 (Some [1; 1]) (sim_bus, sim_line [])
             = Some (FTS_OK, s') /\
    os_output s'.2 3 = [0xFF; 0xFF; 0xFE; 0x08; 0x83; 40; 1; 1; 1; 2; 1; 0x48].
Proof.
  eexists. split; [vm_compute; reflexivity|].
  edestruct (sync_write_on_the_wire 20 [1; 2] STS_TORQUE_ENABLE 1 [1; 1] sim_bus (sim_line [])
            FTS_OK) as [_ H]; [lia|reflexivity|vm_compute; reflexivity|].
  destruct H as [H|(_ & H)]; [discriminate|discriminate|vm_compute; discriminate|discriminate|].
  etransitivity; [exact H|vm_compute; reflexivity].
Defined.

(** [fts_open] leaks no descriptor: on success the only new one is
    [bus->fd]; on every failure (unknown baud rate, [open], [tcgetattr],
    [tcsetattr]) the descriptor table is as before and [bus->fd] is -1.  Closing
    the bus afterwards restores the table in all cases. *)
Lemma open_close_descriptors {W} {os : OS W} {fds : OSFds W} path baud b (w : W) :
  exists rc s' s'',
    fts_open path baud (b, w) = Some (rc, s') /\
    (rc = FTS_OK -> os_fds s'.2 = fd s'.1 :: os_fds w /\ (fd s'.1 ∉ os_fds w) /\
                    0 <= fd s'.1 /\ baud_to_speed baud <> 0) /\
    (rc <> FTS_OK -> os_fds s'.2 = os_fds w /\ fd s'.1 = -1) /\
    fts_close s' = Some (tt, s'') /\ os_fds s''.2 = os_fds w /\ fd s''.1 = -1.
Proof.
  assert (Hrm : forall (f : Z) (l : list Z), f ∉ l -> filter (fun x => x <> f) (f :: l) = l).
  { intros f l Hf. rewrite filter_cons_False by (intros H; by apply H).
    induction l as [|x l IH]; [done|]. apply not_elem_of_cons in Hf as [? ?].
    rewrite filter_cons_True by done. by rewrite IH. }
  assert (Hfail : forall rc (b1 : fts_bus) w1, rc <> FTS_OK -> fd b1 = -1 -> os_fds w1 = os_fds w ->
    exists rc' s' s'', Some (rc, (b1, w1)) = Some (rc', s') /\
    (rc' = FTS_OK -> os_fds s'.2 = fd s'.1 :: os_fds w /\ (fd s'.1 ∉ os_fds w) /\
                    0 <= fd s'.1 /\ baud_to_speed baud <> 0) /\
    (rc' <> FTS_OK -> os_fds s'.2 = os_fds w /\ fd s'.1 = -1) /\
    fts_close s' = Some (tt, s'') /\ os_fds s''.2 = os_fds w /\ fd s''.1 = -1).
  { intros rc b1 w1 Hrc Hfd Hw. exists rc, (b1, w1), (set_fd (-1) b1, w1).
    split_and!; try done. unfold fts_close. mrun. by rewrite Hfd. }
  unfold fts_open. mrun. destruct (Z.eqb_spec (baud_to_speed baud) 0) as [|Hbaud]; [by apply Hfail|].
  mrun. pose proof (open_some path w) as Hs. pose proof (open_none path w) as Hn.
  destruct (os_open path w) as [[f|] w1]; cbn [fst snd] in *; [|by apply Hfail; auto].
  destruct (Hs f eq_refl) as (Hf0 & Hf & Hw1). mrun.
  pose proof (tcgetattr_fds f (os_excl f w1)) as Hg. rewrite excl_fds in Hg.
  destruct (os_tcgetattr f (os_excl f w1)) as [[tio|] w2]; cbn [fst snd] in *; mrun.
  - pose proof (tcsetattr_fds f (raw_settings (baud_to_speed baud) tio) w2) as Ht.
    destruct (os_tcsetattr f _ w2) as [[] w3]; cbn [fst snd negb] in *; mrun.
    + set (b1 := set_fd f _).
      exists FTS_OK, (b1, os_flush_io f w3), (set_fd (-1) b1, os_close f (os_flush_io f w3)).
      cbn [fst snd]. rewrite close_fds, flush_io_fds, Ht, Hg, Hw1.
      change (fd b1) with f. split; [done|]. split; [|split; [done|split; [|by auto]]].
      * intros _. auto.
      * unfold fts_close. mrun. change (fd b1) with f. by rewrite (proj2 (Z.leb_le _ _)).
    + apply Hfail; [done|done|]. by rewrite close_fds, Ht, Hg, Hw1, Hrm.
  - apply Hfail; [done|done|]. by rewrite close_fds, Hg, Hw1, Hrm.
Qed.

(** The comment of [fill_rx] says of its full-buffer branch that it "should never
    happen".  It can: bytes without a header are kept while the parser asks for
    more, so a packet behind 1020 bytes of noise is cut in two by the emptying of
    the buffer and lost, where the same packet behind 1016 bytes of noise is
    received. *)
Definition noisy_line (noise : nat) : sim :=
  sim_line (replicate noise 0 ++ [0xFF; 0xFF; 1; 2; 0; 0xFC]).

Lemma full_buffer_loses_packet :
  (exists s, rx_status 10 1 0 (sim_bus, noisy_line 1016) = Some ((FTS_OK, []), s)) /\
  (exists s, rx_status 10 1 0 (sim_bus, noisy_line 1020) = Some ((FTS_ERR_TIMEOUT, []), s)).
Proof. split; eexists; vm_compute; reflexivity. Qed.
