(* ===== verification/BusFrames.v ===== *)
(** * What the bus transactions leave alone

    Frame properties of [Bus.v] that its callers need: the transactions are total, they
    keep the settings of the bus, they neither open nor close descriptors, and what a
    sync read stores fills the caller's buffer with bytes. *)

From stdpp Require Import strings.
From S2P Require Import Prelude Os Protocol Bus BusProps.

(** ** Views of the world

    Something of the world that the calls leave alone: the descriptor table, or what was
    written to a port. *)

Section View.
Context {W : Type} {os : OS W} {X : Type} (view : W -> X).

(** A computation that does not change it. *)
Definition kept {A} (m : M (fts_bus * W) A) : Prop :=
  forall s r s', m s = Some (r, s') -> view s'.2 = view s.2.

Lemma kept_bind {A B} (m : M (fts_bus * W) A) (f : A -> M (fts_bus * W) B) :
  kept m -> (forall a, kept (f a)) -> kept (m ≫= f).
Proof.
  intros Hm Hf s r s' (a & s1 & H1 & H2)%M_bind_some. by rewrite (Hf _ _ _ _ H2), (Hm _ _ _ H1).
Qed.

Lemma kept_ret {A} (a : A) : kept (mret a).
Proof. by intros s r s' [= <- <-]. Qed.

Lemma kept_fuel {A} : kept (@out_of_fuel (fts_bus * W) A).
Proof. done. Qed.

Lemma kept_get : kept (get_bus (W := W)).
Proof. by intros s r s' [= <- <-]. Qed.

Lemma kept_upd f : kept (upd_bus (W := W) f).
Proof. by intros s r s' [= <- <-]. Qed.

Lemma kept_sys {A} (f : W -> A * W) : (forall w, view (f w).2 = view w) -> kept (sys f).
Proof. intros Hf [b w] r s' [= <- <-]. apply Hf. Qed.

Lemma kept_sys_ (f : W -> W) : (forall w, view (f w) = view w) -> kept (sys_ f).
Proof. intros Hf [b w] r s' [= <- <-]. apply Hf. Qed.

Create HintDb kept.
#[local] Hint Resolve kept_ret kept_fuel kept_get kept_upd kept_sys kept_sys_ : kept.

(** Through the binds and the branches, down to the calls. *)
Ltac keep :=
  repeat first
    [ progress eauto 3 with kept
    | apply kept_bind; [|intros ?]
    | match goal with |- kept (if ?b then _ else _) => destruct b end
    | match goal with |- kept (match ?x with _ => _ end) => destruct x end ].

(** What receiving calls. *)
Context (Hclock : forall w, view (os_clock w).2 = view w)
  (Hpoll : forall fd ms w, view (os_poll fd ms w).2 = view w)
  (Hread : forall fd n w, view (os_read fd n w).2 = view w).

Lemma kept_now : kept (now_ms (W := W)).
Proof. unfold now_ms. keep. Qed.
#[local] Hint Resolve kept_now : kept.

Lemma kept_fill deadline : kept (fill_rx (W := W) deadline).
Proof. unfold fill_rx. keep. Qed.
#[local] Hint Resolve kept_fill : kept.

Lemma kept_rx_loop fuel id cap deadline : kept (rx_loop (W := W) fuel id cap deadline).
Proof. induction fuel as [|fuel IH]; cbn [rx_loop]; keep. Qed.
#[local] Hint Resolve kept_rx_loop : kept.

Lemma kept_rx fuel id cap : kept (rx_status (W := W) fuel id cap).
Proof. unfold rx_status. keep. Qed.
#[local] Hint Resolve kept_rx : kept.

Lemma kept_sync_loop fuel ids k len out fe : kept (sync_read_loop (W := W) fuel ids k len out fe).
Proof. revert k out fe. induction ids as [|id ids IH]; intros k out fe; cbn [sync_read_loop]; keep. Qed.
#[local] Hint Resolve kept_sync_loop : kept.

Lemma kept_raw_loop fuel cap deadline got : kept (raw_loop (W := W) fuel cap deadline got).
Proof. revert got. induction fuel as [|fuel IH]; intros got; cbn [raw_loop]; keep. Qed.

(** What sending calls besides. *)
Context (Hwrite : forall fd bs w, view (os_write fd bs w).2 = view w)
  (Hflush : forall fd w, view (os_flush_in fd w) = view w).

Lemma kept_write fuel fd buf : kept (write_all (W := W) fuel fd buf).
Proof. revert buf. induction fuel as [|fuel IH]; intros buf; cbn [write_all]; keep. Qed.
#[local] Hint Resolve kept_write : kept.

Lemma kept_echo fuel len deadline : kept (swallow_echo (W := W) fuel len deadline).
Proof. induction fuel as [|fuel IH]; cbn [swallow_echo]; keep. Qed.
#[local] Hint Resolve kept_echo : kept.

Lemma kept_tx fuel pkt : kept (tx_packet (W := W) fuel pkt).
Proof. unfold tx_packet. keep. Qed.
#[local] Hint Resolve kept_tx : kept.

Lemma kept_sync_read fuel ids addr len out : kept (fts_sync_read (W := W) fuel ids addr len out).
Proof. unfold fts_sync_read. keep. Qed.

Lemma kept_sync_write fuel ids addr len data : kept (fts_sync_write (W := W) fuel ids addr len data).
Proof. unfold fts_sync_write. keep. Qed.
End View.

#[export] Hint Resolve clock_fds poll_fds read_fds write_fds flush_in_fds : kept.
#[export] Hint Resolve clock_output poll_output read_output flush_output : kept.

(** The transactions neither open nor close descriptors. *)
Abbreviation fds_kept := (kept os_fds).

Section Descriptors.
Context {W : Type} {os : OS W} {fds : OSFds W}.

Lemma sync_read_fds fuel ids addr len out : fds_kept (fts_sync_read (W := W) fuel ids addr len out).
Proof. apply kept_sync_read; auto with kept. Qed.

Lemma sync_write_fds fuel ids addr len data : fds_kept (fts_sync_write (W := W) fuel ids addr len data).
Proof. apply kept_sync_write; auto with kept. Qed.
End Descriptors.

(** ** What a receive stores *)

Section Data.
Context {W : Type} {os : OS W} {laws : OSLaws W} {stream : OSStream W}.

Lemma found_bytes buf p c : fts_parse_status buf = (Found p, c) -> bytes buf -> bytes (pkt_data p).
Proof.
  intros (junk & rest & -> & _)%parse_found_frame Hb. unfold frame, frame_body in Hb.
  rewrite !Forall_app in Hb. tauto.
Qed.

(** At most what was asked for, and bytes; nothing but on FTS_OK. *)
Definition stored (cap : nat) (r : Z * list Z) : Prop := (length r.2 <= cap)%nat /\ bytes r.2.

Lemma rx_loop_stored fuel id cap deadline s r s' :
  rx_loop fuel id cap deadline s = Some (r, s') -> bus_ok s.1 -> stored cap r.
Proof.
  assert (Hnil : forall rc, stored cap (rc, [])) by (intros rc; split; [cbn; lia|constructor]).
  revert s. induction fuel as [|fuel IH]; intros [b w] Hrun Hok; [done|].
  cbn [rx_loop] in Hrun. mrun_in Hrun. cbn [fst] in *.
  destruct (fts_parse_status (rxbuf b)) as [[pkt| |code] consumed] eqn:E.
  - destruct (negb _); mrun_in Hrun; injection Hrun as <- <-; [done|].
    split; cbn [snd]; [rewrite length_take; lia|]. apply Forall_take. eapply found_bytes; [done|apply Hok].
  - destruct (now_ms_run b w) as (now & w1 & Hnow & Hr1 & _).
    rewrite (bind_run _ _ _ _ _ Hnow) in Hrun. cbn beta in Hrun.
    destruct (deadline <? now); [mrun_in Hrun; by injection Hrun as <- <-|].
    destruct (fill_rx_run deadline (b, w1)) as (rc & [b2 w2] & Hfill & Hrc & Hr2 & _).
    rewrite (bind_run _ _ _ _ _ Hfill) in Hrun. cbn beta in Hrun.
    destruct Hrc as [->|[->| ->]]; cbn in Hrun; mrun_in Hrun; [|by injection Hrun as <- <-..].
    apply (IH _ Hrun). by apply Hr2.
  - rewrite bind_run with (a := tt) (s' := (if code =? FTS_ERR_CHECKSUM then set_stats count_checksum b else b, w))
      in Hrun; [|by destruct (_ =? _)].
    mrun_in Hrun. apply (IH _ Hrun). apply (bus_ok_drop consumed b); [done|].
    destruct (_ =? _); by bus_simpl.
Qed.

Lemma rx_status_stored fuel id cap s r s' :
  rx_status fuel id cap s = Some (r, s') -> bus_ok s.1 -> stored cap r.
Proof.
  destruct s as [b w]. unfold rx_status. intros Hrun Hok. mrun_in Hrun.
  destruct (now_ms_run b w) as (now & w1 & Hnow & _).
  rewrite (bind_run _ _ _ _ _ Hnow) in Hrun. cbn beta in Hrun.
  by apply (rx_loop_stored _ _ _ _ _ _ _ Hrun).
Qed.

Lemma memcpy_bytes l off src : bytes l -> bytes src -> bytes (memcpy_at l off src).
Proof.
  intros. unfold memcpy_at. rewrite !Forall_app. split_and!; [by apply Forall_take|done|by apply Forall_drop].
Qed.

Lemma sync_loop_stored fuel ids k len out fe s rc out' s' :
  sync_read_loop fuel ids k len out fe s = Some ((rc, out'), s') -> bus_ok s.1 ->
  bytes out -> ((k + length ids) * len <= length out)%nat ->
  length out' = length out /\ bytes out'.
Proof.
  revert k out fe s. induction ids as [|id ids IH]; intros k out fe s Hrun Hok Hb Hl;
    cbn [sync_read_loop] in Hrun; [by injection Hrun as <- <- <-|].
  apply M_bind_some in Hrun as ([rc1 got] & s1 & E & Hrun).
  destruct (rx_status_stored _ _ _ _ _ _ E Hok) as [Hn Hg]. cbn [snd] in *.
  destruct (rx_status_ok _ _ _ _ _ _ E Hok) as [Hok1 _].
  cbn [length] in Hl.
  assert (Hlen : length (memcpy_at out (k * len) got) = length out) by (apply length_memcpy_at; nia).
  assert (Hb1 : bytes (memcpy_at out (k * len) got)) by by apply memcpy_bytes.
  cbn beta iota zeta in Hrun.
  match type of Hrun with context [if ?c =? FTS_ERR_TIMEOUT then _ else _] =>
    destruct (c =? FTS_ERR_TIMEOUT) in Hrun end; [by injection Hrun as <- <- <-|].
  destruct (IH _ _ _ _ Hrun Hok1 Hb1) as [Hl' Hb']; [rewrite Hlen; lia|]. by rewrite Hl', Hlen.
Qed.

(** ** The two transactions of the control thread *)

Lemma length_build_packet id inst params :
  (length (fts_build_packet id inst params) <= 256)%nat.
Proof.
  destruct (Z.leb_spec (Z.of_nat (length params)) 244).
  - rewrite build_packet_frame, length_frame by done. lia.
  - rewrite build_packet_too_long by done. cbn. lia.
Qed.

Lemma sync_write_total fuel ids addr len data s :
  bus_ok s.1 -> echo s.1 = false -> (256 + os_intr (os_flush_in (fd s.1) s.2) < fuel)%nat ->
  exists rc s', fts_sync_write fuel ids addr len (Some data) s = Some (rc, s') /\
    bus_ok s'.1 /\ same_settings s.1 s'.1.
Proof.
  intros Hok He Hf. unfold fts_sync_write.
  destruct (_ || _ || _); [do 2 eexists; auto using same_settings_refl|].
  set (pkt := fts_build_packet _ _ _).
  destruct (tx_packet_total fuel pkt s He) as [[rc s'] E].
  { pose proof (length_build_packet FTS_BROADCAST_ID FTS_INST_SYNC_WRITE
      (addr :: len :: sync_params ids (Z.to_nat len) data)). fold pkt in H. lia. }
  exists rc, s'. destruct (tx_packet_exact _ _ _ _ _ E) as (Hs & Hb & _). auto.
Qed.

(** A sync read returns, and on FTS_OK the buffer it was given is all bytes. *)
Lemma sync_read_total fuel ids addr len buf s :
  bus_ok s.1 -> echo s.1 = false -> (256 + os_intr (os_flush_in (fd s.1) s.2) < fuel)%nat ->
  (rx_fuel (timeout_ms s.1) <= fuel)%nat -> bytes buf ->
  length buf = (length ids * Z.to_nat len)%nat ->
  exists rc out s', fts_sync_read fuel ids addr len (Some buf) s = Some ((rc, Some out), s') /\
    bus_ok s'.1 /\ same_settings s.1 s'.1 /\ length out = length buf /\ bytes out.
Proof.
  intros Hok He Hf Hrx Hb Hl. unfold fts_sync_read.
  destruct (_ || _ || _); [do 3 eexists; split_and!; eauto using same_settings_refl|].
  set (pkt := fts_build_packet _ _ _).
  destruct (tx_packet_total fuel pkt s He) as [[rc s1] E].
  { pose proof (length_build_packet FTS_BROADCAST_ID FTS_INST_SYNC_READ (addr :: len :: ids)).
    fold pkt in H. lia. }
  destruct (tx_packet_exact _ _ _ _ _ E) as (Hs1 & Hok1 & _).
  rewrite (bind_run _ _ _ _ _ E). destruct (negb (rc =? 0)); [by do 3 eexists|].
  destruct (sync_loop_total fuel ids 0 (Z.to_nat len) buf FTS_OK s1 Hok1)
    as ([rc2 out] & s2 & E2 & Hok2 & Hs2); [by rewrite (proj1 (proj2 Hs1))|].
  rewrite (bind_run _ _ _ _ _ E2). cbn beta iota.
  destruct (sync_loop_stored _ _ _ _ _ _ _ _ _ _ E2 Hok1 Hb) as [Hl2 Hb2]; [lia|].
  do 3 eexists. split_and!; [done|done|by eapply same_settings_trans|done|done].
Qed.
End Data.
