(* ===== verification/Float32.v ===== *)
(** * binary32 arithmetic

    The [float] arithmetic of daemon/src/calib.c.  Every finite binary32 value is
    an integer multiple of 2^-149, so a [float] is modelled by that integer: [n]
    stands for [n * 2^-149].  Each operation is the exact result rounded to the
    nearest binary32 value, ties to even (subnormals included; the daemon is
    built with -std=c11, so no operation is contracted).  The sign of zero is not
    represented; division by zero, the only source of infinities and NaNs at the
    magnitudes of this program, is [None]. *)

From S2P Require Import Prelude.

(** The value 1 in units of 2^-149. *)
Definition ulp_one : Z := 2 ^ 149.

(** [rne a b]: the integer nearest to [a / b], ties to even ([b > 0]). *)
Definition rne (a b : Z) : Z :=
  let d := a / b in
  let r := a mod b in
  if 2 * r <? b then d
  else if b <? 2 * r then d + 1
  else if Z.even d then d else d + 1.

(** The exponent of the last place of a value of integer part [n]: 24 bits. *)
Definition last_place (n : Z) : Z := Z.max 0 (Z.log2 n - 23).

(** [rnd p q]: the binary32 value nearest to [p / q] ([q > 0]). *)
Definition rnd (p q : Z) : Z :=
  let a := Z.abs p in
  let k := last_place (a / q) in
  Z.sgn p * (rne a (q * 2 ^ k) * 2 ^ k).

Definition f_of_int (z : Z) : Z := rnd (z * ulp_one) 1.
Definition f_add (x y : Z) : Z := rnd (x + y) 1.
Definition f_sub (x y : Z) : Z := rnd (x - y) 1.
Definition f_mul (x y : Z) : Z := rnd (x * y) ulp_one.
Definition f_div (x y : Z) : option Z :=
  if y =? 0 then None else Some (rnd (Z.sgn y * x * ulp_one) (Z.abs y)).
Definition f_opp (x : Z) : Z := - x.

(** [(int)x]: truncation; outside the range of [int] it is undefined. *)
Definition f_to_int (x : Z) : option Z :=
  let t := Z.quot x ulp_one in
  if (- 2 ^ 31 <=? t) && (t <? 2 ^ 31) then Some t else None.

(** The binary32 values (of unbounded exponent). *)
Definition rep (n : Z) : Prop := exists m k, Z.abs m < 2 ^ 24 /\ 0 <= k /\ n = m * 2 ^ k.

(** ** Rounding to an integer *)

Lemma rne_spec a b :
  0 < b ->
  let d := rne a b in
  (2 * d - 1) * b <= 2 * a <= (2 * d + 1) * b /\
  (2 * a = (2 * d - 1) * b \/ 2 * a = (2 * d + 1) * b -> Z.even d = true).
Proof.
  intros Hb. unfold rne. pose proof (Z.div_mod a b). pose proof (Z.mod_pos_bound a b Hb).
  set (d := a / b) in *. set (r := a mod b) in *. zcases.
  - split; [nia|]. intros [E|E]; exfalso; nia.
  - split; [nia|]. intros [E|E]; exfalso; nia.
  - destruct (Z.even d) eqn:Hd; (split; [nia|]); intros [E|E]; try exact Hd.
    + rewrite Z.add_1_r, Z.even_succ, <- Z.negb_even, Hd. done.
    + exfalso; nia.
Qed.

Lemma rne_mono a b a' b' : 0 < b -> 0 < b' -> a * b' <= a' * b -> rne a b <= rne a' b'.
Proof.
  intros Hb Hb' H. destruct (rne_spec a b Hb) as [H1 E1].
  destruct (rne_spec a' b' Hb') as [H2 E2]. cbn zeta in *.
  set (d := rne a b) in *. set (d' := rne a' b') in *.
  destruct (Z.le_gt_cases d d') as [|Hlt]; [done|exfalso].
  assert (K1 : (2 * d - 1) * b * b' <= 2 * a * b') by nia.
  assert (K2 : 2 * a' * b <= (2 * d' + 1) * b' * b) by nia.
  assert (K3 : 0 < b * b') by nia.
  assert (d = d' + 1) as E by nia.
  assert (2 * a = (2 * d - 1) * b) as T1 by nia.
  assert (2 * a' = (2 * d' + 1) * b') as T2 by nia.
  specialize (E1 (or_introl T1)). specialize (E2 (or_intror T2)).
  rewrite E, Z.add_1_r, Z.even_succ, <- Z.negb_even, E2 in E1. done.
Qed.

Lemma rne_exact d b : 0 < b -> rne (d * b) b = d.
Proof.
  intros. unfold rne. rewrite Z.div_mul, Z.mod_mul by lia. zcases. lia.
Qed.

(** ** Rounding to binary32 *)

Lemma last_place_bound n : 0 <= n -> 0 <= last_place n /\ n < 2 ^ (last_place n + 24).
Proof.
  intros. unfold last_place. split; [lia|].
  destruct (Z.eq_dec n 0) as [->|]; [cbn; lia|].
  eapply Z.lt_le_trans; [apply Z.log2_spec; lia|]. apply Z.pow_le_mono_r; lia.
Qed.

Lemma last_place_pos n : 0 <= n -> 0 < last_place n -> 2 ^ (last_place n + 23) <= n.
Proof.
  intros Hn Hk. unfold last_place in *. destruct (Z.eq_dec n 0) as [->|]; [cbn in Hk; lia|].
  replace (Z.max 0 (Z.log2 n - 23) + 23) with (Z.log2 n) by lia. apply Z.log2_spec. lia.
Qed.

Lemma last_place_le n k : 0 <= k -> n < 2 ^ (k + 24) -> last_place n <= k.
Proof.
  intros Hk Hn. unfold last_place. destruct (Z.le_gt_cases n 0).
  - rewrite Z.log2_nonpos by lia. lia.
  - assert (Z.log2 n < k + 24) by (apply Z.log2_lt_pow2; lia). lia.
Qed.

Lemma div_lt_upper a q m : 0 < q -> a / q < m -> a < m * q.
Proof. intros. pose proof (Z.div_mod a q). pose proof (Z.mod_pos_bound a q). nia. Qed.
Lemma div_le_lower a q m : 0 < q -> m <= a / q -> m * q <= a.
Proof. intros. pose proof (Z.div_mod a q). pose proof (Z.mod_pos_bound a q). nia. Qed.

(** The magnitude: [rnd] on a non-negative numerator. *)
Definition rnd_abs (a q : Z) : Z :=
  let k := last_place (a / q) in rne a (q * 2 ^ k) * 2 ^ k.

Lemma rnd_abs_nonneg a q : 0 <= a -> 0 < q -> 0 <= rnd_abs a q.
Proof.
  intros. unfold rnd_abs. pose proof (last_place_bound (a / q)) as Hk.
  pose proof (Z.div_pos a q). set (k := last_place _) in *.
  assert (0 < 2 ^ k) by (apply Z.pow_pos_nonneg; lia).
  pose proof (rne_mono 0 1 a (q * 2 ^ k)) as Hm. change (rne 0 1) with 0 in Hm. nia.
Qed.

Lemma rnd_eq p q : 0 < q -> rnd p q = Z.sgn p * rnd_abs (Z.abs p) q.
Proof. done. Qed.

Lemma rnd_abs_le_pow a q k :
  0 <= a -> 0 < q -> 0 <= k -> a / q < 2 ^ (k + 24) -> rne a (q * 2 ^ k) <= 2 ^ 24.
Proof.
  intros Ha Hq Hk H. apply div_lt_upper in H; [|done]. rewrite Z.pow_add_r in H by lia.
  assert (0 < 2 ^ k) by (apply Z.pow_pos_nonneg; lia).
  rewrite <- (rne_exact (2 ^ 24) 1) by lia. apply rne_mono; nia.
Qed.

Lemma rnd_abs_ge_pow a q k :
  0 <= a -> 0 < q -> 0 <= k -> 2 ^ (k + 23) <= a / q -> 2 ^ 23 <= rne a (q * 2 ^ k).
Proof.
  intros Ha Hq Hk H. apply div_le_lower in H; [|done]. rewrite Z.pow_add_r in H by lia.
  assert (0 < 2 ^ k) by (apply Z.pow_pos_nonneg; lia).
  rewrite <- (rne_exact (2 ^ 23) 1) by lia. apply rne_mono; nia.
Qed.

Lemma ratio_div_le a q a' q' : 0 <= a -> 0 < q -> 0 < q' -> a * q' <= a' * q -> a / q <= a' / q'.
Proof.
  intros. apply Z.div_le_lower_bound; [done|].
  pose proof (Z.div_mod a q). pose proof (Z.mod_pos_bound a q). nia.
Qed.

Lemma rnd_abs_mono a q a' q' :
  0 <= a -> 0 < q -> 0 < q' -> a * q' <= a' * q -> rnd_abs a q <= rnd_abs a' q'.
Proof.
  intros Ha Hq Hq' H. assert (0 <= a') by nia.
  pose proof (ratio_div_le a q a' q' Ha Hq Hq' H) as Hn. pose proof (Z.div_pos a q).
  unfold rnd_abs. set (n := a / q) in *. set (n' := a' / q') in *.
  destruct (last_place_bound n) as [Hk Hnk]; [lia|].
  destruct (last_place_bound n') as [Hk' _]; [lia|].
  pose proof (last_place_pos n') as Hp.
  assert (last_place n <= last_place n') as Hkk
    by (unfold last_place; pose proof (Z.log2_le_mono n n'); lia).
  set (k := last_place n) in *. set (k' := last_place n') in *.
  assert (0 < 2 ^ k) by (apply Z.pow_pos_nonneg; lia).
  destruct (Z.eq_dec k k') as [<-|].
  - apply Z.mul_le_mono_nonneg_r; [lia|]. apply rne_mono; nia.
  - pose proof (rnd_abs_le_pow a q k Ha Hq Hk Hnk).
    pose proof (rnd_abs_ge_pow a' q' k' ltac:(lia) Hq' Hk' ltac:(apply Hp; lia)).
    assert (2 * 2 ^ k <= 2 ^ k')
      by (rewrite <- Z.pow_succ_r by lia; apply Z.pow_le_mono_r; lia).
    nia.
Qed.

Lemma rnd_opp p q : rnd (- p) q = - rnd p q.
Proof. unfold rnd. rewrite Z.abs_opp, Z.sgn_opp. ring. Qed.

(** Rounding is monotone. *)
Lemma rnd_mono p q p' q' : 0 < q -> 0 < q' -> p * q' <= p' * q -> rnd p q <= rnd p' q'.
Proof.
  intros Hq Hq' H. rewrite !rnd_eq by done.
  pose proof (rnd_abs_nonneg (Z.abs p) q). pose proof (rnd_abs_nonneg (Z.abs p') q').
  destruct (Z.sgn_spec p) as [[? ->]|[[? ->]|[? ->]]];
    destruct (Z.sgn_spec p') as [[? ->]|[[? ->]|[? ->]]]; try nia.
  - pose proof (rnd_abs_mono (Z.abs p) q (Z.abs p') q'). nia.
  - pose proof (rnd_abs_mono (Z.abs p') q' (Z.abs p) q). nia.
Qed.

(** A binary32 value rounds to itself. *)
Lemma rnd_rep r q : 0 < q -> rep r -> rnd (r * q) q = r.
Proof.
  intros Hq (m & j & Hm & Hj & ->). rewrite rnd_eq by done.
  assert (0 < 2 ^ j) by (apply Z.pow_pos_nonneg; lia).
  set (a := Z.abs m * 2 ^ j). assert (0 <= a) by (unfold a; lia).
  replace (Z.abs (m * 2 ^ j * q)) with (a * q) by (unfold a; rewrite !Z.abs_mul; lia).
  assert (rnd_abs (a * q) q = a) as ->.
  { unfold rnd_abs. rewrite Z.div_mul by lia.
    pose proof (last_place_bound a ltac:(lia)) as [Hk _].
    assert (last_place a <= j).
    { apply last_place_le; [lia|]. unfold a. rewrite Z.pow_add_r by lia. nia. }
    set (k := last_place a) in *.
    replace (a * q) with (Z.abs m * 2 ^ (j - k) * (q * 2 ^ k)).
    - assert (0 < 2 ^ k) by (apply Z.pow_pos_nonneg; lia).
      rewrite rne_exact by nia. unfold a. rewrite <- Z.mul_assoc, <- Z.pow_add_r by lia.
      do 2 f_equal. lia.
    - unfold a. replace j with (j - k + k) at 2 by lia. rewrite Z.pow_add_r by lia. ring. }
  rewrite !Z.sgn_mul, (Z.sgn_pos q), (Z.sgn_pos (2 ^ j)) by lia. unfold a.
  pose proof (Z.sgn_abs m). nia.
Qed.

Lemma rnd_le p q r : 0 < q -> rep r -> p <= r * q -> rnd p q <= r.
Proof. intros Hq Hr H. rewrite <- (rnd_rep r q Hq Hr). apply rnd_mono; nia. Qed.
Lemma rnd_ge p q r : 0 < q -> rep r -> r * q <= p -> r <= rnd p q.
Proof. intros Hq Hr H. rewrite <- (rnd_rep r q Hq Hr). apply rnd_mono; nia. Qed.

(** The rounding error is at most half a last place. *)
Lemma rnd_error p q k :
  0 < q -> 0 <= k -> Z.abs p < 2 ^ (k + 24) * q -> 2 * Z.abs (rnd p q * q - p) <= q * 2 ^ k.
Proof.
  intros Hq Hk Hp. rewrite rnd_eq by done.
  assert (Hdiv : Z.abs p / q < 2 ^ (k + 24)) by (apply Z.div_lt_upper_bound; lia).
  pose proof (Z.div_pos (Z.abs p) q ltac:(lia) Hq).
  assert (Habs : 2 * Z.abs (rnd_abs (Z.abs p) q * q - Z.abs p) <= q * 2 ^ k).
  { unfold rnd_abs. pose proof (last_place_le _ _ Hk Hdiv).
    destruct (last_place_bound (Z.abs p / q)) as [? _]; [lia|].
    set (j := last_place _) in *.
    assert (0 < 2 ^ j <= 2 ^ k)
      by (split; [apply Z.pow_pos_nonneg; lia|apply Z.pow_le_mono_r; lia]).
    destruct (rne_spec (Z.abs p) (q * 2 ^ j)) as [Hs _]; [nia|]. cbn zeta in Hs. nia. }
  destruct (Z.sgn_spec p) as [[? ->]|[[? ->]|[? ->]]]; lia.
Qed.

(** ** Exact cases *)

Lemma rep_int z k : Z.abs z <= 2 ^ 24 -> 0 <= k -> rep (z * 2 ^ k).
Proof.
  intros Hz Hk. destruct (Z.eq_dec (Z.abs z) (2 ^ 24)) as [E|].
  - exists (Z.sgn z * 2 ^ 23), (k + 1). rewrite Z.pow_add_r by lia.
    pose proof (Z.sgn_abs z). rewrite Z.abs_mul. destruct (Z.sgn_spec z) as [[? ->]|[[? ->]|[? ->]]]; lia.
  - exists z, k. split_and!; lia.
Qed.

Lemma rep_ulp z : Z.abs z <= 2 ^ 24 -> rep (z * ulp_one).
Proof. intros. apply rep_int; lia. Qed.

Lemma f_of_int_exact z : Z.abs z <= 2 ^ 24 -> f_of_int z = z * ulp_one.
Proof.
  intros. unfold f_of_int. rewrite <- (Z.mul_1_r (z * ulp_one)) at 1.
  apply rnd_rep; [lia|by apply rep_ulp].
Qed.

Lemma f_to_int_bounds x lo hi :
  - 2 ^ 31 <= lo -> hi < 2 ^ 31 -> lo * ulp_one <= x <= hi * ulp_one ->
  exists z, f_to_int x = Some z /\ lo <= z <= hi.
Proof.
  intros Hlo Hhi Hx. exists (Z.quot x ulp_one). unfold f_to_int.
  assert (lo <= Z.quot x ulp_one <= hi) as Hb.
  { rewrite <- (Z.quot_mul lo ulp_one), <- (Z.quot_mul hi ulp_one) by (unfold ulp_one; lia).
    split; apply Z.quot_le_mono; unfold ulp_one in *; lia. }
  split; [|done]. destruct Hb. rewrite (proj2 (Z.leb_le _ _)), (proj2 (Z.ltb_lt _ _)) by lia. done.
Qed.

Lemma f_to_int_mono x y a b : x <= y -> f_to_int x = Some a -> f_to_int y = Some b -> a <= b.
Proof.
  unfold f_to_int. intros H. repeat case_match; intros [= <-] [= <-]; try done.
  apply Z.quot_le_mono; unfold ulp_one; lia.
Qed.

Lemma ulp_one_eq : ulp_one = 2 ^ 149.
Proof. done. Qed.
Lemma ulp_pos : 0 < ulp_one.
Proof. done. Qed.

#[global] Opaque ulp_one.
