(* ===== verification/Calib.v ===== *)
(** * Calibration files and the joint-space map (daemon/src/calib.c)

    The scanner for LeRobot's calibration JSON, on the bytes of the file and with
    the C library's string functions written out, and the two float maps between
    raw servo ticks and LeRobot's normalised units. *)

From stdpp Require Import strings.
From S2P Require Import Prelude Float32.

(** ** C strings *)

(** The bytes of a string literal. *)
Definition str (s : string) : list Z :=
  map (fun c => Z.of_N (Ascii.N_of_ascii c)) (String.list_ascii_of_string s).

(** The string at the start of a NUL-terminated buffer. *)
Fixpoint c_str (buf : list Z) : list Z :=
  match buf with
  | [] => []
  | c :: buf => if c =? 0 then [] else c :: c_str buf
  end.

Fixpoint is_prefix (pat text : list Z) : bool :=
  match pat, text with
  | [], _ => true
  | p :: pat, c :: text => (p =? c) && is_prefix pat text
  | _ :: _, [] => false
  end.

(** [strstr]: the text from the first occurrence of [pat] on. *)
Fixpoint strstr (text pat : list Z) : option (list Z) :=
  if is_prefix pat text then Some text
  else match text with [] => None | _ :: text => strstr text pat end.

Fixpoint strchr (text : list Z) (ch : Z) : option (list Z) :=
  match text with
  | [] => None
  | c :: text' => if c =? ch then Some text else strchr text' ch
  end.

Definition isspace (c : Z) : bool := (c =? 32) || ((9 <=? c) && (c <=? 13)).
Definition isdigit (c : Z) : bool := (48 <=? c) && (c <=? 57).

Fixpoint skip_spaces (text : list Z) : list Z :=
  match text with
  | c :: text' => if isspace c then skip_spaces text' else text
  | [] => []
  end.

(** The digits at the start of [text], accumulated onto [acc]. *)
Fixpoint digits (text : list Z) (acc : Z) : Z :=
  match text with
  | c :: text => if isdigit c then digits text (10 * acc + (c - 48)) else acc
  | [] => acc
  end.

(** [strtol(p, &end, 10)] of a 64-bit [long]: [None] when [end == p]. *)
Definition strtol (text : list Z) : option Z :=
  let text := skip_spaces text in
  let (neg, text) :=
    match text with
    | c :: text' => if c =? 45 then (true, text') else if c =? 43 then (false, text')
                    else (false, text)
    | [] => (false, [])
    end in
  match text with
  | c :: _ =>
      if isdigit c then
        let v := if neg : bool then - digits text 0 else digits text 0 in
        Some (Z.max (- 2 ^ 63) (Z.min v (2 ^ 63 - 1)))
      else None
  | [] => None
  end.

(** ** The scanner *)

Definition CALIB_NJ : nat := 6.

Definition calib_joint_names : list string :=
  ["shoulder_pan"; "shoulder_lift"; "elbow_flex"; "wrist_flex"; "wrist_roll"; "gripper"]%string.

Record calib_joint := mk_joint {
  id : Z; drive_mode : Z; homing_offset : Z; range_min : Z; range_max : Z; is_gripper : bool
}.

Definition calib_arm : Type := list calib_joint.

Definition quoted (key : string) : list Z := 34 :: str key ++ [34].

Definition get_int (obj : list Z) (key : string) : option Z :=
  match strstr obj (quoted key) with
  | None => None
  | Some p =>
      match skip_spaces (drop (length (quoted key)) p) with
      | c :: p =>
          if c =? 58 then
            match strtol p with
            | None => None
            | Some v => Some (i32 v)
            end
          else None
      | [] => None
      end
  end.

(** The reasons [calib_load] writes into [err]. *)
Inductive calib_error :=
| CannotOpen
| JointNotFound (name : string)
| MissingField (name : string)
| InvalidIdRange (name : string).

Definition calib_rc (r : calib_error + calib_arm) : Z :=
  match r with
  | inl CannotOpen => -1
  | inl _ => -2
  | inr _ => 0
  end.

(** One turn of the loop of [calib_load]: joint [k] of the text [buf]. *)
Definition load_joint (buf : list Z) (k : nat) (name : string) : calib_error + calib_joint :=
  match (p ← strstr buf (quoted name);
         open ← strchr p 123;
         close ← strchr open 125;
         mret (open, length open - length close)%nat) with
  | None => inl (JointNotFound name)
  | Some (open, len) =>
      let len := if (512 <=? len)%nat then 511%nat else len in
      let obj := take len open in
      match (id ← get_int obj "id";
             drive_mode ← get_int obj "drive_mode";
             homing_offset ← get_int obj "homing_offset";
             range_min ← get_int obj "range_min";
             range_max ← get_int obj "range_max";
             mret (mk_joint id drive_mode homing_offset range_min range_max
                            (k =? CALIB_NJ - 1)%nat)) with
      | None => inl (MissingField name)
      | Some j =>
          if (id j <? 0) || (253 <? id j) || (range_max j <=? range_min j)
          then inl (InvalidIdRange name) else inr j
      end
  end.

Fixpoint load_joints (buf : list Z) (k : nat) (names : list string)
    : calib_error + calib_arm :=
  match names with
  | [] => inr []
  | name :: names =>
      match load_joint buf k name with
      | inl e => inl e
      | inr j =>
          match load_joints buf (S k) names with
          | inl e => inl e
          | inr js => inr (j :: js)
          end
      end
  end.

(** [file] is [None] when [fopen] fails, else the bytes [fread] can deliver (none
    when the read fails: the code does not tell an error from an empty file). *)
Definition calib_load (file : option (list Z)) : calib_error + calib_arm :=
  match file with
  | None => inl CannotOpen
  | Some bs => load_joints (c_str (take (Z.to_nat 16383) bs)) 0 calib_joint_names
  end.

(** ** The map *)

Definition calib_normalize (j : calib_joint) (raw : Z) : option Z :=
  let lo := f_of_int (range_min j) in
  let hi := f_of_int (range_max j) in
  let v := f_of_int raw in
  let v := if v <? lo then lo else v in
  let v := if hi <? v then hi else v in
  u ← f_div (f_sub v lo) (f_sub hi lo);
  mret (if is_gripper j then
          let n := f_mul u (f_of_int 100) in
          if negb (drive_mode j =? 0) then f_sub (f_of_int 100) n else n
        else
          let n := f_sub (f_mul u (f_of_int 200)) (f_of_int 100) in
          if negb (drive_mode j =? 0) then f_opp n else n).

(** [if (norm < lo) norm = lo; if (norm > hi) norm = hi;] *)
Definition f_clamp (lo hi norm : Z) : Z :=
  let norm := if norm <? lo then lo else norm in
  if hi <? norm then hi else norm.

(** [None]: the difference of the ranges overflows [int], or the result of the
    map does not fit one. *)
Definition calib_unnormalize (j : calib_joint) (norm : Z) : option Z :=
  u ← (if is_gripper j then
         let norm := if negb (drive_mode j =? 0) then f_sub (f_of_int 100) norm else norm in
         f_div (f_clamp (f_of_int 0) (f_of_int 100) norm) (f_of_int 100)
       else
         let norm := if negb (drive_mode j =? 0) then f_opp norm else norm in
         f_div (f_add (f_clamp (f_of_int (-100)) (f_of_int 100) norm) (f_of_int 100))
               (f_of_int 200));
  let d := range_max j - range_min j in
  if (d <? - 2 ^ 31) || (2 ^ 31 <=? d) then None
  else f_to_int (f_add (f_mul u (f_of_int d)) (f_of_int (range_min j))).

(** The fixtures of daemon/tests/test_calib.c evaluate as the test expects. *)
Definition leader_pan : calib_joint := mk_joint 1 0 (-1773) 729 3452 false.
Definition leader_gripper : calib_joint := mk_joint 6 0 (-1413) 2040 3286 true.
Definition follower_pan : calib_joint := mk_joint 1 0 0 700 3400 false.

Example test_normalize :
  calib_normalize leader_pan 729 = Some (f_of_int (-100)) /\
  calib_normalize leader_pan 3452 = Some (f_of_int 100) /\
  calib_normalize leader_gripper 2040 = Some 0 /\
  (calib_normalize leader_pan 3452 ≫= calib_unnormalize follower_pan) = Some 3400 /\
  (calib_normalize leader_pan 729 ≫= calib_unnormalize follower_pan) = Some 700 /\
  (calib_normalize leader_pan 2090 ≫= calib_unnormalize follower_pan) = Some 2049.
Proof. vm_compute. repeat split. Qed.

(** ** The map on calibrations whose numbers are exact in binary32 *)

(** What [calib_load] guarantees of the ranges, and magnitudes below 2^23 (the
    servos count 4096 ticks a turn). *)
Definition joint_ok (j : calib_joint) : Prop :=
  range_min j < range_max j /\ - 2 ^ 23 <= range_min j /\ range_max j <= 2 ^ 23.

Lemma f_add_le x y x' y' : x + y <= x' + y' -> f_add x y <= f_add x' y'.
Proof. intros. apply rnd_mono; lia. Qed.
Lemma f_sub_le x y x' y' : x - y <= x' - y' -> f_sub x y <= f_sub x' y'.
Proof. intros. apply rnd_mono; lia. Qed.
Lemma f_mul_le x x' y : 0 <= y -> x <= x' -> f_mul x y <= f_mul x' y.
Proof. intros. pose proof ulp_pos. assert (x * y <= x' * y) by nia. apply rnd_mono; nia. Qed.

(** The exact operations: on integers below 2^24. *)
Lemma f_sub_int a b : Z.abs (a - b) <= 2 ^ 24 -> f_sub (a * ulp_one) (b * ulp_one) = (a - b) * ulp_one.
Proof.
  intros. unfold f_sub. rewrite <- Z.mul_sub_distr_r.
  rewrite <- (Z.mul_1_r (_ * ulp_one)) at 1. apply rnd_rep; [lia|by apply rep_ulp].
Qed.
Lemma f_add_int a b : Z.abs (a + b) <= 2 ^ 24 -> f_add (a * ulp_one) (b * ulp_one) = (a + b) * ulp_one.
Proof.
  intros. unfold f_add. rewrite <- Z.mul_add_distr_r.
  rewrite <- (Z.mul_1_r (_ * ulp_one)) at 1. apply rnd_rep; [lia|by apply rep_ulp].
Qed.
Lemma f_mul_int a b : Z.abs (a * b) <= 2 ^ 24 -> f_mul (a * ulp_one) (b * ulp_one) = a * b * ulp_one.
Proof.
  intros. pose proof ulp_pos. unfold f_mul.
  replace (a * ulp_one * (b * ulp_one)) with (a * b * ulp_one * ulp_one) by ring.
  apply rnd_rep; [done|by apply rep_ulp].
Qed.

(** Division by a positive integer, and its bounds. *)
Lemma f_div_pos x y : 0 < y -> f_div x y = Some (rnd (x * ulp_one) y).
Proof.
  intros. unfold f_div. destruct (Z.eqb_spec y 0); [lia|].
  rewrite Z.sgn_pos, Z.abs_eq by lia. do 2 f_equal. lia.
Qed.

(** The clamped raw value, as an integer. *)
Definition clamp (lo hi v : Z) : Z := Z.min (Z.max v lo) hi.

Lemma clamp_range lo hi v : lo <= hi -> lo <= clamp lo hi v <= hi.
Proof. unfold clamp. lia. Qed.

(** The two comparisons of [calib_normalize] clamp the float; rounding commutes
    with clamping because the bounds are exact. *)
Lemma normalize_clamp lo hi raw :
  - 2 ^ 24 <= lo -> lo <= hi -> hi <= 2 ^ 24 ->
  let v := f_of_int raw in
  let v := if v <? f_of_int lo then f_of_int lo else v in
  (if f_of_int hi <? v then f_of_int hi else v) = clamp lo hi raw * ulp_one.
Proof.
  intros Hlo Hle Hhi. pose proof ulp_pos as Hu. cbn zeta. rewrite !(f_of_int_exact lo), !(f_of_int_exact hi) by lia.
  destruct (Z.le_gt_cases (Z.abs raw) (2 ^ 24)) as [H|H].
  { rewrite !(f_of_int_exact raw) by lia. unfold clamp.
    destruct (Z.ltb_spec (raw * ulp_one) (lo * ulp_one)) as [|];
      match goal with |- context [?a <? ?b] => destruct (Z.ltb_spec a b) end;
      f_equal; nia. }
  assert (2 ^ 24 <= raw \/ raw <= - 2 ^ 24) as [Hr|Hr] by lia.
  - assert (2 ^ 24 * ulp_one <= f_of_int raw)
      by (apply rnd_ge; [lia|apply rep_ulp; lia|nia]).
    destruct (Z.ltb_spec (f_of_int raw) (lo * ulp_one)); [nia|].
    destruct (Z.ltb_spec (hi * ulp_one) (f_of_int raw)); unfold clamp; nia.
  - assert (f_of_int raw <= - 2 ^ 24 * ulp_one)
      by (apply rnd_le; [lia|apply (rep_ulp (- 2 ^ 24)); lia|nia]).
    destruct (Z.ltb_spec (f_of_int raw) (lo * ulp_one)).
    + destruct (Z.ltb_spec (hi * ulp_one) (lo * ulp_one)); unfold clamp; nia.
    + destruct (Z.ltb_spec (hi * ulp_one) (f_of_int raw)); unfold clamp; nia.
Qed.

(** The fraction [u] of the range, 0..1. *)
Definition fraction (j : calib_joint) (raw : Z) : Z :=
  rnd ((clamp (range_min j) (range_max j) raw - range_min j) * ulp_one)
      (range_max j - range_min j).

Lemma fraction_range j raw : joint_ok j -> 0 <= fraction j raw <= ulp_one.
Proof.
  intros (Hlt & Hlo & Hhi). pose proof ulp_pos. unfold fraction.
  pose proof (clamp_range (range_min j) (range_max j) raw ltac:(lia)).
  split.
  - apply rnd_ge; [lia|apply (rep_ulp 0); lia|nia].
  - apply rnd_le; [lia|rewrite <- (Z.mul_1_l ulp_one); apply rep_ulp; lia|nia].
Qed.

Lemma fraction_mono j raw raw' : joint_ok j -> raw <= raw' -> fraction j raw <= fraction j raw'.
Proof.
  intros (Hlt & _) H. pose proof ulp_pos. apply rnd_mono; [lia|lia|].
  do 2 (apply Z.mul_le_mono_nonneg_r; [lia|]). unfold clamp. lia.
Qed.

Lemma rnd_scale p q c : 0 < q -> 0 < c -> rnd (p * c) (q * c) = rnd p q.
Proof. intros. assert (p * c * q = p * (q * c)) by ring. apply Z.le_antisymm; apply rnd_mono; nia. Qed.

Lemma fraction_eq j raw :
  joint_ok j ->
  let lo := f_of_int (range_min j) in
  let hi := f_of_int (range_max j) in
  let v := f_of_int raw in
  let v := if v <? lo then lo else v in
  let v := if hi <? v then hi else v in
  f_div (f_sub v lo) (f_sub hi lo) = Some (fraction j raw).
Proof.
  intros (Hlt & Hlo & Hhi). pose proof ulp_pos. cbn zeta.
  rewrite (normalize_clamp (range_min j) (range_max j) raw) by lia.
  pose proof (clamp_range (range_min j) (range_max j) raw ltac:(lia)).
  rewrite !f_of_int_exact by lia. rewrite !f_sub_int by lia. rewrite f_div_pos by nia.
  f_equal. apply rnd_scale; lia.
Qed.

(** The normalised value, from the fraction. *)
Definition norm_of (j : calib_joint) (u : Z) : Z :=
  if is_gripper j then
    let n := f_mul u (100 * ulp_one) in
    if negb (drive_mode j =? 0) then f_sub (100 * ulp_one) n else n
  else
    let n := f_sub (f_mul u (200 * ulp_one)) (100 * ulp_one) in
    if negb (drive_mode j =? 0) then - n else n.

Lemma normalize_eq j raw : joint_ok j -> calib_normalize j raw = Some (norm_of j (fraction j raw)).
Proof.
  intros H. unfold calib_normalize. cbn zeta. rewrite (fraction_eq j raw H). cbn.
  unfold norm_of, f_opp. by rewrite !f_of_int_exact.
Qed.

(** The fraction [calib_unnormalize] recovers from a normalised value. *)
Definition frac_of (j : calib_joint) (norm : Z) : Z :=
  if is_gripper j then
    let norm := if negb (drive_mode j =? 0) then f_sub (100 * ulp_one) norm else norm in
    rnd (f_clamp 0 (100 * ulp_one) norm) 100
  else
    let norm := if negb (drive_mode j =? 0) then - norm else norm in
    rnd (f_add (f_clamp (- 100 * ulp_one) (100 * ulp_one) norm) (100 * ulp_one)) 200.

(** The last line of [calib_unnormalize], before the truncation. *)
Definition ticks_of (j : calib_joint) (u : Z) : Z :=
  f_add (f_mul u ((range_max j - range_min j) * ulp_one)) (range_min j * ulp_one).

Lemma unnormalize_eq j norm :
  joint_ok j -> calib_unnormalize j norm = f_to_int (ticks_of j (frac_of j norm)).
Proof.
  intros (Hlt & Hlo & Hhi). pose proof ulp_pos.
  assert (Hdiv : forall x c, 0 < c <= 2 ^ 24 -> f_div x (f_of_int c) = Some (rnd x c)).
  { intros x c Hc. rewrite f_of_int_exact, f_div_pos by nia. f_equal. apply rnd_scale; lia. }
  unfold calib_unnormalize, ticks_of, frac_of, f_opp. cbn zeta.
  destruct (is_gripper j); rewrite Hdiv by lia; rewrite !f_of_int_exact by lia; cbn;
    rewrite (proj2 (Z.ltb_ge _ _)), (proj2 (Z.leb_gt _ _)) by lia; done.
Qed.

Lemma f_clamp_range lo hi n : lo <= hi -> lo <= f_clamp lo hi n <= hi.
Proof. intros. unfold f_clamp. destruct (Z.ltb_spec n lo); zcases; lia. Qed.
Lemma f_clamp_id lo hi n : lo <= n <= hi -> f_clamp lo hi n = n.
Proof. intros. unfold f_clamp. destruct (Z.ltb_spec n lo); zcases; lia. Qed.
Lemma f_clamp_mono lo hi n n' : n <= n' -> f_clamp lo hi n <= f_clamp lo hi n'.
Proof.
  intros. unfold f_clamp.
  destruct (Z.ltb_spec n lo), (Z.ltb_spec n' lo); zcases; lia.
Qed.

Lemma rep_100 z : Z.abs z <= 200 -> rep (z * ulp_one).
Proof. intros. apply rep_ulp. lia. Qed.

Lemma frac_of_range j norm : 0 <= frac_of j norm <= ulp_one.
Proof.
  pose proof ulp_pos. unfold frac_of. set (n := if negb _ then _ else _). clearbody n.
  assert (Hrep : rep (1 * ulp_one)) by (apply rep_ulp; lia). rewrite Z.mul_1_l in Hrep.
  destruct (is_gripper j); cbn zeta.
  - pose proof (f_clamp_range 0 (100 * ulp_one) n ltac:(lia)).
    split; [apply rnd_ge|apply rnd_le]; try lia; [apply (rep_100 0); lia|done].
  - match goal with |- context [f_clamp ?a ?b ?c] =>
      pose proof (f_clamp_range a b c ltac:(lia)); set (x := f_clamp a b c) in * end.
    assert (0 <= f_add x (100 * ulp_one) <= 200 * ulp_one).
    { split; [apply rnd_ge|apply rnd_le]; try lia; [apply (rep_100 0)|apply rep_100]; lia. }
    split; [apply rnd_ge|apply rnd_le]; try lia; [apply (rep_100 0); lia|done].
Qed.

Lemma ticks_of_range j u :
  joint_ok j -> 0 <= u <= ulp_one ->
  range_min j * ulp_one <= ticks_of j u <= range_max j * ulp_one.
Proof.
  intros (Hlt & Hlo & Hhi) Hu. pose proof ulp_pos. unfold ticks_of.
  set (D := range_max j - range_min j) in *.
  assert (range_max j * ulp_one = range_min j * ulp_one + D * ulp_one) by (unfold D; ring).
  assert (0 <= f_mul u (D * ulp_one) <= D * ulp_one).
  { assert (0 <= D * ulp_one) by (apply Z.mul_nonneg_nonneg; lia).
    split; [apply rnd_ge|apply rnd_le]; try done.
    - apply (rep_ulp 0). lia.
    - apply Z.mul_nonneg_nonneg; lia.
    - apply rep_ulp. lia.
    - rewrite (Z.mul_comm u). apply Z.mul_le_mono_nonneg_l; lia. }
  split; [apply rnd_ge|apply rnd_le]; try done; try (apply rep_ulp; lia); lia.
Qed.

(** The ends of the normalised range. *)
Definition norm_low (j : calib_joint) : Z := if is_gripper j then 0 else -100.

Lemma norm_of_range j u :
  0 <= u <= ulp_one -> norm_low j * ulp_one <= norm_of j u <= 100 * ulp_one.
Proof.
  intros Hu. pose proof ulp_pos. unfold norm_of, norm_low. destruct (is_gripper j); cbn zeta.
  - assert (0 <= f_mul u (100 * ulp_one) <= 100 * ulp_one).
    { split; [apply rnd_ge|apply rnd_le]; try lia; [apply (rep_100 0); lia|apply rep_100; lia|].
      nia. }
    destruct (negb _); [|lia].
    split; [apply rnd_ge|apply rnd_le]; try lia; [apply (rep_100 0)|apply rep_100]; lia.
  - set (n := f_sub _ _). assert (-100 * ulp_one <= n <= 100 * ulp_one).
    { assert (0 <= f_mul u (200 * ulp_one) <= 200 * ulp_one).
      { split; [apply rnd_ge|apply rnd_le]; try lia; [apply (rep_100 0); lia|apply rep_100; lia|].
        nia. }
      split; [apply rnd_ge|apply rnd_le]; try lia; [apply (rep_100 (-100))|apply rep_100]; lia. }
    destruct (negb _); lia.
Qed.

(** Up to the direction of the joint, the maps are monotone. *)
Definition inverted (j : calib_joint) : bool := negb (drive_mode j =? 0).

Lemma norm_of_mono j u u' :
  0 <= u -> u <= u' ->
  if inverted j then norm_of j u' <= norm_of j u else norm_of j u <= norm_of j u'.
Proof.
  intros H0 H. pose proof ulp_pos as Hu. unfold norm_of, inverted.
  assert (Hg : f_mul u (100 * ulp_one) <= f_mul u' (100 * ulp_one)) by (apply f_mul_le; lia).
  assert (Hb : f_mul u (200 * ulp_one) <= f_mul u' (200 * ulp_one)) by (apply f_mul_le; lia).
  destruct (is_gripper j), (negb _); cbn zeta; try done.
  - apply f_sub_le. lia.
  - apply -> Z.opp_le_mono. apply f_sub_le. lia.
  - apply f_sub_le. lia.
Qed.

Lemma frac_of_mono j n n' :
  n <= n' ->
  if inverted j then frac_of j n' <= frac_of j n else frac_of j n <= frac_of j n'.
Proof.
  intros H. unfold frac_of, inverted.
  assert (Hg : forall a b, a <= b -> rnd (f_clamp 0 (100 * ulp_one) a) 100 <=
                                     rnd (f_clamp 0 (100 * ulp_one) b) 100).
  { intros a b Hab. apply rnd_mono; [lia|lia|].
    pose proof (f_clamp_mono 0 (100 * ulp_one) a b Hab). lia. }
  assert (Hb : forall a b, a <= b ->
    rnd (f_add (f_clamp (-100 * ulp_one) (100 * ulp_one) a) (100 * ulp_one)) 200 <=
    rnd (f_add (f_clamp (-100 * ulp_one) (100 * ulp_one) b) (100 * ulp_one)) 200).
  { intros a b Hab. apply rnd_mono; [lia|lia|]. apply Z.mul_le_mono_nonneg_r; [lia|].
    apply f_add_le. pose proof (f_clamp_mono (-100 * ulp_one) (100 * ulp_one) a b Hab). lia. }
  destruct (is_gripper j), (negb _); cbn zeta; auto.
  - apply Hg. apply f_sub_le. lia.
  - apply Hb. lia.
Qed.

Lemma ticks_of_mono j u u' : joint_ok j -> u <= u' -> ticks_of j u <= ticks_of j u'.
Proof.
  intros (Hlt & _) H. pose proof ulp_pos. apply f_add_le.
  pose proof (f_mul_le u u' ((range_max j - range_min j) * ulp_one)). nia.
Qed.

(** ** The round trip *)

Lemma f_mul_int_error x c k :
  0 <= k -> Z.abs (x * c) < 2 ^ (k + 24) -> 2 * Z.abs (f_mul x (c * ulp_one) - x * c) <= 2 ^ k.
Proof.
  intros Hk H. pose proof ulp_pos as Hu. unfold f_mul.
  replace (x * (c * ulp_one)) with (x * c * ulp_one) by ring.
  pose proof (rnd_scale (x * c) 1 ulp_one ltac:(lia) Hu) as E. rewrite Z.mul_1_l in E.
  rewrite E. pose proof (rnd_error (x * c) 1 k). lia.
Qed.

Lemma f_add_error x y k :
  0 <= k -> Z.abs (x + y) < 2 ^ (k + 24) -> 2 * Z.abs (f_add x y - (x + y)) <= 2 ^ k.
Proof. intros. pose proof (rnd_error (x + y) 1 k). unfold f_add. lia. Qed.
Lemma f_sub_error x y k :
  0 <= k -> Z.abs (x - y) < 2 ^ (k + 24) -> 2 * Z.abs (f_sub x y - (x - y)) <= 2 ^ k.
Proof. intros. apply (f_add_error x (- y)); lia. Qed.

(** Normalising a fraction and recovering it loses at most 2^-22. *)
Lemma frac_norm_error j u :
  0 <= u <= ulp_one -> Z.abs (frac_of j (norm_of j u) - u) <= 2 ^ 127.
Proof.
  intros Hu. pose proof (norm_of_range j u Hu) as Hr. pose proof ulp_one_eq as Ho.
  unfold frac_of, norm_of, norm_low in *.
  destruct (is_gripper j); cbn zeta in *.
  - pose proof (f_mul_int_error u 100 132 ltac:(lia) ltac:(lia)) as E1.
    set (t := f_mul u (100 * ulp_one)) in *.
    assert (0 <= t <= 100 * ulp_one) as Ht.
    { pose proof ulp_pos. split; [apply rnd_ge|apply rnd_le]; try lia;
        [apply (rep_100 0); lia|apply rep_100; lia]. }
    destruct (negb _).
    + pose proof (f_sub_error (100 * ulp_one) t 132 ltac:(lia) ltac:(lia)) as E2.
      set (n := f_sub (100 * ulp_one) t) in *.
      pose proof (f_sub_error (100 * ulp_one) n 132 ltac:(lia) ltac:(lia)) as E3.
      set (q := f_sub (100 * ulp_one) n) in *.
      assert (0 <= q <= 100 * ulp_one) as Hq.
      { split; [apply rnd_ge|apply rnd_le]; try lia; [apply (rep_100 0); lia|apply rep_100; lia]. }
      rewrite f_clamp_id by lia. pose proof (rnd_error q 100 126 ltac:(lia) ltac:(lia) ltac:(lia)).
      lia.
    + rewrite f_clamp_id by lia. pose proof (rnd_error t 100 126 ltac:(lia) ltac:(lia) ltac:(lia)).
      lia.
  - pose proof (f_mul_int_error u 200 133 ltac:(lia) ltac:(lia)) as E1.
    set (t := f_mul u (200 * ulp_one)) in *.
    assert (0 <= t <= 200 * ulp_one) as Ht.
    { pose proof ulp_pos. split; [apply rnd_ge|apply rnd_le]; try lia;
        [apply (rep_100 0); lia|apply rep_100; lia]. }
    pose proof (f_sub_error t (100 * ulp_one) 132 ltac:(lia) ltac:(lia)) as E2.
    set (n := f_sub t (100 * ulp_one)) in *.
    replace (if negb _ then - (if negb _ then - n else n) else if negb _ then - n else n) with n
      by (destruct (negb _); lia).
    assert (-100 * ulp_one <= n <= 100 * ulp_one) by (destruct (negb _); lia).
    rewrite f_clamp_id by lia.
    pose proof (f_add_error n (100 * ulp_one) 133 ltac:(lia) ltac:(lia)) as E3.
    set (q := f_add n (100 * ulp_one)) in *.
    pose proof (rnd_error q 200 126 ltac:(lia) ltac:(lia) ltac:(lia)). lia.
Qed.

(** A joint counted in servo ticks. *)
Definition servo_joint (j : calib_joint) : Prop :=
  0 <= range_min j /\ range_min j < range_max j /\ range_max j <= 4095.

Lemma servo_joint_ok j : servo_joint j -> joint_ok j.
Proof. unfold servo_joint, joint_ok. lia. Qed.

(** The float the round trip truncates is within 2^-9 ticks of the clamped
    position. *)
Lemma roundtrip_error j raw :
  servo_joint j ->
  Z.abs (ticks_of j (frac_of j (norm_of j (fraction j raw)))
         - clamp (range_min j) (range_max j) raw * ulp_one) <= 2 ^ 140.
Proof.
  intros Hj. pose proof (servo_joint_ok j Hj) as Hok. destruct Hj as (Hlo & Hlt & Hhi).
  pose proof (fraction_range j raw Hok) as Hu. pose proof (frac_norm_error j _ Hu) as Ew.
  pose proof (frac_of_range j (norm_of j (fraction j raw))) as Hw.
  pose proof (clamp_range (range_min j) (range_max j) raw ltac:(lia)) as Hc.
  pose proof ulp_one_eq as Ho.
  set (c := clamp _ _ _) in *. set (w := frac_of _ _) in *.
  assert (Eu : 2 * Z.abs (fraction j raw * (range_max j - range_min j) - (c - range_min j) * ulp_one)
               <= (range_max j - range_min j) * 2 ^ 126).
  { apply rnd_error; [lia|lia|]. rewrite Z.abs_eq by (apply Z.mul_nonneg_nonneg; lia).
    apply Z.le_lt_trans with ((range_max j - range_min j) * ulp_one);
      [apply Z.mul_le_mono_nonneg_r; lia|nia]. }
  set (u := fraction j raw) in *. unfold ticks_of.
  set (D := range_max j - range_min j) in *.
  assert (HD : 0 < D /\ D + range_min j <= 4095) by lia.
  assert (HwD : 0 <= w * D <= ulp_one * D)
    by (split; [apply Z.mul_nonneg_nonneg|apply Z.mul_le_mono_nonneg_r]; lia).
  pose proof (f_mul_int_error w D 137 ltac:(lia) ltac:(lia)) as Ex.
  set (x := f_mul w (D * ulp_one)) in *.
  pose proof (f_add_error x (range_min j * ulp_one) 137 ltac:(lia) ltac:(lia)) as Ey.
  assert (Hwu : Z.abs (w * D - u * D) <= 4095 * 2 ^ 127)
    by (rewrite <- Z.mul_sub_distr_r, Z.abs_mul, (Z.mul_comm 4095);
        apply Z.mul_le_mono_nonneg; lia).
  lia.
Qed.

Lemma truncate_near y r :
  0 <= r -> 0 <= y -> Z.abs (y - r * ulp_one) <= 2 ^ 140 -> r < 2 ^ 31 ->
  exists z, f_to_int y = Some z /\ r - 1 <= z <= r.
Proof.
  intros Hr Hy He Hb. pose proof ulp_one_eq as Ho.
  exists (y / ulp_one). unfold f_to_int. rewrite Z.quot_div_nonneg by lia.
  assert (r - 1 <= y / ulp_one <= r) as Hz.
  { split; [apply Z.div_le_lower_bound; lia|].
    apply Z.lt_succ_r. apply Z.div_lt_upper_bound; lia. }
  split; [|done].
  rewrite (proj2 (Z.leb_le _ _)), (proj2 (Z.ltb_lt _ _)) by lia. done.
Qed.

(** ** Properties of the map *)

Lemma ticks_defined j norm :
  joint_ok j ->
  exists goal, f_to_int (ticks_of j (frac_of j norm)) = Some goal /\
               range_min j <= goal <= range_max j.
Proof.
  intros H. apply f_to_int_bounds; [destruct H; lia..|].
  apply ticks_of_range; [done|apply frac_of_range].
Qed.

(** [calib_normalize] is defined for every raw position, stays within
    -100..100 (0..100 for the gripper), and maps a position at or beyond an end of
    the range exactly to an end of that interval. *)
Theorem normalize_bounds j raw :
  joint_ok j ->
  exists n, calib_normalize j raw = Some n /\
    f_of_int (norm_low j) <= n <= f_of_int 100 /\
    (raw <= range_min j -> n = f_of_int (if inverted j then 100 else norm_low j)) /\
    (range_max j <= raw -> n = f_of_int (if inverted j then norm_low j else 100)).
Proof.
  intros H. pose proof (fraction_range j raw H) as Hu. pose proof ulp_pos.
  exists (norm_of j (fraction j raw)).
  pose proof (norm_of_range j _ Hu) as Hr.
  assert (Hlow : Z.abs (norm_low j) <= 100) by (unfold norm_low; destruct (is_gripper j); lia).
  rewrite normalize_eq, !f_of_int_exact by (done || destruct (inverted j); lia).
  destruct H as (Hlt & Hlo & Hhi).
  assert (Hmin : raw <= range_min j -> fraction j raw = 0 * ulp_one).
  { intros. unfold fraction, clamp. rewrite Z.max_r, Z.min_l, Z.sub_diag by lia. done. }
  assert (Hmax : range_max j <= raw -> fraction j raw = 1 * ulp_one).
  { intros. unfold fraction, clamp. rewrite Z.max_l, Z.min_r by lia.
    rewrite Z.mul_comm. rewrite <- (Z.mul_1_l ulp_one) at 1. apply rnd_rep; [lia|].
    apply rep_ulp. lia. }
  split; [done|]. split; [done|].
  split; intros Hraw; [rewrite Hmin by done|rewrite Hmax by done]; unfold norm_of, norm_low, inverted;
    destruct (is_gripper j), (negb _); rewrite !f_mul_int by lia; rewrite ?f_sub_int by lia; lia.
Qed.

Lemma normalize_bounds_witness :
  exists n, calib_normalize leader_pan 5000 = Some n /\ n = f_of_int 100.
Proof.
  destruct (normalize_bounds leader_pan 5000) as (n & Hn & _ & _ & H).
  - vm_compute. repeat split; discriminate.
  - exists n. split; [exact Hn|]. apply H. vm_compute. discriminate.
Defined.

(** C12: whatever the normalised value, [calib_unnormalize] returns a goal inside
    the calibrated range of the joint. *)
Theorem unnormalize_in_range j norm :
  joint_ok j ->
  exists goal, calib_unnormalize j norm = Some goal /\ range_min j <= goal <= range_max j.
Proof.
  intros H. rewrite unnormalize_eq by done. by apply ticks_defined.
Qed.

Lemma unnormalize_in_range_witness :
  exists goal, calib_unnormalize follower_pan (f_of_int 150) = Some goal /\ 700 <= goal <= 3400.
Proof.
  apply (unnormalize_in_range follower_pan). vm_compute. repeat split; discriminate.
Defined.

(** C39: the leader-to-follower map preserves order: two leader positions map to
    follower goals in the same order when the joints turn the same way, in the
    opposite order when one of them is inverted. *)
Theorem map_monotone jl jf raw raw' :
  joint_ok jl -> joint_ok jf -> raw <= raw' ->
  exists goal goal',
    (calib_normalize jl raw ≫= calib_unnormalize jf) = Some goal /\
    (calib_normalize jl raw' ≫= calib_unnormalize jf) = Some goal' /\
    if eqb (inverted jl) (inverted jf) then goal <= goal' else goal' <= goal.
Proof.
  intros Hl Hf Hraw. rewrite !normalize_eq by done. cbn. rewrite !unnormalize_eq by done.
  destruct (ticks_defined jf (norm_of jl (fraction jl raw)) Hf) as (g & Hg & _).
  destruct (ticks_defined jf (norm_of jl (fraction jl raw')) Hf) as (g' & Hg' & _).
  exists g, g'. split; [done|]. split; [done|].
  pose proof (norm_of_mono jl (fraction jl raw) (fraction jl raw')) as Hn.
  pose proof (frac_of_mono jf (norm_of jl (fraction jl raw)) (norm_of jl (fraction jl raw'))) as Hle.
  pose proof (frac_of_mono jf (norm_of jl (fraction jl raw')) (norm_of jl (fraction jl raw))) as Hge.
  pose proof (fraction_range jl raw Hl). pose proof (fraction_mono jl raw raw' Hl Hraw).
  destruct (inverted jl), (inverted jf); cbn [eqb];
    (eapply f_to_int_mono; [|by eauto..]); apply ticks_of_mono; auto with lia.
Qed.

Lemma map_monotone_witness :
  exists goal goal',
    (calib_normalize leader_pan 1000 ≫= calib_unnormalize follower_pan) = Some goal /\
    (calib_normalize leader_pan 1001 ≫= calib_unnormalize follower_pan) = Some goal' /\
    goal <= goal'.
Proof.
  apply (map_monotone leader_pan follower_pan); [vm_compute; repeat split; discriminate..|lia].
Defined.

(** C33: normalising a position and mapping it back on the same joint returns the
    position clamped to the range, or one tick less; whatever the drive mode, body
    or gripper, for every range of servo ticks. *)
Theorem map_roundtrip j raw :
  servo_joint j ->
  exists goal, (calib_normalize j raw ≫= calib_unnormalize j) = Some goal /\
    clamp (range_min j) (range_max j) raw - 1 <= goal <= clamp (range_min j) (range_max j) raw.
Proof.
  intros Hj. pose proof (servo_joint_ok j Hj) as Hok.
  rewrite normalize_eq by done. cbn. rewrite unnormalize_eq by done.
  pose proof (roundtrip_error j raw Hj) as He.
  destruct (ticks_of_range j (frac_of j (norm_of j (fraction j raw))) Hok) as [Hy _].
  { apply frac_of_range. }
  destruct Hj as (Hlo & Hlt & Hhi). pose proof ulp_pos.
  pose proof (clamp_range (range_min j) (range_max j) raw ltac:(lia)).
  apply truncate_near; [lia|nia|done|lia].
Qed.

Lemma map_roundtrip_witness :
  exists goal, (calib_normalize leader_pan 900 ≫= calib_unnormalize leader_pan) = Some goal /\
    899 <= goal <= 900.
Proof. apply (map_roundtrip leader_pan 900). vm_compute. repeat split; discriminate. Defined.

(** ** Results of the scanner *)

Lemma bind_Some_inv {A B} (o : option A) (f : A -> option B) b :
  (o ≫= f) = Some b -> exists a, o = Some a /\ f a = Some b.
Proof. destruct o; [eauto|done]. Qed.

(** What a successful [load_joint] says of the joint. *)
Definition joint_loaded (k : nat) (j : calib_joint) : Prop :=
  0 <= id j <= 253 /\ range_min j < range_max j /\
  in_s 32 (range_min j) /\ in_s 32 (range_max j) /\
  in_s 32 (drive_mode j) /\ in_s 32 (homing_offset j) /\
  is_gripper j = (k =? CALIB_NJ - 1)%nat.

Lemma get_int_range obj key v : get_int obj key = Some v -> in_s 32 v.
Proof.
  unfold get_int. intros Hg.
  destruct (strstr _ _); [|done]. destruct (skip_spaces _) as [|c p]; [done|].
  destruct (c =? 58); [|done]. destruct (strtol p); [|done].
  injection Hg as <-. apply wrap_s_range. lia.
Qed.

Lemma load_joint_loaded buf k name j : load_joint buf k name = inr j -> joint_loaded k j.
Proof.
  unfold load_joint. intros Hl.
  destruct (strstr buf _ ≫= _) as [[open len]|]; [|done]. cbn zeta in Hl.
  set (obj := take _ open) in Hl. clearbody obj.
  destruct (get_int obj "id" ≫= _) as [j'|] eqn:Ej; [|done].
  destruct (_ || _) eqn:Hb in Hl; [done|]. injection Hl as ->.
  apply orb_false_iff in Hb as [[Hb1%Z.ltb_ge Hb2%Z.ltb_ge]%orb_false_iff Hb3%Z.leb_gt].
  repeat (apply bind_Some_inv in Ej as (? & ?%get_int_range & Ej)).
  injection Ej as <-. unfold joint_loaded. cbn in *. split_and!; done || lia.
Qed.

Lemma load_joints_loaded buf k names arm :
  load_joints buf k names = inr arm ->
  length arm = length names /\ forall i j, arm !! i = Some j -> joint_loaded (k + i)%nat j.
Proof.
  revert k arm. induction names as [|name names IH]; intros k arm Hl; cbn in Hl.
  { injection Hl as <-. split; [done|]. by intros [|i] j Hj. }
  destruct (load_joint buf k name) as [|j0] eqn:E0; [done|].
  destruct (load_joints buf (S k) names) as [|js] eqn:E1; [done|]. injection Hl as <-.
  destruct (IH _ _ E1) as [Hlen Hjs]. split; [cbn; lia|].
  intros [|i] j Hj; cbn in Hj.
  - injection Hj as <-. rewrite Nat.add_0_r. by eapply load_joint_loaded.
  - replace (k + S i)%nat with (S k + i)%nat by lia. auto.
Qed.

Lemma load_joints_error buf k names e : load_joints buf k names = inl e -> e <> CannotOpen.
Proof.
  revert k. induction names as [|name names IH]; intros k Hl; cbn in Hl; [done|].
  unfold load_joint in Hl.
  destruct (strstr buf _ ≫= _) as [[open len]|]; [|by injection Hl as <-]. cbn zeta in Hl.
  destruct (get_int _ "id" ≫= _) as [j|]; [|by injection Hl as <-].
  destruct (_ || _) in Hl; [by injection Hl as <-|].
  destruct (load_joints buf (S k) names) eqn:E; [|done]. injection Hl as <-. by eapply IH.
Qed.

(** ** The round trip of a calibration file *)

(** The decimal digits of a non-negative number below [10 ^ fuel]. *)
Fixpoint dec (fuel : nat) (n : Z) : list Z :=
  match fuel with
  | O => []
  | S fuel => if n <? 10 then [48 + n] else dec fuel (n / 10) ++ [48 + n mod 10]
  end.

Definition print_int (z : Z) : list Z := if z <? 0 then 45 :: dec 10 (- z) else dec 10 z.

(** The white space of a JSON file: after the opening brace, between the members
    and before the closing brace, of the file's object and of a joint's, and at the
    end of the file. *)
Record style := mk_style {
  top_open : list Z; top_sep : list Z; top_close : list Z;
  obj_open : list Z; obj_sep : list Z; obj_close : list Z;
  file_end : list Z
}.

(** [json.dump] with [indent=n], and without; the files of daemon/tests/fixtures. *)
Definition line_break (n : nat) : list Z := 10 :: replicate n 32.
Definition json_indent (n : nat) : style :=
  mk_style (line_break n) (line_break n) (line_break 0)
           (line_break (2 * n)) (line_break (2 * n)) (line_break n) [].
Definition json_compact : style := mk_style [] [32] [] [] [32] [] [].
Definition fixture_style : style :=
  mk_style (line_break 4) (line_break 4) (line_break 0) [] [32] [] [10].

(** A calibration file of LeRobot: one object per joint, the members separated by
    commas. *)
Definition print_field (key : string) (z : Z) : list Z := quoted key ++ [58; 32] ++ print_int z.

Definition print_fields (st : style) (j : calib_joint) : list Z :=
  print_field "id" (id j) ++ 44 :: obj_sep st ++
  print_field "drive_mode" (drive_mode j) ++ 44 :: obj_sep st ++
  print_field "homing_offset" (homing_offset j) ++ 44 :: obj_sep st ++
  print_field "range_min" (range_min j) ++ 44 :: obj_sep st ++
  print_field "range_max" (range_max j) ++ obj_close st.

Definition print_joint (st : style) (name : string) (j : calib_joint) : list Z :=
  quoted name ++ [58; 32; 123] ++ obj_open st ++ print_fields st j ++ [125].

Fixpoint print_joints (st : style) (names : list string) (arm : calib_arm) : list Z :=
  match names, arm with
  | [name], j :: _ => print_joint st name j
  | name :: names, j :: arm => print_joint st name j ++ 44 :: top_sep st ++ print_joints st names arm
  | _, _ => []
  end.

Definition print_arm (st : style) (arm : calib_arm) : list Z :=
  123 :: top_open st ++ print_joints st calib_joint_names arm ++ top_close st ++ 125 :: file_end st.

(** White space, and text the pattern searches run over. *)
Definition spaces (w : list Z) : Prop := Forall (fun c => isspace c = true) w.
Definition style_ok (st : style) : Prop :=
  Forall (fun w => spaces w /\ (length w <= 64)%nat)
    [top_open st; top_sep st; top_close st; obj_open st; obj_sep st; obj_close st; file_end st].
Definition plain (l : list Z) : Prop :=
  Forall (fun c => isspace c = true \/ c = 45 \/ isdigit c = true) l.

Lemma dec_digits fuel n : 0 <= n -> Forall (fun c => isdigit c = true) (dec fuel n).
Proof.
  revert n. induction fuel as [|fuel IH]; intros n Hn; cbn [dec]; [constructor|].
  assert (Hd : forall d, 0 <= d < 10 -> isdigit (48 + d) = true)
    by (intros; unfold isdigit; apply andb_true_iff; split; apply Z.leb_le; lia).
  destruct (Z.ltb_spec n 10).
  - constructor; [apply Hd; lia|constructor].
  - apply Forall_app. split; [apply IH; by apply Z.div_pos|].
    constructor; [apply Hd, Z.mod_pos_bound; lia|constructor].
Qed.

Lemma digits_app l rest acc :
  Forall (fun c => isdigit c = true) l -> digits (l ++ rest) acc = digits rest (digits l acc).
Proof.
  intros Hl. revert acc. induction Hl as [|c l Hc _ IH]; intros acc; [done|]. cbn. by rewrite Hc.
Qed.

Lemma digits_dec fuel n : 0 <= n < 10 ^ Z.of_nat fuel -> digits (dec fuel n) 0 = n.
Proof.
  revert n. induction fuel as [|fuel IH]; intros n Hn; cbn [dec].
  { cbn in Hn. cbn. lia. }
  assert (Hd : forall d acc, 0 <= d < 10 -> digits [48 + d] acc = 10 * acc + d).
  { intros d acc Hd. cbn [digits]. unfold isdigit.
    rewrite (proj2 (Z.leb_le 48 _)), (proj2 (Z.leb_le _ 57)) by lia. cbn. lia. }
  rewrite Nat2Z.inj_succ, Z.pow_succ_r in Hn by lia.
  destruct (Z.ltb_spec n 10); [rewrite Hd; lia|].
  rewrite digits_app by (apply dec_digits, Z.div_pos; lia).
  rewrite IH by (split; [apply Z.div_pos; lia|apply Z.div_lt_upper_bound; lia]).
  rewrite Hd by (apply Z.mod_pos_bound; lia). pose proof (Z.div_mod n 10). lia.
Qed.

(** The text after a number. *)
Definition ends_number (l : list Z) : Prop :=
  match l with [] => True | c :: _ => isdigit c = false end.

Lemma digits_stop rest acc : ends_number rest -> digits rest acc = acc.
Proof. destruct rest as [|c rest]; [done|]. cbn. by intros ->. Qed.

Lemma dec_nonempty fuel n : dec (S fuel) n <> [].
Proof. cbn. destruct (n <? 10); [done|]. intros H%app_eq_nil. by destruct H. Qed.

Lemma dec_head n rest :
  0 <= n -> exists c l, dec 10 n ++ rest = c :: l /\ isdigit c = true.
Proof.
  intros Hn. pose proof (dec_digits 10 n Hn) as Hd.
  destruct (dec 10 n) as [|c l] eqn:E; [by apply dec_nonempty in E|].
  inversion Hd; subst. cbn. eauto.
Qed.

Lemma strtol_print z rest :
  in_s 32 z -> ends_number rest -> strtol (32 :: print_int z ++ rest) = Some z.
Proof.
  intros Hz Hrest. unfold strtol. cbn [skip_spaces isspace]. cranges.
  assert (Hnum : forall n, 0 <= n < 10 ^ 10 -> digits (dec 10 n ++ rest) 0 = n).
  { intros n Hn. rewrite digits_app by (apply dec_digits; lia).
    rewrite digits_stop by done. by apply digits_dec. }
  unfold print_int. destruct (Z.ltb_spec z 0).
  - destruct (dec_head (- z) rest ltac:(lia)) as (c & l & E & Hc).
    pose proof (Hnum (- z) ltac:(lia)) as Hn. rewrite <- app_comm_cons. rewrite E in *.
    cbn -[digits isdigit Z.pow]. rewrite Hc, Hn. f_equal. lia.
  - destruct (dec_head z rest ltac:(lia)) as (c & l & E & Hc).
    pose proof (Hnum z ltac:(lia)) as Hn. rewrite E in *. cbn -[digits isdigit isspace Z.pow].
    change (isspace 32) with true. cbn iota.
    pose proof Hc as Hc'. unfold isdigit in Hc'. apply andb_true_iff in Hc' as [?%Z.leb_le ?%Z.leb_le].
    assert (isspace c = false) as Hs by (unfold isspace; zcases; done).
    rewrite !Hs. destruct (Z.eqb_spec c 45), (Z.eqb_spec c 43); try lia.
    rewrite Hc, Hn. f_equal. lia.
Qed.

Lemma strstr_plain l rest pat : plain l -> strstr (l ++ rest) (34 :: pat) = strstr rest (34 :: pat).
Proof.
  intros Hl. induction Hl as [|c l Hc _ IH]; [done|].
  cbn [app strstr is_prefix]. destruct (Z.eqb_spec 34 c) as [<-|]; [|exact IH].
  by destruct Hc as [Hc|[Hc|Hc]].
Qed.

Lemma spaces_plain w : spaces w -> plain w.
Proof. intros Hw. eapply Forall_impl; [|exact Hw]. auto. Qed.

Lemma print_int_plain z : plain (print_int z).
Proof.
  assert (Hd : forall n, 0 <= n -> plain (dec 10 n)).
  { intros n Hn. eapply Forall_impl; [|by apply dec_digits]. auto. }
  unfold print_int. destruct (Z.ltb_spec z 0); [constructor; [auto|]|]; apply Hd; lia.
Qed.

Lemma spaces_end w rest : spaces w -> ends_number rest -> ends_number (w ++ rest).
Proof.
  intros Hw Hr. destruct Hw as [|c w Hc _]; [done|]. cbn.
  unfold isspace, isdigit in *. apply orb_true_iff in Hc as [Hc%Z.eqb_eq|Hc%andb_true_iff].
  - by subst.
  - destruct Hc as [_ Hc%Z.leb_le]. apply andb_false_iff. left. apply Z.leb_gt. lia.
Qed.

Lemma style_white st : style_ok st ->
  spaces (top_open st) /\ spaces (top_sep st) /\ spaces (top_close st) /\ spaces (obj_open st) /\
  spaces (obj_sep st) /\ spaces (obj_close st) /\ spaces (file_end st).
Proof. unfold style_ok. rewrite !Forall_cons_iff. tauto. Qed.

Lemma style_short st : style_ok st ->
  (length (top_open st) <= 64)%nat /\ (length (top_sep st) <= 64)%nat /\
  (length (top_close st) <= 64)%nat /\ (length (obj_open st) <= 64)%nat /\
  (length (obj_sep st) <= 64)%nat /\ (length (obj_close st) <= 64)%nat /\
  (length (file_end st) <= 64)%nat.
Proof. unfold style_ok. rewrite !Forall_cons_iff. tauto. Qed.

(** The white space of a style, as hypotheses. *)
Ltac whites H := pose proof (style_white _ H) as (? & ? & ? & ? & ? & ? & ?).
Ltac shorts H := pose proof (style_short _ H) as (? & ? & ? & ? & ? & ? & ?).

Create HintDb calib.
#[local] Hint Resolve spaces_plain print_int_plain : calib.

(** Runs a pattern search over a printed text: plain stretches by
    [strstr_plain], quoted words by computation. *)
Ltac concrete_words :=
  repeat match goal with
  | |- context [quoted ?k] => let v := eval vm_compute in (quoted k) in change (quoted k) with v
  end.
Ltac scan :=
  unfold print_fields, print_field; concrete_words;
  repeat first
    [ rewrite strstr_plain by eauto with calib
    | rewrite <- app_assoc
    | progress cbn [strstr is_prefix app Z.eqb Pos.eqb andb] ].

Lemma get_int_print text key z rest :
  strstr text (quoted key) = Some (print_field key z ++ rest) ->
  in_s 32 z -> ends_number rest -> get_int text key = Some z.
Proof.
  intros Hs Hz Hrest. unfold get_int, print_field in *. rewrite Hs, <- !app_assoc, drop_app_length.
  cbn [app skip_spaces]. change (isspace 58) with false. cbn [Z.eqb Pos.eqb].
  rewrite strtol_print by done. f_equal. apply wrap_s_id; [lia|done].
Qed.

Lemma get_fields st j :
  style_ok st -> in_s 32 (id j) -> in_s 32 (drive_mode j) -> in_s 32 (homing_offset j) ->
  in_s 32 (range_min j) -> in_s 32 (range_max j) ->
  let obj := 123 :: obj_open st ++ print_fields st j in
  get_int obj "id" = Some (id j) /\ get_int obj "drive_mode" = Some (drive_mode j) /\
  get_int obj "homing_offset" = Some (homing_offset j) /\
  get_int obj "range_min" = Some (range_min j) /\ get_int obj "range_max" = Some (range_max j).
Proof.
  intros Hst Hi Hd Ho Hmin Hmax obj. unfold obj. whites Hst. split_and!.
  - eapply get_int_print; [scan; reflexivity|done|done].
  - eapply get_int_print; [scan; reflexivity|done|done].
  - eapply get_int_print; [scan; reflexivity|done|done].
  - eapply get_int_print; [scan; reflexivity|done|done].
  - eapply get_int_print; [scan; reflexivity|done|]. rewrite <- (app_nil_r (obj_close st)).
    by apply spaces_end.
Qed.

Lemma strstr_other_joint st name name0 j rest :
  style_ok st -> In name calib_joint_names -> In name0 calib_joint_names -> name0 <> name ->
  strstr (print_joint st name0 j ++ 44 :: top_sep st ++ rest) (quoted name) = strstr rest (quoted name).
Proof.
  intros Hst Hn Hn0 Hne. whites Hst. unfold print_joint.
  repeat (destruct Hn as [<-|Hn]; [|]); try done;
    repeat (destruct Hn0 as [<-|Hn0]; [|]); try done; scan; reflexivity.
Qed.

Lemma is_prefix_app pat rest : is_prefix pat (pat ++ rest) = true.
Proof. induction pat as [|c pat IH]; [done|]. cbn. by rewrite Z.eqb_refl. Qed.

Lemma strstr_this_joint st name j rest :
  strstr (print_joint st name j ++ rest) (quoted name) = Some (print_joint st name j ++ rest).
Proof.
  unfold print_joint. rewrite <- app_assoc. set (r := _ ++ rest). clearbody r.
  pose proof (is_prefix_app (quoted name) r) as E. destruct (quoted name ++ r); cbn [strstr]; by rewrite E.
Qed.

(** All joints but the last are followed by a comma. *)
Lemma print_joints_cons st name names j arm :
  length arm = length names ->
  print_joints st (name :: names) (j :: arm)
  = print_joint st name j ++
    (if names is [] then [] else 44 :: top_sep st ++ print_joints st names arm).
Proof. intros Hl. destruct names; [by rewrite app_nil_r|done]. Qed.

Lemma find_joint st names arm tail k name j :
  style_ok st -> NoDup names -> (forall n, In n names -> In n calib_joint_names) ->
  length arm = length names -> names !! k = Some name -> arm !! k = Some j ->
  exists rest, strstr (print_joints st names arm ++ tail) (quoted name)
               = Some (print_joint st name j ++ rest).
Proof.
  intros Hst. revert arm k. induction names as [|name0 names IH]; intros arm k Hnd Hin Hl Hk Hj; [done|].
  destruct arm as [|j0 arm]; [done|]. injection Hl as Hl. rewrite print_joints_cons by done.
  inversion_clear Hnd as [|? ? Hnew Hnd']. destruct k as [|k]; cbn in Hk, Hj.
  - injection Hk as ->. injection Hj as ->. rewrite <- app_assoc. eexists. apply strstr_this_joint.
  - assert (name ∈ names) as Hel by by eapply list_elem_of_lookup_2.
    destruct names as [|name1 names]; [done|].
    rewrite <- app_assoc, <- app_comm_cons, <- app_assoc, strstr_other_joint; [|done| | |].
    + eapply IH; eauto. intros n Hn. apply Hin. by right.
    + apply Hin. right. by apply list_elem_of_In.
    + apply Hin. by left.
    + by intros ->.
Qed.

Lemma strchr_skip l rest ch : Forall (fun c => c <> ch) l -> strchr (l ++ rest) ch = strchr rest ch.
Proof.
  induction 1 as [|c l Hc _ IH]; [done|]. cbn. by destruct (Z.eqb_spec c ch).
Qed.

(** Printed text has no braces and no NUL, and is short. *)
Definition inert (l : list Z) : Prop := Forall (fun c => c <> 0 /\ c <> 123 /\ c <> 125) l.

Lemma plain_inert l : plain l -> inert l.
Proof.
  apply Forall_impl. intros c Hc. unfold isspace, isdigit in Hc.
  split_and!; intros ->; cbn in Hc; intuition discriminate.
Qed.

Lemma print_fields_inert st j : style_ok st -> inert (print_fields st j).
Proof.
  intros Hst. whites Hst.
  assert (forall w, spaces w -> inert w) by (intros; by apply plain_inert, spaces_plain).
  assert (forall z, inert (print_int z)) by (intros; apply plain_inert, print_int_plain).
  unfold print_fields, print_field. concrete_words. unfold inert in *.
  repeat first [done|by auto|apply Forall_app; split|apply List.Forall_nil|apply List.Forall_cons; [done|]].
Qed.

Lemma length_dec fuel n : (length (dec fuel n) <= fuel)%nat.
Proof.
  revert n. induction fuel as [|fuel IH]; intros n; cbn [dec]; [done|].
  destruct (n <? 10); [cbn; lia|]. rewrite length_app. cbn. specialize (IH (n / 10)). lia.
Qed.

Lemma length_print_int z : (length (print_int z) <= 11)%nat.
Proof.
  unfold print_int. pose proof (length_dec 10 z). pose proof (length_dec 10 (- z)).
  destruct (z <? 0); cbn [length]; lia.
Qed.

Lemma length_print_fields st j : style_ok st -> (length (print_fields st j) <= 123 + 5 * 64)%nat.
Proof.
  intros Hst. shorts Hst.
  unfold print_fields, print_field. concrete_words.
  repeat rewrite ?length_app, ?length_cons. cbn [length].
  pose proof (length_print_int (id j)). pose proof (length_print_int (drive_mode j)).
  pose proof (length_print_int (homing_offset j)). pose proof (length_print_int (range_min j)).
  pose proof (length_print_int (range_max j)). lia.
Qed.

Lemma load_joint_print st names arm tail k name j :
  style_ok st -> NoDup names ->
  (forall n, In n names -> In n calib_joint_names) -> length arm = length names ->
  names !! k = Some name -> arm !! k = Some j -> joint_loaded k j ->
  load_joint (123 :: top_open st ++ print_joints st names arm ++ tail) k name = inr j.
Proof.
  intros Hst Hnd Hin Hla Hk Hj (Hid & Hrange & Hmin & Hmax & Hdm & Hho & Hg).
  whites Hst. shorts Hst.
  destruct (find_joint st names arm tail k name j Hst Hnd Hin Hla Hk Hj) as [rest Hfind].
  assert (Hobj : strstr (123 :: top_open st ++ print_joints st names arm ++ tail) (quoted name) =
                 Some (print_joint st name j ++ rest)).
  { unfold quoted. cbn [strstr is_prefix Z.eqb Pos.eqb andb].
    rewrite strstr_plain by auto with calib. exact Hfind. }
  unfold load_joint. rewrite Hobj. cbn [mbind option_bind].
  set (body := obj_open st ++ print_fields st j).
  assert (Hopen : strchr (print_joint st name j ++ rest) 123 = Some (123 :: body ++ 125 :: rest)).
  { unfold print_joint, body. assert (In name calib_joint_names) as Hn
      by (apply Hin, list_elem_of_In; by eapply list_elem_of_lookup_2).
    rewrite <- !app_assoc.
    rewrite strchr_skip by (repeat (destruct Hn as [<-|Hn]; [repeat constructor; vm_compute; discriminate|]); done).
    cbn. by rewrite <- !app_assoc. }
  rewrite Hopen. cbn [mbind option_bind].
  assert (Hclose : strchr (123 :: body ++ 125 :: rest) 125 = Some (125 :: rest)).
  { cbn [strchr Z.eqb Pos.eqb]. rewrite strchr_skip; [done|].
    assert (inert body) as Hb
      by (apply Forall_app; split; [by apply plain_inert, spaces_plain|by apply print_fields_inert]).
    eapply Forall_impl; [|exact Hb]. by intros c (_ & _ & Hc). }
  rewrite Hclose. cbn [mbind option_bind mret option_ret].
  set (after := 125 :: rest). set (open := 123 :: body).
  change (123 :: body ++ after) with (open ++ after).
  replace (length (open ++ after) - length after)%nat with (length open)
    by (rewrite length_app; lia).
  assert (length open < 512)%nat as Hshort.
  { pose proof (length_print_fields st j Hst). unfold open, body. cbn [length]. rewrite length_app. lia. }
  rewrite (proj2 (Nat.leb_gt _ _) Hshort), take_app_length.
  destruct (get_fields st j Hst) as (E1 & E2 & E3 & E4 & E5); [clia|done..|].
  fold body open in E1, E2, E3, E4, E5.
  rewrite E1, E2, E3, E4, E5. cbn.
  rewrite (proj2 (Z.ltb_ge _ _)), (proj2 (Z.ltb_ge _ _)), (proj2 (Z.leb_gt _ _)) by lia.
  cbn. f_equal. destruct j; cbn in *. by f_equal.
Qed.

Lemma load_joints_print st names arm tail buf k names' arm' :
  buf = 123 :: top_open st ++ print_joints st names arm ++ tail ->
  style_ok st -> NoDup names ->
  (forall n, In n names -> In n calib_joint_names) ->
  drop k names = names' -> drop k arm = arm' -> length arm = length names ->
  (forall i j, arm !! i = Some j -> joint_loaded i j) ->
  load_joints buf k names' = inr arm'.
Proof.
  intros -> Hst Hnd Hin Hn Ha Hlen Hj.
  revert k arm' Hn Ha. induction names' as [|name names' IH]; intros k arm' Hn Ha.
  - apply (f_equal length) in Hn. rewrite length_drop in Hn. cbn in Hn.
    rewrite drop_ge in Ha by lia. by subst.
  - assert (names !! k = Some name) as Hk by (by rewrite <- (Nat.add_0_r k), <- lookup_drop, Hn).
    pose proof (lookup_lt_Some _ _ _ Hk).
    destruct (lookup_lt_is_Some_2 arm k) as [j Hjk]; [lia|].
    rewrite (drop_S _ _ _ Hjk) in Ha. subst arm'. cbn [load_joints].
    rewrite (load_joint_print st names arm tail k name j) by auto.
    rewrite (IH (S k) (drop (S k) arm)); [done| |done].
    rewrite (drop_S _ _ _ Hk) in Hn. by injection Hn.
Qed.

Lemma c_str_app l : Forall (fun c => c <> 0) l -> c_str l = l.
Proof. induction 1 as [|c l Hc _ IH]; [done|]. cbn. rewrite IH. by destruct (Z.eqb_spec c 0). Qed.

Lemma spaces_text w : spaces w -> Forall (fun c => c <> 0) w.
Proof. intros H. eapply Forall_impl; [|by apply plain_inert, spaces_plain]. by intros c [Hc _]. Qed.
#[local] Hint Resolve spaces_text : calib.

Lemma quoted_name_text name : In name calib_joint_names ->
  Forall (fun c => c <> 0) (quoted name) /\ (length (quoted name) <= 15)%nat.
Proof.
  intros Hn.
  repeat (destruct Hn as [<-|Hn]; [split; [repeat constructor; vm_compute; discriminate|cbn; lia]|]). done.
Qed.

Lemma print_joint_text st name j : style_ok st -> In name calib_joint_names ->
  Forall (fun c => c <> 0) (print_joint st name j) /\ (length (print_joint st name j) <= 530)%nat.
Proof.
  intros Hst Hin. whites Hst. shorts Hst. destruct (quoted_name_text name Hin) as [Hq1 Hq2].
  assert (Hf0 : Forall (fun c => c <> 0) (print_fields st j))
    by (eapply Forall_impl; [|by apply (print_fields_inert st j)]; by intros c [Hc _]).
  pose proof (length_print_fields st j Hst). unfold print_joint. split.
  - repeat first [done|by auto with calib|apply Forall_app; split|apply List.Forall_cons; [lia|]|apply List.Forall_nil].
  - repeat rewrite ?length_app, ?length_cons. cbn [length]. lia.
Qed.

Lemma print_joints_text st names arm :
  style_ok st -> (forall n, In n names -> In n calib_joint_names) ->
  Forall (fun c => c <> 0) (print_joints st names arm) /\
  (length (print_joints st names arm) <= 600 * length names)%nat.
Proof.
  intros Hst. whites Hst. shorts Hst. revert arm.
  induction names as [|name names IH]; intros arm Hin; [split; [constructor|cbn; lia]|].
  destruct arm as [|j arm]; [destruct names; (split; [apply List.Forall_nil|cbn; lia])|].
  destruct (IH arm) as [IH1 IH2]; [intros; apply Hin; by right|].
  destruct (print_joint_text st name j Hst (Hin name ltac:(by left))) as [Hj1 Hj2].
  destruct names as [|name1 names]; [split; [done|cbn [print_joints length]; lia]|].
  set (names1 := name1 :: names) in *.
  change (print_joints st (name :: names1) (j :: arm))
    with (print_joint st name j ++ 44 :: top_sep st ++ print_joints st names1 arm). split.
  - repeat first [done|by auto with calib|apply Forall_app; split|apply List.Forall_cons; [lia|]].
  - repeat rewrite ?length_app, ?length_cons. lia.
Qed.

(** C34: reading back a calibration file: for every arm whose ids, ranges and fields
    are valid, printed as JSON with any white space (at most 64 characters at each
    place), [calib_load] returns exactly that arm.  The styles include those of
    [json.dump] ([json_indent], [json_compact]) and of the repository's fixtures. *)
Theorem calib_print_load st arm :
  style_ok st ->
  length arm = CALIB_NJ -> (forall k j, arm !! k = Some j -> joint_loaded k j) ->
  calib_load (Some (print_arm st arm)) = inr arm.
Proof.
  intros Hst Hlen Hj. whites Hst. shorts Hst. unfold calib_load, print_arm.
  destruct (print_joints_text st calib_joint_names arm) as [Ht1 Ht2]; [done|done|].
  change (length calib_joint_names) with 6%nat in Ht2.
  rewrite take_ge by (repeat rewrite ?length_app, ?length_cons; lia).
  rewrite c_str_app.
  - eapply load_joints_print; [done|done| |done|done|done|done|done].
    apply (bool_decide_unpack _). vm_compute. exact I.
  - repeat first [done|by auto with calib|apply Forall_app; split|apply List.Forall_cons; [lia|]].
Qed.

(** The follower fixture of the tests. *)
Definition follower_arm : calib_arm :=
  [mk_joint 1 0 0 700 3400 false; mk_joint 2 0 0 800 3200 false; mk_joint 3 0 0 850 3100 false;
   mk_joint 4 0 0 830 3250 false; mk_joint 5 0 0 0 4095 false; mk_joint 6 0 0 2030 3500 true].

(** The bytes of daemon/tests/fixtures/so101_follower_sim.json (quotes written as
    apostrophes here). *)
Definition follower_fixture : list Z :=
  map (fun c => if c =? 39 then 34 else c) (str
"{
    'shoulder_pan': {'id': 1, 'drive_mode': 0, 'homing_offset': 0, 'range_min': 700, 'range_max': 3400},
    'shoulder_lift': {'id': 2, 'drive_mode': 0, 'homing_offset': 0, 'range_min': 800, 'range_max': 3200},
    'elbow_flex': {'id': 3, 'drive_mode': 0, 'homing_offset': 0, 'range_min': 850, 'range_max': 3100},
    'wrist_flex': {'id': 4, 'drive_mode': 0, 'homing_offset': 0, 'range_min': 830, 'range_max': 3250},
    'wrist_roll': {'id': 5, 'drive_mode': 0, 'homing_offset': 0, 'range_min': 0, 'range_max': 4095},
    'gripper': {'id': 6, 'drive_mode': 0, 'homing_offset': 0, 'range_min': 2030, 'range_max': 3500}
}
").

Lemma json_styles_ok : style_ok (json_indent 4) /\ style_ok json_compact /\ style_ok fixture_style.
Proof. unfold style_ok. split_and!; repeat constructor; cbn; lia. Qed.

Lemma calib_print_load_witness :
  calib_load (Some (print_arm (json_indent 4) follower_arm)) = inr follower_arm /\
  calib_load (Some follower_fixture) = inr follower_arm.
Proof.
  assert (Hj : forall k j, follower_arm !! k = Some j -> joint_loaded k j).
  { intros k j Hk. repeat (destruct k as [|k]; [injection Hk as <-; vm_compute; intuition discriminate|]).
    done. }
  split; [by apply calib_print_load; [apply json_styles_ok|..]|].
  change follower_fixture with (print_arm fixture_style follower_arm).
  by apply calib_print_load; [apply json_styles_ok|..].
Defined.

(** C35: what [calib_load] guarantees: it returns -1 exactly when [fopen] fails, and
    -2 for every file it can open but not use, one of which [fread] delivers nothing
    (a read error, such as on a directory) included; on success there are six joints,
    each with an id the bus can address, a non-empty range and fields that fit an
    [int], and only the last one is the gripper. *)
Theorem calib_load_sound file :
  (calib_rc (calib_load file) = -1 <-> file = None) /\
  calib_rc (calib_load (Some [])) = -2 /\
  (forall bs, calib_rc (calib_load (Some bs)) = 0 \/ calib_rc (calib_load (Some bs)) = -2) /\
  forall arm, calib_load file = inr arm ->
    length arm = CALIB_NJ /\ (forall k j, arm !! k = Some j -> joint_loaded k j).
Proof.
  assert (Hrc : forall bs, calib_rc (calib_load (Some bs)) = 0 \/ calib_rc (calib_load (Some bs)) = -2).
  { intros bs. unfold calib_load. destruct (load_joints _ _ _) as [e|] eqn:E; [right|by left].
    apply load_joints_error in E. by destruct e. }
  split_and!; [|reflexivity|exact Hrc|].
  - destruct file as [bs|]; [|done]. split; [|done]. destruct (Hrc bs) as [-> | ->]; done.
  - unfold calib_load. destruct file as [bs|]; [|done]. intros arm H. by apply load_joints_loaded in H.
Qed.

Lemma calib_load_sound_witness :
  length follower_arm = 6%nat /\ joint_loaded 5 (mk_joint 6 0 0 2030 3500 true).
Proof.
  destruct (calib_load_sound (Some (print_arm json_compact follower_arm))) as (_ & _ & _ & H).
  destruct (H follower_arm) as [H1 H2].
  - vm_compute. reflexivity.
  - split; [exact H1|]. by apply H2.
Defined.
