(* ===== verification/Libc.v ===== *)
(** * Numbers in command lines

    What the programs use of libc to read integers out of their arguments and the
    environment, on the [strtol] of [Calib]. *)

From stdpp Require Import strings.
From S2P Require Import Prelude Calib.

(** [atoi], and [strtoull] in base 10. *)
Definition atoi (s : string) : Z := i32 (default 0 (strtol (str s))).
Definition strtoull (s : string) : Z :=
  let text := skip_spaces (str s) in
  let (neg, text) :=
    match text with
    | c :: text' => if c =? 45 then (true, text') else if c =? 43 then (false, text') else (false, text)
    | [] => (false, [])
    end in
  let v := digits text 0 in
  if 2 ^ 64 <=? v then 2 ^ 64 - 1 else if neg : bool then u64 (- v) else v.

Example atoi_examples : (atoi "80", atoi " -7x", atoi "ten", atoi "4294967297") = (80, -7, 0, 1).
Proof. reflexivity. Qed.
