(* ===== verification/Prog.v ===== *)
(** * Programs that interact

    The threads of the daemon as programs over events: [Do e k] performs the
    operation [e] on the outside (a clock, a servo bus, the shared segment) and
    goes on with its result, which another thread, a client or the hardware may
    have chosen: nothing is assumed of it but what a theorem states.  [Undef] is
    undefined behaviour of C, or a loop that ran out of its fuel.

    [run p tr a]: one execution of [p], its events [tr] and its result [a].
    [always p Q]: every execution is defined and ends in [Q]. *)

From S2P Require Import Prelude.

Inductive prog (E : Type -> Type) (A : Type) : Type :=
| Ret (a : A)
| Undef
| Do {R : Type} (e : E R) (k : R -> prog E A).
Arguments Ret {E A} a.
Arguments Undef {E A}.
Arguments Do {E A R} e k.

Fixpoint bind_prog {E A B} (p : prog E A) (f : A -> prog E B) : prog E B :=
  match p with
  | Ret a => f a
  | Undef => Undef
  | Do e k => Do e (fun r => bind_prog (k r) f)
  end.

#[export] Instance prog_ret E : MRet (prog E) := fun A => Ret.
#[export] Instance prog_bind E : MBind (prog E) := fun A B f p => bind_prog p f.

(** One operation; a C value that may be undefined. *)
Definition do {E : Type -> Type} {R} (e : E R) : prog E R := Do e Ret.
Definition defined {E A} (o : option A) : prog E A :=
  match o with Some a => Ret a | None => Undef end.

(** ** Executions *)

(** An operation together with its result. *)
Inductive obs (E : Type -> Type) : Type :=
| Obs {R : Type} (e : E R) (r : R).
Arguments Obs {E R} e r.

Fixpoint run {E A} (p : prog E A) (tr : list (obs E)) (a : A) : Prop :=
  match p with
  | Ret x => tr = [] /\ a = x
  | Undef => False
  | Do e k => exists r tr', tr = Obs e r :: tr' /\ run (k r) tr' a
  end.

(** [always ok p tr Q]: from the events [tr], every execution of [p] whose results
    satisfy [ok] is defined, and its complete events and result satisfy [Q]. *)
Fixpoint always {E A} (ok : obs E -> Prop) (p : prog E A) (tr : list (obs E))
    (Q : list (obs E) -> A -> Prop) : Prop :=
  match p with
  | Ret a => Q tr a
  | Undef => False
  | Do e k => forall r, ok (Obs e r) -> always ok (k r) (tr ++ [Obs e r]) Q
  end.

Section Always.
Context {E : Type -> Type} (ok : obs E -> Prop).

Lemma always_mono {A} (p : prog E A) tr (P Q : list (obs E) -> A -> Prop) :
  (forall tr' a, P tr' a -> Q tr' a) -> always ok p tr P -> always ok p tr Q.
Proof.
  intros HPQ. revert tr. induction p as [a| |R e k IH]; intros tr Hp; cbn in *; auto.
Qed.

Lemma always_bind {A B} (p : prog E A) (f : A -> prog E B) tr Q :
  always ok (p ≫= f) tr Q <-> always ok p tr (fun tr' a => always ok (f a) tr' Q).
Proof.
  revert tr. induction p as [a| |R e k IH]; intros tr; [done..|].
  cbn. split; intros Hp r Hr; apply IH; by apply Hp.
Qed.

(** The events before [p] only accumulate. *)
Lemma always_prefix {A} (p : prog E A) tr0 tr Q :
  always ok p (tr0 ++ tr) Q <-> always ok p tr (fun tr' a => Q (tr0 ++ tr') a).
Proof.
  revert tr. induction p as [a| |R e k IH]; intros tr; [done..|].
  cbn. split; intros Hp r Hr; specialize (Hp r Hr); rewrite <- ?app_assoc in *; [by apply IH|].
  by apply (IH r (tr ++ [Obs e r])) in Hp.
Qed.

Lemma always_nil {A} (p : prog E A) tr Q :
  always ok p [] (fun tr' a => Q (tr ++ tr') a) -> always ok p tr Q.
Proof. intros Hp. rewrite <- (app_nil_r tr). by apply always_prefix. Qed.

Lemma always_run {A} (p : prog E A) Q :
  always ok p [] Q -> forall tr a, run p tr a -> Forall ok tr -> Q tr a.
Proof.
  intros Hp tr a Hrun Hok. cut (Q ([] ++ tr) a); [done|].
  revert Hp tr Hrun Hok. generalize (@nil (obs E)).
  induction p as [x| |R e k IH]; intros tr0 Hp tr Hrun Hok; cbn in *; [|done|].
  - destruct Hrun as [-> ->]. by rewrite app_nil_r.
  - destruct Hrun as (r & tr' & -> & Hrun). inversion Hok; subst.
    rewrite cons_middle, app_assoc. by eapply IH; [apply Hp| |].
Qed.

End Always.

Lemma run_bind {E A B} (p : prog E A) (f : A -> prog E B) tr b :
  run (p ≫= f) tr b <-> exists tr1 a tr2, tr = tr1 ++ tr2 /\ run p tr1 a /\ run (f a) tr2 b.
Proof.
  revert tr. induction p as [a| |R e k IH]; intros tr; cbn.
  - split; [intros Hr; by exists [], a, tr|]. by intros (tr1 & x & tr2 & -> & [-> ->] & Hr).
  - split; [done|]. by intros (? & ? & ? & _ & ? & _).
  - split.
    + intros (r & tr' & -> & (tr1 & a & tr2 & -> & H1 & H2)%IH).
      exists (Obs e r :: tr1), a, tr2. split; [done|]. split; [|done]. by exists r, tr1.
    + intros (tr1 & a & tr2 & -> & (r & tr' & -> & H1) & H2).
      exists r, (tr' ++ tr2). split; [done|]. apply IH. by exists tr', a, tr2.
Qed.

Lemma run_do {E : Type -> Type} {R A} (e : E R) (f : R -> prog E A) tr a :
  run (do e ≫= f) tr a -> exists r tr', tr = Obs e r :: tr' /\ run (f r) tr' a.
Proof. done. Qed.

Lemma run_defined {E : Type -> Type} {R A} (o : option R) (f : R -> prog E A) tr a :
  run (defined o ≫= f) tr a -> exists x, o = Some x /\ run (f x) tr a.
Proof. destruct o as [x|]; [by exists x|done]. Qed.

(** ** Interpretation

    A handler turns events into steps on a concrete state; [interp] runs the
    program with it.  Whatever it does is an execution in the sense above. *)

Section Interp.
Context {E : Type -> Type} {S : Type} (h : forall R, E R -> M S R).

Fixpoint interp {A} (p : prog E A) : M S A :=
  match p with
  | Ret a => mret a
  | Undef => out_of_fuel
  | Do e k => r ← h _ e; interp (k r)
  end.

Lemma interp_run {A} (p : prog E A) s a s' :
  interp p s = Some (a, s') -> exists tr, run p tr a.
Proof.
  revert s. induction p as [x| |R e k IH]; intros s Hp; cbn in Hp.
  - injection Hp as <- <-. by exists [].
  - done.
  - apply M_bind_some in Hp as (r & s1 & _ & Hp). apply IH in Hp as [tr Htr].
    exists (Obs e r :: tr). cbn. by exists r, tr.
Qed.
End Interp.

(** [interp] that also records the events. *)
Section InterpLog.
Context {E : Type -> Type} {S : Type} (h : forall R, E R -> M S R).

Fixpoint interp_log {A} (p : prog E A) (s : S) : option (list (obs E) * A * S) :=
  match p with
  | Ret a => Some ([], a, s)
  | Undef => None
  | Do e k =>
      match h _ e s with
      | None => None
      | Some (r, s) =>
          match interp_log (k r) s with
          | None => None
          | Some (tr, a, s) => Some (Obs e r :: tr, a, s)
          end
      end
  end.

Lemma interp_log_run {A} (p : prog E A) s tr a s' :
  interp_log p s = Some (tr, a, s') -> run p tr a.
Proof.
  revert s tr. induction p as [x| |R e k IH]; intros s tr Hp; cbn in Hp.
  - by injection Hp as <- <- <-.
  - done.
  - destruct (h R e s) as [[r s1]|]; [|done].
    destruct (interp_log (k r) s1) as [[[tr1 a1] s2]|] eqn:E1; [|done].
    injection Hp as <- <- <-. exists r, tr1. split; [done|]. by eapply IH.
Qed.

(** A handler that never fails, and whose results are as assumed, plays every program
    that is defined under that assumption. *)
Lemma interp_log_total {A} (ok : obs E -> Prop) (I : S -> Prop) (p : prog E A) tr0 Q s :
  (forall R (e : E R) s, I s -> exists r s', h R e s = Some (r, s') /\ ok (Obs e r) /\ I s') ->
  always ok p tr0 Q -> I s ->
  exists tr a s', interp_log p s = Some (tr, a, s') /\ Q (tr0 ++ tr) a /\ Forall ok tr /\ I s'.
Proof.
  intros Hh. revert tr0 s. induction p as [x| |R e k IH]; intros tr0 s Hp Hs; [|done|].
  - exists [], x, s. rewrite app_nil_r. by split_and!.
  - cbn. destruct (Hh R e s Hs) as (r & s1 & -> & Hr & Hs1).
    destruct (IH r _ _ (Hp r Hr) Hs1) as (tr & a & s' & -> & HQ & Htr & Hs').
    exists (Obs e r :: tr), a, s'. split_and!; [done|by rewrite cons_middle, app_assoc|by constructor|done].
Qed.
End InterpLog.

(** ** Executions on a shared state

    [holds env step p s Q]: when [p] runs on the shared state [s], each of its
    operations acting as [step] says and other threads changing the state in
    between as [env] allows, then [p] never is undefined, and its result and the
    state it leaves satisfy [Q]. *)

Section Shared.
Context {E : Type -> Type} {S : Type}.
Context (env : S -> S -> Prop) (step : forall R, E R -> S -> R -> S -> Prop).

Fixpoint holds {A} (p : prog E A) (s : S) (Q : A -> S -> Prop) : Prop :=
  match p with
  | Ret a => Q a s
  | Undef => False
  | Do e k => forall s1, env s s1 -> forall r s2, step _ e s1 r s2 -> holds (k r) s2 Q
  end.

Lemma holds_mono {A} (p : prog E A) s (P Q : A -> S -> Prop) :
  (forall a s', P a s' -> Q a s') -> holds p s P -> holds p s Q.
Proof.
  intros HPQ. revert s. induction p as [a| |R e k IH]; intros s Hp; cbn in *; auto.
  intros s1 H1 r s2 H2. apply IH. by eapply Hp.
Qed.

Lemma holds_bind {A B} (p : prog E A) (f : A -> prog E B) s Q :
  holds (p ≫= f) s Q <-> holds p s (fun a s' => holds (f a) s' Q).
Proof.
  revert s. induction p as [a| |R e k IH]; intros s; [done..|].
  cbn. split; intros Hp s1 H1 r s2 H2; apply IH; by eapply Hp.
Qed.

Lemma holds_seq {A B} (p : prog E A) (f : A -> prog E B) s P Q :
  holds p s P -> (forall a s', P a s' -> holds (f a) s' Q) -> holds (p ≫= f) s Q.
Proof. intros Hp Hf. apply holds_bind. eapply holds_mono; [|exact Hp]. exact Hf. Qed.

(** Executions, with the interference made explicit. *)
Fixpoint shared_run {A} (p : prog E A) (s : S) (a : A) (s' : S) : Prop :=
  match p with
  | Ret x => a = x /\ s' = s
  | Undef => False
  | Do e k => exists s1 r s2, env s s1 /\ step _ e s1 r s2 /\ shared_run (k r) s2 a s'
  end.

Lemma holds_run {A} (p : prog E A) s Q a s' : holds p s Q -> shared_run p s a s' -> Q a s'.
Proof.
  revert s. induction p as [x| |R e k IH]; intros s Hp Hrun; cbn in *.
  - by destruct Hrun as [-> ->].
  - done.
  - destruct Hrun as (s1 & r & s2 & H1 & H2 & Hrun). eapply IH; [by eapply Hp|done].
Qed.

Lemma shared_run_bind {A B} (p : prog E A) (f : A -> prog E B) s b s' :
  shared_run (p ≫= f) s b s' <-> exists a s1, shared_run p s a s1 /\ shared_run (f a) s1 b s'.
Proof.
  revert s. induction p as [x| |R e k IH]; intros s; cbn.
  - split; [intros H; by exists x, s|]. by intros (a & s1 & [-> ->] & H).
  - split; [done|]. by intros (a & s1 & [] & _).
  - split.
    + intros (s1 & r & s2 & H1 & H2 & (a & s3 & Ha & Hb)%IH).
      exists a, s3. split; [|done]. by exists s1, r, s2.
    + intros (a & s3 & (s1 & r & s2 & H1 & H2 & Ha) & Hb).
      exists s1, r, s2. split; [done|]. split; [done|]. apply IH. by exists a, s3.
Qed.

(** A handler that only takes allowed steps yields an execution. *)
Lemma interp_shared_run {T A} (h : forall R, E R -> M T R) (view : T -> S) (p : prog E A) :
  (forall s, env s s) ->
  (forall R e t r t', h R e t = Some (r, t') -> step R e (view t) r (view t')) ->
  forall t a t', interp h p t = Some (a, t') -> shared_run p (view t) a (view t').
Proof.
  intros Henv Hh. induction p as [x| |R e k IH]; intros t a t' Hp; cbn in *.
  - by injection Hp as <- <-.
  - done.
  - apply M_bind_some in Hp as (r & t1 & He & Hp). apply Hh in He.
    exists (view t), r, (view t1). split; [apply Henv|]. split; [done|]. by apply IH.
Qed.
End Shared.

(** ** Executions with their traces

    As [shared_run], with the operations performed and what they returned. *)

Section Traced.
Context {E : Type -> Type} {S : Type}.
Context (env : S -> S -> Prop) (step : forall R, E R -> S -> R -> S -> Prop).

Fixpoint traced {A} (p : prog E A) (s : S) (tr : list (obs E)) (a : A) (s' : S) : Prop :=
  match p with
  | Ret x => tr = [] /\ a = x /\ s' = s
  | Undef => False
  | Do e k => exists s1 r s2 tr', tr = Obs e r :: tr' /\ env s s1 /\ step _ e s1 r s2 /\
      traced (k r) s2 tr' a s'
  end.

Lemma traced_bind {A B} (p : prog E A) (f : A -> prog E B) s tr b s' :
  traced (p ≫= f) s tr b s' <->
  exists tr1 tr2 a s1, tr = tr1 ++ tr2 /\ traced p s tr1 a s1 /\ traced (f a) s1 tr2 b s'.
Proof.
  revert s tr. induction p as [x| |R e k IH]; intros s tr; cbn.
  - split; [intros H; by exists [], tr, x, s|]. by intros (tr1 & tr2 & a & s1 & -> & (-> & -> & ->) & H).
  - split; [done|]. by intros (tr1 & tr2 & a & s1 & _ & [] & _).
  - split.
    + intros (s1 & r & s2 & tr' & -> & H1 & H2 & (tr1 & tr2 & a & s3 & -> & Ha & Hb)%IH).
      exists (Obs e r :: tr1), tr2, a, s3. split; [done|]. split; [|done]. by exists s1, r, s2, tr1.
    + intros (tr1 & tr2 & a & s3 & -> & (s1 & r & s2 & tr' & -> & H1 & H2 & Ha) & Hb).
      exists s1, r, s2, (tr' ++ tr2). split_and!; try done. apply IH. by exists tr', tr2, a, s3.
Qed.

Lemma traced_do {A R} (e : E R) (f : R -> prog E A) s tr a s' :
  traced (do e ≫= f) s tr a s' ->
  exists s1 r s2 tr', tr = Obs e r :: tr' /\ env s s1 /\ step _ e s1 r s2 /\ traced (f r) s2 tr' a s'.
Proof. done. Qed.

Lemma traced_run {A} (p : prog E A) s tr a s' : traced p s tr a s' -> run p tr a.
Proof.
  revert s tr. induction p as [x| |R e k IH]; intros s tr H; cbn in *; [|done|].
  - by destruct H as (-> & -> & _).
  - destruct H as (s1 & r & s2 & tr' & -> & _ & _ & H). exists r, tr'. split; [done|]. by eapply IH.
Qed.

Lemma traced_shared {A} (p : prog E A) s tr a s' : traced p s tr a s' -> shared_run env step p s a s'.
Proof.
  revert s tr. induction p as [x| |R e k IH]; intros s tr H; cbn in *; [|done|].
  - by destruct H as (_ & -> & ->).
  - destruct H as (s1 & r & s2 & tr' & _ & H1 & H2 & H). exists s1, r, s2. split_and!; try done. by eapply IH.
Qed.

Lemma shared_traced {A} (p : prog E A) s a s' :
  shared_run env step p s a s' -> exists tr, traced p s tr a s'.
Proof.
  revert s. induction p as [x| |R e k IH]; intros s H; cbn in *; [|done|].
  - exists []. by destruct H as [-> ->].
  - destruct H as (s1 & r & s2 & H1 & H2 & [tr H]%IH). by exists (Obs e r :: tr), s1, r, s2, tr.
Qed.

(** A handler that only takes allowed steps, after allowed interference, yields one. *)
Lemma interp_traced {T A} (h : forall R, E R -> M T R) (view : T -> S) (p : prog E A) :
  (forall R e t r t', h R e t = Some (r, t') ->
     exists s1, env (view t) s1 /\ step R e s1 r (view t')) ->
  forall t tr a t', interp_log h p t = Some (tr, a, t') -> traced p (view t) tr a (view t').
Proof.
  intros Hh. induction p as [x| |R e k IH]; intros t tr a t' Hp; cbn in *; [|done|].
  - by injection Hp as <- <- <-.
  - destruct (h R e t) as [[r t1]|] eqn:He; [|done]. apply Hh in He as (s1 & H1 & H2).
    destruct (interp_log h (k r) t1) as [[[tr1 b] t2]|] eqn:Hk; [|done]. injection Hp as <- <- <-.
    exists s1, r, (view t1), tr1. split_and!; try done. by apply IH.
Qed.

Lemma holds_traced {A} (p : prog E A) s tr a s' (Q : A -> S -> Prop) :
  holds env step p s Q -> traced p s tr a s' -> Q a s'.
Proof. intros Hp Hr. eapply holds_run; [exact Hp|]. by eapply traced_shared. Qed.
End Traced.

(** ** Small steps

    [evolves p tr p']: after the events [tr], what is left of [p] is [p']. *)

Fixpoint evolves {E A} (p : prog E A) (tr : list (obs E)) (p' : prog E A) {struct tr} : Prop :=
  match tr with
  | [] => p' = p
  | Obs e r :: tr =>
      match p with
      | Do e' k => exists r', Obs e r = Obs e' r' /\ evolves (k r') tr p'
      | _ => False
      end
  end.

Lemma evolves_snoc {E A R} (p : prog E A) tr (e : E R) k r :
  evolves p tr (Do e k) -> evolves p (tr ++ [Obs e r]) (k r).
Proof.
  revert p. induction tr as [|[R' e' r'] tr IH]; intros p H; cbn in *.
  - subst p. by exists r.
  - destruct p as [a| |R2 e2 k2]; [done..|]. destruct H as (r2 & E2 & H).
    exists r2. split; [done|]. by apply IH.
Qed.

(** A program that has come to its result has run. *)
Lemma evolves_run {E A} (p : prog E A) tr a : evolves p tr (Ret a) -> run p tr a.
Proof.
  revert p. induction tr as [|[R e r] tr IH]; intros p H; cbn in H.
  - subst p. by split.
  - destruct p as [x| |R2 e2 k2]; [done..|]. destruct H as (r2 & E2 & H).
    cbn. exists r2, tr. split; [by rewrite E2|]. by apply IH.
Qed.

Lemma run_evolves {E A} (p : prog E A) tr a : run p tr a -> evolves p tr (Ret a).
Proof.
  revert tr. induction p as [x| |R e k IH]; intros tr H; cbn in H.
  - by destruct H as [-> ->].
  - done.
  - destruct H as (r & tr' & -> & H). cbn. exists r. split; [done|]. by apply IH.
Qed.

(** ** Programs that keep an invariant

    [keeps step J p]: from a state in [J], each operation of [p] leaves the state in
    [J], whatever else happens between two of them, as long as it is in [J]. *)

Section Keeps.
Context {E : Type -> Type} {S : Type}.
Context (step : forall R, E R -> S -> R -> S -> Prop) (J : S -> Prop).

Fixpoint keeps {A} (p : prog E A) : Prop :=
  match p with
  | Do e k => forall s r s', J s -> step _ e s r s' -> J s' /\ keeps (k r)
  | _ => True
  end.

Lemma keeps_bind {A B} (p : prog E A) (f : A -> prog E B) :
  keeps p -> (forall a, keeps (f a)) -> keeps (p ≫= f).
Proof.
  intros Hp Hf. induction p as [a| |R e k IH]; cbn in *; [apply Hf|done|].
  intros s r s' HJ Hs. destruct (Hp s r s' HJ Hs) as [H1 H2]. split; [done|]. by apply IH.
Qed.

(** Every result [p] can return satisfies [P]. *)
Fixpoint returns {A} (P : A -> Prop) (p : prog E A) : Prop :=
  match p with
  | Ret a => P a
  | Undef => True
  | Do e k => forall r, returns P (k r)
  end.

Lemma returns_bind {A B} (P : A -> Prop) (Q : B -> Prop) (p : prog E A) (f : A -> prog E B) :
  returns P p -> (forall a, P a -> returns Q (f a)) -> returns Q (p ≫= f).
Proof.
  intros Hp Hf. induction p as [a| |R e k IH]; cbn in *; [by apply Hf|done|].
  intros r. by apply IH.
Qed.

Lemma keeps_bind_returns {A B} (P : A -> Prop) (p : prog E A) (f : A -> prog E B) :
  keeps p -> returns P p -> (forall a, P a -> keeps (f a)) -> keeps (p ≫= f).
Proof.
  intros Hp HP Hf. induction p as [a| |R e k IH]; cbn in *; [by apply Hf|done|].
  intros s r s' HJ Hs. destruct (Hp s r s' HJ Hs) as [H1 H2]. split; [done|]. by apply IH.
Qed.

(** The result of one operation satisfies [P]. *)
Lemma keeps_do {A R} (e : E R) (k : R -> prog E A) (P : R -> Prop) :
  (forall s r s', J s -> step _ e s r s' -> J s' /\ P r) -> (forall r, P r -> keeps (k r)) ->
  keeps (do e ≫= k).
Proof.
  intros He Hk s r s' HJ Hs. destruct (He s r s' HJ Hs) as [H1 H2]. split; [done|]. by apply Hk.
Qed.

Lemma keeps_do_any {A R} (e : E R) (k : R -> prog E A) :
  (forall s r s', J s -> step _ e s r s' -> J s') -> (forall r, keeps (k r)) -> keeps (do e ≫= k).
Proof. intros He Hk. apply (keeps_do e k (fun _ => True)); auto. intros s r s' HJ Hs. by split; [eapply He|]. Qed.

Lemma keeps_one {R} (e : E R) :
  (forall s r s', J s -> step _ e s r s' -> J s') -> keeps (do e).
Proof. intros He s r s' HJ Hs. by split; [eapply He|]. Qed.
End Keeps.

(** [holds] is kept by a step of the environment or of the program. *)
Lemma holds_env {E S A} (env : S -> S -> Prop) (step : forall R, E R -> S -> R -> S -> Prop)
    (p : prog E A) s s' Q :
  Transitive env -> env s s' -> (forall a, Q a s -> Q a s') ->
  holds env step p s Q -> holds env step p s' Q.
Proof.
  intros Ht Henv HQ. destruct p as [a| |R e k]; cbn; [auto|done|].
  intros Hp s1 H1. apply Hp. by etransitivity.
Qed.

Lemma holds_step {E S A R} (env : S -> S -> Prop) (step : forall R, E R -> S -> R -> S -> Prop)
    (e : E R) (k : R -> prog E A) s r s' Q :
  Reflexive env -> step _ e s r s' -> holds env step (Do e k) s Q -> holds env step (k r) s' Q.
Proof. intros Hr Hs Hp. eapply Hp; [apply Hr|exact Hs]. Qed.


(** ** Programs that only perform some operations *)

Section Only.
Context {E : Type -> Type} (P : forall R, E R -> Prop).

Fixpoint only {A} (p : prog E A) : Prop :=
  match p with
  | Do e k => P _ e /\ forall r, only (k r)
  | _ => True
  end.

Lemma only_bind {A B} (p : prog E A) (f : A -> prog E B) :
  only p -> (forall a, only (f a)) -> only (p ≫= f).
Proof.
  intros Hp Hf. induction p as [a| |R e k IH]; cbn in *; [apply Hf|done|].
  destruct Hp as [H1 H2]. split; [done|]. intros r. by apply IH.
Qed.

Lemma only_do {R} (e : E R) : P R e -> only (do e).
Proof. by intros He. Qed.

Lemma only_ret {A} (a : A) : only (mret a : prog E A).
Proof. done. Qed.

Lemma only_defined {A} (o : option A) : only (defined o).
Proof. by destruct o. Qed.

Lemma only_run {A} (p : prog E A) tr a :
  only p -> run p tr a -> Forall (fun o => match o with Obs e _ => P _ e end) tr.
Proof.
  revert tr. induction p as [x| |R e k IH]; intros tr Hp Hr; [by destruct Hr as [-> _]|done|].
  destruct Hp as [He Hk], Hr as (r & tr' & -> & Hr). constructor; [done|]. by eapply IH.
Qed.
End Only.

(** ** Processes

    A program under way and the events it has performed. *)

Record proc (E : Type -> Type) (A : Type) := mk_proc { code : prog E A; past : list (obs E) }.
Arguments mk_proc {E A} code past.
Arguments code {E A}.
Arguments past {E A}.

Inductive proc_step {E A S} (step : forall R, E R -> S -> R -> S -> Prop) :
    proc E A -> S -> proc E A -> S -> Prop :=
| proc_do R (e : E R) k tr s r s' :
    step R e s r s' -> proc_step step (mk_proc (Do e k) tr) s (mk_proc (k r) (tr ++ [Obs e r])) s'.
