(* ===== verification/Shm.v ===== *)
(** * The shared segment (daemon/include/so101_shm.h)

    The constants and the snapshot record of the daemon's public interface, and
    the seqlock that protects the snapshot: the writer and the readers as
    programs that copy it word by word, interleaved in every possible way. *)

From stdpp Require Import strings.
From S2P Require Import Prelude.

(** ** Constants *)

Definition SO101_SHM_MAGIC : Z := 0x31303153.
Definition SO101_SHM_VERSION : Z := 2.
Definition SO101_NJ : nat := 6.

Definition SO101_MODE_IDLE : Z := 0.
Definition SO101_MODE_TELEOP : Z := 1.
Definition SO101_MODE_HOLD : Z := 2.
Definition SO101_MODE_ESTOP : Z := 3.

Definition SO101_F_LEADER_COMM : Z := Z.shiftl 1 0.
Definition SO101_F_FOLLOWER_COMM : Z := Z.shiftl 1 1.
Definition SO101_F_OVERTEMP : Z := Z.shiftl 1 2.
Definition SO101_F_VOLTAGE : Z := Z.shiftl 1 3.
Definition SO101_F_OVERRUN : Z := Z.shiftl 1 4.
Definition SO101_F_STALL : Z := Z.shiftl 1 5.
Definition SO101_F_ESTOP : Z := Z.shiftl 1 6.
Definition SO101_F_TORQUE_REFUSED : Z := Z.shiftl 1 7.

Definition SO101_CMD_NONE : Z := 0.
Definition SO101_CMD_SET_MODE : Z := 1.
Definition SO101_CMD_ESTOP : Z := 2.
Definition SO101_CMD_RESET : Z := 3.
Definition SO101_CMD_PING : Z := 4.

Definition SO101_RES_OK : Z := 0.
Definition SO101_RES_BAD_CMD : Z := -1.
Definition SO101_RES_REFUSED : Z := -2.

Definition so101_mode_name (m : Z) : string :=
  if (0 <=? m) && (m <? 4)
  then nth (Z.to_nat m) ["IDLE"; "TELEOP"; "HOLD"; "ESTOP"] "" else "?".

(** ** The snapshot of one control cycle

    The floats [leader_norm] and [follower_norm] are as in [Float32.v]. *)
Record so101_sample := mk_sample {
  s_cycle : Z;
  s_t_mono_ns : Z;
  s_wake_lat_ns : Z;
  s_exec_ns : Z;
  s_bus_leader_ns : Z;
  s_bus_follower_ns : Z;
  s_faults : Z;
  s_mode : Z;
  s_leader_ok : bool;
  s_follower_ok : bool;
  s_torque_on : bool;
  s_leader_pos : list Z;
  s_follower_goal : list Z;
  s_follower_pos : list Z;
  s_follower_vel : list Z;
  s_follower_load : list Z;
  s_follower_volt : list Z;
  s_follower_temp : list Z;
  s_leader_norm : list Z;
  s_follower_norm : list Z;
  s_overruns : Z;
  s_missed_slots : Z;
  s_leader_errs : Z;
  s_follower_errs : Z;
  s_max_wake_lat_ns : Z;
  s_max_exec_ns : Z;
  s_leader_streak : Z;
  s_follower_streak : Z;
  s_ramping : Z
}.

(** [so101_sample_t s = {0}]. *)
Definition zero_joints : list Z := replicate SO101_NJ 0.
Definition sample_zero : so101_sample :=
  mk_sample 0 0 0 0 0 0 0 0 false false false zero_joints zero_joints zero_joints zero_joints
    zero_joints zero_joints zero_joints zero_joints zero_joints 0 0 0 0 0 0 0 0 0.

Record so101_cmd := mk_cmd { cmd_id : Z; cmd_cmd : Z; cmd_arg : Z; cmd_client_pid : Z }.
Record so101_ack := mk_ack { ack_id : Z; ack_result : Z }.

(** ** The counter of stores *)

Lemma u32_succ a b : u32 a = u32 b -> u32 (a + 1) = u32 (b + 1).
Proof. unfold wrap_u. intros E. rewrite <- Zplus_mod_idemp_l, E. apply Zplus_mod_idemp_l. Qed.

Lemma u32_idem a : u32 (u32 a) = u32 a.
Proof. apply wrap_u_id, wrap_u_range. lia. Qed.

Lemma u32_same c1 c2 :
  u32 (Z.of_nat c1) = u32 (Z.of_nat c2) -> (c1 <= c2)%nat ->
  Z.of_nat c2 < Z.of_nat c1 + 2 ^ 32 -> c1 = c2.
Proof.
  unfold wrap_u. intros Hm Hle Hlt.
  pose proof (Z.div_mod (Z.of_nat c1) (2 ^ 32)). pose proof (Z.div_mod (Z.of_nat c2) (2 ^ 32)).
  cbn in *. lia.
Qed.

Lemma seq_parity c : Z.land (u32 (Z.of_nat c)) 1 = 0 <-> Nat.even c = true.
Proof.
  change 1 with (2 ^ 1 - 1). rewrite land_ones_mod by lia. unfold wrap_u.
  pose proof (Z.div_mod (Z.of_nat c) (2 ^ 32)) as H1.
  pose proof (Z.div_mod (Z.of_nat c mod 2 ^ 32) (2 ^ 1)) as H2.
  pose proof (Z.mod_pos_bound (Z.of_nat c mod 2 ^ 32) (2 ^ 1)).
  rewrite Nat.even_spec. split.
  - intros E. exists (Z.to_nat (Z.of_nat c / 2)).
    pose proof (Z.div_mod (Z.of_nat c) 2). pose proof (Z.mod_pos_bound (Z.of_nat c) 2).
    pose proof (Z.div_pos (Z.of_nat c) 2). cbn in *. lia.
  - intros [m Hm]. cbn in *. lia.
Qed.

Lemma even_succ c : Nat.even (S c) = negb (Nat.even c).
Proof. by rewrite Nat.even_succ, <- Nat.negb_even. Qed.

Lemma half_even_succ c : Nat.even c = true -> (S c / 2 = c / 2)%nat.
Proof.
  intros [m ->]%Nat.even_spec. rewrite (Nat.mul_comm 2 m), Nat.div_mul by lia.
  symmetry. apply (Nat.div_unique _ 2 m 1); lia.
Qed.

Lemma half_odd_succ c : Nat.even c = false -> (S c / 2 = S (c / 2))%nat.
Proof.
  intros Hc. rewrite <- Nat.negb_odd in Hc. apply negb_false_iff, Nat.odd_spec in Hc as [m ->].
  rewrite (Nat.mul_comm 2 m). rewrite <- (Nat.div_unique (m * 2 + 1) 2 m 1) by lia.
  symmetry. apply (Nat.div_unique _ 2 (S m) 0); lia.
Qed.

(** ** The seqlock

    The snapshot is a sequence of [n] machine words ([memcpy] copies them one at a
    time; the fences keep the copies between the two accesses of [seq]).  [count]
    is the number of stores to [seq] since the start, of which [seq] shows the low
    32 bits; [published] lists the snapshots completely written, the initial one
    first.  Both are ghost state: no step reads them. *)

Section Seqlock.
Context (n : nat).

(** so101_shm_publish: before its first store, with [q] loaded, and copying. *)
Inductive writer :=
| WIdle
| WLoaded (q : Z) (src : list Z)
| WCopy (q : Z) (src : list Z) (i : nat).

(** so101_shm_read: at the head of the loop, copying, and returned.  [c1] and
    [c2] note [count] at the two loads of [seq] (ghost). *)
Inductive reader :=
| RTry (k : nat)
| RCopy (k : nat) (q1 : Z) (dst : list Z) (c1 : nat)
| RDone (result : Z) (dst : list Z) (c1 c2 : nat).

Record segment := mk_segment {
  seq : Z; words : list Z; wr : writer; rd : reader;
  count : nat; published : list (list Z)
}.

Definition set_wr (w : writer) (s : segment) : segment :=
  mk_segment (seq s) (words s) w (rd s) (count s) (published s).
Definition set_rd (r : reader) (s : segment) : segment :=
  mk_segment (seq s) (words s) (wr s) r (count s) (published s).
(** [atomic_store_explicit(&shm->seq, q, ...)]. *)
Definition store_seq (q : Z) (s : segment) : segment :=
  mk_segment (u32 q) (words s) (wr s) (rd s) (S (count s)) (published s).
Definition store_word (i : nat) (x : Z) (s : segment) : segment :=
  mk_segment (seq s) (<[i := x]> (words s)) (wr s) (rd s) (count s) (published s).
Definition add_published (src : list Z) (s : segment) : segment :=
  mk_segment (seq s) (words s) (wr s) (rd s) (count s) (published s ++ [src]).

(** One step of the writer. *)
Inductive writer_step : segment -> segment -> Prop :=
| publish_load s src :
    wr s = WIdle -> length src = n -> writer_step s (set_wr (WLoaded (seq s) src) s)
| publish_odd s q src :
    wr s = WLoaded q src -> writer_step s (set_wr (WCopy q src 0) (store_seq (q + 1) s))
| publish_word s q src i x :
    wr s = WCopy q src i -> src !! i = Some x ->
    writer_step s (set_wr (WCopy q src (S i)) (store_word i x s))
| publish_even s q src :
    wr s = WCopy q src n ->
    writer_step s (add_published src (set_wr WIdle (store_seq (q + 2) s))).

(** One step of a reader with [max_tries] attempts. *)
Inductive reader_step (max_tries : nat) : segment -> segment -> Prop :=
| read_give_up s k :
    rd s = RTry k -> (max_tries <= k)%nat ->
    reader_step max_tries s (set_rd (RDone (-1) [] (count s) (count s)) s)
| read_odd s k :
    rd s = RTry k -> (k < max_tries)%nat -> Z.land (seq s) 1 <> 0 ->
    reader_step max_tries s (set_rd (RTry (S k)) s)
| read_even s k :
    rd s = RTry k -> (k < max_tries)%nat -> Z.land (seq s) 1 = 0 ->
    reader_step max_tries s (set_rd (RCopy k (seq s) [] (count s)) s)
| read_word s k q1 dst c1 x :
    rd s = RCopy k q1 dst c1 -> words s !! length dst = Some x ->
    reader_step max_tries s (set_rd (RCopy k q1 (dst ++ [x]) c1) s)
| read_same s k q1 dst c1 :
    rd s = RCopy k q1 dst c1 -> length dst = n -> q1 = seq s ->
    reader_step max_tries s (set_rd (RDone (Z.of_nat k) dst c1 (count s)) s)
| read_changed s k q1 dst c1 :
    rd s = RCopy k q1 dst c1 -> length dst = n -> q1 <> seq s ->
    reader_step max_tries s (set_rd (RTry (S k)) s).

(** The segment before the first publication, and everything it can become. *)
Definition seqlock_init (initial : list Z) : segment :=
  mk_segment 0 initial WIdle (RTry 0) 0 [initial].

Inductive seqlock_reach (initial : list Z) (max_tries : nat) : segment -> Prop :=
| reach_init : seqlock_reach initial max_tries (seqlock_init initial)
| reach_writer s s' :
    seqlock_reach initial max_tries s -> writer_step s s' -> seqlock_reach initial max_tries s'
| reach_reader s s' :
    seqlock_reach initial max_tries s -> reader_step max_tries s s' ->
    seqlock_reach initial max_tries s'
(** a reader that returned may call again *)
| reach_call s r d c1 c2 :
    seqlock_reach initial max_tries s -> rd s = RDone r d c1 c2 ->
    seqlock_reach initial max_tries (set_rd (RTry 0) s).

(** ** Invariant *)

Definition current (s : segment) : Prop :=
  Nat.even (count s) = true /\ published s !! (count s / 2)%nat = Some (words s) /\
  length (published s) = S (count s / 2)%nat.

Definition writer_ok (s : segment) : Prop :=
  match wr s with
  | WIdle => current s
  | WLoaded q src => current s /\ q = seq s /\ length src = n
  | WCopy q src i => Nat.even (count s) = false /\ (i <= n)%nat /\ length src = n /\
             seq s = u32 (q + 1) /\ take i (words s) = take i src /\
             length (published s) = S (count s / 2)%nat
  end.

(** What the reader holds is the prefix of the [c1 / 2]-th snapshot as long as
    [seq] was not stored to again. *)
Definition reader_ok (s : segment) : Prop :=
  match rd s with
  | RTry _ => True
  | RCopy k q1 dst c1 =>
      (c1 <= count s)%nat /\ q1 = u32 (Z.of_nat c1) /\ Nat.even c1 = true /\
      (length dst <= n)%nat /\
      (c1 = count s -> exists src, published s !! (c1 / 2)%nat = Some src /\ dst = take (length dst) src)
  | RDone r dst c1 c2 =>
      (c1 <= c2 <= count s)%nat /\
      (0 <= r -> length dst = n /\ (Z.of_nat c2 < Z.of_nat c1 + 2 ^ 32 ->
                 c1 = c2 /\ published s !! (c1 / 2)%nat = Some dst))
  end.

Definition seqlock_inv (s : segment) : Prop :=
  seq s = u32 (Z.of_nat (count s)) /\ length (words s) = n /\ writer_ok s /\ reader_ok s.

(** The reader's claim survives whatever the writer adds. *)
Lemma reader_ok_grow s s' l :
  rd s' = rd s -> (count s <= count s')%nat -> published s' = published s ++ l ->
  reader_ok s -> reader_ok s'.
Proof.
  intros Hrd Hc Hp Hr. unfold reader_ok in *. rewrite Hrd, Hp.
  assert (Hsome : forall k src, published s !! k = Some src -> (published s ++ l) !! k = Some src)
    by (intros; by apply lookup_app_l_Some).
  destruct (rd s) as [k|k q1 dst c1|r dst c1 c2]; [done| |].
  - destruct Hr as (H1 & H2 & H3 & H4 & H5). split_and!; try done; [lia|].
    intros Ec. destruct H5 as (src & Hs & Hd); [lia|]. eauto.
  - destruct Hr as (H1 & H2). split; [lia|]. intros Hr0. destruct (H2 Hr0) as [Hd H3].
    split; [done|]. intros Hlt. destruct (H3 Hlt). auto.
Qed.

Lemma writer_step_inv s s' : seqlock_inv s -> writer_step s s' -> seqlock_inv s'.
Proof.
  intros (Hseq & Hlen & Hw & Hr) Hstep.
  assert (Hr' : forall s1 l, rd s1 = rd s -> (count s <= count s1)%nat ->
                published s1 = published s ++ l -> reader_ok s1)
    by (intros; by eapply reader_ok_grow).
  destruct Hstep as [s src E Hsrc|s q src E|s q src i x E Hx|s q src E];
    unfold writer_ok in Hw; rewrite E in Hw.
  - split_and!; [done|done|by split_and!|by eapply (Hr' _ []); cbn; rewrite ?app_nil_r].
  - destruct Hw as ((Hev & Hp & Hl) & -> & Hsrc).
    split_and!; [|done| |by eapply (Hr' _ []); cbn; rewrite ?app_nil_r; auto].
    + cbn [seq store_seq set_wr count]. rewrite Nat2Z.inj_succ. apply u32_succ.
      by rewrite Hseq, u32_idem.
    + unfold writer_ok. cbn [wr set_wr store_seq count words published seq].
      rewrite even_succ, Hev, half_even_succ by done. split_and!; try done. lia.
  - destruct Hw as (Hev & Hi & Hsrc & Hq & Htake & Hl). pose proof (lookup_lt_Some _ _ _ Hx).
    split_and!; [done|cbn; by rewrite length_insert| |by eapply (Hr' _ []); cbn; rewrite ?app_nil_r].
    unfold writer_ok. cbn [wr set_wr store_word count words published seq].
    split_and!; try done; [lia|].
    erewrite !take_S_r; [|done|by rewrite list_lookup_insert_eq by lia].
    by rewrite take_insert_ge, Htake.
  - destruct Hw as (Hev & _ & Hsrc & Hq & Htake & Hl).
    assert (Hwords : words s = src).
    { rewrite <- (take_ge (words s) n), Htake, take_ge by lia. done. }
    split_and!; [|done| |eapply (Hr' _ [src]); cbn; auto].
    + cbn [seq add_published store_seq set_wr count]. rewrite Nat2Z.inj_succ.
      replace (q + 2) with (q + 1 + 1) by lia. apply u32_succ. congruence.
    + unfold writer_ok, current. cbn [wr set_wr add_published store_seq count words published seq].
      rewrite even_succ, Hev, half_odd_succ by done.
      split_and!; [done| |by rewrite length_app, Hl; cbn; lia].
      rewrite lookup_app_r by lia. rewrite Hl, Nat.sub_diag. by rewrite Hwords.
Qed.

Lemma even_current s :
  writer_ok s -> Nat.even (count s) = true -> published s !! (count s / 2)%nat = Some (words s).
Proof.
  unfold writer_ok, current. destruct (wr s); intros Hw Hev; [apply Hw|apply Hw|].
  destruct Hw as [Hodd _]. congruence.
Qed.

Lemma reader_step_inv max_tries s s' :
  seqlock_inv s -> reader_step max_tries s s' -> seqlock_inv s'.
Proof.
  intros (Hseq & Hlen & Hw & Hr) Hstep.
  destruct Hstep as [s k E|s k E|s k E Hk Heven|s k q1 dst c1 x E Hx|s k q1 dst c1 E Hd Hq|s k q1 dst c1 E];
    unfold reader_ok in Hr; rewrite E in Hr; (split_and!; [done|done|exact Hw|]);
    unfold reader_ok; cbn [rd set_rd count published].
  - split; [lia|]. lia.
  - done.
  - rewrite Hseq in Heven. apply seq_parity in Heven.
    split_and!; [lia|done|done|cbn; lia|]. intros _.
    exists (words s). split; [by apply even_current|done].
  - destruct Hr as (H1 & H2 & H3 & H4 & H5). pose proof (lookup_lt_Some _ _ _ Hx).
    rewrite length_app. cbn. split_and!; try done; [lia|]. intros Ec.
    destruct (H5 Ec) as (src & Hs & Hdst). exists src. split; [done|].
    rewrite Ec in Hs, H3. rewrite (even_current s Hw H3) in Hs. injection Hs as Hs.
    rewrite Hs in Hx. rewrite Nat.add_1_r, (take_S_r _ _ _ Hx). by rewrite <- Hdst.
  - destruct Hr as (H1 & H2 & H3 & H4 & H5). split; [lia|]. intros _. split; [done|].
    intros Hlt. assert (c1 = count s) as Ec by (apply u32_same; congruence || lia).
    split; [done|]. destruct (H5 Ec) as (src & Hs & Hdst). rewrite Hs. f_equal.
    rewrite Ec in Hs, H3. rewrite (even_current s Hw H3) in Hs. injection Hs as Hs.
    rewrite Hdst, take_ge; [done|]. subst src. lia.
  - done.
Qed.

Lemma seqlock_reach_inv initial max_tries s :
  length initial = n -> seqlock_reach initial max_tries s -> seqlock_inv s.
Proof.
  intros Hn. induction 1 as [|s s' _ IH Hs|s s' _ IH Hs|s r d c1 c2 _ IH E].
  - split_and!; [done|done| |done]. by split_and!.
  - by eapply writer_step_inv.
  - by eapply reader_step_inv.
  - destruct IH as (H1 & H2 & H3 & H4). by split_and!.
Qed.
End Seqlock.

(** C6: a reader never returns a torn snapshot: when [so101_shm_read] returns 0 or
    more, what it copied is exactly one of the published snapshots, namely the one
    that was current when the successful attempt began, whatever the interleaving
    with the writer (unless [seq] was stored to 2^32 times or more during that one
    attempt), and it needed fewer than [max_tries] retries. *)
Theorem seqlock_no_torn_read n initial max_tries s r dst c1 c2 :
  length initial = n -> seqlock_reach n initial max_tries s ->
  rd s = RDone r dst c1 c2 -> 0 <= r -> Z.of_nat c2 < Z.of_nat c1 + 2 ^ 32 ->
  published s !! (c1 / 2)%nat = Some dst /\ c1 = c2.
Proof.
  intros Hn Hreach Hrd Hr Hlt. apply seqlock_reach_inv in Hreach as (_ & _ & _ & Hok); [|done].
  unfold reader_ok in Hok. rewrite Hrd in Hok. destruct Hok as [_ Hok].
  destruct (Hok Hr) as [_ Hsnap]. by destruct (Hsnap Hlt).
Qed.

(** A reader that meets an unfinished publication of [[7; 8]], retries, and gets
    it. *)
Definition busy_reader : segment :=
  mk_segment 2 [7; 8] WIdle (RDone 1 [7; 8] 2 2) 2 [[0; 0]; [7; 8]].

Ltac seq_step R rule constr :=
  eapply rule in R; [|eapply constr; first [reflexivity|lia|vm_compute; discriminate]].

Lemma busy_reader_reach : seqlock_reach 2 [0; 0] 100 busy_reader.
Proof.
  pose proof (reach_init 2 [0; 0] 100) as R.
  seq_step R reach_writer (publish_load 2 (seqlock_init [0; 0]) [7; 8]).
  seq_step R reach_writer publish_odd.
  seq_step R reach_writer publish_word.
  seq_step R reach_reader read_odd.
  seq_step R reach_writer publish_word.
  seq_step R reach_writer publish_even.
  seq_step R reach_reader read_even.
  seq_step R reach_reader read_word.
  seq_step R reach_reader read_word.
  seq_step R reach_reader read_same.
  exact R.
Qed.

Lemma seqlock_no_torn_read_witness :
  published busy_reader !! 1%nat = Some [7; 8].
Proof.
  apply (seqlock_no_torn_read 2 [0; 0] 100 busy_reader 1 [7; 8] 2 2);
    [reflexivity|apply busy_reader_reach|reflexivity|lia|reflexivity].
Defined.

(** ** Progress *)

(** The steps a thread still needs, at most. *)
Definition writer_left (n : nat) (s : segment) : nat :=
  match wr s with
  | WIdle => 0
  | WLoaded _ _ => n + 2
  | WCopy _ _ i => n + 1 - i
  end.

Definition reader_left (n max_tries : nat) (s : segment) : nat :=
  match rd s with
  | RTry k => (max_tries - k) * (n + 3) + 1
  | RCopy k _ dst _ => (max_tries - k) * (n + 3) - length dst
  | RDone _ _ _ _ => 0
  end.

Lemma reader_tries n initial max_tries s :
  seqlock_reach n initial max_tries s ->
  match rd s with RTry k => (k <= max_tries)%nat | RCopy k _ _ _ => (k < max_tries)%nat | _ => True end.
Proof.
  induction 1 as [|s s' _ IH Hs|s s' _ IH Hs|s r d c1 c2 _ IH E]; cbn; try lia.
  - by destruct Hs.
  - destruct Hs as [s k E|s k E|s k E|s k ? ? ? ? E|s k ? ? ? E|s k ? ? ? E]; rewrite E in IH; cbn; lia.
Qed.

(** The seqlock is wait-free for the writer and bounded for readers: a
    publication in progress can always take its next step and every step brings it
    closer to its end, independently of the reader; a reader can always take its
    next step and returns after at most [max_tries * (n + 3) + 1] of its own
    steps, whatever the writer does. *)
Theorem seqlock_progress n initial max_tries s :
  length initial = n -> seqlock_reach n initial max_tries s ->
  (wr s <> WIdle -> exists s', writer_step n s s') /\
  (forall s', writer_step n s s' -> wr s <> WIdle -> (writer_left n s' < writer_left n s)%nat) /\
  (forall s', reader_step n max_tries s s' -> writer_left n s' = writer_left n s) /\
  ((forall r d c1 c2, rd s <> RDone r d c1 c2) -> exists s', reader_step n max_tries s s') /\
  (forall s', reader_step n max_tries s s' ->
     (reader_left n max_tries s' < reader_left n max_tries s)%nat) /\
  (forall s', writer_step n s s' -> reader_left n max_tries s' = reader_left n max_tries s).
Proof.
  intros Hn Hreach. pose proof (reader_tries _ _ _ _ Hreach) as Ht.
  apply seqlock_reach_inv in Hreach as (_ & Hlen & Hw & Hr); [|done].
  unfold writer_ok in Hw. unfold reader_ok in Hr. split_and!.
  - intros Hbusy. destruct (wr s) as [|q src|q src i] eqn:E; [done|eexists; by constructor|].
    destruct (decide (i = n)) as [->|]; [eexists; by eapply publish_even|].
    destruct (lookup_lt_is_Some_2 src i) as [x Hx]; [lia|]. eexists. by eapply publish_word.
  - intros s' Hs Hbusy. unfold writer_left.
    destruct Hs as [s src E|s q src E|s q src i x E Hx|s q src E]; try apply lookup_lt_Some in Hx; rewrite E in *; cbn; done || lia.
  - intros s' Hs. by destruct Hs.
  - intros Hbusy. destruct (rd s) as [k|k q1 dst c1|r d c1 c2] eqn:E; [| |by destruct (Hbusy r d c1 c2)].
    + destruct (decide (max_tries <= k)%nat); [eexists; by apply (read_give_up n max_tries s k)|].
      destruct (decide (Z.land (seq s) 1 = 0)); eexists;
        [eapply (read_even n max_tries s k)|eapply (read_odd n max_tries s k)]; done || lia.
    + destruct Hr as (_ & _ & _ & Hd & _).
      destruct (decide (length dst = n)) as [Hfull|].
      * destruct (decide (q1 = seq s)); eexists; [by eapply read_same|by eapply read_changed].
      * destruct (lookup_lt_is_Some_2 (words s) (length dst)) as [x Hx]; [lia|].
        eexists. by eapply read_word.
  - intros s' Hs. unfold reader_left.
    destruct Hs as [s k E Hk|s k E Hk Ho|s k E Hk|s k q1 dst c1 x E Hx|s k q1 dst c1 E Hd|s k q1 dst c1 E Hd];
      try apply lookup_lt_Some in Hx; rewrite E in *; cbn [rd set_rd];
      rewrite ?length_app; cbn [length]; try lia;
      assert (max_tries - k = S (max_tries - S k))%nat as -> by lia; cbn [Nat.mul];
      generalize ((max_tries - S k) * (n + 3))%nat; intros; lia.
  - intros s' Hs. by destruct Hs.
Qed.

Lemma seqlock_progress_witness :
  exists s', writer_step 2 (set_wr (WLoaded 0 [7; 8]) (seqlock_init [0; 0])) s'.
Proof.
  apply (seqlock_progress 2 [0; 0] 100); [reflexivity| |discriminate].
  eapply reach_writer; [apply reach_init|]. by apply publish_load.
Defined.
