(* ===== verification/Layout.v ===== *)
(** * The byte layout of the segment (daemon/include/so101_shm.h)

    The structs as lists of members, placed as a C compiler places them (natural
    alignment), and their bytes in memory: [encode_shm] are those of the whole segment.
    Values go to members by name, so that the order of the members matters also where
    their types agree. *)

From stdpp Require Import strings.
From S2P Require Import Prelude Float32 Calib Shm.

(** ** Members *)

Inductive ctype := U8 | U16 | U32 | U64 | I16 | I32 | I64 | F32.

#[export] Instance ctype_eq : EqDecision ctype.
Proof. solve_decision. Defined.

Definition ctype_size (t : ctype) : nat :=
  match t with U8 => 1 | U16 | I16 => 2 | U32 | I32 | F32 => 4 | U64 | I64 => 8 end.

(** A member: its name, the type of its elements, how many there are. *)
Record member := mk_member { m_name : string; m_type : ctype; m_count : nat }.
Definition m_size (m : member) : nat := m_count m * ctype_size (m_type m).

Definition align_up (off a : nat) : nat := Nat.div (off + a - 1) a * a.

(** Where each member goes, from the offset [off]. *)
Fixpoint place (off : nat) (ms : list member) : list (string * nat) * nat :=
  match ms with
  | [] => ([], off)
  | m :: ms =>
      let at_off := align_up off (ctype_size (m_type m)) in
      let r := place (at_off + m_size m) ms in
      ((m_name m, at_off) :: r.1, r.2)
  end.

Definition struct_align (ms : list member) : nat :=
  fold_right Nat.max 1%nat (map (fun m => ctype_size (m_type m)) ms).
Definition sizeof (ms : list member) : nat := align_up (place 0 ms).2 (struct_align ms).

Definition so101_sample_t : list member :=
  [mk_member "cycle" U64 1; mk_member "t_mono_ns" I64 1; mk_member "wake_lat_ns" I32 1;
   mk_member "exec_ns" I32 1; mk_member "bus_leader_ns" I32 1; mk_member "bus_follower_ns" I32 1;
   mk_member "faults" U32 1; mk_member "mode" U8 1; mk_member "leader_ok" U8 1;
   mk_member "follower_ok" U8 1; mk_member "torque_on" U8 1;
   mk_member "leader_pos" I16 SO101_NJ; mk_member "follower_goal" I16 SO101_NJ;
   mk_member "follower_pos" I16 SO101_NJ; mk_member "follower_vel" I16 SO101_NJ;
   mk_member "follower_load" I16 SO101_NJ; mk_member "follower_volt" U8 SO101_NJ;
   mk_member "follower_temp" U8 SO101_NJ; mk_member "leader_norm" F32 SO101_NJ;
   mk_member "follower_norm" F32 SO101_NJ;
   mk_member "overruns" U32 1; mk_member "missed_slots" U32 1; mk_member "leader_errs" U32 1;
   mk_member "follower_errs" U32 1; mk_member "max_wake_lat_ns" I32 1; mk_member "max_exec_ns" I32 1;
   mk_member "leader_streak" U16 1; mk_member "follower_streak" U16 1; mk_member "ramping" U8 1;
   mk_member "_pad1" U8 3].

Definition so101_cmd_t : list member :=
  [mk_member "id" U32 1; mk_member "cmd" U32 1; mk_member "arg" I32 1; mk_member "client_pid" I32 1].
Definition so101_ack_t : list member := [mk_member "id" U32 1; mk_member "result" I32 1].

(** A nested struct is inlined, at a member of its alignment. *)
Definition nest (path : string) (ms : list member) : list member :=
  map (fun m => mk_member (path +:+ "." +:+ m_name m) (m_type m) (m_count m)) ms.

Definition so101_shm_t : list member :=
  [mk_member "magic" U32 1; mk_member "version" U32 1; mk_member "size" U32 1;
   mk_member "daemon_pid" I32 1; mk_member "period_ns" U32 1; mk_member "n_joints" U32 1;
   mk_member "joint_names" U8 (SO101_NJ * 16);
   mk_member "seq" U32 1; mk_member "_pad0" U32 1] ++
  nest "s" so101_sample_t ++
  [mk_member "mode_req" U32 1; mk_member "faults" U32 1; mk_member "sup_beat" U64 1] ++
  nest "cmd" so101_cmd_t ++ nest "ack" so101_ack_t.

(** ** Bytes

    A C value in little-endian bytes.  A float has the bits of its binary32 value (a
    zero is written as +0). *)

Fixpoint le_bytes (n : nat) (z : Z) : list Z :=
  match n with O => [] | S n => z mod 256 :: le_bytes n (z / 256) end.
Fixpoint of_le (bs : list Z) : Z :=
  match bs with [] => 0 | b :: bs => b + 256 * of_le bs end.

Definition f32_bits (x : Z) : Z :=
  let a := Z.abs x in
  let e := last_place a in
  (if x <? 0 then 2 ^ 31 else 0) + (e * 2 ^ 23 + a / 2 ^ e).
Definition f32_of_bits (b : Z) : Z :=
  let m := b mod 2 ^ 31 in
  let e := m / 2 ^ 23 in
  let a := if e <=? 1 then m else (2 ^ 23 + m mod 2 ^ 23) * 2 ^ (e - 1) in
  if b / 2 ^ 31 =? 0 then a else - a.

Definition bits_of (t : ctype) : Z := 8 * Z.of_nat (ctype_size t).
Definition enc (t : ctype) (z : Z) : list Z :=
  le_bytes (ctype_size t) (match t with F32 => f32_bits z | _ => wrap_u (bits_of t) z end).
Definition dec (t : ctype) (bs : list Z) : Z :=
  match t with
  | U8 | U16 | U32 | U64 => of_le bs
  | I16 | I32 | I64 => wrap_s (bits_of t) (of_le bs)
  | F32 => f32_of_bits (of_le bs)
  end.

(** The values of a type: integers of its width, finite binary32 values. *)
Definition of_type (t : ctype) (z : Z) : Prop :=
  match t with
  | U8 | U16 | U32 | U64 => in_u (bits_of t) z
  | I16 | I32 | I64 => in_s (bits_of t) z
  | F32 => rep z /\ Z.abs z < 2 ^ 277
  end.

(** ** Structs *)

(** One array; all members from the offset [off], padding included. *)
Definition enc_member (m : member) (vs : list Z) : list Z := concat (map (enc (m_type m)) vs).
Fixpoint encode (off : nat) (ms : list member) (vss : list (list Z)) : list Z :=
  match ms, vss with
  | m :: ms, vs :: vss =>
      let at_off := align_up off (ctype_size (m_type m)) in
      replicate (at_off - off) 0 ++ enc_member m vs ++ encode (at_off + m_size m) ms vss
  | _, _ => []
  end.

(** [n] values of a type, one after the other. *)
Fixpoint dec_array (t : ctype) (n : nat) (bs : list Z) : list Z :=
  match n with
  | O => []
  | S n => dec t (take (ctype_size t) bs) :: dec_array t n (drop (ctype_size t) bs)
  end.

(** The values of a struct by the names of its members, and in the order of [ms]. *)
Definition named := list (string * list Z).
Definition field_of (fs : named) (name : string) : list Z :=
  match find (fun f => (f.1 =? name)%string) fs with Some f => f.2 | None => [] end.
Definition values (fs : named) (ms : list member) : list (list Z) := map (fun m => field_of fs (m_name m)) ms.
Definition under (path : string) (fs : named) : named := map (fun f => (path +:+ "." +:+ f.1, f.2)) fs.

(** ** The snapshot *)

Definition sample_fields (s : so101_sample) : named :=
  [("cycle", [s_cycle s]); ("t_mono_ns", [s_t_mono_ns s]); ("wake_lat_ns", [s_wake_lat_ns s]);
   ("exec_ns", [s_exec_ns s]); ("bus_leader_ns", [s_bus_leader_ns s]);
   ("bus_follower_ns", [s_bus_follower_ns s]); ("faults", [s_faults s]); ("mode", [s_mode s]);
   ("leader_ok", [Z.b2z (s_leader_ok s)]); ("follower_ok", [Z.b2z (s_follower_ok s)]);
   ("torque_on", [Z.b2z (s_torque_on s)]); ("leader_pos", s_leader_pos s);
   ("follower_goal", s_follower_goal s); ("follower_pos", s_follower_pos s);
   ("follower_vel", s_follower_vel s); ("follower_load", s_follower_load s);
   ("follower_volt", s_follower_volt s); ("follower_temp", s_follower_temp s);
   ("leader_norm", s_leader_norm s); ("follower_norm", s_follower_norm s);
   ("overruns", [s_overruns s]); ("missed_slots", [s_missed_slots s]);
   ("leader_errs", [s_leader_errs s]); ("follower_errs", [s_follower_errs s]);
   ("max_wake_lat_ns", [s_max_wake_lat_ns s]); ("max_exec_ns", [s_max_exec_ns s]);
   ("leader_streak", [s_leader_streak s]); ("follower_streak", [s_follower_streak s]);
   ("ramping", [s_ramping s]); ("_pad1", [0; 0; 0])].
Definition sample_values (s : so101_sample) : list (list Z) := values (sample_fields s) so101_sample_t.
Definition encode_sample (s : so101_sample) : list Z := encode 0 so101_sample_t (sample_values s).

Definition member_ok (m : member) (vs : list Z) : Prop :=
  length vs = m_count m /\ Forall (of_type (m_type m)) vs.
Definition sample_typed (s : so101_sample) : Prop := Forall2 member_ok so101_sample_t (sample_values s).

(** ** The segment *)

Record shm_header := mk_header {
  h_magic : Z; h_version : Z; h_size : Z; h_daemon_pid : Z; h_period_ns : Z; h_n_joints : Z;
  h_joint_names : list Z         (* the bytes of the six 16-byte arrays *)
}.

Record so101_shm := mk_shm {
  shm_header_ : shm_header; shm_seq : Z; shm_s : so101_sample; shm_mode_req : Z; shm_faults : Z;
  shm_sup_beat : Z; shm_cmd : so101_cmd; shm_ack : so101_ack
}.

Definition shm_fields (m : so101_shm) : named :=
  let h := shm_header_ m in
  [("magic", [h_magic h]); ("version", [h_version h]); ("size", [h_size h]);
   ("daemon_pid", [h_daemon_pid h]); ("period_ns", [h_period_ns h]); ("n_joints", [h_n_joints h]);
   ("joint_names", h_joint_names h); ("seq", [shm_seq m]); ("_pad0", [0])] ++
  under "s" (sample_fields (shm_s m)) ++
  [("mode_req", [shm_mode_req m]); ("faults", [shm_faults m]); ("sup_beat", [shm_sup_beat m])] ++
  under "cmd" [("id", [cmd_id (shm_cmd m)]); ("cmd", [cmd_cmd (shm_cmd m)]); ("arg", [cmd_arg (shm_cmd m)]);
               ("client_pid", [cmd_client_pid (shm_cmd m)])] ++
  under "ack" [("id", [ack_id (shm_ack m)]); ("result", [ack_result (shm_ack m)])].
Definition shm_values (m : so101_shm) : list (list Z) := values (shm_fields m) so101_shm_t.
Definition encode_shm (m : so101_shm) : list Z := encode 0 so101_shm_t (shm_values m).
Definition shm_typed (m : so101_shm) : Prop := Forall2 member_ok so101_shm_t (shm_values m).

(** ** Values *)

Lemma length_le_bytes n z : length (le_bytes n z) = n.
Proof. revert z. induction n as [|n IH]; intros z; cbn; [done|]. by rewrite IH. Qed.

Lemma le_bytes_bytes n z : Forall (in_u 8) (le_bytes n z).
Proof.
  revert z. induction n as [|n IH]; intros z; cbn; constructor; [|apply IH].
  apply (wrap_u_range 8). lia.
Qed.

Lemma of_le_bytes n z : of_le (le_bytes n z) = z mod 2 ^ (8 * Z.of_nat n).
Proof.
  revert z. induction n as [|n IH]; intros z.
  - cbn. by rewrite Z.mod_1_r.
  - cbn [le_bytes of_le]. rewrite IH.
    replace (2 ^ (8 * Z.of_nat (S n))) with (256 * 2 ^ (8 * Z.of_nat n))
      by (change 256 with (2 ^ 8); rewrite <- Z.pow_add_r by lia; f_equal; lia).
    rewrite Z.rem_mul_r by lia. lia.
Qed.

(** The exact quotient by the last place of a float. *)
Lemma rep_last_place a :
  rep a -> 0 <= a -> 0 < last_place a ->
  exists q, a = q * 2 ^ last_place a /\ 2 ^ 23 <= q < 2 ^ 24.
Proof.
  intros (m & k & Hm & Hk & ->) Ha Hp.
  pose proof (last_place_pos _ Ha Hp) as Hlo. pose proof (last_place_bound _ Ha) as [_ Hhi].
  assert (Hle : last_place (m * 2 ^ k) <= k).
  { apply last_place_le; [done|]. rewrite Z.pow_add_r by lia. pose proof (Z.pow_pos_nonneg 2 k). nia. }
  set (e := last_place (m * 2 ^ k)) in *. clearbody e.
  assert (E : m * 2 ^ k = m * 2 ^ (k - e) * 2 ^ e)
    by (rewrite <- Z.mul_assoc, <- Z.pow_add_r by lia; do 2 f_equal; lia).
  exists (m * 2 ^ (k - e)). split; [done|]. rewrite E in Hlo, Hhi.
  rewrite Z.pow_add_r in Hlo, Hhi by lia. pose proof (Z.pow_pos_nonneg 2 e). nia.
Qed.

(** The bits of a magnitude, and back. *)
Lemma f32_magnitude a :
  rep a -> 0 <= a < 2 ^ 277 ->
  let m := last_place a * 2 ^ 23 + a / 2 ^ last_place a in
  0 <= m < 2 ^ 31 /\ (if m / 2 ^ 23 <=? 1 then m else (2 ^ 23 + m mod 2 ^ 23) * 2 ^ (m / 2 ^ 23 - 1)) = a.
Proof.
  intros Hr [Ha Hlt]. cbn zeta. pose proof (last_place_bound a Ha) as [He Hup].
  destruct (Z.eq_dec (last_place a) 0) as [E|E].
  - rewrite E in *. rewrite Z.div_1_r, Z.mul_0_l, !Z.add_0_l in *. split; [lia|].
    destruct (Z.leb_spec (a / 2 ^ 23) 1); [done|].
    exfalso. pose proof (Z.div_lt_upper_bound a (2 ^ 23) 2). lia.
  - destruct (rep_last_place a Hr Ha ltac:(lia)) as (q & Eq & Hq).
    assert (He2 : last_place a < 254).
    { assert (H : 2 ^ (last_place a + 23) < 2 ^ 277)
        by (eapply Z.le_lt_trans; [apply last_place_pos; lia|exact Hlt]).
      apply Z.pow_lt_mono_r_iff in H; lia. }
    set (e := last_place a) in *. clearbody e.
    assert (Hdiv : a / 2 ^ e = q) by (rewrite Eq; apply Z.div_mul; apply Z.pow_nonzero; lia).
    rewrite Hdiv. split; [lia|].
    assert (Hm : (e * 2 ^ 23 + q) / 2 ^ 23 = e + 1)
      by (symmetry; apply (Z.div_unique _ _ _ (q - 2 ^ 23)); lia).
    assert (Hr' : (e * 2 ^ 23 + q) mod 2 ^ 23 = q - 2 ^ 23)
      by (symmetry; apply (Z.mod_unique _ _ (e + 1)); lia).
    rewrite Hm, Hr'. destruct (Z.leb_spec (e + 1) 1); [lia|].
    replace (2 ^ 23 + (q - 2 ^ 23)) with q by lia. replace (e + 1 - 1) with e by lia. lia.
Qed.

Lemma f32_bits_of x : rep x -> Z.abs x < 2 ^ 277 -> in_u 32 (f32_bits x) /\ f32_of_bits (f32_bits x) = x.
Proof.
  intros Hr Hx.
  assert (Hra : rep (Z.abs x)).
  { destruct Hr as (m & k & Hm & Hk & ->). exists (Z.abs m), k. split; [lia|]. split; [done|].
    rewrite Z.abs_mul. f_equal. pose proof (Z.pow_pos_nonneg 2 k). lia. }
  destruct (f32_magnitude (Z.abs x) Hra ltac:(lia)) as [Hm Ha]. unfold f32_bits, f32_of_bits.
  set (m := last_place (Z.abs x) * 2 ^ 23 + Z.abs x / 2 ^ last_place (Z.abs x)) in *. clearbody m.
  split; [unfold in_u; destruct (x <? 0); lia|].
  assert (Hmod : ((if x <? 0 then 2 ^ 31 else 0) + m) mod 2 ^ 31 = m).
  { destruct (x <? 0); [|by apply Z.mod_small].
    symmetry; apply (Z.mod_unique _ _ 1); lia. }
  rewrite Hmod, Ha. destruct (Z.ltb_spec x 0).
  - replace ((2 ^ 31 + m) / 2 ^ 31) with 1 by (apply (Z.div_unique _ _ _ m); lia). cbn. lia.
  - rewrite Z.add_0_l, Z.div_small by lia. cbn. lia.
Qed.

Lemma length_enc t z : length (enc t z) = ctype_size t.
Proof. apply length_le_bytes. Qed.

Lemma dec_enc t z : of_type t z -> dec t (enc t z) = z.
Proof.
  intros H. unfold enc, dec, bits_of. rewrite of_le_bytes.
  assert (Hs : forall w, 1 <= w -> in_s w z -> wrap_s w (wrap_u w z mod 2 ^ w) = z).
  { intros w Hw Hz. unfold wrap_u. rewrite Z.mod_mod by (apply Z.pow_nonzero; lia).
    rewrite <- (wrap_s_id w z) at 2 by done. unfold wrap_s. f_equal.
    by rewrite Zplus_mod_idemp_l. }
  destruct t; cbn [ctype_size of_type bits_of] in *;
    try (rewrite (wrap_u_id _ z) by exact H; apply Z.mod_small; exact H); try (apply Hs; [lia|exact H]).
  destruct H as [H1 H2]. destruct (f32_bits_of z H1 H2) as [H3 H4].
  rewrite Z.mod_small by exact H3. exact H4.
Qed.

Lemma length_enc_member m vs : length (enc_member m vs) = (length vs * ctype_size (m_type m))%nat.
Proof.
  unfold enc_member. induction vs as [|v vs IH]; [done|]. cbn. rewrite length_app, length_enc, IH. lia.
Qed.

Lemma dec_array_enc t vs rest :
  Forall (of_type t) vs -> dec_array t (length vs) (concat (map (enc t) vs) ++ rest) = vs.
Proof.
  induction 1 as [|v vs Hv _ IH]; [done|]. cbn [length map concat dec_array].
  rewrite <- app_assoc. f_equal.
  - rewrite take_app_le by (rewrite length_enc; lia).
    rewrite take_ge by (rewrite length_enc; lia). by apply dec_enc.
  - by rewrite drop_app_ge, length_enc, Nat.sub_diag, drop_0 by (rewrite length_enc; lia).
Qed.

(** ** Structs *)

Lemma align_up_le off t : (off <= align_up off (ctype_size t))%nat.
Proof.
  unfold align_up. set (a := ctype_size t). assert (Ha : (0 < a)%nat) by (destruct t; cbn; lia).
  pose proof (Nat.div_mod (off + a - 1) a ltac:(lia)).
  pose proof (Nat.mod_upper_bound (off + a - 1) a ltac:(lia)). lia.
Qed.

Lemma length_encode ms vss :
  Forall2 member_ok ms vss -> forall off, (off + length (encode off ms vss))%nat = (place off ms).2.
Proof.
  induction 1 as [|m vs ms vss Hm _ IH]; intros off; [cbn; lia|]. cbn [encode place]. cbn zeta.
  pose proof (align_up_le off (m_type m)) as Hal.
  set (o := align_up off (ctype_size (m_type m))) in *. cbn [snd]. rewrite <- IH.
  rewrite !length_app, length_replicate, length_enc_member. unfold m_size. rewrite (proj1 Hm). lia.
Qed.

Lemma encode_bytes ms vss off : Forall (in_u 8) (encode off ms vss).
Proof.
  revert vss off. induction ms as [|m ms IH]; intros [|vs vss] off; try constructor. cbn [encode].
  apply Forall_app. split.
  - apply Forall_replicate. clia.
  - apply Forall_app. split; [|apply IH].
    apply Forall_concat, List.Forall_map, List.Forall_forall. intros x _. apply le_bytes_bytes.
Qed.

Lemma encode_app ms1 vss1 ms2 vss2 :
  Forall2 member_ok ms1 vss1 -> forall off,
  encode off (ms1 ++ ms2) (vss1 ++ vss2) = encode off ms1 vss1 ++ encode (place off ms1).2 ms2 vss2.
Proof.
  induction 1 as [|m vs ms1 vss1 _ _ IH]; intros off; [done|]. cbn [encode place app]. cbn zeta.
  cbn [snd]. by rewrite IH, !app_assoc.
Qed.

(** The names of members do not matter to their bytes. *)
Lemma nest_ok path ms vss : Forall2 member_ok ms vss <-> Forall2 member_ok (nest path ms) vss.
Proof.
  unfold nest. revert vss. induction ms as [|m ms IH]; intros [|vs vss]; cbn;
    (split; intros H; inversion_clear H; constructor; try done; by apply IH).
Qed.

Lemma encode_nest path ms : forall off vss, encode off (nest path ms) vss = encode off ms vss.
Proof.
  unfold nest. induction ms as [|m ms IH]; intros off [|vs vss]; cbn; [done..|]. unfold m_size. cbn. by rewrite IH.
Qed.

(** ** Typed snapshots *)

Definition ints (t : ctype) (l : list Z) : Prop := length l = SO101_NJ /\ Forall (of_type t) l.

(** [sample_typed], member by member. *)
Record sample_types (s : so101_sample) : Prop := {
  ty_cycle : in_u 64 (s_cycle s);
  ty_mono : in_s 64 (s_t_mono_ns s);
  ty_lat : in_s 32 (s_wake_lat_ns s);
  ty_exec : in_s 32 (s_exec_ns s);
  ty_bus_l : in_s 32 (s_bus_leader_ns s);
  ty_bus_f : in_s 32 (s_bus_follower_ns s);
  ty_faults : in_u 32 (s_faults s);
  ty_mode : in_u 8 (s_mode s);
  ty_lpos : ints I16 (s_leader_pos s);
  ty_goal : ints I16 (s_follower_goal s);
  ty_pos : ints I16 (s_follower_pos s);
  ty_vel : ints I16 (s_follower_vel s);
  ty_load : ints I16 (s_follower_load s);
  ty_volt : ints U8 (s_follower_volt s);
  ty_temp : ints U8 (s_follower_temp s);
  ty_lnorm : ints F32 (s_leader_norm s);
  ty_fnorm : ints F32 (s_follower_norm s);
  ty_overruns : in_u 32 (s_overruns s);
  ty_missed : in_u 32 (s_missed_slots s);
  ty_lerrs : in_u 32 (s_leader_errs s);
  ty_ferrs : in_u 32 (s_follower_errs s);
  ty_maxlat : in_s 32 (s_max_wake_lat_ns s);
  ty_maxexec : in_s 32 (s_max_exec_ns s);
  ty_lstreak : in_u 16 (s_leader_streak s);
  ty_fstreak : in_u 16 (s_follower_streak s);
  ty_ramping : in_u 8 (s_ramping s)
}.

Lemma one_ok name t v : of_type t v -> member_ok (mk_member name t 1) [v].
Proof. intros H. split; [done|]. by constructor. Qed.

Lemma bool_ok name b : member_ok (mk_member name U8 1) [Z.b2z b].
Proof. apply one_ok. destruct b; by vm_compute. Qed.

Lemma sample_types_typed s : sample_types s -> sample_typed s.
Proof.
  intros []. unfold sample_typed, so101_sample_t, sample_values.
  repeat first [apply List.Forall2_nil|apply List.Forall2_cons]; try apply bool_ok;
    first [apply one_ok; assumption|assumption|idtac].
  split; [done|]. repeat constructor; by vm_compute.
Qed.

Lemma zero_ints t : ints t zero_joints.
Proof.
  split; [done|]. apply Forall_replicate.
  destruct t; [by vm_compute..|]. split; [|by vm_compute]. exists 0, 0. split_and!; by vm_compute.
Qed.

Lemma sample_zero_types : sample_types sample_zero.
Proof. constructor; lazymatch goal with |- ints _ _ => apply zero_ints | _ => by vm_compute end. Qed.


(** A segment just after start-up. *)
Definition joint_name_bytes : list Z :=
  concat (map (fun n => str n ++ replicate (16 - length (str n)) 0) calib_joint_names).
Definition demo_shm : so101_shm :=
  mk_shm (mk_header SO101_SHM_MAGIC SO101_SHM_VERSION 360 4242 10000000 6 joint_name_bytes) 2 sample_zero
    SO101_MODE_TELEOP SO101_F_OVERRUN 77 (mk_cmd 12 SO101_CMD_SET_MODE 1 (-1)) (mk_ack 12 SO101_RES_REFUSED).

Lemma demo_shm_typed : shm_typed demo_shm.
Proof.
  change (Forall2 member_ok (take 9 so101_shm_t ++ nest "s" so101_sample_t ++ drop 39 so101_shm_t)
    (take 9 (shm_values demo_shm) ++ sample_values sample_zero ++ drop 39 (shm_values demo_shm))).
  apply Forall2_app; [|apply Forall2_app; [apply nest_ok, sample_types_typed, sample_zero_types|]];
    repeat first [apply List.Forall2_nil|apply List.Forall2_cons]; (split; [reflexivity|]);
    apply List.Forall_forall; intros x Hx; vm_compute in Hx;
    repeat (destruct Hx as [<-|Hx]; [by vm_compute|]); destruct Hx.
Qed.
