(* ===== verification/Ctx.v ===== *)
(** * The daemon's configuration (daemon/include/so101d.h)

    The read-only part of [so101d_ctx] that the threads use, and the defaults of
    [main].  [period] is the control period in nanoseconds that
    [control_thread] computes from [freq]. *)

From stdpp Require Import strings.
From S2P Require Import Prelude Calib Shm.

Record so101d_ctx := mk_ctx {
  leader_port : string;
  follower_port : string;
  period : Z;
  max_step : Z;          (* max goal change per cycle in teleop *)
  ramp_step : Z;         (* max goal change while ramping in *)
  ramp_done : Z;         (* ramp ends when |target - goal| <= this *)
  bus_timeout_ms : Z;
  bus_echo : bool;
  initial_mode : Z;
  temp_limit : Z;        (* deg C *)
  vmin_dv : Z;           (* 0.1 V *)
  vmax_dv : Z;           (* 0.1 V *)
  comm_streak : Z;       (* consecutive failed reads -> fault *)
  cal_leader : calib_arm;
  cal_follower : calib_arm
}.

(** The defaults of [main], with two calibrations. *)
Definition default_ctx (cal_l cal_f : calib_arm) : so101d_ctx :=
  mk_ctx "/dev/so101_leader" "/dev/so101_follower" 10000000 50 6 50 4 false
         SO101_MODE_IDLE 60 45 84 10 cal_l cal_f.

(** What the theorems on the threads assume of the configuration.  [main] and
    [calib_load] check that both steps are positive and that each arm has its six
    joints, with ascending ranges; that the period is positive ([main] lets a rate above
    1e9 through, see the example [fast_rate]), that the steps fit 16 bits and that the
    ranges are those of the servo, 0 to 4095 ticks, is checked nowhere and assumed
    here. *)
Definition ctx_ok (c : so101d_ctx) : Prop :=
  0 < period c /\ 0 < max_step c <= 32767 /\ 0 < ramp_step c <= 32767 /\
  length (cal_leader c) = SO101_NJ /\ length (cal_follower c) = SO101_NJ /\
  Forall servo_joint (cal_leader c) /\ Forall servo_joint (cal_follower c).
