(* ===== verification/Control.v ===== *)
(** * The control thread (daemon/src/control.c)

    [control_thread] as a program over the events of its outside world: the clock,
    the two buses (a [SyncRead] is one [fts_sync_read] with the buffer it leaves, a
    [SyncWrite] one [fts_sync_write]), the atomics of the shared segment and the
    publication of the snapshot.  The locals that live across cycles are the record
    [ctl].  Time is in nanoseconds; [int64_t] arithmetic on it is exact (the
    monotonic clock is far from 2^63). *)

From stdpp Require Import strings.
From S2P Require Import Prelude Protocol Os Float32 Calib Shm Ctx Prog.

Definition NSEC_PER_SEC : Z := 1000000000.
Definition REOPEN_AFTER : Z := 50.

Inductive arm := Leader | Follower.

#[export] Instance arm_eq_dec : EqDecision arm.
Proof. solve_decision. Defined.

Inductive ctl_ev : Type -> Type :=
| LoadRun : ctl_ev bool
| MonoNs : ctl_ev Z
| SleepUntil (ts : timespec) : ctl_ev unit
| SyncRead (a : arm) (ids : list Z) (addr len : Z) : ctl_ev (Z * list Z)
| SyncWrite (a : arm) (ids : list Z) (addr len : Z) (data : list Z) : ctl_ev Z
| ReopenBus (a : arm) (path : string) : ctl_ev unit
| LoadModeReq : ctl_ev Z
| FaultsOr (bits : Z) : ctl_ev unit
| FaultsAnd (bits : Z) : ctl_ev unit
| LoadFaults : ctl_ev Z
| Publish (s : so101_sample) : ctl_ev unit.

(** ** Helpers *)

Definition le16 (p : list Z) (i : nat) : Z :=
  u16 (Z.lor (at_ p i) (Z.shiftl (at_ p (i + 1)) 8)).

Definition set_torque (a : arm) (ids : list Z) (on : bool) : prog ctl_ev Z :=
  do (SyncWrite a ids STS_TORQUE_ENABLE 1 (replicate SO101_NJ (if on then 1 else 0))).

(** The data of [write_goal]: two little-endian bytes per joint. *)
Fixpoint goal_bytes (goal : list Z) : list Z :=
  match goal with
  | [] => []
  | g :: goal =>
      let e := fts_encode_sm g 15 in
      u8 (Z.land e 0xFF) :: u8 (Z.shiftr e 8) :: goal_bytes goal
  end.

Definition write_goal (ids : list Z) (goal : list Z) : prog ctl_ev Z :=
  do (SyncWrite Follower ids STS_GOAL_POSITION 2 (goal_bytes goal)).

(** ** State *)

Record ctl := mk_ctl {
  smp : so101_sample;
  goal : list Z;
  hold : list Z;
  applied : Z;
  torque : bool;
  ramp_mask : Z;
  next : Z;
  retry_l : Z;
  retry_f : Z
}.

Definition set_smp (f : so101_sample -> so101_sample) (k : ctl) : ctl :=
  mk_ctl (f (smp k)) (goal k) (hold k) (applied k) (torque k) (ramp_mask k) (next k)
         (retry_l k) (retry_f k).
Definition set_goal (g : list Z) (k : ctl) : ctl :=
  mk_ctl (smp k) g (hold k) (applied k) (torque k) (ramp_mask k) (next k) (retry_l k) (retry_f k).
Definition set_hold (h : list Z) (k : ctl) : ctl :=
  mk_ctl (smp k) (goal k) h (applied k) (torque k) (ramp_mask k) (next k) (retry_l k) (retry_f k).
Definition set_applied (m : Z) (k : ctl) : ctl :=
  mk_ctl (smp k) (goal k) (hold k) m (torque k) (ramp_mask k) (next k) (retry_l k) (retry_f k).
Definition set_torque_flag (b : bool) (k : ctl) : ctl :=
  mk_ctl (smp k) (goal k) (hold k) (applied k) b (ramp_mask k) (next k) (retry_l k) (retry_f k).
Definition set_ramp (m : Z) (k : ctl) : ctl :=
  mk_ctl (smp k) (goal k) (hold k) (applied k) (torque k) m (next k) (retry_l k) (retry_f k).
Definition set_next (n : Z) (k : ctl) : ctl :=
  mk_ctl (smp k) (goal k) (hold k) (applied k) (torque k) (ramp_mask k) n (retry_l k) (retry_f k).
Definition set_retry_l (n : Z) (k : ctl) : ctl :=
  mk_ctl (smp k) (goal k) (hold k) (applied k) (torque k) (ramp_mask k) (next k) n (retry_f k).
Definition set_retry_f (n : Z) (k : ctl) : ctl :=
  mk_ctl (smp k) (goal k) (hold k) (applied k) (torque k) (ramp_mask k) (next k) (retry_l k) n.

(** The assignments to [s] in each part of the cycle. *)
Definition smp_wake (wake lat : Z) (s : so101_sample) : so101_sample :=
  mk_sample (u64 (s_cycle s + 1)) wake (i32 lat) (s_exec_ns s) (s_bus_leader_ns s)
    (s_bus_follower_ns s) (s_faults s) (s_mode s) (s_leader_ok s) (s_follower_ok s)
    (s_torque_on s) (s_leader_pos s) (s_follower_goal s) (s_follower_pos s) (s_follower_vel s)
    (s_follower_load s) (s_follower_volt s) (s_follower_temp s) (s_leader_norm s)
    (s_follower_norm s) (s_overruns s) (s_missed_slots s) (s_leader_errs s) (s_follower_errs s)
    (s_max_wake_lat_ns s) (s_max_exec_ns s) (s_leader_streak s) (s_follower_streak s) (s_ramping s).

Definition smp_leader (ok : bool) (pos norm : list Z) (errs streak : Z) (s : so101_sample)
    : so101_sample :=
  mk_sample (s_cycle s) (s_t_mono_ns s) (s_wake_lat_ns s) (s_exec_ns s) (s_bus_leader_ns s)
    (s_bus_follower_ns s) (s_faults s) (s_mode s) ok (s_follower_ok s)
    (s_torque_on s) pos (s_follower_goal s) (s_follower_pos s) (s_follower_vel s)
    (s_follower_load s) (s_follower_volt s) (s_follower_temp s) norm
    (s_follower_norm s) (s_overruns s) (s_missed_slots s) errs (s_follower_errs s)
    (s_max_wake_lat_ns s) (s_max_exec_ns s) streak (s_follower_streak s) (s_ramping s).

Definition smp_follower (ok : bool) (pos vel load volt temp norm : list Z) (errs streak : Z)
    (s : so101_sample) : so101_sample :=
  mk_sample (s_cycle s) (s_t_mono_ns s) (s_wake_lat_ns s) (s_exec_ns s) (s_bus_leader_ns s)
    (s_bus_follower_ns s) (s_faults s) (s_mode s) (s_leader_ok s) ok
    (s_torque_on s) (s_leader_pos s) (s_follower_goal s) pos vel load volt temp (s_leader_norm s)
    norm (s_overruns s) (s_missed_slots s) (s_leader_errs s) errs
    (s_max_wake_lat_ns s) (s_max_exec_ns s) (s_leader_streak s) streak (s_ramping s).

Definition smp_publish (fgoal : list Z) (mode : Z) (torque_on : bool) (ramping faults bus_l bus_f exec : Z)
    (s : so101_sample) : so101_sample :=
  mk_sample (s_cycle s) (s_t_mono_ns s) (s_wake_lat_ns s) (i32 exec) (i32 bus_l)
    (i32 bus_f) faults (u8 mode) (s_leader_ok s) (s_follower_ok s)
    torque_on (s_leader_pos s) fgoal (s_follower_pos s) (s_follower_vel s)
    (s_follower_load s) (s_follower_volt s) (s_follower_temp s) (s_leader_norm s)
    (s_follower_norm s) (s_overruns s) (s_missed_slots s) (s_leader_errs s) (s_follower_errs s)
    (Z.max (s_wake_lat_ns s) (s_max_wake_lat_ns s)) (Z.max (i32 exec) (s_max_exec_ns s))
    (s_leader_streak s) (s_follower_streak s) (u8 ramping).

Definition smp_overrun (missed : Z) (s : so101_sample) : so101_sample :=
  mk_sample (s_cycle s) (s_t_mono_ns s) (s_wake_lat_ns s) (s_exec_ns s) (s_bus_leader_ns s)
    (s_bus_follower_ns s) (s_faults s) (s_mode s) (s_leader_ok s) (s_follower_ok s)
    (s_torque_on s) (s_leader_pos s) (s_follower_goal s) (s_follower_pos s) (s_follower_vel s)
    (s_follower_load s) (s_follower_volt s) (s_follower_temp s) (s_leader_norm s)
    (s_follower_norm s) (u32 (s_overruns s + 1)) missed (s_leader_errs s) (s_follower_errs s)
    (s_max_wake_lat_ns s) (s_max_exec_ns s) (s_leader_streak s) (s_follower_streak s) (s_ramping s).

(** ** The parts of a cycle *)

(** The joints' fields in a reply of [w] bytes per servo. *)
Definition fields (f : nat -> Z) : list Z := map f (List.seq 0 SO101_NJ).

(** [calib_normalize] of every joint. *)
Fixpoint normalize_all (cal : calib_arm) (pos : list Z) : option (list Z) :=
  match cal, pos with
  | j :: cal, p :: pos =>
      n ← calib_normalize j p;
      ns ← normalize_all cal pos;
      mret (n :: ns)
  | _, _ => Some []
  end.

Definition bump_streak (ok : bool) (streak : Z) : Z :=
  if ok then 0 else u16 (streak + (if streak <? 0xFFFF then 1 else 0)).

Definition ids_l (c : so101d_ctx) : list Z := map id (cal_leader c).
Definition ids_f (c : so101d_ctx) : list Z := map id (cal_follower c).

(** 1. leader; returns [t0] and [t1] too. *)
Definition read_leader (c : so101d_ctx) (k : ctl) : prog ctl_ev (ctl * Z * Z) :=
  t0 ← do MonoNs;
  r ← do (SyncRead Leader (ids_l c) STS_PRESENT_POSITION 2);
  t1 ← do MonoNs;
  let rc := r.1 in
  let bl := r.2 in
  let s := smp k in
  let ok := rc =? FTS_OK in
  let streak := bump_streak ok (s_leader_streak s) in
  k ← (if ok then
         let pos := fields (fun j => i16 (fts_decode_sm (le16 bl (2 * j)) 15)) in
         norm ← defined (normalize_all (cal_leader c) pos);
         mret (set_smp (smp_leader true pos norm (s_leader_errs s) streak) k)
       else
         mret (set_smp (smp_leader false (s_leader_pos s) (s_leader_norm s)
                          (u32 (s_leader_errs s + 1)) streak) k));
  if (REOPEN_AFTER <=? streak) && (retry_l k <=? s_cycle (smp k)) then
    do (ReopenBus Leader (leader_port c));;
    set_torque Leader (ids_l c) false;;
    mret (set_retry_l (u64 (s_cycle (smp k) + REOPEN_AFTER)) k, t0, t1)
  else mret (k, t0, t1).

(** 2. follower state *)
Definition read_follower (c : so101d_ctx) (k : ctl) : prog ctl_ev ctl :=
  r ← do (SyncRead Follower (ids_f c) STS_PRESENT_POSITION 8);
  let rc := r.1 in
  let bf := r.2 in
  let s := smp k in
  let ok := rc =? FTS_OK in
  let streak := bump_streak ok (s_follower_streak s) in
  k ← (if ok then
         let pos := fields (fun j => i16 (fts_decode_sm (le16 bf (8 * j + 0)) 15)) in
         let vel := fields (fun j => i16 (fts_decode_sm (le16 bf (8 * j + 2)) 15)) in
         let load := fields (fun j => i16 (fts_decode_sm (le16 bf (8 * j + 4)) 10)) in
         let volt := fields (fun j => at_ bf (8 * j + 6)) in
         let temp := fields (fun j => at_ bf (8 * j + 7)) in
         norm ← defined (normalize_all (cal_follower c) pos);
         mret (set_smp (smp_follower true pos vel load volt temp norm (s_follower_errs s) streak) k)
       else
         mret (set_smp (smp_follower false (s_follower_pos s) (s_follower_vel s) (s_follower_load s)
                          (s_follower_volt s) (s_follower_temp s) (s_follower_norm s)
                          (u32 (s_follower_errs s + 1)) streak) k));
  if (REOPEN_AFTER <=? streak) && (retry_f k <=? s_cycle (smp k)) then
    do (ReopenBus Follower (follower_port c));;
    let k := set_retry_f (u64 (s_cycle (smp k) + REOPEN_AFTER)) k in
    set_torque Follower (ids_f c) false;;
    mret (set_torque_flag false k)
  else mret k.

(** 3. mode transitions requested by the supervisor *)
Definition enters_motion (req : Z) : bool :=
  (req =? SO101_MODE_TELEOP) || (req =? SO101_MODE_HOLD).

Definition apply_mode (c : so101d_ctx) (k : ctl) : prog ctl_ev ctl :=
  m ← do LoadModeReq;
  let req := if SO101_MODE_ESTOP <? m then SO101_MODE_IDLE else m in
  if req =? applied k then mret k
  else
    kr ← (if enters_motion req then
            kr ← (if torque k then mret (k, req)
                  else if negb (s_follower_ok (smp k)) then
                    do (FaultsOr SO101_F_TORQUE_REFUSED);;
                    mret (k, applied k)
                  else
                    let k := set_goal (s_follower_pos (smp k)) k in
                    write_goal (ids_f c) (goal k);;
                    set_torque Follower (ids_f c) true;;
                    let k := set_torque_flag true k in
                    do (FaultsAnd (u32 (Z.lnot SO101_F_TORQUE_REFUSED)));;
                    mret (k, req));
            let k := kr.1 in
            let req := kr.2 in
            let k := if (req =? SO101_MODE_HOLD) && torque k
                     then set_hold (if s_follower_ok (smp k) then s_follower_pos (smp k) else goal k) k
                     else k in
            mret (k, req)
          else if torque k then
            set_torque Follower (ids_f c) false;;
            mret (set_torque_flag false k, req)
          else mret (k, req));
    let k := kr.1 in
    let req := kr.2 in
    let k := if negb (req =? applied k) && torque k
             then set_ramp (Z.shiftl 1 (Z.of_nat SO101_NJ) - 1) k else k in
    mret (set_applied req k).

(** 4. goal: one joint's target, and its rate-limited step *)
Definition joint_target (c : so101d_ctx) (k : ctl) (j : nat) : option Z :=
  if (applied k =? SO101_MODE_TELEOP) && s_leader_ok (smp k) then
    match cal_follower c !! j with
    | Some cal => calib_unnormalize cal (at_ (s_leader_norm (smp k)) j)
    | None => None
    end
  else if applied k =? SO101_MODE_HOLD then Some (at_ (hold k) j)
  else Some (at_ (goal k) j).

Definition joint_step (c : so101d_ctx) (j : nat) (target g mask : Z) : Z * Z :=
  let d := target - g in
  let bit := Z.shiftl 1 (Z.of_nat j) in
  let mask := if negb (Z.land mask bit =? 0) && (Z.abs d <=? ramp_done c)
              then Z.land mask (u32 (Z.lnot bit)) else mask in
  let step := if negb (Z.land mask bit =? 0) then ramp_step c else max_step c in
  let d := if step <? d then step else d in
  let d := if d <? - step then - step else d in
  (i16 (g + d), mask).

(** The loop over the joints [j ..]. *)
Fixpoint step_joints (c : so101d_ctx) (k : ctl) (js : list nat) (mask : Z) : option (list Z * Z) :=
  match js with
  | [] => Some ([], mask)
  | j :: js =>
      target ← joint_target c k j;
      let gm := joint_step c j target (at_ (goal k) j) mask in
      r ← step_joints c k js gm.2;
      mret (gm.1 :: r.1, r.2)
  end.

Definition track_goal (c : so101d_ctx) (k : ctl) : prog ctl_ev ctl :=
  if torque k then
    r ← defined (step_joints c k (List.seq 0 SO101_NJ) (ramp_mask k));
    let k := set_ramp r.2 (set_goal r.1 k) in
    write_goal (ids_f c) (goal k);;
    mret k
  else if s_follower_ok (smp k) then mret (set_goal (s_follower_pos (smp k)) k)
  else mret k.

(** 5. publish *)
Definition publish (k : ctl) (wake t0 t1 t2 : Z) : prog ctl_ev ctl :=
  let k := if torque k then k else set_ramp 0 k in
  faults ← do LoadFaults;
  now ← do MonoNs;
  let k := set_smp (smp_publish (goal k) (applied k) (torque k) (ramp_mask k) faults
                      (t1 - t0) (t2 - t1) (now - wake)) k in
  do (Publish (smp k));;
  mret k.

(** 6. next slot on the fixed grid: [while (next < now)] *)
Fixpoint skip_slots (fuel : nat) (period now next missed : Z) : option (Z * Z) :=
  match fuel with
  | O => None
  | S fuel =>
      if next <? now then skip_slots fuel period now (next + period) (u32 (missed + 1))
      else Some (next, missed)
  end.

Definition next_slot (c : so101d_ctx) (k : ctl) : prog ctl_ev ctl :=
  let k := set_next (next k + period c) k in
  now ← do MonoNs;
  if next k <? now then
    r ← defined (skip_slots (S (Z.to_nat (now - next k))) (period c) now (next k)
                            (s_missed_slots (smp k)));
    mret (set_next r.1 (set_smp (smp_overrun r.2) k))
  else mret k.

Definition control_cycle (c : so101d_ctx) (k : ctl) : prog ctl_ev ctl :=
  do (SleepUntil (mk_timespec (Z.quot (next k) NSEC_PER_SEC) (Z.rem (next k) NSEC_PER_SEC)));;
  wake ← do MonoNs;
  let k := set_smp (smp_wake wake (wake - next k)) k in
  r ← read_leader c k;
  let t0 := r.1.2 in
  let t1 := r.2 in
  k ← read_follower c r.1.1;
  k ← apply_mode c k;
  k ← track_goal c k;
  t2 ← do MonoNs;
  k ← publish k wake t0 t1 t2;
  next_slot c k.

(** ** The thread *)

Definition control_start (c : so101d_ctx) : prog ctl_ev ctl :=
  set_torque Follower (ids_f c) false;;
  set_torque Leader (ids_l c) false;;
  now ← do MonoNs;
  mret (mk_ctl sample_zero zero_joints zero_joints SO101_MODE_IDLE false 0 (now + period c) 0 0).

Definition control_stop (c : so101d_ctx) : prog ctl_ev unit :=
  set_torque Follower (ids_f c) false;; mret tt.

(** At most [fuel] turns of the [while (run)] loop. *)
Fixpoint control_loop (fuel : nat) (c : so101d_ctx) (k : ctl) : prog ctl_ev unit :=
  match fuel with
  | O => Undef
  | S fuel =>
      go ← do LoadRun;
      if go : bool then k ← control_cycle c k; control_loop fuel c k
      else control_stop c
  end.

Definition control_thread (fuel : nat) (c : so101d_ctx) : prog ctl_ev unit :=
  k ← control_start c; control_loop fuel c k.
