(* ===== verification/ControlProps.v ===== *)
(** * Properties of the control thread

    The executions of [Control.v] seen through their acts: what the thread did to
    the buses and the shared segment, and what it was told.  One specification per
    part of the cycle, one for the cycle, then the theorems about every execution
    of the thread. *)

From stdpp Require Import strings.
From S2P Require Import Prelude Protocol Os Float32 Calib Shm Ctx Prog Control.

(** ** What is assumed of the outside

    A successful sync read fills the buffer; [mode_req] is a [uint32_t]. *)
Definition ctl_ok (o : obs ctl_ev) : Prop :=
  match o with
  | Obs e r =>
      match e in ctl_ev R return R -> Prop with
      | SyncRead a ids addr len => fun r =>
          r.1 = FTS_OK -> length r.2 = (length ids * Z.to_nat len)%nat /\ bytes r.2
      | LoadModeReq => fun m => in_u 32 m
      | _ => fun _ => True
      end r
  end.

(** ** Acts

    What the control thread does to the arms, in order.  An act is the call, not
    its effect: [write_goal] and [set_torque] (control.c) ignore the return code of
    [fts_sync_write], so no later act depends on it, and what the bus made of the
    call is stated in [BusProps] ([sync_write_on_the_wire]). *)

Inductive act :=
| AWrite (a : arm) (ids : list Z) (addr : Z) (data : list Z)   (* sync write *)
| AState (rc : Z) (bf : list Z)                                (* follower sync read *)
| AReopen (a : arm)
| AMode (m : Z)                                                (* mode_req read *)
| APublish (s : so101_sample).

Definition act_of (o : obs ctl_ev) : option act :=
  match o with
  | Obs e r =>
      match e in ctl_ev R return R -> option act with
      | SyncRead Follower _ _ _ => fun r => Some (AState r.1 r.2)
      | SyncWrite a ids addr _ data => fun _ => Some (AWrite a ids addr data)
      | ReopenBus a _ => fun _ => Some (AReopen a)
      | LoadModeReq => fun m => Some (AMode m)
      | Publish s => fun _ => Some (APublish s)
      | _ => fun _ => None
      end r
  end.

Definition acts (tr : list (obs ctl_ev)) : list act := omap act_of tr.

(** The readings of the clock. *)
Definition clock_of (o : obs ctl_ev) : option Z :=
  match o with
  | Obs e r => match e in ctl_ev R return R -> option Z with MonoNs => Some | _ => fun _ => None end r
  end.
Definition clocks (tr : list (obs ctl_ev)) : list Z := omap clock_of tr.

Lemma clocks_app t1 t2 : clocks (t1 ++ t2) = clocks t1 ++ clocks t2.
Proof. apply omap_app. Qed.

Lemma acts_app t1 t2 : acts (t1 ++ t2) = acts t1 ++ acts t2.
Proof. apply omap_app. Qed.

Definition torque_data (on : bool) : list Z := replicate SO101_NJ (if on then 1 else 0).
Definition torque_act (c : so101d_ctx) (a : arm) (on : bool) : act :=
  AWrite a (match a with Leader => ids_l c | Follower => ids_f c end)
         STS_TORQUE_ENABLE (torque_data on).
Definition goal_act (c : so101d_ctx) (g : list Z) : act :=
  AWrite Follower (ids_f c) STS_GOAL_POSITION (goal_bytes g).

(** The positions in the reply of a follower read. *)
Definition positions (bf : list Z) : list Z :=
  fields (fun j => i16 (fts_decode_sm (le16 bf (8 * j + 0)) 15)).

(** ** Sequencing *)

Lemma always_seq {A B} (p : prog ctl_ev A) (f : A -> prog ctl_ev B) P Q :
  always ctl_ok p [] P ->
  (forall t a, P t a -> always ctl_ok (f a) [] (fun t' b => Q (t ++ t') b)) ->
  always ctl_ok (p ≫= f) [] Q.
Proof.
  intros Hp Hf. apply always_bind. eapply always_mono; [|exact Hp].
  intros t a HP. apply always_nil. by apply Hf.
Qed.

(** ** Positions *)

Definition position_ok (p : Z) : Prop := -32767 <= p <= 32767.

Definition positions_ok (l : list Z) : Prop := length l = SO101_NJ /\ Forall position_ok l.

Lemma decode_position raw : position_ok (i16 (fts_decode_sm raw 15)).
Proof.
  pose proof (decode_sm_bound 15 ltac:(lia) raw) as Hb. unfold position_ok.
  rewrite wrap_s_id by clia. lia.
Qed.

Lemma fields_positions f : (forall j, position_ok (f j)) -> positions_ok (fields f).
Proof.
  intros Hf. split; [done|]. apply List.Forall_forall.
  intros x (j & <- & _)%in_map_iff. apply Hf.
Qed.

Lemma positions_positions bf : positions_ok (positions bf).
Proof. apply fields_positions. intros. apply decode_position. Qed.

Lemma zero_joints_ok : positions_ok zero_joints.
Proof. split; [done|]. apply Forall_replicate. unfold position_ok. lia. Qed.

(** ** Normalisation is defined *)

Lemma servo_normalize cal p : servo_joint cal -> exists n, calib_normalize cal p = Some n.
Proof. intros H%servo_joint_ok. rewrite normalize_eq by done. eauto. Qed.

Lemma normalize_all_defined cal pos :
  Forall servo_joint cal -> exists ns, normalize_all cal pos = Some ns.
Proof.
  intros Hc. revert pos. induction Hc as [|j cal Hj _ IH]; intros pos; cbn; [eauto|].
  destruct pos as [|p pos]; [eauto|]. destruct (servo_normalize j p Hj) as [n ->].
  destruct (IH pos) as [ns ->]. cbn. eauto.
Qed.

(** ** Part 1: the leader *)

Definition due (streak retry cycle : Z) : bool := (REOPEN_AFTER <=? streak) && (retry <=? cycle).

Definition leader_post (c : so101d_ctx) (k : ctl) (l : list act) (r : ctl * Z * Z) : Prop :=
  exists ok pos norm errs,
    let streak := bump_streak ok (s_leader_streak (smp k)) in
    let re := due streak (retry_l k) (s_cycle (smp k)) in
    r.1.1 = set_retry_l (if re then u64 (s_cycle (smp k) + REOPEN_AFTER) else retry_l k)
              (set_smp (smp_leader ok pos norm errs streak) k) /\
    l = if re then [AReopen Leader; torque_act c Leader false] else [].

Lemma read_leader_spec c k :
  ctx_ok c -> always ctl_ok (read_leader c k) [] (fun t => leader_post c k (acts t)).
Proof.
  intros (_ & _ & _ & _ & _ & Hcal & _). unfold read_leader. cbn. intros t0 _ [rc bl] Hr t1 _. cbn [fst snd].
  destruct (Z.eqb_spec rc FTS_OK) as [Hok|Hok].
  - destruct (normalize_all_defined (cal_leader c)
      (fields (fun j => i16 (fts_decode_sm (le16 bl (2 * j)) 15))) Hcal) as [ns Hns].
    cbn in Hns. rewrite Hns. cbn.
    exists true, (fields (fun j => i16 (fts_decode_sm (le16 bl (2 * j)) 15))), ns, (s_leader_errs (smp k)).
    cbn. unfold due. cbn. by split.
  - unfold due. cbn.
    destruct ((REOPEN_AFTER <=? _) && _) eqn:E; cbn; intros;
      exists false, (s_leader_pos (smp k)), (s_leader_norm (smp k)), (u32 (s_leader_errs (smp k) + 1));
      cbn; unfold due; rewrite E; by split.
Qed.

(** ** Part 2: the follower *)

Definition follower_post (c : so101d_ctx) (k : ctl) (l : list act) (k' : ctl) : Prop :=
  exists rc bf pos vel load volt temp norm errs,
    let ok := rc =? FTS_OK in
    let streak := bump_streak ok (s_follower_streak (smp k)) in
    let re := due streak (retry_f k) (s_cycle (smp k)) in
    k' = set_torque_flag (if re then false else torque k)
           (set_retry_f (if re then u64 (s_cycle (smp k) + REOPEN_AFTER) else retry_f k)
              (set_smp (smp_follower ok pos vel load volt temp norm errs streak) k)) /\
    pos = (if ok then positions bf else s_follower_pos (smp k)) /\
    l = AState rc bf :: if re then [AReopen Follower; torque_act c Follower false] else [].

Lemma read_follower_spec c k :
  ctx_ok c -> always ctl_ok (read_follower c k) [] (fun t => follower_post c k (acts t)).
Proof.
  intros (_ & _ & _ & _ & _ & _ & Hcal). unfold read_follower. cbn. intros [rc bf] Hr. cbn [fst snd].
  destruct (Z.eqb_spec rc FTS_OK) as [Hok|Hok].
  - destruct (normalize_all_defined (cal_follower c) (positions bf) Hcal) as [ns Hns].
    cbn in Hns. rewrite Hns. cbn. exists rc, bf. rewrite (proj2 (Z.eqb_eq _ _) Hok).
    repeat eexists; cbn; reflexivity.
  - cbn. destruct ((REOPEN_AFTER <=? _) && _) eqn:E; cbn; intros; exists rc, bf;
      rewrite (proj2 (Z.eqb_neq _ _) Hok); unfold due; repeat eexists; cbn; rewrite E; reflexivity.
Qed.

(** ** Part 3: the mode *)

Definition full_ramp : Z := Z.shiftl 1 (Z.of_nat SO101_NJ) - 1.

(** The pose a HOLD latches. *)
Definition hold_pose (k : ctl) : list Z :=
  if s_follower_ok (smp k) then s_follower_pos (smp k) else goal k.

Definition latch_hold (req : Z) (k : ctl) : ctl :=
  if req =? SO101_MODE_HOLD then set_hold (hold_pose k) k else k.

(** Every branch of the transition: the request [req] (clipped to IDLE above
    ESTOP), the state after it, the acts. *)
Inductive mode_post (c : so101d_ctx) (k : ctl) (req : Z) : list act -> ctl -> Prop :=
| mode_same : req = applied k -> mode_post c k req [] k
| mode_moving :
    req <> applied k -> enters_motion req = true -> torque k = true ->
    mode_post c k req [] (set_applied req (set_ramp full_ramp (latch_hold req k)))
| mode_refused :
    req <> applied k -> enters_motion req = true -> torque k = false ->
    s_follower_ok (smp k) = false -> mode_post c k req [] k
| mode_enable k1 :
    req <> applied k -> enters_motion req = true -> torque k = false ->
    s_follower_ok (smp k) = true ->
    k1 = set_torque_flag true (set_goal (s_follower_pos (smp k)) k) ->
    mode_post c k req [goal_act c (s_follower_pos (smp k)); torque_act c Follower true]
      (set_applied req (set_ramp full_ramp (latch_hold req k1)))
| mode_disable :
    req <> applied k -> enters_motion req = false -> torque k = true ->
    mode_post c k req [torque_act c Follower false] (set_applied req (set_torque_flag false k))
| mode_limp :
    req <> applied k -> enters_motion req = false -> torque k = false ->
    mode_post c k req [] (set_applied req k).

Definition clip_mode (m : Z) : Z := if SO101_MODE_ESTOP <? m then SO101_MODE_IDLE else m.

Lemma apply_mode_spec c k :
  always ctl_ok (apply_mode c k) [] (fun t k' =>
    exists m l, in_u 32 m /\ acts t = AMode m :: l /\ mode_post c k (clip_mode m) l k').
Proof.
  unfold apply_mode. cbn. intros m Hm. fold (clip_mode m). set (req := clip_mode m).
  destruct (Z.eqb_spec req (applied k)) as [E|E].
  { cbn. exists m, []. split_and!; [done|done|by constructor]. }
  destruct (enters_motion req) eqn:Hmot.
  - destruct (torque k) eqn:Ht; cbn.
    + rewrite Ht, andb_true_r. exists m, []. split_and!; [done|done|].
      fold full_ramp. replace (if req =? SO101_MODE_HOLD then _ else k) with (latch_hold req k) by done.
      assert (torque (latch_hold req k) = true /\ applied (latch_hold req k) = applied k) as [-> ->]
        by (unfold latch_hold; by destruct (req =? _)).
      rewrite (proj2 (Z.eqb_neq _ _) E). by apply mode_moving.
    + destruct (s_follower_ok (smp k)) eqn:Hok; cbn.
      * intros _ _ _ _ _ _. eexists m, _. split_and!; [done|reflexivity|].
        set (k1 := set_torque_flag true (set_goal (s_follower_pos (smp k)) k)).
        rewrite andb_true_r. fold full_ramp.
        replace (if req =? SO101_MODE_HOLD then _ else k1) with (latch_hold req k1)
          by (unfold latch_hold, hold_pose; destruct (req =? _); [|done]; cbn; by rewrite Hok).
        assert (torque (latch_hold req k1) = true /\ applied (latch_hold req k1) = applied k) as [-> ->]
          by (unfold latch_hold; by destruct (req =? _)).
        rewrite (proj2 (Z.eqb_neq _ _) E). by apply mode_enable.
      * intros _ _. exists m, []. split_and!; [done|done|].
        rewrite Ht, andb_false_r, Z.eqb_refl. cbn. destruct k. by apply mode_refused.
  - destruct (torque k) eqn:Ht; cbn.
    + intros _ _. eexists m, _. split_and!; [done|reflexivity|].
      rewrite andb_false_r. by apply mode_disable.
    + exists m, []. split_and!; [done|done|]. rewrite Ht, andb_false_r. by apply mode_limp.
Qed.

(** ** Part 4: the goal *)

Definition goal_post (c : so101d_ctx) (k : ctl) (l : list act) (k' : ctl) : Prop :=
  if torque k then
    exists g m, step_joints c k (List.seq 0 SO101_NJ) (ramp_mask k) = Some (g, m) /\
      k' = set_ramp m (set_goal g k) /\ l = [goal_act c g]
  else
    k' = (if s_follower_ok (smp k) then set_goal (s_follower_pos (smp k)) k else k) /\ l = [].

Lemma joint_target_defined c k j :
  ctx_ok c -> (j < SO101_NJ)%nat -> exists x, joint_target c k j = Some x.
Proof.
  intros (_ & _ & _ & _ & Hlen & _ & Hcal) Hj. unfold joint_target.
  destruct (_ && _); [|destruct (_ =? _); eauto].
  destruct (cal_follower c !! j) as [cal|] eqn:Hc; [|apply lookup_ge_None in Hc; lia].
  assert (servo_joint cal) as Hs%servo_joint_ok by (by eapply Forall_lookup_1).
  rewrite unnormalize_eq by done.
  destruct (ticks_defined cal (at_ (s_leader_norm (smp k)) j) Hs) as (x & -> & _). eauto.
Qed.

Lemma step_joints_defined c k js mask :
  ctx_ok c -> Forall (fun j => (j < SO101_NJ)%nat) js -> exists r, step_joints c k js mask = Some r.
Proof.
  intros Hc Hjs. revert mask. induction Hjs as [|j js Hj _ IH]; intros mask; cbn; [eauto|].
  destruct (joint_target_defined c k j Hc Hj) as [x ->]. cbn.
  match goal with |- context [step_joints c k js ?m] => destruct (IH m) as [r ->] end. cbn. eauto.
Qed.

Lemma joints_below : Forall (fun j => (j < SO101_NJ)%nat) (List.seq 0 SO101_NJ).
Proof. apply List.Forall_forall. intros j Hj%in_seq. lia. Qed.

Lemma joints_distinct : NoDup (List.seq 0 SO101_NJ).
Proof. apply NoDup_ListNoDup, seq_NoDup. Qed.

Lemma track_goal_spec c k : ctx_ok c -> always ctl_ok (track_goal c k) [] (fun t => goal_post c k (acts t)).
Proof.
  intros Hc. unfold track_goal, goal_post. destruct (torque k).
  - destruct (step_joints_defined c k _ (ramp_mask k) Hc joints_below) as [[g m] E].
    rewrite E. cbn -[step_joints]. intros _ _. exists g, m. by split.
  - by destruct (s_follower_ok (smp k)).
Qed.

(** ** Parts 5 and 6 *)

Definition publish_post (k : ctl) (l : list act) (k' : ctl) : Prop :=
  exists faults bus_l bus_f exec,
    let k0 := if torque k then k else set_ramp 0 k in
    k' = set_smp (smp_publish (goal k) (applied k) (torque k) (ramp_mask k0) faults bus_l bus_f exec) k0 /\
    l = [APublish (smp k')].

Lemma publish_spec k wake t0 t1 t2 :
  always ctl_ok (publish k wake t0 t1 t2) [] (fun t => publish_post k (acts t)).
Proof.
  unfold publish, publish_post. cbn. intros faults _ now _ _ _.
  exists faults, (t1 - t0), (t2 - t1), (now - wake). by destruct (torque k) eqn:E; cbn; rewrite E.
Qed.

(** The slot loop: it leaves the grid of the period, and stops at the first slot
    not before [now]. *)
Lemma skip_slots_spec fuel p now n missed :
  0 < p -> n < now -> now - n < Z.of_nat fuel ->
  exists m, 1 <= m /\ skip_slots fuel p now n missed = Some (n + m * p, u32 (missed + m)) /\
    n + (m - 1) * p < now <= n + m * p.
Proof.
  intros Hp. revert n missed. induction fuel as [|fuel IH]; intros n missed Hn Hf; [lia|].
  cbn [skip_slots]. rewrite (proj2 (Z.ltb_lt _ _) Hn).
  destruct (Z.lt_ge_cases (n + p) now) as [Hlt|Hge].
  - destruct (IH (n + p) (u32 (missed + 1)) Hlt) as (m & Hm & -> & Hb); [lia|].
    exists (m + 1). split; [lia|]. split; [|lia]. do 2 f_equal; [lia|].
    unfold wrap_u. rewrite Zplus_mod_idemp_l. f_equal. lia.
  - exists 1. split; [lia|]. split; [|lia]. destruct fuel; [lia|]. cbn [skip_slots].
    rewrite (proj2 (Z.ltb_ge _ _) Hge). do 2 f_equal. lia.
Qed.

(** The next slot: [m] slots are skipped, none unless the cycle ended late. *)
Definition slot_post (c : so101d_ctx) (k : ctl) (l : list act) (clk : list Z) (k' : ctl) : Prop :=
  l = [] /\
  exists now m, clk = [now] /\
    0 <= m /\ now <= next k + (m + 1) * period c /\
    (0 < m -> next k + m * period c < now) /\
    k' = set_next (next k + (m + 1) * period c)
           (if m =? 0 then k
            else set_smp (smp_overrun (u32 (s_missed_slots (smp k) + m))) k).

Lemma next_slot_spec c k : ctx_ok c -> always ctl_ok (next_slot c k) [] (fun t => slot_post c k (acts t) (clocks t)).
Proof.
  intros (Hp & _). unfold next_slot. cbn -[skip_slots]. intros now _.
  destruct (Z.ltb_spec (next k + period c) now) as [Hlt|Hge].
  - destruct (skip_slots_spec (S (Z.to_nat (now - (next k + period c)))) (period c) now
                (next k + period c) (s_missed_slots (smp k)) Hp Hlt) as (m & Hm & E & Hb); [lia|].
    cbn [next set_next smp] in *. rewrite E. cbn. split; [done|]. exists now, m. split; [done|].
    rewrite (proj2 (Z.eqb_neq m 0)) by lia. split_and!; [lia|lia|lia|].
    unfold set_next, set_smp. cbn. f_equal. lia.
  - split; [done|]. exists now, 0. cbn. split_and!; [done|lia|lia|lia|].
    destruct k. unfold set_next. cbn. f_equal. lia.
Qed.

(** ** The cycle *)

Definition cycle_post (c : so101d_ctx) (k : ctl) (l : list act) (clk : list Z) (k' : ctl) : Prop :=
  exists wake r ll k2 lf m lm k3 lg k4 lp k5 ln cp cn,
    leader_post c (set_smp (smp_wake wake (wake - next k)) k) ll r /\
    follower_post c r.1.1 lf k2 /\
    in_u 32 m /\ mode_post c k2 (clip_mode m) lm k3 /\
    goal_post c k3 lg k4 /\ publish_post k4 lp k5 /\ slot_post c k5 ln cn k' /\ clk = cp ++ cn /\
    l = ll ++ lf ++ (AMode m :: lm) ++ lg ++ lp ++ ln.

Lemma control_cycle_spec c k :
  ctx_ok c -> always ctl_ok (control_cycle c k) [] (fun t => cycle_post c k (acts t) (clocks t)).
Proof.
  intros Hc. unfold control_cycle.
  eapply (always_seq _ _ (fun t _ => acts t = [])); [by cbn|]. intros t1 [] H1.
  eapply (always_seq _ _ (fun t _ => acts t = [])); [by cbn|]. intros t2 wake H2. cbn zeta.
  eapply always_seq; [by apply read_leader_spec|]. intros t3 r H3. cbn beta in H3.
  eapply always_seq; [by apply read_follower_spec|]. intros t4 k2 H4. cbn beta in H4.
  eapply always_seq; [by apply apply_mode_spec|]. intros t5 k3 (m & lm & Hm & H5 & H5').
  eapply always_seq; [by apply track_goal_spec|]. intros t6 k4 H6. cbn beta in H6.
  eapply (always_seq _ _ (fun t _ => acts t = [])); [by cbn|]. intros t7 time2 H7.
  eapply always_seq; [by apply publish_spec|]. intros t8 k5 H8. cbn beta in H8.
  eapply always_mono; [|by apply next_slot_spec]. intros t9 k6 H9. cbn beta in *.
  exists wake, r, (acts t3), k2, (acts t4), m, lm, k3, (acts t6), k4, (acts t8), k5, (acts t9),
    (clocks (t1 ++ t2 ++ t3 ++ t4 ++ t5 ++ t6 ++ t7 ++ t8)), (clocks t9).
  split_and!; try done; [by rewrite !clocks_app, <- !app_assoc|]. rewrite !acts_app, H1, H2, H5, H7. cbn. done.
Qed.

(** ** One joint's step *)

(** The step towards the target, limited to [limit]. *)
Definition limited (limit d : Z) : Z := Z.max (- limit) (Z.min limit d).

Lemma mask_clear mask j i :
  0 <= j -> 0 <= i < 32 ->
  Z.testbit (Z.land mask (u32 (Z.lnot (Z.shiftl 1 j)))) i = Z.testbit mask i && negb (i =? j).
Proof.
  intros Hj Hi. rewrite Z.land_spec. f_equal. unfold wrap_u.
  rewrite Z.mod_pow2_bits_low, Z.lnot_spec, Z.shiftl_1_l, Z.pow2_bits_eqb by lia.
  by rewrite Z.eqb_sym.
Qed.

Lemma mask_test mask j : 0 <= j -> negb (Z.land mask (Z.shiftl 1 j) =? 0) = Z.testbit mask j.
Proof.
  intros Hj. rewrite Z.shiftl_1_l, land_pow2_testbit by done.
  assert (0 < 2 ^ j) by (apply Z.pow_pos_nonneg; lia).
  destruct (Z.testbit mask j); zcases; done.
Qed.

(** What happens to joint [j]: the ramp bit is cleared when the joint has caught
    up, and the goal moves to the target by at most the limit of the phase. *)
Definition joint_moved (c : so101d_ctx) (k : ctl) (mask mask' : Z) (j : nat) (g' : Z) : Prop :=
  exists target, joint_target c k j = Some target /\
    let d := target - at_ (goal k) j in
    Z.testbit mask' (Z.of_nat j) = Z.testbit mask (Z.of_nat j) && (ramp_done c <? Z.abs d) /\
    g' = at_ (goal k) j +
         limited (if Z.testbit mask' (Z.of_nat j) then ramp_step c else max_step c) d.

Lemma joint_step_spec c j target g mask :
  ctx_ok c -> (j < 32)%nat -> position_ok target -> position_ok g ->
  let r := joint_step c j target g mask in
  let d := target - g in
  Z.testbit r.2 (Z.of_nat j) = Z.testbit mask (Z.of_nat j) && (ramp_done c <? Z.abs d) /\
  (forall i, 0 <= i < 32 -> i <> Z.of_nat j -> Z.testbit r.2 i = Z.testbit mask i) /\
  r.1 = g + limited (if Z.testbit r.2 (Z.of_nat j) then ramp_step c else max_step c) d.
Proof.
  intros (_ & Hms & Hrs & _) Hj Ht Hg. unfold joint_step. cbn zeta.
  set (mask' := if negb _ && _ then _ else mask). cbn [fst snd].
  assert (Hbit : Z.testbit mask' (Z.of_nat j) =
                 Z.testbit mask (Z.of_nat j) && (ramp_done c <? Z.abs (target - g))).
  { unfold mask'. rewrite mask_test by lia.
    destruct (Z.testbit mask (Z.of_nat j)) eqn:E; cbn [andb]; [|done].
    destruct (Z.leb_spec (Z.abs (target - g)) (ramp_done c)).
    - rewrite mask_clear, E, Z.eqb_refl by lia. cbn. symmetry. apply Z.ltb_ge. lia.
    - rewrite E. symmetry. by apply Z.ltb_lt. }
  split; [exact Hbit|]. split.
  - intros i Hi Hne. unfold mask'. destruct (_ && _); [|done].
    rewrite mask_clear by lia. rewrite (proj2 (Z.eqb_neq _ _) Hne). by rewrite andb_true_r.
  - rewrite mask_test by lia.
    set (lim := if Z.testbit mask' _ then ramp_step c else max_step c).
    assert (0 < lim <= 32767) by (unfold lim; destruct (Z.testbit _ _); lia).
    unfold limited, position_ok in *.
    replace (if _ <? - lim then _ else _) with (Z.max (- lim) (Z.min lim (target - g)))
      by (destruct (Z.ltb_spec lim (target - g)); zcases; lia).
    rewrite wrap_s_id by clia. done.
Qed.

Lemma joint_target_position c k j target :
  ctx_ok c -> positions_ok (goal k) -> positions_ok (hold k) -> (j < SO101_NJ)%nat ->
  joint_target c k j = Some target ->
  position_ok target /\
  (applied k = SO101_MODE_TELEOP -> s_leader_ok (smp k) = true ->
   exists cal, cal_follower c !! j = Some cal /\ range_min cal <= target <= range_max cal).
Proof.
  intros (_ & _ & _ & _ & Hlen & _ & Hcal) [Hg1 Hg2] [Hh1 Hh2] Hj. unfold joint_target.
  destruct (Z.eqb_spec (applied k) SO101_MODE_TELEOP) as [Ha|Ha]; cbn [andb].
  - destruct (s_leader_ok (smp k)).
    + destruct (cal_follower c !! j) as [cal|] eqn:Hc; [|done].
      assert (Hs : servo_joint cal) by (by eapply Forall_lookup_1).
      rewrite unnormalize_eq by (by apply servo_joint_ok).
      destruct (ticks_defined cal (at_ (s_leader_norm (smp k)) j) (servo_joint_ok _ Hs))
        as (x & -> & Hx). intros [= <-]. unfold servo_joint, position_ok in *.
      split; [lia|]. intros _ _. by exists cal.
    + rewrite Ha. cbn. intros [= <-]. split; [|done].
      eapply Forall_lookup_1; [exact Hg2|]. apply at_lookup. lia.
  - destruct (_ =? _); intros [= <-]; (split; [|done]).
    + eapply Forall_lookup_1; [exact Hh2|]. apply at_lookup. lia.
    + eapply Forall_lookup_1; [exact Hg2|]. apply at_lookup. lia.
Qed.

Lemma limited_between limit d : 0 <= limit -> Z.min 0 d <= limited limit d <= Z.max 0 d.
Proof. unfold limited. lia. Qed.

Lemma joint_moved_position c k mask mask' j g' :
  ctx_ok c -> positions_ok (goal k) -> positions_ok (hold k) -> (j < SO101_NJ)%nat ->
  joint_moved c k mask mask' j g' -> position_ok g'.
Proof.
  intros Hc Hg Hh Hj (target & Ht & _ & ->).
  destruct (joint_target_position _ _ _ _ Hc Hg Hh Hj Ht) as [Hp _].
  assert (position_ok (at_ (goal k) j)) as Hgj.
  { destruct Hg as [Hl Hf]. eapply Forall_lookup_1; [exact Hf|]. apply at_lookup. lia. }
  destruct Hc as (_ & Hms & Hrs & _).
  set (lim := if Z.testbit _ _ then _ else _).
  pose proof (limited_between lim (target - at_ (goal k) j)).
  assert (0 <= lim) by (unfold lim; destruct (Z.testbit _ _); lia).
  unfold position_ok in *. lia.
Qed.

Lemma step_joints_spec c k js mask g m :
  ctx_ok c -> positions_ok (goal k) -> positions_ok (hold k) ->
  NoDup js -> Forall (fun j => (j < SO101_NJ)%nat) js ->
  step_joints c k js mask = Some (g, m) ->
  length g = length js /\
  (forall i j g', js !! i = Some j -> g !! i = Some g' -> joint_moved c k mask m j g') /\
  (forall i, 0 <= i < 32 -> (forall j, j ∈ js -> i <> Z.of_nat j) -> Z.testbit m i = Z.testbit mask i).
Proof.
  intros Hc Hg Hh Hnd Hjs. revert mask g. induction Hjs as [|j js Hj Hjs IH]; intros mask g E.
  { injection E as <- <-. split_and!; [done| |done]. by intros [|i]. }
  inversion_clear Hnd as [|? ? Hnew Hnd']. cbn [step_joints] in E.
  apply bind_Some_inv in E as (target & Ht & E). apply bind_Some_inv in E as ([gs m'] & Es & E).
  injection E as <- ->. cbn [fst snd] in *.
  destruct (joint_target_position _ _ _ _ Hc Hg Hh Hj Ht) as [Hp _].
  assert (position_ok (at_ (goal k) j)) as Hgj.
  { destruct Hg as [Hl Hf]. eapply Forall_lookup_1; [exact Hf|]. apply at_lookup. lia. }
  unfold SO101_NJ in Hj.
  destruct (joint_step_spec c j target (at_ (goal k) j) mask Hc ltac:(lia) Hp Hgj) as (Hb & Ho & Hs).
  destruct (IH Hnd' _ _ Es) as (Hl & Hm & Hrest).
  assert (Hbit : forall i, js !! i = Some j -> False)
    by (intros i Hi; apply Hnew; by eapply list_elem_of_lookup_2).
  assert (Hsame : Z.testbit m (Z.of_nat j) = Z.testbit (joint_step c j target (at_ (goal k) j) mask).2 (Z.of_nat j)).
  { apply Hrest; [lia|]. intros j' Hj' E%Nat2Z.inj. subst. done. }
  split_and!.
  - cbn. lia.
  - intros [|i] j' g' Hi Hg'; cbn in Hi, Hg'.
    + injection Hi as <-. injection Hg' as <-. exists target. split; [done|]. cbn zeta.
      rewrite Hsame. by split.
    + destruct (Hm _ _ _ Hi Hg') as (t' & Ht' & Hb' & Hg''). exists t'. split; [done|].
      cbn zeta in *. split; [|done]. rewrite Hb'. f_equal. apply Ho.
      * assert (j' < SO101_NJ)%nat by (eapply (Forall_lookup_1 _ _ _ _ Hjs Hi)). unfold SO101_NJ in *. lia.
      * intros E%Nat2Z.inj. subst. by eapply Hbit.
  - intros i Hi Hne. rewrite Hrest by (done || intros; apply Hne; by right).
    apply Ho; [done|]. apply Hne. by left.
Qed.

(** ** Executions of the thread *)

(** Executions up to the head of the [while] loop. *)
Inductive ctl_reach (c : so101d_ctx) : list (obs ctl_ev) -> ctl -> Prop :=
| ctl_started tr k : run (control_start c) tr k -> ctl_reach c tr k
| ctl_turn tr k tr' k' :
    ctl_reach c tr k -> run (control_cycle c k) tr' k' ->
    ctl_reach c (tr ++ Obs LoadRun true :: tr') k'.

(** The same through the specifications: acts and states. *)
Inductive history (c : so101d_ctx) : list act -> ctl -> Prop :=
| hist_start t0 :
    history c [torque_act c Follower false; torque_act c Leader false]
      (mk_ctl sample_zero zero_joints zero_joints SO101_MODE_IDLE false 0 (t0 + period c) 0 0)
| hist_cycle l k l' clk k' :
    history c l k -> cycle_post c k l' clk k' -> history c (l ++ l') k'.

Lemma cycle_run c k tr k' :
  ctx_ok c -> run (control_cycle c k) tr k' -> Forall ctl_ok tr -> cycle_post c k (acts tr) (clocks tr) k'.
Proof.
  intros Hc Hrun Hok.
  exact (always_run ctl_ok _ _ (control_cycle_spec c k Hc) tr k' Hrun Hok).
Qed.

Lemma reach_history c tr k :
  ctx_ok c -> ctl_reach c tr k -> Forall ctl_ok tr -> history c (acts tr) k.
Proof.
  intros Hc Hreach. induction Hreach as [tr k Hrun|tr k tr' k' _ IH Hrun]; intros Hok.
  - cbn in Hrun. destruct Hrun as (r1 & ? & -> & r2 & ? & -> & t0 & ? & -> & -> & ->).
    apply hist_start.
  - apply Forall_app in Hok as [Hok1 Hok2]. inversion_clear Hok2 as [|? ? _ Hok3].
    rewrite acts_app. eapply (hist_cycle c _ k); [by apply IH|].
    change (acts (Obs LoadRun true :: tr')) with (acts tr'). by apply cycle_run.
Qed.

(** ** The invariant *)

(** The follower's torque and goal as last commanded on the bus. *)
Definition commanded1 (on : bool) (x : act) : bool :=
  match x with
  | AWrite Follower _ addr data =>
      if addr =? STS_TORQUE_ENABLE then negb (at_ data 0 =? 0) else on
  | _ => on
  end.
Definition commanded (l : list act) (on : bool) : bool := fold_left commanded1 l on.

Definition goal_sent1 (g : option (list Z)) (x : act) : option (list Z) :=
  match x with
  | AWrite Follower _ addr data => if addr =? STS_GOAL_POSITION then Some data else g
  | _ => g
  end.
Definition goal_sent (l : list act) (g : option (list Z)) : option (list Z) := fold_left goal_sent1 l g.

Lemma commanded_app l1 l2 b : commanded (l1 ++ l2) b = commanded l2 (commanded l1 b).
Proof. apply fold_left_app. Qed.
Lemma goal_sent_app l1 l2 b : goal_sent (l1 ++ l2) b = goal_sent l2 (goal_sent l1 b).
Proof. apply fold_left_app. Qed.

Record ctl_inv (l : list act) (k : ctl) : Prop := {
  inv_goal : positions_ok (goal k);
  inv_hold : positions_ok (hold k);
  inv_pos : positions_ok (s_follower_pos (smp k));
  inv_torque : torque k = commanded l false;
  inv_motion : torque k = true -> enters_motion (applied k) = true;
  inv_sent : torque k = true -> goal_sent l None = Some (goal_bytes (goal k));
  inv_applied : 0 <= applied k <= 3
}.

Lemma clip_mode_range m : in_u 32 m -> 0 <= clip_mode m <= 3.
Proof. unfold clip_mode, SO101_MODE_ESTOP, SO101_MODE_IDLE. cranges. zcases; lia. Qed.

Section Invariant.
Context (c : so101d_ctx) (Hc : ctx_ok c).

Lemma leader_inv l k wake ll r :
  ctl_inv l k -> leader_post c (set_smp (smp_wake wake (wake - next k)) k) ll r ->
  ctl_inv (l ++ ll) r.1.1.
Proof.
  intros [] (ok & pos & norm & errs & -> & ->).
  destruct (due _ _ _); split; cbn; rewrite ?commanded_app, ?goal_sent_app, ?app_nil_r; auto.
Qed.

Lemma follower_inv l k lf k' :
  ctl_inv l k -> follower_post c k lf k' -> ctl_inv (l ++ lf) k'.
Proof.
  intros [] (rc & bf & pos & vel & load & volt & temp & norm & errs & -> & -> & ->).
  assert (positions_ok (if rc =? FTS_OK then positions bf else s_follower_pos (smp k)))
    by (destruct (rc =? FTS_OK); auto using positions_positions).
  destruct (due _ _ _); split; cbn; rewrite ?commanded_app, ?goal_sent_app; cbn; auto; done.
Qed.

Lemma latch_hold_inv l req k : ctl_inv l k -> ctl_inv l (latch_hold req k).
Proof.
  intros []. unfold latch_hold, hold_pose. destruct (req =? _); [|by split].
  split; cbn; auto. by destruct (s_follower_ok (smp k)).
Qed.

Lemma ramp_inv l m k : ctl_inv l k -> ctl_inv l (set_ramp m k).
Proof. intros []. by split. Qed.

Lemma mode_inv l k m lm k' :
  ctl_inv l k -> in_u 32 m -> mode_post c k (clip_mode m) lm k' ->
  ctl_inv (l ++ AMode m :: lm) k'.
Proof.
  intros Hinv Hm Hp. pose proof (clip_mode_range m Hm) as Hr. set (req := clip_mode m) in *.
  assert (Hmode : ctl_inv (l ++ [AMode m]) k)
    by (destruct Hinv; split; rewrite ?commanded_app, ?goal_sent_app; auto).
  assert (Happ : forall k1, ctl_inv (l ++ [AMode m]) k1 -> enters_motion req = true \/ torque k1 = false ->
                 ctl_inv (l ++ [AMode m]) (set_applied req k1)).
  { intros k1 [] Hor. split; cbn; auto. intros Ht. destruct Hor; congruence. }
  destruct Hp as [|Hne Hmot Ht| |k1 Hne Hmot Ht Hok ->|Hne Hmot Ht|Hne Hmot Ht]; auto.
  - apply Happ; [|by left]. by apply ramp_inv, latch_hold_inv.
  - change (AMode m :: ?x) with ([AMode m] ++ x). rewrite app_assoc.
    set (k1 := set_torque_flag true _). destruct Hmode.
    assert (ctl_inv ((l ++ [AMode m]) ++ [goal_act c (s_follower_pos (smp k)); torque_act c Follower true])
              (set_applied req k1)) as Hi.
    { unfold k1. split; cbn; rewrite ?commanded_app, ?goal_sent_app; cbn; auto. }
    destruct Hi. unfold latch_hold, hold_pose. destruct (req =? _); [|by split].
    split; auto. cbn. by destruct (s_follower_ok (smp k)).
  - change (AMode m :: ?x) with ([AMode m] ++ x). rewrite app_assoc. destruct Hmode.
    split; cbn; rewrite ?commanded_app, ?goal_sent_app; cbn; auto; done.
Qed.

Lemma goal_inv l k lg k' : ctl_inv l k -> goal_post c k lg k' -> ctl_inv (l ++ lg) k'.
Proof.
  intros Hinv. unfold goal_post. destruct (torque k) eqn:Ht.
  - intros (g & m & Es & -> & ->). destruct Hinv.
    destruct (step_joints_spec c k _ _ g m Hc inv_goal0 inv_hold0 joints_distinct joints_below Es)
      as (Hl & Hm & _).
    assert (positions_ok g).
    { split; [exact Hl|]. apply Forall_lookup. intros i g' Hg'.
      destruct (lookup_lt_is_Some_2 (List.seq 0 SO101_NJ) i) as [j Hj].
      { apply lookup_lt_Some in Hg'. by rewrite Hl in Hg'. }
      eapply joint_moved_position; eauto.
      eapply (Forall_lookup_1 _ _ _ _ joints_below Hj). }
    split; cbn; rewrite ?commanded_app, ?goal_sent_app; cbn; auto.
  - intros [-> ->]. rewrite app_nil_r. destruct Hinv.
    destruct (s_follower_ok (smp k)); split; cbn; auto; congruence.
Qed.

Lemma publish_inv l k lp k' : ctl_inv l k -> publish_post k lp k' -> ctl_inv (l ++ lp) k'.
Proof.
  intros [] (f & b1 & b2 & e & -> & ->).
  destruct (torque k) eqn:E; split; cbn; rewrite ?commanded_app, ?goal_sent_app; cbn; rewrite ?E; auto; congruence.
Qed.

Lemma slot_inv l k ln clk k' : ctl_inv l k -> slot_post c k ln clk k' -> ctl_inv (l ++ ln) k'.
Proof.
  intros [] (-> & now & m & _ & _ & _ & _ & ->). rewrite app_nil_r.
  destruct (m =? 0); split; cbn; auto.
Qed.

Lemma history_inv l k : history c l k -> ctl_inv l k.
Proof.
  induction 1 as [t0|l k l' clk k' _ IH Hcycle].
  - split; cbn; auto using zero_joints_ok; done || lia.
  - destruct Hcycle as (wake & r & ll & k2 & lf & m & lm & k3 & lg & k4 & lp & k5 & ln & cp & cn &
                        H1 & H2 & Hm & H3 & H4 & H5 & H6 & _ & ->).
    pose proof (leader_inv _ _ _ _ _ IH H1) as I1. pose proof (follower_inv _ _ _ _ I1 H2) as I2.
    pose proof (mode_inv _ _ _ _ _ I2 Hm H3) as I3. pose proof (goal_inv _ _ _ _ I3 H4) as I4.
    pose proof (publish_inv _ _ _ _ I4 H5) as I5. pose proof (slot_inv _ _ _ _ _ I5 H6) as I6.
    by rewrite <- !app_assoc in I6.
Qed.
End Invariant.

(** ** Locating an act *)

Lemma split_app {A} (a b l1 l2 : list A) x :
  a ++ b = l1 ++ x :: l2 ->
  (exists l2', a = l1 ++ x :: l2' /\ l2 = l2' ++ b) \/ (exists l1', b = l1' ++ x :: l2 /\ l1 = a ++ l1').
Proof.
  revert l1. induction a as [|y a IH]; intros l1 E; cbn in E.
  - right. by exists l1.
  - destruct l1 as [|z l1]; cbn in E; injection E as -> E.
    + left. by exists a.
    + destruct (IH _ E) as [(l2' & -> & ->)|(l1' & -> & ->)]; [left|right]; eauto.
Qed.

Lemma split_skip {A} (a b l1 l2 : list A) x :
  (x ∉ a) -> a ++ b = l1 ++ x :: l2 -> exists l1', b = l1' ++ x :: l2 /\ l1 = a ++ l1'.
Proof.
  intros Hx [(l2' & -> & _)|]%split_app; [|done]. destruct Hx. apply elem_of_app. right. by left.
Qed.

Lemma split_first {A} (a b l1 l2 : list A) x :
  (x ∉ b) -> a ++ b = l1 ++ x :: l2 -> exists l2', a = l1 ++ x :: l2' /\ l2 = l2' ++ b.
Proof.
  intros Hx [|(l1' & -> & _)]%split_app; [done|]. destruct Hx. apply elem_of_app. right. by left.
Qed.

(** The act is not one of a concrete list. *)
Ltac not_act :=
  let H := fresh in
  intros H; cbn [app] in H;
  repeat match type of H with
  | _ ∈ (_ ++ _) => apply elem_of_app in H as [H|H]
  | _ ∈ (_ :: _) => apply elem_of_cons in H as [H|H]; [discriminate H|]
  end; by apply not_elem_of_nil in H.

(** A torque-on comes from the transition, and right before it the thread read the
    follower's state, was asked to move, and wrote the positions it had read. *)
Lemma cycle_torque_on c k l clk k' l1 l2 :
  cycle_post c k l clk k' -> l = l1 ++ torque_act c Follower true :: l2 ->
  exists l0 bf m, l1 = l0 ++ [AState FTS_OK bf; AMode m; goal_act c (positions bf)] /\
    enters_motion m = true.
Proof.
  intros (wake & r & ll & k2 & lf & m & lm & k3 & lg & k4 & lp & k5 & ln & cp & cn &
          H1 & H2 & Hm & H3 & H4 & H5 & H6 & _ & ->) E.
  apply split_skip in E as (l1a & E & ->).
  2: { destruct H1 as (? & ? & ? & ? & _ & ->). destruct (due _ _ _); not_act. }
  apply split_skip in E as (l1b & E & ->).
  2: { destruct H2 as (? & ? & ? & ? & ? & ? & ? & ? & ? & _ & _ & ->).
       destruct (due _ _ _); not_act. }
  apply split_first in E as (l2a & E & ->).
  2: { unfold goal_post, publish_post, slot_post in *. destruct H5 as (? & ? & ? & ? & _ & ->). destruct H6 as [-> _].
       destruct (torque k3); [destruct H4 as (? & ? & _ & _ & ->)|destruct H4 as [_ ->]]; not_act. }
  destruct H3 as [| | |k1 Hne Hmot Ht Hok ->| |];
    try (destruct l1b as [|? [|? l1b]]; discriminate E).
  - destruct l1b as [|x1 [|x2 [|x3 l1b]]]; cbn in E; try discriminate.
    + injection E as <- <- <-.
      destruct H2 as (rc & bf & pos & vel & load & volt & temp & norm & errs & -> & Hpos & ->).
      cbn in Hok, Ht |- *. rewrite Hok in *. cbn. exists (ll : list act), bf, m.
      apply Z.eqb_eq in Hok as ->.
      assert (Hclip : clip_mode m = m).
      { unfold clip_mode in *. destruct (Z.ltb_spec SO101_MODE_ESTOP m); [|done].
        discriminate Hmot. }
      rewrite Hclip in Hmot. split; [|done]. by rewrite Hpos.
    + injection E as _ _ _ E. by destruct l1b.
  - destruct l1b as [|? [|? [|? l1b]]]; discriminate E.
Qed.

Lemma history_torque_on c l k l1 l2 :
  history c l k -> l = l1 ++ torque_act c Follower true :: l2 ->
  exists l0 bf m, l1 = l0 ++ [AState FTS_OK bf; AMode m; goal_act c (positions bf)] /\
    enters_motion m = true.
Proof.
  intros H. revert l2. induction H as [t0|l k l' clk k' _ IH Hcycle]; intros l2 E.
  - destruct l1 as [|? [|? [|? l1]]]; discriminate E.
  - apply split_app in E as [(l2' & -> & _)|(l1' & -> & ->)]; [by eapply IH|].
    destruct (cycle_torque_on c k _ clk k' l1' l2 Hcycle eq_refl) as (l0 & bf & m & -> & Hm).
    exists (l ++ l0), bf, m. by rewrite app_assoc.
Qed.

(** ** The snapshot *)

(** What a snapshot says of the torque and the goal is what was commanded. *)
Definition truthful (l : list act) (s : so101_sample) : Prop :=
  s_torque_on s = commanded l false /\ 0 <= s_mode s <= 3 /\
  (s_torque_on s = true ->
     enters_motion (s_mode s) = true /\ goal_sent l None = Some (goal_bytes (s_follower_goal s))).

Lemma history_published c l k l1 s l2 :
  ctx_ok c -> history c l k -> l = l1 ++ APublish s :: l2 -> truthful l1 s.
Proof.
  intros Hc H. revert l2. induction H as [t0|l k l' clk k' Hh IH Hcycle]; intros l2 E.
  - destruct l1 as [|? [|? [|? l1]]]; discriminate E.
  - apply split_app in E as [(l2' & -> & _)|(l1' & E & ->)]; [by eapply IH|].
    pose proof (history_inv c Hc _ _ Hh) as I0.
    destruct Hcycle as (wake & r & ll & k2 & lf & m & lm & k3 & lg & k4 & lp & k5 & ln & cp & cn &
                        H1 & H2 & Hm & H3 & H4 & H5 & H6 & _ & ->).
    pose proof (leader_inv _ _ _ _ _ _ I0 H1) as I1. pose proof (follower_inv _ _ _ _ _ I1 H2) as I2.
    pose proof (mode_inv _ _ _ _ _ _ I2 Hm H3) as I3. pose proof (goal_inv _ Hc _ _ _ _ I3 H4) as I4.
    apply split_skip in E as (l1a & E & ->).
    2: { destruct H1 as (? & ? & ? & ? & _ & ->). destruct (due _ _ _); not_act. }
    apply split_skip in E as (l1b & E & ->).
    2: { destruct H2 as (? & ? & ? & ? & ? & ? & ? & ? & ? & _ & _ & ->).
         destruct (due _ _ _); not_act. }
    apply split_skip in E as (l1c & E & ->).
    2: { destruct H3; not_act. }
    apply split_skip in E as (l1d & E & ->).
    2: { unfold goal_post in H4.
         destruct (torque k3); [destruct H4 as (? & ? & _ & _ & ->)|destruct H4 as [_ ->]]; not_act. }
    destruct H5 as (f & b1 & b2 & e & -> & ->). destruct H6 as [-> _].
    destruct l1d as [|? [|? l1d]]; [|discriminate E|discriminate E]. injection E as <- <-.
    rewrite app_nil_r. rewrite <- !app_assoc in I4. destruct I4.
    unfold truthful. destruct (torque k4); cbn -[wrap_u Z.le]; rewrite (wrap_u_id 8) by clia; auto.
Qed.

(** ** The goal that precedes a snapshot *)

(** How the goals of a snapshot come out of the goals [g0] sent before. *)
Definition goal_moved (c : so101d_ctx) (s : so101_sample) (g0 : list Z) : Prop :=
  forall j, (j < SO101_NJ)%nat ->
  let g := at_ g0 j in
  let ramping := Z.testbit (s_ramping s) (Z.of_nat j) in
  exists target,
    at_ (s_follower_goal s) j = g + limited (if ramping then ramp_step c else max_step c) (target - g) /\
    (ramping = true -> ramp_done c < Z.abs (target - g)) /\
    (s_mode s = SO101_MODE_TELEOP -> s_leader_ok s = true ->
     exists cal, cal_follower c !! j = Some cal /\
       calib_unnormalize cal (at_ (s_leader_norm s) j) = Some target /\
       range_min cal <= target <= range_max cal).

Lemma step_goal_moved c k g m f b1 b2 e :
  ctx_ok c -> positions_ok (goal k) -> positions_ok (hold k) -> 0 <= applied k <= 3 ->
  step_joints c k (List.seq 0 SO101_NJ) (ramp_mask k) = Some (g, m) ->
  goal_moved c (smp_publish g (applied k) true m f b1 b2 e (smp k)) (goal k).
Proof.
  intros Hc Hg Hh Ha Es j Hj.
  destruct (step_joints_spec c k _ _ g m Hc Hg Hh joints_distinct joints_below Es) as (Hl & Hm & _).
  assert (Hjs : List.seq 0 SO101_NJ !! j = Some j)
    by (apply lookup_seq; unfold SO101_NJ in *; lia).
  assert (Hgj : g !! j = Some (at_ g j)) by (apply at_lookup; rewrite Hl, length_seq; lia).
  destruct (Hm j j _ Hjs Hgj) as (target & Ht & Hbit & Hg').
  destruct (joint_target_position _ _ _ _ Hc Hg Hh Hj Ht) as [_ Hrange].
  cbn [s_ramping s_follower_goal s_mode s_leader_ok s_leader_norm smp_publish].
  assert (Hu8 : Z.testbit (u8 m) (Z.of_nat j) = Z.testbit m (Z.of_nat j))
    by (unfold wrap_u; apply Z.mod_pow2_bits_low; unfold SO101_NJ in *; lia).
  rewrite (wrap_u_id 8 (applied k)) by clia.
  exists target. cbn zeta. rewrite Hu8. split; [exact Hg'|]. split.
  - rewrite Hbit. intros [_ Hd%Z.ltb_lt]%andb_true_iff. exact Hd.
  - intros Hmode Hlok. destruct (Hrange Hmode Hlok) as (cal & Hcal & Hr).
    exists cal. split; [done|]. split; [|done].
    unfold joint_target in Ht. by rewrite Hmode, Hlok, Hcal in Ht.
Qed.

Lemma snoc_inj {A} (l1 l2 : list A) x y : l1 ++ [x] = l2 ++ [y] -> l1 = l2 /\ x = y.
Proof. apply app_inj_tail. Qed.

Lemma cycle_goal c l k l' clk k' l1 la ids data s lb :
  ctx_ok c -> ctl_inv l k -> cycle_post c k l' clk k' ->
  l' = l1 ++ APublish s :: lb ->
  l ++ l1 = la ++ [AWrite Follower ids STS_GOAL_POSITION data] ->
  ids = ids_f c /\ data = goal_bytes (s_follower_goal s) /\
  commanded la false = true /\
  exists g0, positions_ok g0 /\ goal_sent la None = Some (goal_bytes g0) /\ goal_moved c s g0.
Proof.
  intros Hc I0 (wake & r & ll & k2 & lf & m & lm & k3 & lg & k4 & lp & k5 & ln & cp & cn &
                H1 & H2 & Hm & H3 & H4 & H5 & H6 & _ & ->) E Ew.
  pose proof (leader_inv _ _ _ _ _ _ I0 H1) as I1. pose proof (follower_inv _ _ _ _ _ I1 H2) as I2.
  pose proof (mode_inv _ _ _ _ _ _ I2 Hm H3) as I3. rewrite <- !app_assoc in I3.
  assert (E1 : l1 = ll ++ lf ++ (AMode m :: lm) ++ lg /\ APublish s :: lb = lp ++ ln).
  { apply split_skip in E as (l1a & E & ->).
    2: { destruct H1 as (? & ? & ? & ? & _ & ->). destruct (due _ _ _); not_act. }
    apply split_skip in E as (l1b & E & ->).
    2: { destruct H2 as (? & ? & ? & ? & ? & ? & ? & ? & ? & _ & _ & ->).
         destruct (due _ _ _); not_act. }
    apply split_skip in E as (l1c & E & ->); [|destruct H3; not_act].
    apply split_skip in E as (l1d & E & ->).
    2: { unfold goal_post in H4.
         destruct (torque k3); [destruct H4 as (? & ? & _ & _ & ->)|destruct H4 as [_ ->]]; not_act. }
    destruct H5 as (f & b1 & b2 & e & _ & ->). destruct H6 as [-> _].
    destruct l1d as [|? [|? l1d]]; [|discriminate E|discriminate E]. cbn in E.
    split; [by rewrite app_nil_r|]. by rewrite <- E. }
  destruct E1 as [-> E2]. unfold goal_post in H4. destruct (torque k3) eqn:Ht3.
  - destruct H4 as (g & mk & Es & -> & ->).
    rewrite !app_assoc in Ew. apply snoc_inj in Ew as [<- Ew]. injection Ew as <- <-.
    destruct H5 as (f & b1 & b2 & e & -> & ->). cbn in E2. destruct H6 as [-> _].
    injection E2 as -> _. rewrite <- !app_assoc. destruct I3.
    split; [done|]. split; [done|]. split; [congruence|].
    exists (goal k3). split; [done|]. split; [by apply inv_sent0|].
    cbn. rewrite Ht3. cbn. by apply (step_goal_moved c k3).
  - destruct H4 as [_ ->]. rewrite app_nil_r in Ew. exfalso.
    assert (Hlast : forall x l2, l ++ ll ++ lf ++ l2 ++ [x] = la ++ [AWrite Follower ids STS_GOAL_POSITION data] ->
                    x = AWrite Follower ids STS_GOAL_POSITION data)
      by (intros x l2 E3; rewrite !app_assoc in E3; by apply snoc_inj in E3 as [_ E3]).
    destruct H3 as [| | |k1 ? ? ? ? ->| |]; cbn in Ht3;
      try (unfold latch_hold in Ht3; by destruct (_ =? _) in Ht3; cbn in Ht3; congruence);
      [apply (Hlast _ []) in Ew|apply (Hlast _ []) in Ew|apply (Hlast _ [_]) in Ew|apply (Hlast _ []) in Ew];
      discriminate Ew.
Qed.

Lemma history_goal c l k la ids data s lb :
  ctx_ok c -> history c l k ->
  l = la ++ AWrite Follower ids STS_GOAL_POSITION data :: APublish s :: lb ->
  ids = ids_f c /\ data = goal_bytes (s_follower_goal s) /\
  commanded la false = true /\
  exists g0, positions_ok g0 /\ goal_sent la None = Some (goal_bytes g0) /\ goal_moved c s g0.
Proof.
  intros Hc H. revert lb. induction H as [t0|l k l' clk k' Hh IH Hcycle]; intros lb E.
  - destruct la as [|? [|? [|? la]]]; discriminate E.
  - assert (E' : l ++ l' = (la ++ [AWrite Follower ids STS_GOAL_POSITION data]) ++ APublish s :: lb)
      by (rewrite E, <- app_assoc; done).
    apply split_app in E' as [(l2' & -> & _)|(l1' & -> & El)].
    + eapply IH. by rewrite <- app_assoc.
    + eapply cycle_goal; [done|by eapply history_inv|exact Hcycle|done|by rewrite El].
Qed.

(** ** Obedience *)

(** The requests read and the snapshots published among some acts. *)
Definition requests (l : list act) : list Z :=
  omap (fun x => match x with AMode m => Some m | _ => None end) l.
Definition snapshots (l : list act) : list so101_sample :=
  omap (fun x => match x with APublish s => Some s | _ => None end) l.

Definition sends_goal (x : act) : bool :=
  match x with AWrite Follower _ addr _ => addr =? STS_GOAL_POSITION | _ => false end.

(** What a cycle makes of the request [m] it read, in the snapshot [s]. *)
Definition obeyed (m : Z) (s : so101_sample) (l : list act) : Prop :=
  let req := clip_mode m in
  (enters_motion req = false ->
     s_torque_on s = false /\ s_mode s = req /\ existsb sends_goal l = false) /\
  (enters_motion req = true -> s_mode s <> req -> s_torque_on s = false /\ s_follower_ok s = false).

(** Acts that are neither requests nor snapshots. *)
Definition quiet (l : list act) : Prop := requests l = [] /\ snapshots l = [].

Lemma requests_app l1 l2 : requests (l1 ++ l2) = requests l1 ++ requests l2.
Proof. apply omap_app. Qed.
Lemma snapshots_app l1 l2 : snapshots (l1 ++ l2) = snapshots l1 ++ snapshots l2.
Proof. apply omap_app. Qed.

Lemma leader_quiet c k l r : leader_post c k l r -> quiet l /\ existsb sends_goal l = false.
Proof. intros (? & ? & ? & ? & _ & ->). by destruct (due _ _ _). Qed.

Lemma follower_quiet c k l k' : follower_post c k l k' -> quiet l /\ existsb sends_goal l = false.
Proof.
  intros (? & ? & ? & ? & ? & ? & ? & ? & ? & _ & _ & ->). by destruct (due _ _ _).
Qed.

Lemma mode_quiet c k req l k' : mode_post c k req l k' -> quiet l.
Proof. by intros []. Qed.

Lemma goal_quiet c k l k' : goal_post c k l k' -> quiet l.
Proof.
  unfold goal_post. destruct (torque k); [by intros (? & ? & _ & _ & ->)|by intros [_ ->]].
Qed.

(** What a transition leaves alone, and what it decides. *)
Lemma mode_decides l c k req lm k' :
  ctl_inv l k -> mode_post c k req lm k' ->
  s_cycle (smp k') = s_cycle (smp k) /\ s_follower_ok (smp k') = s_follower_ok (smp k) /\
  (enters_motion req = false -> torque k' = false /\ applied k' = req /\ existsb sends_goal lm = false) /\
  (enters_motion req = true -> applied k' <> req -> torque k' = false /\ s_follower_ok (smp k) = false).
Proof.
  intros [] Hp.
  assert (Hl : forall k1, smp (latch_hold req k1) = smp k1 /\ torque (latch_hold req k1) = torque k1)
    by (intros; unfold latch_hold; by destruct (_ =? _)).
  destruct Hp as [->| | |k1 ? ? ? ? ->| |]; cbn; rewrite ?(proj1 (Hl _)), ?(proj2 (Hl _));
    split_and!; try done; try congruence.
  intros Hm. split_and!; [|done|done]. destruct (torque k); [|done].
  rewrite inv_motion0 in Hm; done.
Qed.

Lemma goal_keeps c k lg k' :
  goal_post c k lg k' ->
  torque k' = torque k /\ applied k' = applied k /\ s_cycle (smp k') = s_cycle (smp k) /\
  s_follower_ok (smp k') = s_follower_ok (smp k) /\ (torque k = false -> existsb sends_goal lg = false).
Proof.
  unfold goal_post. destruct (torque k) eqn:Ht.
  - intros (? & ? & _ & -> & ->). cbn. rewrite Ht. by split_and!.
  - intros [-> ->]. destruct (s_follower_ok (smp k)) eqn:E; cbn; rewrite ?E, ?Ht; by split_and!.
Qed.

Lemma cycle_obeyed c l k l' clk k' :
  ctl_inv l k -> cycle_post c k l' clk k' ->
  exists m s, requests l' = [m] /\ snapshots l' = [s] /\ obeyed m s l' /\
    s_cycle s = u64 (s_cycle (smp k) + 1) /\ s_cycle (smp k') = s_cycle s /\
    s_torque_on s = torque k' /\ s_mode s = applied k'.
Proof.
  intros I0 (wake & r & ll & k2 & lf & m & lm & k3 & lg & k4 & lp & k5 & ln & cp & cn &
             H1 & H2 & Hm & H3 & H4 & H5 & H6 & _ & ->).
  pose proof (leader_inv _ _ _ _ _ _ I0 H1) as I1. pose proof (follower_inv _ _ _ _ _ I1 H2) as I2.
  pose proof (mode_inv _ _ _ _ _ _ I2 Hm H3) as [? ? ? ? ? ? Happ].
  destruct (leader_quiet _ _ _ _ H1) as [[Q1 Q1'] G1].
  destruct (follower_quiet _ _ _ _ H2) as [[Q2 Q2'] G2].
  destruct (mode_quiet _ _ _ _ _ H3) as [Q3 Q3']. destruct (goal_quiet _ _ _ _ H4) as [Q4 Q4'].
  destruct (mode_decides _ _ _ _ _ _ I2 H3) as (D1 & D2 & D3 & D4).
  destruct (goal_keeps _ _ _ _ H4) as (K1 & K2 & K3 & K4 & K5).
  assert (Hcyc : s_cycle (smp k2) = u64 (s_cycle (smp k) + 1)).
  { destruct H2 as (? & ? & ? & ? & ? & ? & ? & ? & ? & -> & _). cbn.
    destruct H1 as (? & ? & ? & ? & -> & _). done. }
  destruct H5 as (f & b1 & b2 & e & -> & ->). destruct H6 as [-> (now & mm & _ & _ & _ & _ & ->)].
  exists m, (smp_publish (goal k4) (applied k4) (torque k4)
              (ramp_mask (if torque k4 then k4 else set_ramp 0 k4)) f b1 b2 e (smp k4)).
  assert (Hsmp : smp (if torque k4 then k4 else set_ramp 0 k4) = smp k4) by by destruct (torque k4).
  assert (Htq : torque (if torque k4 then k4 else set_ramp 0 k4) = torque k4)
    by (destruct (torque k4) eqn:E; cbn; congruence).
  assert (Hap : applied (if torque k4 then k4 else set_ramp 0 k4) = applied k4) by by destruct (torque k4).
  change (AMode m :: lm) with ([AMode m] ++ lm).
  rewrite !requests_app, !snapshots_app, Q1, Q2, Q3, Q4, Q1', Q2', Q3', Q4'. cbn -[smp_publish].
  rewrite Hsmp. split; [done|]. split; [done|]. unfold obeyed.
  cbn [s_torque_on s_mode s_follower_ok s_cycle smp_publish].
  rewrite (wrap_u_id 8), K1, K2 by (rewrite K2; clia).
  rewrite K3, D1, Hcyc. split_and!.
  - intros Hr. destruct (D3 Hr) as (E1 & E2 & E3). split_and!; [done|done|].
    rewrite !existsb_app, G1, G2. cbn [existsb sends_goal orb].
    by rewrite !existsb_app, E3, K5.
  - intros Hr Hne. rewrite K4, D2. exact (D4 Hr Hne).
  - done.
  - destruct (mm =? 0), (torque k3) eqn:?; cbn; congruence.
  - destruct (mm =? 0), (torque k3) eqn:?; cbn; congruence.
  - destruct (mm =? 0), (torque k3) eqn:?; cbn; congruence.
Qed.

(** ** Time *)

Lemma mode_time c k req lm k' :
  mode_post c k req lm k' -> next k' = next k /\ s_missed_slots (smp k') = s_missed_slots (smp k).
Proof.
  assert (Hl : forall k1, next (latch_hold req k1) = next k1 /\ smp (latch_hold req k1) = smp k1)
    by (intros; unfold latch_hold; by destruct (_ =? _)).
  intros [| | |k1 ? ? ? ? ->| |]; cbn; rewrite ?(proj1 (Hl _)), ?(proj2 (Hl _)); done.
Qed.

Lemma goal_time c k lg k' :
  goal_post c k lg k' -> next k' = next k /\ smp k' = smp k.
Proof.
  unfold goal_post. destruct (torque k); [by intros (? & ? & _ & -> & _)|intros [-> _]].
  by destruct (s_follower_ok (smp k)).
Qed.

Lemma cycle_time c k l clk k' :
  cycle_post c k l clk k' ->
  exists pre now m, clk = pre ++ [now] /\ 0 <= m /\ now <= next k' /\
    next k' = next k + (m + 1) * period c /\ (0 < m -> next k' - period c < now) /\
    s_missed_slots (smp k') =
      (if m =? 0 then s_missed_slots (smp k) else u32 (s_missed_slots (smp k) + m)).
Proof.
  intros (wake & r & ll & k2 & lf & m' & lm & k3 & lg & k4 & lp & k5 & ln & cp & cn &
          H1 & H2 & Hm & H3 & H4 & H5 & H6 & -> & ->).
  destruct (mode_time _ _ _ _ _ H3) as [T3 S3]. destruct (goal_time _ _ _ _ H4) as [T4 S4].
  destruct H1 as (? & ? & ? & ? & Hr & _).
  destruct H2 as (? & ? & ? & ? & ? & ? & ? & ? & ? & Hk2 & _).
  assert (next k2 = next k /\ s_missed_slots (smp k2) = s_missed_slots (smp k)) as [T2 S2]
    by (rewrite Hk2; cbn; by rewrite Hr).
  destruct H5 as (f & b1 & b2 & e & -> & _).
  destruct H6 as [_ (now & m & -> & Hm0 & Hnow & Hskip & ->)].
  assert (T : forall f k0, next (set_smp f k0) = next k0) by done.
  assert (T5 : next (if torque k4 then k4 else set_ramp 0 k4) = next k) by (destruct (torque k4); cbn; congruence).
  assert (S5 : s_missed_slots (smp (if torque k4 then k4 else set_ramp 0 k4)) = s_missed_slots (smp k))
    by (destruct (torque k4); cbn; rewrite S4; congruence).
  rewrite T, T5 in *. exists cp, now, m. cbn [next set_next]. split_and!; try done.
  - intros Hpos. specialize (Hskip Hpos). lia.
  - destruct (m =? 0); cbn; by rewrite S5.
Qed.

(** ** Reconnection *)

(** The consecutive failed follower reads at the end of some acts, and the reads
    since the last reconnection of the follower. *)
Definition fails1 (n : Z) (x : act) : Z :=
  match x with AState rc _ => if rc =? FTS_OK then 0 else n + 1 | _ => n end.
Definition fails (l : list act) : Z := fold_left fails1 l 0.

Definition is_state (x : act) : bool := match x with AState _ _ => true | _ => false end.
Definition states (l : list act) : Z := Z.of_nat (length (List.filter is_state l)).

Lemma fails_app l1 l2 : fails (l1 ++ l2) = fold_left fails1 l2 (fails l1).
Proof. apply fold_left_app. Qed.

Lemma states_app l1 l2 : states (l1 ++ l2) = states l1 + states l2.
Proof. unfold states. rewrite filter_app, length_app. lia. Qed.

(** The acts after the last reconnection of the follower, if there was one. *)
Fixpoint since_reopen (l : list act) : option (list act) :=
  match l with
  | [] => None
  | x :: l =>
      match since_reopen l with
      | Some l' => Some l'
      | None => match x with AReopen Follower => Some l | _ => None end
      end
  end.

Definition no_reopen (l : list act) : Prop := AReopen Follower ∉ l.

Lemma since_reopen_none l : no_reopen l -> since_reopen l = None.
Proof.
  induction l as [|x l IH]; intros Hn; [done|]. apply not_elem_of_cons in Hn as [Hx Hn].
  cbn. rewrite IH by done. by destruct x as [| |[]| |].
Qed.

Lemma since_reopen_app l1 l2 :
  no_reopen l2 -> since_reopen (l1 ++ l2) = option_map (fun l => l ++ l2) (since_reopen l1).
Proof.
  intros Hn. induction l1 as [|x l1 IH]; cbn; [by apply since_reopen_none|].
  rewrite IH. destruct (since_reopen l1); cbn; [done|]. by destruct x as [| |[]| |].
Qed.

Lemma since_reopen_last l1 l2 : no_reopen l2 -> since_reopen (l1 ++ AReopen Follower :: l2) = Some l2.
Proof.
  intros Hn. induction l1 as [|x l1 IH]; cbn; [by rewrite since_reopen_none|]. by rewrite IH.
Qed.

(** The streak counts the failed reads (it saturates), and the next attempt is
    due [REOPEN_AFTER] cycles after the last one.  [n] counts the cycles; it does
    not wrap. *)
Definition reopen_inv (l : list act) (k : ctl) (n : Z) : Prop :=
  s_cycle (smp k) = n /\ 0 <= n /\
  s_follower_streak (smp k) = Z.min 65535 (fails l) /\ 0 <= fails l /\
  match since_reopen l with
  | Some l' => retry_f k + states l' = n + REOPEN_AFTER
  | None => retry_f k = 0
  end.

(** A reconnection is never too early. *)
Definition reopen_spaced (l : list act) : Prop :=
  forall l1 l2, l = l1 ++ AReopen Follower :: l2 ->
  REOPEN_AFTER <= fails l1 /\
  forall l', since_reopen l1 = Some l' -> REOPEN_AFTER <= states l'.

Lemma bump_streak_fails rc f :
  0 <= f ->
  bump_streak (rc =? FTS_OK) (Z.min 65535 f) = Z.min 65535 (if rc =? FTS_OK then 0 else f + 1).
Proof.
  intros Hf. unfold bump_streak. destruct (rc =? FTS_OK); [lia|].
  destruct (Z.ltb_spec (Z.min 65535 f) 0xFFFF); rewrite wrap_u_id by clia; lia.
Qed.

Lemma leader_no_reopen c k l r : leader_post c k l r -> no_reopen l /\ fails l = 0 /\ states l = 0 /\
  (forall f, fold_left fails1 l f = f).
Proof.
  intros (? & ? & ? & ? & _ & ->). unfold no_reopen.
  destruct (due _ _ _); (split; [not_act|]); done.
Qed.

Lemma mode_no_reopen c k req m lm k' :
  mode_post c k req lm k' ->
  no_reopen (AMode m :: lm) /\ states (AMode m :: lm) = 0 /\
  (forall f, fold_left fails1 (AMode m :: lm) f = f) /\
  s_cycle (smp k') = s_cycle (smp k) /\ s_follower_streak (smp k') = s_follower_streak (smp k) /\
  retry_f k' = retry_f k.
Proof.
  assert (Hl : forall k1, smp (latch_hold req k1) = smp k1 /\ retry_f (latch_hold req k1) = retry_f k1)
    by (intros; unfold latch_hold; by destruct (_ =? _)).
  unfold no_reopen.
  intros [| | |k1 ? ? ? ? ->| |]; (split; [not_act|]); cbn; rewrite ?(proj1 (Hl _)), ?(proj2 (Hl _)); done.
Qed.

Lemma goal_no_reopen c k lg k' :
  goal_post c k lg k' ->
  no_reopen lg /\ states lg = 0 /\ (forall f, fold_left fails1 lg f = f) /\
  smp k' = smp k /\ retry_f k' = retry_f k.
Proof.
  unfold goal_post, no_reopen. destruct (torque k); [intros (? & ? & _ & -> & ->)|intros [-> ->]];
    (split; [not_act|]); [done|]. by destruct (s_follower_ok (smp k)).
Qed.

Lemma tail_keeps c k lp k5 ln cn k' :
  publish_post k lp k5 -> slot_post c k5 ln cn k' ->
  no_reopen (lp ++ ln) /\ states (lp ++ ln) = 0 /\ (forall f, fold_left fails1 (lp ++ ln) f = f) /\
  s_cycle (smp k') = s_cycle (smp k) /\ s_follower_streak (smp k') = s_follower_streak (smp k) /\
  retry_f k' = retry_f k.
Proof.
  intros (f & b1 & b2 & e & -> & ->) [-> (now & m & _ & _ & _ & _ & ->)].
  assert (Hk : smp (if torque k then k else set_ramp 0 k) = smp k /\
               retry_f (if torque k then k else set_ramp 0 k) = retry_f k) by by destruct (torque k).
  destruct Hk as [Hk1 Hk2]. unfold no_reopen. split; [not_act|].
  destruct (m =? 0); cbn; rewrite Hk1, Hk2; done.
Qed.

(** The middle of a cycle: the reads of both arms. *)
Lemma reads_reopen c l k wake n ll r lf k2 :
  n + 51 < 2 ^ 64 ->
  reopen_inv l k n -> reopen_spaced l ->
  leader_post c (set_smp (smp_wake wake (wake - next k)) k) ll r -> follower_post c r.1.1 lf k2 ->
  reopen_inv (l ++ ll ++ lf) k2 (n + 1) /\ reopen_spaced (l ++ ll ++ lf).
Proof.
  intros Hn (Hcyc & Hn0 & Hstreak & Hf0 & Hretry) Hsp H1 H2.
  destruct (leader_no_reopen _ _ _ _ H1) as (Nl & _ & Sl & Fl).
  destruct H1 as (ok & pos & norm & errs & Hr & _).
  destruct H2 as (rc & bf & fpos & vel & load & volt & temp & fnorm & ferrs & -> & _ & ->).
  assert (Hkr : s_cycle (smp r.1.1) = n + 1 /\ s_follower_streak (smp r.1.1) = Z.min 65535 (fails l) /\
                retry_f r.1.1 = retry_f k).
  { rewrite Hr. cbn. rewrite Hcyc, Hstreak. split; [|done]. apply wrap_u_id. clia. }
  destruct Hkr as (K1 & K2 & K3). rewrite K1, K2, K3. clear Hr.
  rewrite bump_streak_fails by done. set (F := if rc =? FTS_OK then 0 else fails l + 1).
  assert (HF0 : 0 <= F) by (unfold F; destruct (rc =? FTS_OK); lia).
  assert (HF : fails (l ++ ll ++ [AState rc bf]) = F)
    by (rewrite fails_app, fold_left_app, Fl; done).
  assert (Nst : no_reopen (ll ++ [AState rc bf]))
    by (unfold no_reopen; intros [Hin|Hin]%elem_of_app; [by apply Nl|revert Hin; not_act]).
  assert (Hsince : forall l', since_reopen l = Some l' ->
    since_reopen (l ++ ll ++ [AState rc bf]) = Some (l' ++ ll ++ [AState rc bf]) /\
    states (l' ++ ll ++ [AState rc bf]) = states l' + 1).
  { intros l' E. rewrite since_reopen_app, E by done. split; [done|]. rewrite !states_app, Sl.
    change (states [AState rc bf]) with 1. lia. }
  assert (Hnone : since_reopen l = None -> since_reopen (l ++ ll ++ [AState rc bf]) = None)
    by (intros E; by rewrite since_reopen_app, E).
  assert (Hsp' : reopen_spaced (l ++ ll ++ [AState rc bf])).
  { intros l1 l2 E. apply split_first in E as (l2' & E & _); [|exact Nst]. by eapply Hsp. }
  unfold due, REOPEN_AFTER in *.
  destruct ((50 <=? Z.min 65535 F) && (retry_f k <=? n + 1)) eqn:Edue.
  - apply andb_true_iff in Edue as [Hd1%Z.leb_le Hd2%Z.leb_le].
    change (AState rc bf :: ?x) with ([AState rc bf] ++ x). rewrite !app_assoc, <- (app_assoc l).
    split.
    + unfold reopen_inv, REOPEN_AFTER. cbn [s_cycle smp set_torque_flag set_retry_f set_smp smp_follower
                                s_follower_streak retry_f].
      rewrite K1, since_reopen_last by not_act.
      change (states [torque_act c Follower false]) with 0.
      rewrite fails_app, HF. cbn [fold_left fails1 torque_act].
      rewrite wrap_u_id by clia. split_and!; try done; lia.
    + intros l1 l2 E. change (?a ++ AReopen Follower :: ?b) with (a ++ [AReopen Follower] ++ b) in E.
      apply split_app in E as [(l2' & E & _)|(l1' & E & ->)]; [by eapply Hsp'|].
      destruct l1' as [|? [|? [|? l1']]]; try discriminate E. rewrite app_nil_r, HF.
      unfold REOPEN_AFTER. split; [lia|]. intros l' El.
      destruct (since_reopen l) as [l0|] eqn:E0; [|by rewrite (Hnone eq_refl) in El].
      destruct (Hsince l0 eq_refl) as [E1 E2]. rewrite E1 in El. injection El as <-. lia.
  - split; [|done]. unfold reopen_inv, REOPEN_AFTER.
    cbn [s_cycle smp set_torque_flag set_retry_f set_smp smp_follower s_follower_streak retry_f].
    rewrite HF, K1. split_and!; try done; try lia.
    destruct (since_reopen l) as [l0|] eqn:E0.
    + destruct (Hsince l0 eq_refl) as [-> ->]. lia.
    + by rewrite (Hnone eq_refl).
Qed.

Lemma cycle_reopen c l k l' clk k' n :
  n + 51 < 2 ^ 64 -> reopen_inv l k n -> reopen_spaced l -> cycle_post c k l' clk k' ->
  reopen_inv (l ++ l') k' (n + 1) /\ reopen_spaced (l ++ l').
Proof.
  intros Hn Hinv Hsp (wake & r & ll & k2 & lf & m & lm & k3 & lg & k4 & lp & k5 & ln & cp & cn &
                      H1 & H2 & Hm & H3 & H4 & H5 & H6 & _ & ->).
  destruct (reads_reopen _ _ _ _ _ _ _ _ _ Hn Hinv Hsp H1 H2) as [(I1 & I2 & I3 & I4 & I5) Hsp2].
  destruct (mode_no_reopen _ _ _ m _ _ H3) as (N3 & S3 & F3 & C3 & R3 & T3).
  destruct (goal_no_reopen _ _ _ _ H4) as (N4 & S4 & F4 & C4 & T4).
  destruct (tail_keeps _ _ _ _ _ _ _ H5 H6) as (N5 & S5 & F5 & C5 & R5 & T5).
  set (tl := (AMode m :: lm) ++ lg ++ lp ++ ln).
  assert (Ntl : no_reopen tl).
  { unfold no_reopen in *. unfold tl. intros [Hx|[Hx|Hx]%elem_of_app]%elem_of_app; auto. }
  assert (Stl : states tl = 0) by (unfold tl; rewrite !states_app in *; lia).
  assert (Ftl : forall f, fold_left fails1 tl f = f).
  { intros f. unfold tl. rewrite fold_left_app, F3, fold_left_app, F4. apply F5. }
  replace (l ++ ll ++ lf ++ tl) with ((l ++ ll ++ lf) ++ tl) by (by rewrite <- !app_assoc).
  split.
  - unfold reopen_inv. rewrite C5, R5, T5, C4, T4, C3, R3, T3, fails_app, Ftl.
    split_and!; try done. rewrite since_reopen_app by done.
    destruct (since_reopen (l ++ ll ++ lf)); cbn [option_map]; [|done]. rewrite states_app, Stl. lia.
  - intros l1 l2 E. apply split_first in E as (l2' & E & _); [|exact Ntl]. by eapply Hsp2.
Qed.

(** ** Holding a pose *)

Definition holding (k : ctl) : Prop := applied k = SO101_MODE_HOLD /\ torque k = true.

(** How far the goals are from the latched pose. *)
Definition hold_gap (k : ctl) (j : nat) : Z := Z.abs (at_ (hold k) j - at_ (goal k) j).

Lemma limited_gap lim d : 0 <= lim -> Z.abs (d - limited lim d) = Z.max 0 (Z.abs d - lim).
Proof. unfold limited. lia. Qed.

Definition same_motion (k k' : ctl) : Prop :=
  applied k' = applied k /\ torque k' = torque k /\ hold k' = hold k /\ goal k' = goal k.

Lemma tail_motion c k lp k5 ln cn k' :
  publish_post k lp k5 -> slot_post c k5 ln cn k' -> same_motion k k'.
Proof.
  intros (f & b1 & b2 & e & -> & _) [_ (now & m & _ & _ & _ & _ & ->)]. unfold same_motion.
  destruct (m =? 0), (torque k) eqn:E; cbn; by rewrite ?E.
Qed.

Lemma cycle_hold c l k l' clk k' :
  ctx_ok c -> ctl_inv l k -> cycle_post c k l' clk k' ->
  holding k -> requests l' = [SO101_MODE_HOLD] -> no_reopen l' ->
  holding k' /\ hold k' = hold k /\
  forall j, (j < SO101_NJ)%nat ->
    hold_gap k' j <= Z.max 0 (hold_gap k j - Z.min (ramp_step c) (max_step c)).
Proof.
  intros Hc I0 (wake & r & ll & k2 & lf & m & lm & k3 & lg & k4 & lp & k5 & ln & cp & cn &
                H1 & H2 & Hm & H3 & H4 & H5 & H6 & _ & ->) [Ha Ht] Hreq Hno.
  pose proof (leader_inv _ _ _ _ _ _ I0 H1) as I1. pose proof (follower_inv _ _ _ _ _ I1 H2) as I2.
  destruct (leader_quiet _ _ _ _ H1) as [[Q1 _] _]. destruct (follower_quiet _ _ _ _ H2) as [[Q2 _] _].
  destruct (mode_quiet _ _ _ _ _ H3) as [Q3 _]. destruct (goal_quiet _ _ _ _ H4) as [Q4 _].
  assert (m = SO101_MODE_HOLD) as ->.
  { change (AMode m :: lm) with ([AMode m] ++ lm) in Hreq.
    rewrite !requests_app, Q1, Q2 in Hreq. cbn in Hreq. by injection Hreq. }
  destruct H1 as (ok & pos & norm & errs & Hr & _).
  destruct H2 as (rc & bf & fpos & vel & load & volt & temp & fnorm & ferrs & Hk2 & _ & Hlf).
  assert (E2 : applied k2 = SO101_MODE_HOLD /\ torque k2 = true /\ hold k2 = hold k /\ goal k2 = goal k).
  { destruct (due _ _ _) in Hlf, Hk2.
    - destruct Hno. subst lf. rewrite !elem_of_app. right; left. right. by left.
    - rewrite Hk2. cbn. by rewrite Hr. }
  destruct E2 as (A2 & T2 & G2 & G2').
  assert (k3 = k2) as -> by (destruct H3 as [| | | | |]; try done; rewrite A2 in *; done).
  destruct I2 as [Ig Ih _ _ _ _ _]. unfold goal_post in H4. rewrite T2 in H4.
  destruct H4 as (g & mk & Es & -> & _).
  destruct (tail_motion _ _ _ _ _ _ _ H5 H6) as (A' & T' & Gh' & Gg').
  cbn [applied torque hold goal set_ramp set_goal] in *.
  split; [by split; congruence|]. split; [congruence|].
  intros j Hj. unfold hold_gap. rewrite Gh', Gg', G2.
  destruct (step_joints_spec c k2 _ _ g mk Hc Ig Ih joints_distinct joints_below Es) as (Hl & Hmv & _).
  assert (Hjs : List.seq 0 SO101_NJ !! j = Some j)
    by (apply lookup_seq; unfold SO101_NJ in *; lia).
  assert (Hgj : g !! j = Some (at_ g j)) by (apply at_lookup; rewrite Hl, length_seq; lia).
  destruct (Hmv j j _ Hjs Hgj) as (target & Htg & _ & ->).
  unfold joint_target in Htg. rewrite A2, G2 in Htg. cbn in Htg. injection Htg as <-.
  rewrite G2'. set (lim := if Z.testbit _ _ then _ else _).
  destruct Hc as (_ & Hms & Hrs & _).
  assert (Z.min (ramp_step c) (max_step c) <= lim) by (unfold lim; destruct (Z.testbit _ _); lia).
  pose proof (limited_gap lim (at_ (hold k) j - at_ (goal k) j) ltac:(lia)). lia.
Qed.
