(* ===== verification/ControlThms.v ===== *)
(** * What the control thread guarantees

    The theorems about every execution of [control_thread], from the
    specifications of [ControlProps.v], with a scripted world to evaluate them. *)

From stdpp Require Import strings.
From S2P Require Import Prelude Protocol Os Float32 Calib Shm Ctx Prog Control ControlProps.

(** ** Playing a world

    [play h c n s]: the start and [n] turns of the loop with a handler [h]. *)

Section Play.
Context {S : Type} (h : forall R, ctl_ev R -> M S R) (c : so101d_ctx).

Definition play_turn (r : list (obs ctl_ev) * ctl * S) : option (list (obs ctl_ev) * ctl * S) :=
  r' ← interp_log h (control_cycle c r.1.2) r.2;
  mret (r.1.1 ++ Obs LoadRun true :: r'.1.1, r'.1.2, r'.2).

Definition play (n : nat) (s : S) : option (list (obs ctl_ev) * ctl * S) :=
  Nat.iter n (fun r => r ≫= play_turn) (interp_log h (control_start c) s).

Lemma play_reach n s tr k s' : play n s = Some (tr, k, s') -> ctl_reach c tr k.
Proof.
  revert tr k s'. induction n as [|n IH]; intros tr k s' E.
  - apply ctl_started. by eapply interp_log_run.
  - change (play (Datatypes.S n) s) with (play n s ≫= play_turn) in E.
    apply bind_Some_inv in E as ([[tr0 k0] s0] & E0 & E).
    apply bind_Some_inv in E as ([[tr1 k2] s1] & E1 & E). injection E as <- -> <-.
    apply (ctl_turn _ _ _ _ _ (IH _ _ _ E0)). exact (interp_log_run _ _ _ _ _ _ E1).
Qed.

Definition play_trace (n : nat) (s : S) : list (obs ctl_ev) :=
  match play n s with Some (tr, _, _) => tr | None => [] end.

Lemma play_runs n s :
  (if play n s is Some _ then true else false) = true -> exists k, ctl_reach c (play_trace n s) k.
Proof.
  unfold play_trace. destruct (play n s) as [[[tr k] s']|] eqn:E; [|done].
  intros _. exists k. by eapply play_reach.
Qed.
End Play.

(** ** A scripted world *)

(** Requests to come, and the clock; the servos always answer. *)
Record script := mk_script { sc_now : Z; sc_modes : list Z }.

(** Every servo at position 2048, 5 V and 30 C. *)
Definition sc_reply (len : Z) : list Z :=
  if len =? 2 then [0; 8] else [0; 8; 0; 0; 0; 0; 50; 30].

Definition script_handler (R : Type) (e : ctl_ev R) : M script R :=
  fun s =>
  match e in ctl_ev R return option (R * script) with
  | LoadRun => Some (true, s)
  | MonoNs => Some (sc_now s, mk_script (sc_now s + 1000) (sc_modes s))
  | SleepUntil ts => Some (tt, mk_script (Z.max (sc_now s) (ts_ns ts)) (sc_modes s))
  | SyncRead a ids addr len => Some ((FTS_OK, concat (map (fun _ => sc_reply len) ids)), s)
  | SyncWrite a ids addr len data => Some (FTS_OK, s)
  | ReopenBus a path => Some (tt, s)
  | LoadModeReq => Some (hd 0 (sc_modes s), mk_script (sc_now s) (tl (sc_modes s)))
  | FaultsOr bits => Some (tt, s)
  | FaultsAnd bits => Some (tt, s)
  | LoadFaults => Some (0, s)
  | Publish smp => Some (tt, s)
  end.

Definition leader_arm : calib_arm :=
  [mk_joint 1 0 (-1773) 729 3452 false; mk_joint 2 0 (-1751) 822 3119 false;
   mk_joint 3 0 1288 824 3051 false; mk_joint 4 0 1954 837 3213 false;
   mk_joint 5 0 (-1703) 0 4095 false; mk_joint 6 0 (-1413) 2040 3286 true].

Definition demo_ctx : so101d_ctx := default_ctx leader_arm follower_arm.

Definition demo_trace (modes : list Z) (n : nat) : list (obs ctl_ev) :=
  play_trace script_handler demo_ctx n (mk_script 5000 modes).

Lemma demo_ctx_ok : ctx_ok demo_ctx.
Proof.
  unfold ctx_ok. cbn. unfold servo_joint.
  repeat split; try lia; repeat first [apply List.Forall_nil | apply List.Forall_cons]; cbn; lia.
Qed.

(** The assumption on results, decided. *)
Definition ctl_okb (o : obs ctl_ev) : bool :=
  match o with
  | Obs e r =>
      match e in ctl_ev R return R -> bool with
      | SyncRead a ids addr len => fun r =>
          negb (r.1 =? FTS_OK) ||
          ((length r.2 =? length ids * Z.to_nat len)%nat &&
           forallb (fun b => (0 <=? b) && (b <? 256)) r.2)
      | LoadModeReq => fun m => (0 <=? m) && (m <? 2 ^ 32)
      | _ => fun _ => true
      end r
  end.

Lemma ctl_okb_ok tr : forallb ctl_okb tr = true -> Forall ctl_ok tr.
Proof.
  intros H. apply List.Forall_forall. intros o Ho. rewrite forallb_forall in H. specialize (H o Ho).
  destruct o as [R e r]. destruct e; cbn in *; try done.
  - intros Hrc. rewrite Hrc in H. cbn in H. apply andb_true_iff in H as [Hl Hb]. split; [by apply Nat.eqb_eq|].
    apply List.Forall_forall. intros b Hin. rewrite forallb_forall in Hb. specialize (Hb b Hin).
    apply andb_true_iff in Hb as [?%Z.leb_le ?%Z.ltb_lt]. clia.
  - apply andb_true_iff in H as [?%Z.leb_le ?%Z.ltb_lt]. clia.
Qed.

(** ** Torque *)

(** C1: torque is never enabled blindly: whenever the control thread switches the
    follower's torque on, the last things it did were to read the follower's
    state successfully, to be asked for TELEOP or HOLD, and to write the positions
    just read as the goals. *)
Theorem torque_on_after_position c tr k l1 l2 :
  ctx_ok c -> ctl_reach c tr k -> Forall ctl_ok tr ->
  acts tr = l1 ++ torque_act c Follower true :: l2 ->
  exists l0 bf m, l1 = l0 ++ [AState FTS_OK bf; AMode m; goal_act c (positions bf)] /\
    enters_motion m = true.
Proof.
  intros Hc Hreach Hok E. eapply history_torque_on; [|exact E]. by apply reach_history.
Qed.

Definition demo_acts : list act := Eval vm_compute in acts (demo_trace [SO101_MODE_TELEOP] 1).

Lemma torque_on_after_position_witness :
  exists l0 bf m, take 5 demo_acts = l0 ++ [AState FTS_OK bf; AMode m; goal_act demo_ctx (positions bf)] /\
    enters_motion m = true.
Proof.
  destruct (play_runs script_handler demo_ctx 1 (mk_script 5000 [SO101_MODE_TELEOP])) as [k Hk]; [vm_compute; reflexivity|].
  apply (torque_on_after_position demo_ctx (demo_trace [SO101_MODE_TELEOP] 1) k (take 5 demo_acts)
           (drop 6 demo_acts)).
  - apply demo_ctx_ok.
  - exact Hk.
  - apply ctl_okb_ok. vm_compute. reflexivity.
  - vm_compute. reflexivity.
Defined.

(** C21: every published snapshot tells the truth about what was commanded: its
    torque flag is the last torque command sent to the follower, torque is only
    on in TELEOP or HOLD, and then its goals are the last goals sent. *)
Theorem snapshot_truthful c tr k l1 s l2 :
  ctx_ok c -> ctl_reach c tr k -> Forall ctl_ok tr ->
  acts tr = l1 ++ APublish s :: l2 ->
  s_torque_on s = commanded l1 false /\ 0 <= s_mode s <= 3 /\
  (s_torque_on s = true ->
     enters_motion (s_mode s) = true /\ goal_sent l1 None = Some (goal_bytes (s_follower_goal s))).
Proof.
  intros Hc Hreach Hok E. by eapply history_published; [|by apply reach_history|].
Qed.

Definition published_sample (x : option act) : so101_sample :=
  match x with Some (APublish s) => s | _ => sample_zero end.
Definition demo_sample : so101_sample := Eval vm_compute in published_sample (demo_acts !! 7%nat).

Lemma snapshot_truthful_witness :
  s_torque_on demo_sample = true /\ commanded (take 7 demo_acts) false = true.
Proof.
  destruct (play_runs script_handler demo_ctx 1 (mk_script 5000 [SO101_MODE_TELEOP])) as [k Hk];
    [vm_compute; reflexivity|].
  split; [reflexivity|].
  destruct (snapshot_truthful demo_ctx (demo_trace [SO101_MODE_TELEOP] 1) k (take 7 demo_acts)
           demo_sample []) as [H _].
  - apply demo_ctx_ok.
  - exact Hk.
  - apply ctl_okb_ok. vm_compute. reflexivity.
  - vm_compute. reflexivity.
  - rewrite <- H. reflexivity.
Defined.

(** C7: the goals move the way the header of control.c says.  Whenever goals are
    sent (torque being on) and then published, each joint's goal is the previously
    sent goal moved towards a target by at most [ramp_step] ticks while the joint is
    still in its soft start (which it is only while it is more than [ramp_done] ticks
    away) and at most [max_step] otherwise, never past the target; in TELEOP with a
    live leader the target is the calibrated image of the leader's position and
    lies inside the calibrated range of the follower's joint. *)
Theorem goals_rate_limited c tr k la ids data s lb :
  ctx_ok c -> ctl_reach c tr k -> Forall ctl_ok tr ->
  acts tr = la ++ AWrite Follower ids STS_GOAL_POSITION data :: APublish s :: lb ->
  ids = ids_f c /\ data = goal_bytes (s_follower_goal s) /\ commanded la false = true /\
  exists g0, positions_ok g0 /\ goal_sent la None = Some (goal_bytes g0) /\ goal_moved c s g0.
Proof.
  intros Hc Hreach Hok E. by eapply history_goal; [|by apply reach_history|].
Qed.

Lemma goals_rate_limited_witness :
  exists g0, goal_sent (take 6 demo_acts) None = Some (goal_bytes g0) /\ goal_moved demo_ctx demo_sample g0.
Proof.
  destruct (play_runs script_handler demo_ctx 1 (mk_script 5000 [SO101_MODE_TELEOP])) as [k Hk];
    [vm_compute; reflexivity|].
  destruct (goals_rate_limited demo_ctx (demo_trace [SO101_MODE_TELEOP] 1) k (take 6 demo_acts)
           (ids_f demo_ctx) (goal_bytes (s_follower_goal demo_sample)) demo_sample [])
    as (_ & _ & _ & g0 & _ & H1 & H2).
  - apply demo_ctx_ok.
  - exact Hk.
  - apply ctl_okb_ok. vm_compute. reflexivity.
  - vm_compute. reflexivity.
  - exists g0. by split.
Defined.

(** ** Obedience and progress *)

(** C14: from every reachable state the next cycle is free of undefined behaviour
    and of endless loops (whatever the clock, the buses and the other threads
    answer); it reads [mode_req] exactly once and publishes exactly one snapshot,
    with the cycle counter advanced by one; a request for IDLE or ESTOP (or an
    unknown one) is obeyed in that same cycle, with torque off and no goal sent;
    a request for TELEOP or HOLD that is not applied is one with torque off and no
    valid follower state. *)
Theorem cycle_defined_and_obedient c tr k :
  ctx_ok c -> ctl_reach c tr k -> Forall ctl_ok tr ->
  always ctl_ok (control_cycle c k) [] (fun tr' k' =>
    exists m s, requests (acts tr') = [m] /\ snapshots (acts tr') = [s] /\
      obeyed m s (acts tr') /\ s_cycle s = u64 (s_cycle (smp k) + 1) /\
      s_torque_on s = commanded (acts tr ++ acts tr') false /\ s_mode s = applied k').
Proof.
  intros Hc Hreach Hok. pose proof (reach_history _ _ _ Hc Hreach Hok) as Hh.
  pose proof (history_inv c Hc _ _ Hh) as Hinv.
  eapply always_mono; [|by apply control_cycle_spec]. intros t k' Hpost. cbn beta in Hpost.
  destruct (cycle_obeyed _ _ _ _ _ _ Hinv Hpost) as (m & s & H1 & H2 & H3 & H4 & _ & H6 & H7).
  exists m, s. split_and!; try done. rewrite H6.
  apply (inv_torque _ _ (history_inv c Hc _ _ (hist_cycle _ _ _ _ _ _ Hh Hpost))).
Qed.

Lemma cycle_defined_and_obedient_witness :
  exists k, ctl_reach demo_ctx (demo_trace [SO101_MODE_TELEOP] 1) k /\
    always ctl_ok (control_cycle demo_ctx k) [] (fun tr' k' =>
      exists m s, requests (acts tr') = [m] /\ snapshots (acts tr') = [s] /\
        obeyed m s (acts tr') /\ s_cycle s = u64 (s_cycle (smp k) + 1) /\
        s_torque_on s = commanded (acts (demo_trace [SO101_MODE_TELEOP] 1) ++ acts tr') false /\
        s_mode s = applied k').
Proof.
  destruct (play_runs script_handler demo_ctx 1 (mk_script 5000 [SO101_MODE_TELEOP])) as [k Hk];
    [vm_compute; reflexivity|].
  exists k. split; [exact Hk|].
  apply (cycle_defined_and_obedient demo_ctx (demo_trace [SO101_MODE_TELEOP] 1) k).
  - apply demo_ctx_ok.
  - exact Hk.
  - apply ctl_okb_ok. vm_compute. reflexivity.
Defined.

(** ** The time grid *)

(** The cycles completed. *)
Definition turns_of (tr : list (obs ctl_ev)) : Z := Z.of_nat (length (snapshots (acts tr))).

Lemma last_reading_start (t0 : Z) pre now : [t0] = pre ++ [now] -> now = t0.
Proof. destruct pre as [|? [|? pre]]; by intros [= ->]. Qed.

(** C31: the loop stays on its fixed time grid for ever: with [t0] the first reading
    of the clock, the next wake-up is at [t0 + n * period] where [n] counts one for
    the start, one per completed cycle and one per missed slot; [missed_slots] and
    [cycle] count them (modulo their width), and the next slot is never before the
    last reading of the clock. *)
Theorem time_grid c tr k :
  ctx_ok c -> ctl_reach c tr k -> Forall ctl_ok tr ->
  exists t0 rest missed, clocks tr = t0 :: rest /\ 0 <= missed /\
    next k = t0 + (1 + turns_of tr + missed) * period c /\
    s_missed_slots (smp k) = u32 missed /\ s_cycle (smp k) = u64 (turns_of tr) /\
    (forall pre now, clocks tr = pre ++ [now] -> now <= next k).
Proof.
  intros Hc Hreach. induction Hreach as [tr k Hrun|tr k tr' k' Hreach IH Hrun]; intros Hok.
  - cbn in Hrun. destruct Hrun as (r1 & ? & -> & r2 & ? & -> & t0 & ? & -> & -> & ->).
    exists t0, [], 0. cbn. destruct Hc as (Hp & _). split_and!; try done; [unfold turns_of; cbn; lia|].
    intros pre now ->%last_reading_start. lia.
  - apply Forall_app in Hok as [Hok1 Hok2]. inversion_clear Hok2 as [|? ? _ Hok3].
    destruct (IH Hok1) as (t0 & rest & missed & E1 & E2 & E3 & E4 & E5 & _).
    pose proof (cycle_run _ _ _ _ Hc Hrun Hok3) as Hpost.
    pose proof (history_inv c Hc _ _ (reach_history _ _ _ Hc Hreach Hok1)) as Hinv.
    destruct (cycle_obeyed _ _ _ _ _ _ Hinv Hpost) as (m & s & _ & Hs & _ & Hc1 & Hc2 & _).
    destruct (cycle_time _ _ _ _ _ Hpost) as (pre & now & mm & Hclk & Hm0 & Hnow & Hnext & _ & Hmiss).
    assert (Ht : turns_of (tr ++ Obs LoadRun true :: tr') = turns_of tr + 1).
    { unfold turns_of. rewrite acts_app. change (acts (Obs LoadRun true :: tr')) with (acts tr').
      rewrite snapshots_app, length_app, Hs. cbn. lia. }
    assert (Hck : clocks (tr ++ Obs LoadRun true :: tr') = clocks tr ++ clocks tr')
      by exact (clocks_app tr (Obs LoadRun true :: tr')).
    exists t0, (rest ++ clocks tr'), (missed + mm). rewrite Hck, Ht. split_and!.
    + by rewrite E1.
    + lia.
    + rewrite Hnext, E3. lia.
    + rewrite Hmiss, E4. destruct (Z.eqb_spec mm 0) as [->|]; [by rewrite Z.add_0_r|].
      unfold wrap_u. by rewrite Zplus_mod_idemp_l.
    + rewrite Hc2, Hc1, E5. unfold wrap_u. by rewrite Zplus_mod_idemp_l.
    + intros pre' now' E. rewrite Hclk, app_assoc in E. apply snoc_inj in E as [_ <-]. exact Hnow.
Qed.

Lemma time_grid_witness :
  exists k missed, 0 <= missed /\ next k = 5000 + (1 + 1 + missed) * 10000000.
Proof.
  destruct (play_runs script_handler demo_ctx 1 (mk_script 5000 [SO101_MODE_TELEOP])) as [k Hk];
    [vm_compute; reflexivity|].
  destruct (time_grid demo_ctx (demo_trace [SO101_MODE_TELEOP] 1) k) as (t0 & rest & missed & E & H0 & H1 & _).
  - apply demo_ctx_ok.
  - exact Hk.
  - apply ctl_okb_ok. vm_compute. reflexivity.
  - exists k, missed. split; [exact H0|]. revert H1.
    assert (hd_error (clocks (demo_trace [SO101_MODE_TELEOP] 1)) = Some 5000) as E'
      by (vm_compute; reflexivity).
    rewrite E in E'. injection E' as ->.
    assert (turns_of (demo_trace [SO101_MODE_TELEOP] 1) = 1) as -> by (vm_compute; reflexivity).
    intros H1. exact H1.
Defined.

(** ** Reconnection *)

Lemma history_reopen c l k :
  history c l k -> Z.of_nat (length (snapshots l)) + 51 < 2 ^ 64 -> ctx_ok c ->
  reopen_inv l k (Z.of_nat (length (snapshots l))) /\ reopen_spaced l.
Proof.
  intros Hh Hn Hc. induction Hh as [t0|l k l' clk k' Hh IH Hcycle].
  - split; [by split_and!|]. intros [|? [|? [|? l1]]] l2 E; discriminate E.
  - destruct (cycle_obeyed _ _ _ _ _ _ (history_inv c Hc _ _ Hh) Hcycle)
      as (m & s & _ & Hs & _).
    rewrite snapshots_app, length_app, Hs in *. cbn [length] in *.
    destruct IH as [I1 I2]; [lia|].
    replace (Z.of_nat (length (snapshots l) + 1)) with (Z.of_nat (length (snapshots l)) + 1) in * by lia.
    eapply cycle_reopen; try done. lia.
Qed.

(** The follower's port is re-opened only after at least 50 failed reads in a
    row, and two attempts are at least 50 cycles apart (for executions of fewer
    than 2^64 - 51 cycles). *)
Theorem reopen_is_rare c tr k l1 l2 :
  ctx_ok c -> ctl_reach c tr k -> Forall ctl_ok tr -> turns_of tr + 51 < 2 ^ 64 ->
  acts tr = l1 ++ AReopen Follower :: l2 ->
  REOPEN_AFTER <= fails l1 /\
  forall l', since_reopen l1 = Some l' -> REOPEN_AFTER <= states l'.
Proof.
  intros Hc Hreach Hok Hn E.
  destruct (history_reopen _ _ _ (reach_history _ _ _ Hc Hreach Hok) Hn Hc) as [_ Hs]. by eapply Hs.
Qed.

(** The servos of this world never answer. *)
Definition dead_handler (R : Type) (e : ctl_ev R) : M script R :=
  match e in ctl_ev R return M script R with
  | SyncRead _ _ _ _ => fun s => Some ((FTS_ERR_TIMEOUT, []), s)
  | e => script_handler _ e
  end.

Lemma reopen_is_rare_witness :
  exists l1 l2, acts (play_trace dead_handler demo_ctx 50 (mk_script 5000 [])) = l1 ++ AReopen Follower :: l2 /\
    REOPEN_AFTER <= fails l1.
Proof.
  destruct (play_runs dead_handler demo_ctx 50 (mk_script 5000 [])) as [k Hk]; [vm_compute; reflexivity|].
  set (tr := play_trace dead_handler demo_ctx 50 (mk_script 5000 [])) in *.
  assert (E : acts tr = take 152 (acts tr) ++ AReopen Follower :: drop 153 (acts tr))
    by (vm_compute; reflexivity).
  assert (Hok : forallb ctl_okb tr = true) by (vm_compute; reflexivity).
  assert (Hn : turns_of tr + 51 < 2 ^ 64) by (vm_compute; reflexivity).
  clearbody tr. exists (take 152 (acts tr)), (drop 153 (acts tr)). split; [exact E|].
  exact (proj1 (reopen_is_rare demo_ctx tr k _ _ demo_ctx_ok Hk (ctl_okb_ok _ Hok) Hn E)).
Defined.

(** ** Holding *)

(** [n] further turns of the loop. *)
Inductive turns (c : so101d_ctx) : nat -> ctl -> list (obs ctl_ev) -> ctl -> Prop :=
| turns_O k : turns c 0 k [] k
| turns_S n k t1 k1 t2 k2 :
    run (control_cycle c k) t1 k1 -> turns c n k1 t2 k2 ->
    turns c (S n) k (Obs LoadRun true :: t1 ++ t2) k2.

(** C32: HOLD converges: from any reachable state that holds with torque on, while
    the supervisor keeps asking for HOLD and the follower's port is not re-opened,
    the thread keeps holding the latched pose with torque on, and after [n] cycles
    each goal is within [gap - n * min(ramp_step, max_step)] of the pose, so it
    reaches it and stays there. *)
Theorem hold_converges c tr k n tr' k' :
  ctx_ok c -> ctl_reach c tr k -> Forall ctl_ok tr -> holding k ->
  turns c n k tr' k' -> Forall ctl_ok tr' ->
  Forall (fun m => m = SO101_MODE_HOLD) (requests (acts tr')) -> no_reopen (acts tr') ->
  holding k' /\ hold k' = hold k /\
  forall j, (j < SO101_NJ)%nat ->
    hold_gap k' j <= Z.max 0 (hold_gap k j - Z.of_nat n * Z.min (ramp_step c) (max_step c)).
Proof.
  intros Hc Hreach Hok Hhold Hturns. revert tr Hreach Hok Hhold.
  induction Hturns as [k|n k t1 k1 t2 k2 Hrun _ IH]; intros tr Hreach Hok Hhold Hok' Hreq Hno.
  { split; [done|]. split; [done|]. intros j Hj. unfold hold_gap. lia. }
  inversion_clear Hok' as [|? ? Hrun_ok Hok2]. apply Forall_app in Hok2 as [Hok1 Hok2].
  change (acts (Obs LoadRun true :: t1 ++ t2)) with (acts (t1 ++ t2)) in *.
  rewrite acts_app in *. rewrite requests_app in Hreq. apply Forall_app in Hreq as [Hreq1 Hreq2].
  assert (Hno12 : no_reopen (acts t1) /\ no_reopen (acts t2))
    by (unfold no_reopen in *; rewrite elem_of_app in Hno; tauto).
  pose proof (history_inv c Hc _ _ (reach_history _ _ _ Hc Hreach Hok)) as Hinv.
  pose proof (cycle_run _ _ _ _ Hc Hrun Hok1) as Hpost.
  destruct (cycle_obeyed _ _ _ _ _ _ Hinv Hpost) as (m & s & Hm & _).
  rewrite Hm in Hreq1. inversion_clear Hreq1 as [|? ? -> _].
  destruct (cycle_hold _ _ _ _ _ _ Hc Hinv Hpost Hhold Hm (proj1 Hno12)) as (H1 & H2 & H3).
  destruct (IH (tr ++ Obs LoadRun true :: t1)) as (I1 & I2 & I3); try done; try tauto.
  - by eapply ctl_turn.
  - apply Forall_app. split; [done|]. by constructor.
  - split; [done|]. split; [congruence|]. intros j Hj. specialize (H3 j Hj). specialize (I3 j Hj).
    destruct Hc as (_ & Hms & Hrs & _). lia.
Qed.

(** Playing [n] further turns. *)
Fixpoint play_on {S : Type} (h : forall R, ctl_ev R -> M S R) (c : so101d_ctx) (n : nat) (k : ctl) (s : S)
    : option (list (obs ctl_ev) * ctl * S) :=
  match n with
  | O => Some ([], k, s)
  | Datatypes.S n =>
      r1 ← interp_log h (control_cycle c k) s;
      r2 ← play_on h c n r1.1.2 r1.2;
      mret (Obs LoadRun true :: r1.1.1 ++ r2.1.1, r2.1.2, r2.2)
  end.

Lemma play_on_turns {S : Type} (h : forall R, ctl_ev R -> M S R) c n k s tr k' s' :
  play_on h c n k s = Some (tr, k', s') -> turns c n k tr k'.
Proof.
  revert k s tr. induction n as [|n IH]; intros k s tr E.
  - injection E as <- <- <-. constructor.
  - cbn [play_on] in E. apply bind_Some_inv in E as ([[t1 k1] s1] & E1 & E).
    apply bind_Some_inv in E as ([[t2 k2] s2] & E2 & E). injection E as <- <- <-.
    econstructor; [exact (interp_log_run _ _ _ _ _ _ E1)|by eapply IH].
Qed.

Lemma no_reopen_b l :
  forallb (fun x => match x with AReopen Follower => false | _ => true end) l = true -> no_reopen l.
Proof. rewrite forallb_forall. by intros Hl Hin%list_elem_of_In%Hl. Qed.

(** One turn into HOLD, then two more. *)
Definition hold_modes : list Z := [SO101_MODE_HOLD; SO101_MODE_HOLD; SO101_MODE_HOLD].
Definition hold_start : list (obs ctl_ev) * ctl * script :=
  default ([], mk_ctl sample_zero [] [] 0 false 0 0 0 0, mk_script 0 [])
    (play script_handler demo_ctx 1 (mk_script 5000 hold_modes)).
Definition hold_after : list (obs ctl_ev) * ctl * script :=
  default hold_start (play_on script_handler demo_ctx 2 hold_start.1.2 hold_start.2).

Lemma hold_converges_witness :
  holding hold_after.1.2 /\ hold hold_after.1.2 = hold hold_start.1.2.
Proof.
  assert (E1 : play script_handler demo_ctx 1 (mk_script 5000 hold_modes)
               = Some (hold_start.1.1, hold_start.1.2, hold_start.2)) by (vm_compute; reflexivity).
  assert (E2 : play_on script_handler demo_ctx 2 hold_start.1.2 hold_start.2
               = Some (hold_after.1.1, hold_after.1.2, hold_after.2)) by (vm_compute; reflexivity).
  destruct (hold_converges demo_ctx hold_start.1.1 hold_start.1.2 2 hold_after.1.1 hold_after.1.2)
    as (H1 & H2 & _).
  - apply demo_ctx_ok.
  - exact (play_reach _ _ _ _ _ _ _ E1).
  - apply ctl_okb_ok. vm_compute. reflexivity.
  - split; vm_compute; reflexivity.
  - exact (play_on_turns _ _ _ _ _ _ _ _ E2).
  - apply ctl_okb_ok. vm_compute. reflexivity.
  - assert (requests (acts hold_after.1.1) = [SO101_MODE_HOLD; SO101_MODE_HOLD]) as ->
      by (vm_compute; reflexivity).
    repeat constructor.
  - apply no_reopen_b. vm_compute. reflexivity.
  - split; [exact H1|exact H2].
Defined.

(** ** Shutdown *)

Lemma loop_stops fuel c k tr :
  run (control_loop fuel c k) tr tt ->
  exists tr0, acts tr = tr0 ++ [torque_act c Follower false].
Proof.
  revert k tr. induction fuel as [|fuel IH]; intros k tr Hrun; [done|].
  cbn -[control_cycle control_stop] in Hrun. destruct Hrun as (go & tr' & -> & Hrun).
  change (acts (Obs LoadRun go :: tr')) with (acts tr'). destruct go.
  - apply run_bind in Hrun as (tr1 & k1 & tr2 & -> & _ & Hrun).
    destruct (IH _ _ Hrun) as [tr0 E]. exists (acts tr1 ++ tr0). by rewrite acts_app, E, app_assoc.
  - cbn in Hrun. destruct Hrun as (r & ? & -> & -> & _). by exists [].
Qed.

(** C26: however it ran, the thread's last act is to switch the follower's torque
    off. *)
Theorem shutdown_leaves_limp fuel c tr :
  run (control_thread fuel c) tr tt ->
  exists l, acts tr = l ++ [torque_act c Follower false] /\ commanded (acts tr) false = false.
Proof.
  intros Hrun. apply run_bind in Hrun as (tr1 & k & tr2 & -> & _ & Hrun).
  destruct (loop_stops _ _ _ _ Hrun) as [tr0 E]. exists (acts tr1 ++ tr0).
  by rewrite acts_app, E, app_assoc, commanded_app.
Qed.

Lemma shutdown_leaves_limp_witness :
  exists tr, run (control_thread 1 demo_ctx) tr tt /\ commanded (acts tr) false = false.
Proof.
  eexists. match goal with |- ?P /\ _ => assert (H : P) end.
  - cbn. eexists FTS_OK, _. split; [reflexivity|]. eexists FTS_OK, _. split; [reflexivity|].
    eexists 5, _. split; [reflexivity|]. eexists false, _. split; [reflexivity|].
    eexists FTS_OK, _. split; [reflexivity|]. split; reflexivity.
  - split; [exact H|]. destruct (shutdown_leaves_limp 1 demo_ctx _ H) as (l & _ & Hl). exact Hl.
Defined.
