(* ===== verification/ControlTyped.v ===== *)
(** * The types of the control thread's data

    Every field of every snapshot the control thread publishes is a value of its C type:
    the hypothesis of the theorems on the layout of the segment. *)

From stdpp Require Import strings.
From S2P Require Import Prelude Protocol Os Float32 Calib Shm Ctx Prog Control ControlProps ControlThms Layout.

(** ** Results *)

(** Besides [ctl_ok]: the clock fits its [int64_t], the fault word is a [uint32_t]. *)
Definition result_typed (o : obs ctl_ev) : Prop :=
  ctl_ok o /\
  match o with
  | Obs e r =>
      match e in ctl_ev R return R -> Prop with
      | MonoNs => fun t => in_s 64 t
      | LoadFaults => fun f => in_u 32 f
      | _ => fun _ => True
      end r
  end.

Definition publishes_typed (o : obs ctl_ev) : Prop :=
  match o with Obs e _ => match e with Publish s => sample_typed s | _ => True end end.

(** ** Floats *)

Lemma rnd_rep_result p q : 0 < q -> rep (rnd p q).
Proof.
  intros Hq. rewrite rnd_eq by done. set (a := Z.abs p).
  assert (Hr : rep (rnd_abs a q)).
  { unfold rnd_abs. set (k := last_place (a / q)).
    assert (Ha : 0 <= a) by lia. assert (Hd : 0 <= a / q) by (by apply Z.div_pos).
    destruct (last_place_bound (a / q) Hd) as [Hk Hlt]. fold k in Hk, Hlt.
    destruct (rne_spec a (q * 2 ^ k)) as [[H1 H2] _]; [pose proof (Z.pow_pos_nonneg 2 k); nia|].
    set (n := rne a (q * 2 ^ k)) in *.
    assert (Hp : 0 < 2 ^ k) by (apply Z.pow_pos_nonneg; lia).
    assert (Hup : a < 2 ^ 24 * (q * 2 ^ k)).
    { apply div_lt_upper in Hlt; [|done]. rewrite Z.pow_add_r in Hlt by lia. nia. }
    assert (Hb : 0 < q * 2 ^ k) by (by apply Z.mul_pos_pos). set (b := q * 2 ^ k) in *. clearbody b.
    assert (Hn0 : 0 <= n) by nia.
    assert (Hn : n <= 2 ^ 24) by nia.
    destruct (Z.eq_dec n (2 ^ 24)) as [->|].
    - exists (2 ^ 23), (k + 1). split; [lia|]. split; [lia|]. rewrite Z.pow_add_r by lia. lia.
    - exists n, k. split_and!; [lia|done|done]. }
  destruct Hr as (m & k & Hm & Hk & ->). exists (Z.sgn p * m), k.
  split; [|split; [done|ring]]. rewrite Z.abs_mul.
  pose proof (Z.abs_sgn p). destruct (Z.sgn_spec p) as [[_ E]|[[_ E]|[_ E]]]; rewrite E; lia.
Qed.

Lemma rep_opp x : rep x -> rep (- x).
Proof. intros (m & k & Hm & Hk & ->). exists (- m), k. split; [lia|]. split; [done|ring]. Qed.

Lemma normalize_typed j raw n :
  servo_joint j -> calib_normalize j raw = Some n -> of_type F32 n.
Proof.
  intros Hj%servo_joint_ok H. split.
  - unfold calib_normalize in H. apply bind_Some_inv in H as (u & _ & H). injection H as <-.
    unfold f_sub, f_opp, f_mul.
    destruct (is_gripper j), (negb _);
      lazymatch goal with |- rep (- _) => apply rep_opp | _ => idtac end;
      apply rnd_rep_result; lazymatch goal with |- 0 < 1 => done | _ => apply ulp_pos end.
  - rewrite normalize_eq in H by done. injection H as <-.
    pose proof (norm_of_range j _ (fraction_range j raw Hj)) as Hn.
    assert (Hu : 0 < ulp_one) by apply ulp_pos.
    assert (Hbig : 100 * ulp_one < 2 ^ 277) by (vm_compute; reflexivity).
    assert (Hlow : -100 <= norm_low j) by (unfold norm_low; destruct (is_gripper j); lia).
    set (u := ulp_one) in *. clearbody u. set (top := 2 ^ 277) in *. clearbody top.
    set (x := norm_of j _) in *. clearbody x. nia.
Qed.

(** ** Snapshots *)

Create HintDb cdata.
#[export] Hint Resolve wrap_u_range wrap_s_range : cdata.
#[export] Hint Extern 1 (_ <= _) => lia : cdata.

(** A record with the fields of another one, but for a few. *)
Ltac retype := intros; match goal with H : sample_types _ |- _ => destruct H end; constructor; cbn [
  smp_wake smp_leader smp_follower smp_publish smp_overrun
  s_cycle s_t_mono_ns s_wake_lat_ns s_exec_ns s_bus_leader_ns s_bus_follower_ns s_faults s_mode
  s_leader_pos s_follower_goal s_follower_pos s_follower_vel s_follower_load s_follower_volt
  s_follower_temp s_leader_norm s_follower_norm s_overruns s_missed_slots s_leader_errs s_follower_errs
  s_max_wake_lat_ns s_max_exec_ns s_leader_streak s_follower_streak s_ramping]; auto with cdata.

Lemma wake_typed wake lat s : in_s 64 wake -> sample_types s -> sample_types (smp_wake wake lat s).
Proof. retype. Qed.

Lemma leader_typed ok pos norm errs streak s :
  ints I16 pos -> ints F32 norm -> in_u 32 errs -> in_u 16 streak ->
  sample_types s -> sample_types (smp_leader ok pos norm errs streak s).
Proof. retype. Qed.

Lemma follower_typed ok pos vel load volt temp norm errs streak s :
  ints I16 pos -> ints I16 vel -> ints I16 load -> ints U8 volt -> ints U8 temp -> ints F32 norm ->
  in_u 32 errs -> in_u 16 streak ->
  sample_types s -> sample_types (smp_follower ok pos vel load volt temp norm errs streak s).
Proof. retype. Qed.

Lemma in_s_max w a b : in_s w a -> in_s w b -> in_s w (Z.max a b).
Proof. unfold in_s. lia. Qed.

Lemma publish_typed fgoal mode on ramping faults bl bf exec s :
  ints I16 fgoal -> in_u 32 faults ->
  sample_types s -> sample_types (smp_publish fgoal mode on ramping faults bl bf exec s).
Proof. retype; apply in_s_max; auto with cdata. Qed.

Lemma overrun_typed missed s : in_u 32 missed -> sample_types s -> sample_types (smp_overrun missed s).
Proof. retype. Qed.

(** ** The parts of a cycle

    [typed_prog p A]: whatever results of their types the operations of [p] return,
    [p] is defined, what it publishes is typed, and its result is in [A]. *)

Definition typed_prog {B} (p : prog ctl_ev B) (A : B -> Prop) : Prop :=
  always result_typed p [] (fun t b => Forall publishes_typed t /\ A b).

Lemma typed_bind {B C} (p : prog ctl_ev B) (f : B -> prog ctl_ev C) A A' :
  typed_prog p A -> (forall b, A b -> typed_prog (f b) A') -> typed_prog (p ≫= f) A'.
Proof.
  intros Hp Hf. apply always_bind. eapply always_mono; [|exact Hp]. intros t b [Ht Hb].
  apply always_nil. eapply always_mono; [|by apply Hf]. intros t' c [Ht' Hc].
  split; [by apply Forall_app|done].
Qed.

Lemma typed_do {R C} (e : ctl_ev R) (f : R -> prog ctl_ev C) A :
  (forall r, result_typed (Obs e r) -> publishes_typed (Obs e r) /\ typed_prog (f r) A) ->
  typed_prog (do e ≫= f) A.
Proof.
  intros H r Hr. destruct (H r Hr) as [H1 H2]. apply always_nil.
  eapply always_mono; [|exact H2]. intros t c [Ht Hc]. split; [by constructor|done].
Qed.

Lemma typed_ret {B} (b : B) (A : B -> Prop) : A b -> typed_prog (mret b) A.
Proof. intros H. by split; [constructor|]. Qed.

Definition ctl_typed (k : ctl) : Prop := sample_types (smp k) /\ ints I16 (goal k).

(** A reply of the right shape, read as integers. *)
Lemma fields_ints t f : (forall j, (j < SO101_NJ)%nat -> of_type t (f j)) -> ints t (fields f).
Proof.
  intros H. split; [done|]. apply List.Forall_forall. intros x (j & <- & Hj)%in_map_iff.
  apply H. apply in_seq in Hj. lia.
Qed.

Lemma normalize_all_ints cal pos ns :
  Forall servo_joint cal -> length cal = SO101_NJ -> length pos = SO101_NJ ->
  normalize_all cal pos = Some ns -> ints F32 ns.
Proof.
  intros Hc Hl Hp H.
  assert (G : length ns = Nat.min (length cal) (length pos) /\ Forall (of_type F32) ns).
  { clear Hl Hp. revert pos ns H. induction Hc as [|j cal Hj _ IH]; intros pos ns H.
    - injection H as <-. by split; [|constructor].
    - destruct pos as [|p pos]; [injection H as <-; by split; [|constructor]|].
      cbn in H. apply bind_Some_inv in H as (n & Hn & H). apply bind_Some_inv in H as (ns' & Hns & H).
      injection H as <-. destruct (IH _ _ Hns) as [H1 H2]. cbn. split; [by rewrite H1|].
      constructor; [by eapply normalize_typed|done]. }
  destruct G as [G1 G2]. split; [lia|done].
Qed.

Lemma bump_typed ok streak : in_u 16 (bump_streak ok streak).
Proof. unfold bump_streak. destruct ok; [by vm_compute|]. apply wrap_u_range. lia. Qed.

#[export] Hint Resolve bump_typed fields_ints : cdata.

Lemma read_leader_typed c k :
  ctx_ok c -> ctl_typed k -> typed_prog (read_leader c k) (fun r => ctl_typed r.1.1).
Proof.
  intros (_ & _ & _ & Hll & _ & Hcal & _) [Hs Hg]. unfold read_leader.
  apply typed_do. intros t0 _. split; [done|].
  apply typed_do. intros [rc bl] _. split; [done|].
  apply typed_do. intros t1 _. split; [done|]. cbn [fst snd]. cbv zeta.
  apply (typed_bind _ _ ctl_typed).
  - destruct (rc =? FTS_OK).
    + destruct (normalize_all_defined (cal_leader c)
        (fields (fun j => i16 (fts_decode_sm (le16 bl (2 * j)) 15))) Hcal) as [ns Hns].
      rewrite Hns. cbn [defined]. apply (typed_ret (B := ctl)). split; [|done].
      apply leader_typed; auto with cdata.
      * apply fields_ints. intros. apply wrap_s_range. lia.
      * eapply normalize_all_ints; [exact Hcal|exact Hll| |exact Hns]; reflexivity.
      * apply Hs.
    + apply typed_ret. split; [|done]. destruct Hs. apply leader_typed; auto with cdata. by constructor.
  - intros k' Hk. destruct (_ && _); [|by apply typed_ret].
    apply typed_do. intros [] _. split; [done|].
    apply typed_do. intros rc' _. split; [done|]. apply typed_ret. exact Hk.
Qed.

(** A byte of a reply of [n] records of [w] bytes. *)
Lemma reply_byte ids len bf i : ctl_ok (Obs (SyncRead Follower ids STS_PRESENT_POSITION len) (FTS_OK, bf)) -> in_u 8 (at_ bf i).
Proof. intros H. destruct (H eq_refl) as [_ Hb]. by apply at_byte. Qed.

Lemma read_follower_typed c k :
  ctx_ok c -> ctl_typed k -> typed_prog (read_follower c k) ctl_typed.
Proof.
  intros (_ & _ & _ & _ & Hlf & _ & Hcal) [Hs Hg]. unfold read_follower.
  apply typed_do. intros [rc bf] [Hr _]. split; [done|]. cbn [fst snd]. cbv zeta.
  apply (typed_bind _ _ ctl_typed).
  - destruct (Z.eqb_spec rc FTS_OK) as [->|].
    + destruct (normalize_all_defined (cal_follower c) (positions bf) Hcal) as [ns Hns].
      unfold positions in Hns. rewrite Hns. cbn [defined]. apply (typed_ret (B := ctl)). split; [|done].
      apply follower_typed; auto with cdata; try (apply fields_ints; intros; apply wrap_s_range; lia).
      * apply fields_ints. intros. by eapply reply_byte.
      * apply fields_ints. intros. by eapply reply_byte.
      * eapply normalize_all_ints; [exact Hcal|exact Hlf| |exact Hns]; reflexivity.
      * apply Hs.
    + apply typed_ret. split; [|done]. destruct Hs. apply follower_typed; auto with cdata. by constructor.
  - intros k' Hk. destruct (_ && _); [|by apply typed_ret].
    apply typed_do. intros [] _. split; [done|]. cbv zeta.
    apply typed_do. intros rc' _. split; [done|]. apply typed_ret. exact Hk.
Qed.

Lemma apply_mode_typed c k : ctl_typed k -> typed_prog (apply_mode c k) ctl_typed.
Proof.
  intros Hk. assert (Hp : ints I16 (s_follower_pos (smp k))) by apply Hk. destruct Hk as [Hs Hg].
  assert (Hcond : forall (b : bool) k1 k2, ctl_typed k1 -> ctl_typed k2 -> ctl_typed (if b then k1 else k2))
    by (by intros []).
  unfold apply_mode. apply typed_do. intros m _. split; [done|]. cbv zeta.
  destruct (_ =? applied k); [by apply typed_ret|].
  apply (typed_bind _ _ (fun kr => ctl_typed kr.1)).
  - destruct (enters_motion _).
    + apply (typed_bind _ _ (fun kr => ctl_typed kr.1)).
      * destruct (torque k); [by apply typed_ret|]. destruct (negb _).
        { apply typed_do. intros ? _. split; [done|]. by apply typed_ret. }
        cbv zeta. do 3 (apply typed_do; intros ? _; split; [done|]). apply typed_ret. by split.
      * intros [k1 req] H1. cbv zeta. apply typed_ret. cbn [fst snd] in *. apply Hcond; exact H1.
    + destruct (torque k); [|by apply typed_ret].
      apply typed_do. intros ? _. split; [done|]. by apply typed_ret.
  - intros [k1 req] H1. cbv zeta. apply typed_ret. cbn [fst snd] in *.
    change (ctl_typed (if negb (req =? applied k1) && torque k1
             then set_ramp (Z.shiftl 1 (Z.of_nat SO101_NJ) - 1) k1 else k1)).
    apply Hcond; exact H1.
Qed.

Lemma step_joints_ints c k js mask g m :
  step_joints c k js mask = Some (g, m) -> length g = length js /\ Forall (of_type I16) g.
Proof.
  revert mask g m. induction js as [|j js IH]; intros mask g m E.
  - injection E as <- <-. by split; [|constructor].
  - cbn [step_joints] in E. apply bind_Some_inv in E as (t & _ & E).
    apply bind_Some_inv in E as ([gs m'] & Es & E). injection E as <- <-. destruct (IH _ _ _ Es) as [I1 I2].
    cbn [length fst snd]. split; [by rewrite I1|]. constructor; [|done]. apply wrap_s_range. lia.
Qed.

Lemma track_goal_typed c k : ctx_ok c -> ctl_typed k -> typed_prog (track_goal c k) ctl_typed.
Proof.
  intros Hc Hk. unfold track_goal. destruct (torque k).
  - destruct (step_joints_defined c k _ (ramp_mask k) Hc joints_below) as [[g m] E].
    rewrite E. cbn [defined]. destruct (step_joints_ints _ _ _ _ _ _ E) as [G1 G2].
    change (typed_prog (do (SyncWrite Follower (ids_f c) STS_GOAL_POSITION 2 (goal_bytes g)) ≫=
      fun _ => mret (set_ramp m (set_goal g k))) ctl_typed).
    apply typed_do. intros ? _. split; [done|]. apply typed_ret. split; [apply Hk|]. by split.
  - destruct (s_follower_ok (smp k)); [|by apply typed_ret].
    apply typed_ret. split; apply Hk.
Qed.

Lemma publish_part_typed k wake t0 t1 t2 :
  ctl_typed k -> typed_prog (publish k wake t0 t1 t2) ctl_typed.
Proof.
  intros [Hs Hg]. unfold publish. cbv zeta.
  set (k0 := if torque k then k else set_ramp 0 k).
  assert (H0 : sample_types (smp k0) /\ ints I16 (goal k0)) by (unfold k0; by destruct (torque k)).
  clearbody k0. destruct H0 as [Hs0 Hg0].
  apply typed_do. intros f [_ Hf]. split; [done|].
  apply typed_do. intros now _. split; [done|].
  match goal with |- context [Publish (smp ?k1)] => set (k' := k1) end.
  assert (Hk' : sample_types (smp k') /\ ints I16 (goal k'))
    by (split; [apply publish_typed; [exact Hg0|exact Hf|exact Hs0]|exact Hg0]).
  clearbody k'. destruct Hk' as [Hs' Hg'].
  apply typed_do. intros ? _. split; [by apply sample_types_typed|]. by apply typed_ret.
Qed.

Lemma next_slot_typed c k : ctx_ok c -> ctl_typed k -> typed_prog (next_slot c k) ctl_typed.
Proof.
  intros (Hp & _) [Hs Hg]. unfold next_slot. cbv zeta.
  apply typed_do. intros now _. split; [done|].
  set (k0 := set_next (next k + period c) k).
  destruct (Z.ltb_spec (next k0) now) as [Hlt|_]; [|by apply typed_ret].
  destruct (skip_slots_spec (S (Z.to_nat (now - next k0))) (period c) now (next k0)
              (s_missed_slots (smp k0)) Hp Hlt) as (m & _ & E & _); [lia|].
  rewrite E. cbn [defined]. apply (typed_ret (B := ctl)). split; [|exact Hg].
  apply overrun_typed; [|exact Hs]. apply wrap_u_range. lia.
Qed.

Lemma control_cycle_typed c k : ctx_ok c -> ctl_typed k -> typed_prog (control_cycle c k) ctl_typed.
Proof.
  intros Hc Hk. unfold control_cycle.
  apply typed_do. intros ? _. split; [done|].
  apply typed_do. intros wake [_ Hw]. split; [done|]. cbv zeta.
  apply (typed_bind _ _ (fun r => ctl_typed r.1.1)).
  { apply read_leader_typed; [done|]. split; [|apply Hk]. apply wake_typed; [exact Hw|apply Hk]. }
  intros [[k1 t0] t1] H1. cbn [fst snd] in *.
  apply (typed_bind _ _ ctl_typed); [by apply read_follower_typed|]. intros k2 H2.
  apply (typed_bind _ _ ctl_typed); [by apply apply_mode_typed|]. intros k3 H3.
  apply (typed_bind _ _ ctl_typed); [by apply track_goal_typed|]. intros k4 H4.
  apply typed_do. intros t2 _. split; [done|].
  apply (typed_bind _ _ ctl_typed); [by apply publish_part_typed|]. intros k5 H5.
  by apply next_slot_typed.
Qed.

Lemma control_start_typed c : typed_prog (control_start c) ctl_typed.
Proof.
  unfold control_start. do 3 (apply typed_do; intros ? _; split; [done|]).
  apply typed_ret. split; [apply sample_zero_types|apply zero_ints].
Qed.

Lemma reach_published c tr k :
  ctx_ok c -> ctl_reach c tr k -> Forall result_typed tr -> Forall publishes_typed tr /\ ctl_typed k.
Proof.
  intros Hc. induction 1 as [tr k Hrun|tr k tr' k' _ IH Hrun]; intros Hr.
  - apply (always_run result_typed _ _ (control_start_typed c) tr k Hrun Hr).
  - apply Forall_app in Hr as [Hr1 Hr2]. inversion_clear Hr2 as [|? ? _ Hr3].
    destruct (IH Hr1) as [I1 I2].
    destruct (always_run result_typed _ _ (control_cycle_typed c k Hc I2) tr' k' Hrun Hr3) as [J1 J2].
    split; [|done]. apply Forall_app. split; [done|]. by constructor.
Qed.

(** In every execution of the control thread (the clock fitting its [int64_t]) every
    field of every snapshot published is a value of its C type -- positions and loads of
    16 bits, normalised positions binary32 values, counters of their width -- as the
    theorems on the layout of the segment ask. *)
Theorem snapshot_typed c tr k l1 s l2 :
  ctx_ok c -> ctl_reach c tr k -> Forall result_typed tr -> acts tr = l1 ++ APublish s :: l2 -> sample_typed s.
Proof.
  intros Hc Hreach Hr E. destruct (reach_published c tr k Hc Hreach Hr) as [Hp _].
  assert (Hin : APublish s ∈ acts tr) by (rewrite E; apply elem_of_app; right; left).
  apply list_elem_of_omap in Hin as ([R e r] & Hin & Ha).
  rewrite List.Forall_forall in Hp. apply list_elem_of_In in Hin. specialize (Hp _ Hin).
  destruct e; try done; [by destruct a|]. injection Ha as <-. exact Hp.
Qed.
