(* ===== verification/ControlBus.v ===== *)
(** * The control thread on its two buses

    The events of [Control] interpreted: a [SyncRead] is [fts_sync_read] of [Bus] on the
    bus of that arm, a [SyncWrite] is [fts_sync_write], the clock and the sleep are system
    calls, and [ReopenBus] is [reopen_bus] of daemon/src/control.c.  What the supervisor
    does to the segment is the rig's input: the mode requests and fault words the thread
    is going to load. *)

From stdpp Require Import strings.
From S2P Require Import Prelude Os Protocol Bus Sim BusProps BusFrames Calib Shm Ctx Prog Control ControlProps ControlThms.

(** ** Definitions *)

Record rig (W : Type) := mk_rig {
  r_leader : fts_bus; r_follower : fts_bus; r_world : W;
  r_modes : list Z; r_faults : list Z
}.
Arguments mk_rig {W}.
Arguments r_leader {W}.
Arguments r_follower {W}.
Arguments r_world {W}.
Arguments r_modes {W}.
Arguments r_faults {W}.

Section Rig.
Context {W : Type} {os : OS W} {laws : OSLaws W} {fds : OSFds W} {sleep : OSSleep W}.

(** [mono_ns] *)
Definition mono_ns (w : W) : Z * W :=
  let r := os_clock w in (tv_sec r.1 * NSEC_PER_SEC + tv_nsec r.1, r.2).

(** [while (clock_nanosleep(...) == EINTR);] *)
Fixpoint sleep_until (fuel : nat) (ts : timespec) : M W unit :=
  match fuel with
  | O => out_of_fuel
  | S fuel =>
      interrupted ← lift (os_nanosleep ts);
      if interrupted : bool then sleep_until fuel ts else mret tt
  end.

(** [reopen_bus] *)
Definition reopen_bus (path : string) : M (fts_bus * W) unit :=
  bus ← get_bus;
  let timeout := timeout_ms bus in
  let echo := echo bus in
  fts_close;;
  _ ← fts_open path 1000000;
  upd_bus (set_timeout timeout);;
  upd_bus (set_echo echo).

Definition bus_of (a : arm) (r : rig W) : fts_bus :=
  match a with Leader => r_leader r | Follower => r_follower r end.
Definition put_bus (a : arm) (s : fts_bus * W) (r : rig W) : rig W :=
  match a with
  | Leader => mk_rig s.1 (r_follower r) s.2 (r_modes r) (r_faults r)
  | Follower => mk_rig (r_leader r) s.1 s.2 (r_modes r) (r_faults r)
  end.

(** A call on the bus of an arm; a call on the world. *)
Definition on_bus {A} (a : arm) (m : M (fts_bus * W) A) : M (rig W) A := fun r =>
  match m (bus_of a r, r_world r) with
  | Some (x, s) => Some (x, put_bus a s r)
  | None => None
  end.
Definition on_world {A} (m : M W A) : M (rig W) A := fun r =>
  match m (r_world r) with
  | Some (x, w) => Some (x, mk_rig (r_leader r) (r_follower r) w (r_modes r) (r_faults r))
  | None => None
  end.

(** Every operation of the thread.  A successful read fills the whole buffer, so its
    contents before do not matter. *)
Definition bus_handler (fuel : nat) (R : Type) (e : ctl_ev R) : M (rig W) R :=
  match e in ctl_ev R return M (rig W) R with
  | LoadRun => mret true
  | MonoNs => on_world (lift mono_ns)
  | SleepUntil ts => on_world (sleep_until fuel ts)
  | SyncRead a ids addr len =>
      on_bus a ('(rc, out) ← fts_sync_read fuel ids addr len (Some (replicate (length ids * Z.to_nat len) 0));
                mret (rc, default [] out))
  | SyncWrite a ids addr len data => on_bus a (fts_sync_write fuel ids addr len (Some data))
  | ReopenBus a path => on_bus a (reopen_bus path)
  | LoadModeReq => fun r =>
      Some (hd 0 (r_modes r), mk_rig (r_leader r) (r_follower r) (r_world r) (tl (r_modes r)) (r_faults r))
  | LoadFaults => fun r =>
      Some (hd 0 (r_faults r), mk_rig (r_leader r) (r_follower r) (r_world r) (r_modes r) (tl (r_faults r)))
  | FaultsOr _ => mret tt
  | FaultsAnd _ => mret tt
  | Publish _ => mret tt
  end.

(** ** Descriptors *)

Definition held_fd (b : fts_bus) : list Z := if 0 <=? fd b then [fd b] else [].

(** The table holds what the bus holds and the rest, each once. *)
Definition table (b : fts_bus) (rest : list Z) (w : W) : Prop :=
  base.NoDup (os_fds w) /\ os_fds w ≡ₚ held_fd b ++ rest.

Lemma filter_ne_id (f : Z) (l : list Z) : f ∉ l -> filter (fun x => x <> f) l = l.
Proof.
  induction l as [|x l IH]; [done|]. intros [? ?]%not_elem_of_cons.
  rewrite filter_cons_True by done. by rewrite IH.
Qed.

Lemma close_table b rest w s :
  table b rest w -> fts_close (b, w) = Some (tt, s) -> s.1 = set_fd (-1) b /\ table (set_fd (-1) b) rest s.2.
Proof.
  unfold fts_close, table, held_fd. intros [Hnd Hp] Hrun. mrun_in Hrun.
  change (fd (set_fd (-1) b)) with (-1). cbn [Z.leb].
  destruct (0 <=? fd b); mrun_in Hrun; injection Hrun as <-; (split; [done|]); cbn [fst snd]; [|done].
  rewrite close_fds. rewrite Hp in Hnd |- *. cbn [app] in *.
  apply list_relations.list.NoDup_cons in Hnd as [Hin Hnd]. rewrite filter_cons_False by (intros H; by apply H).
  by rewrite filter_ne_id.
Qed.

Lemma open_fresh path baud s rc s' :
  fts_open path baud s = Some (rc, s') -> rxbuf s'.1 = [].
Proof.
  destruct s as [b w]. unfold fts_open. intros Hrun. mrun_in Hrun.
  destruct (_ =? 0); [mrun_in Hrun; by injection Hrun as <- <-|]. mrun_in Hrun.
  destruct (os_open path w) as [[f|] w1]; cbn [fst snd] in Hrun; [|by injection Hrun as <- <-].
  mrun_in Hrun. destruct (os_tcgetattr _ _) as [[tio|] w2]; cbn [fst snd] in Hrun; mrun_in Hrun;
    [|by injection Hrun as <- <-].
  destruct (os_tcsetattr _ _ _) as [[] w3]; cbn [fst snd negb] in Hrun; mrun_in Hrun; by injection Hrun as <- <-.
Qed.

(** Re-opening a bus in any state gives up its descriptor, keeps its settings, and
    leaves it either on a fresh descriptor or on none. *)
Lemma reopen_bus_spec path b rest w :
  table b rest w ->
  exists b' w', reopen_bus path (b, w) = Some (tt, (b', w')) /\ bus_ok b' /\
    timeout_ms b' = timeout_ms b /\ echo b' = echo b /\ table b' rest w' /\
    (fd b' = -1 \/ (0 <= fd b' /\ fd b' ∉ rest)).
Proof.
  intros Ht. unfold reopen_bus. mrun.
  destruct (fts_close (b, w)) as [[[] [b1 w1]]|] eqn:Ec.
  2: { exfalso. revert Ec. unfold fts_close. mrun. by destruct (0 <=? fd b). }
  rewrite (bind_run _ _ _ _ _ Ec). destruct (close_table _ _ _ _ Ht Ec) as [E1 [Hnd Hp]]. cbn [fst snd] in *. subst b1.
  destruct (open_close_descriptors path 1000000 (set_fd (-1) b) w1) as (rc & [b2 w2] & _ & Eo & Hok & Hfail & _).
  rewrite (bind_run _ _ _ _ _ Eo). mrun. do 2 eexists. split; [done|].
  pose proof (open_fresh _ _ _ _ _ Eo) as Hrx. cbn [fst snd] in *.
  split; [unfold bus_ok, rxlen; cbn; rewrite Hrx; split; [cbn; lia|constructor]|].
  split; [done|]. split; [done|]. change (held_fd (set_fd (-1) b)) with (@nil Z) in Hp. cbn [app] in Hp.
  unfold table, held_fd. cbn [fd set_echo set_timeout].
  destruct (Z.eq_dec rc FTS_OK) as [E|E].
  - destruct (Hok E) as (Hf & Hnin & H0 & _).
    rewrite (proj2 (Z.leb_le 0 (fd b2))) by done. rewrite Hf. split.
    + split; [by constructor|]. by rewrite Hp.
    + right. split; [done|]. by rewrite <- Hp.
  - destruct (Hfail E) as [Hf ->]. rewrite Hf. split; [done|]. by left.
Qed.

(** ** The invariant *)

Definition buses_held (r : rig W) : list Z := held_fd (r_leader r) ++ held_fd (r_follower r).

Record rig_ok (fuel : nat) (base : list Z) (r : rig W) : Prop := mk_rig_ok {
  rig_buses : forall a, bus_ok (bus_of a r) /\ echo (bus_of a r) = false /\
    (rx_fuel (timeout_ms (bus_of a r)) <= fuel)%nat;
  rig_table : base.NoDup (os_fds (r_world r)) /\ os_fds (r_world r) ≡ₚ buses_held r ++ base;
  rig_modes : Forall (in_u 32) (r_modes r)
}.

(** The rest of the table, seen from one bus. *)
Definition others (a : arm) (base : list Z) (r : rig W) : list Z :=
  held_fd (bus_of (match a with Leader => Follower | Follower => Leader end) r) ++ base.

Lemma table_of fuel base a r : rig_ok fuel base r -> table (bus_of a r) (others a base r) (r_world r).
Proof.
  intros [_ [Hnd Hp] _]. split; [done|]. rewrite Hp. unfold buses_held, others. destruct a; cbn [bus_of].
  - by rewrite app_assoc.
  - rewrite !app_assoc. f_equiv. apply Permutation_app_comm.
Qed.

Lemma put_bus_ok fuel base a b w r :
  rig_ok fuel base r -> bus_ok b -> echo b = echo (bus_of a r) -> timeout_ms b = timeout_ms (bus_of a r) ->
  table b (others a base r) w -> rig_ok fuel base (put_bus a (b, w) r).
Proof.
  intros [Hb _ Hm] Hok He Ht [Hnd Hp]. split; [|split|by destruct a].
  - intros a'. destruct (Hb a') as (H1 & H2 & H3), (Hb a) as (_ & G2 & G3).
    destruct a, a'; cbn in *; split_and!; try done; congruence.
  - by destruct a.
  - assert (Ew : r_world (put_bus a (b, w) r) = w) by by destruct a. rewrite Ew, Hp. unfold others, buses_held. destruct a; cbn; [by rewrite app_assoc|].
    rewrite !app_assoc. f_equiv. apply Permutation_app_comm.
Qed.

(** ** Every operation is answered *)

Section Handler.
Context {stream : OSStream W} (fuel : nat) (base : list Z).
Context (Hintr : forall w : W, (256 + os_intr w < fuel)%nat).

(** A transaction on one bus: it returns, keeps the settings and the descriptors. *)
Lemma on_bus_ok {A} a (m : M (fts_bus * W) A) (P : A -> Prop) r :
  rig_ok fuel base r -> fds_kept m ->
  (exists x s', m (bus_of a r, r_world r) = Some (x, s') /\
     bus_ok s'.1 /\ same_settings (bus_of a r) s'.1 /\ P x) ->
  exists x r', on_bus a m r = Some (x, r') /\ P x /\ rig_ok fuel base r'.
Proof.
  intros Hr Hk (x & [b w] & E & Hb & (Hf & Ht & He) & HP). unfold on_bus. rewrite E.
  cbn [fst snd] in *. exists x, (put_bus a (b, w) r). split; [done|]. split; [done|].
  destruct (table_of _ _ a _ Hr) as [Hnd Hp]. pose proof (Hk _ _ _ E) as Hw. cbn [fst snd] in Hw.
  apply put_bus_ok; [done..|]. unfold table, held_fd. by rewrite Hw, Hf.
Qed.

Lemma on_world_ok {A} (m : M W A) r :
  rig_ok fuel base r ->
  (exists x w', m (r_world r) = Some (x, w') /\ os_fds w' = os_fds (r_world r)) ->
  exists x r', on_world m r = Some (x, r') /\ rig_ok fuel base r'.
Proof.
  intros [Hb Ht Hm] (x & w' & E & Hw). unfold on_world. rewrite E. do 2 eexists. split; [done|].
  split; [by intros []; apply (Hb Leader) || apply (Hb Follower)|cbn; by rewrite Hw|done].
Qed.

Lemma sleep_until_total n ts w :
  (os_intr w < n)%nat -> exists w', sleep_until n ts w = Some (tt, w') /\ os_fds w' = os_fds w.
Proof.
  revert w. induction n as [|n IH]; intros w Hn; [lia|]. cbn [sleep_until].
  unfold mbind, M_bind, lift. pose proof (nanosleep_intr ts w) as Hi. pose proof (nanosleep_fds ts w) as Hw.
  destruct (os_nanosleep ts w) as [[] w1]; cbn [fst snd] in *; [|by exists w1].
  destruct (IH w1) as (w' & E & Hw'); [specialize (Hi eq_refl); lia|]. exists w'. by rewrite E, Hw', Hw.
Qed.

Lemma bus_handler_ok R (e : ctl_ev R) r :
  rig_ok fuel base r ->
  exists x r', bus_handler fuel R e r = Some (x, r') /\ ctl_ok (Obs e x) /\ rig_ok fuel base r'.
Proof.
  intros Hr. pose proof Hr as [Hb Ht Hm].
  destruct e as [| |ts|a ids addr len|a ids addr len data|a path| |bits|bits| |s];
    cbn [bus_handler ctl_ok]; try (by do 2 eexists).
  - destruct (on_world_ok (lift mono_ns) r Hr) as (x & r' & E & Hr').
    { exists (mono_ns (r_world r)).1, (mono_ns (r_world r)).2. split; [done|apply clock_fds]. }
    by exists x, r'.
  - destruct (on_world_ok (sleep_until fuel ts) r Hr) as (x & r' & E & Hr').
    { destruct (sleep_until_total fuel ts (r_world r)) as (w' & E & Hw); [pose proof (Hintr (r_world r)); lia|].
      by exists tt, w'. }
    by exists x, r'.
  - apply on_bus_ok; [done| |].
    { apply kept_bind; [apply sync_read_fds|]. intros [rc out]. apply kept_ret. }
    destruct (Hb a) as (H1 & H2 & H3).
    destruct (sync_read_total fuel ids addr len (replicate (length ids * Z.to_nat len) 0)
      (bus_of a r, r_world r)) as (rc & out & s' & E & Hok & Hs & Hl & Hby);
      [done|done|apply Hintr|done|by apply Forall_replicate|by rewrite length_replicate|].
    exists (rc, out), s'. split; [by rewrite (bind_run _ _ _ _ _ E)|]. split; [done|]. split; [done|].
    intros _. cbn [snd]. by rewrite Hl, length_replicate.
  - destruct (on_bus_ok a (fts_sync_write fuel ids addr len (Some data)) (fun _ => True) r Hr)
      as (x & r' & E & _ & Hr'); [apply sync_write_fds| |by exists x, r'].
    destruct (Hb a) as (H1 & H2 & H3).
    destruct (sync_write_total fuel ids addr len data (bus_of a r, r_world r)) as (rc & s' & E & Hok & Hs);
      [done|done|apply Hintr|]. by exists rc, s'.
  - destruct (reopen_bus_spec path _ _ _ (table_of _ _ a _ Hr)) as (b' & w' & E & Hok & Htm & He & Htab & _).
    unfold on_bus. rewrite E. do 2 eexists. split; [done|]. split; [done|]. by apply put_bus_ok.
  - do 2 eexists. split; [done|].
    assert (Hh : in_u 32 (hd 0 (r_modes r)) /\ Forall (in_u 32) (tl (r_modes r)))
      by (destruct Hm; cbn; split; done || clia).
    split; [apply Hh|]. split; [by intros []; apply (Hb Leader) || apply (Hb Follower)|done|apply Hh].
Qed.

(** One turn, then any number. *)
Lemma play_total c n r :
  ctx_ok c -> rig_ok fuel base r ->
  exists tr k r', play (bus_handler fuel) c n r = Some (tr, k, r') /\ Forall ctl_ok tr /\
    rig_ok fuel base r' /\ turns_of tr = Z.of_nat n.
Proof.
  intros Hc Hr. induction n as [|n (tr & k & r1 & E & Htr & Hr1 & Hn)].
  - edestruct (interp_log_total (bus_handler fuel) ctl_ok (rig_ok fuel base) (control_start c) []
      (fun tr _ => acts tr = [torque_act c Follower false; torque_act c Leader false]))
      as (tr & k & r' & E & Ha & Htr & Hr'); [apply bus_handler_ok|by intros ? _ ? _ ? _|exact Hr|].
    exists tr, k, r'. split_and!; [done..|]. change (acts ([] ++ tr)) with (acts tr) in Ha. unfold turns_of. by rewrite Ha.
  - edestruct (interp_log_total (bus_handler fuel) ctl_ok (rig_ok fuel base) (control_cycle c k) [])
      as (tr2 & k2 & r2 & E2 & Hpost & Htr2 & Hr2);
      [apply bus_handler_ok|by apply control_cycle_spec|exact Hr1|].
    pose proof (reach_history _ _ _ Hc (play_reach _ _ _ _ _ _ _ E) Htr) as Hh.
    destruct (cycle_obeyed _ _ _ _ _ _ (history_inv c Hc _ _ Hh) Hpost) as (m & s & _ & Hs & _).
    exists (tr ++ Obs LoadRun true :: tr2), k2, r2. split; [|split; [|split; [done|]]].
    + change (play (bus_handler fuel) c n r ≫= play_turn (bus_handler fuel) c
              = Some (tr ++ Obs LoadRun true :: tr2, k2, r2)).
      rewrite E. unfold play_turn. cbn [mbind option_bind fst snd]. by rewrite E2.
    + apply Forall_app. split; [done|]. by constructor.
    + unfold turns_of in *. rewrite acts_app, snapshots_app, length_app.
      change (acts (Obs LoadRun true :: tr2)) with (acts tr2).
      change (acts ([] ++ tr2)) with (acts tr2) in Hs. rewrite Hs. cbn. lia.
Qed.
End Handler.
End Rig.

(** ** The theorem *)

(** C5: the control thread runs on the real driver.  With its operations interpreted by
    the functions of feetech.c on two ports of any operating system that keeps to its
    documentation -- servos silent, ports unplugged, replies corrupted, calls
    interrupted by signals -- the start and any number of cycles are carried out: every
    loop of the driver ends within the fuel, which depends on the time-out only, and one
    snapshot is published per cycle.  What the theorems on the thread assume of its
    outside (a successful read fills the buffer with bytes, a request is a [uint32_t])
    holds of this execution, and however often the ports were closed and opened again the
    process owns the descriptors of the two buses and those it had before, nothing else. *)
Theorem control_on_buses {W} {os : OS W} {laws : OSLaws W} {stream : OSStream W} {fds : OSFds W}
    {sleep : OSSleep W} fuel base c n (r : rig W) :
  ctx_ok c -> (forall w : W, (256 + os_intr w < fuel)%nat) -> rig_ok fuel base r ->
  exists tr k r',
    play (bus_handler fuel) c n r = Some (tr, k, r') /\ ctl_reach c tr k /\
    Forall ctl_ok tr /\ turns_of tr = Z.of_nat n /\ rig_ok fuel base r' /\
    os_fds (r_world r') ≡ₚ buses_held r' ++ base.
Proof.
  intros Hc Hi Hr. destruct (play_total fuel base Hi c n r Hc Hr) as (tr & k & r' & E & Htr & Hr' & Hn).
  exists tr, k, r'. split_and!; try done; [by eapply play_reach|by destruct Hr' as [_ [_ ?] _]].
Qed.

(** Both ports open, nothing on the line, TELEOP requested; standard input, output and
    error are the other descriptors. *)
Definition demo_rig : rig sim :=
  mk_rig (set_fd 3 sim_bus) (set_fd 4 sim_bus) (mk_sim 5000 [] [] [4; 3; 2; 1; 0])
    (replicate 100 SO101_MODE_TELEOP) [].

Lemma control_on_buses_witness :
  exists tr k r',
    play (bus_handler (rx_fuel 4 + 300)) demo_ctx 1000 demo_rig = Some (tr, k, r') /\ ctl_reach demo_ctx tr k /\
    Forall ctl_ok tr /\ turns_of tr = 1000 /\ rig_ok (rx_fuel 4 + 300) [2; 1; 0] r' /\
    os_fds (r_world r') ≡ₚ buses_held r' ++ [2; 1; 0].
Proof.
  apply (control_on_buses (rx_fuel 4 + 300) [2; 1; 0] demo_ctx 1000 demo_rig).
  - apply demo_ctx_ok.
  - intros w. change (os_intr w) with 0%nat. apply Nat.lt_le_trans with 300%nat; [lia|apply Nat.le_add_l].
  - split.
    + intros a. split; [|split].
      * destruct a; (split; [apply Nat.le_0_l|constructor]).
      * by destruct a.
      * destruct a; apply Nat.le_add_r.
    + split; [|apply (Permutation_swap (A := Z) 3 4 [2; 1; 0])].
      change (os_fds (r_world demo_rig)) with [4; 3; 2; 1; 0].
      apply (bool_decide_unpack _). by vm_compute.
    + by apply Forall_replicate.
Defined.

(** The same rig, evaluated: 60 cycles with nothing on either line.  The ports are
    opened again in the 50th cycle (under new numbers), and the thread never gets to move. *)
Example silent_servos :
  match play (bus_handler 300) demo_ctx 60 demo_rig with
  | Some (tr, k, r') =>
      (length (List.filter (fun x => if x is AReopen _ then true else false) (acts tr)),
       s_leader_streak (smp k), s_follower_errs (smp k), torque k, os_fds (r_world r'))
  | None => (0%nat, 0, 0, true, [])
  end = (2%nat, 60, 60, false, [6; 5; 2; 1; 0]).
Proof. vm_compute. reflexivity. Qed.
