(* ===== verification/Supervisor.v ===== *)
(** * The supervisor (daemon/src/supervisor.c)

    [supervisor_thread] as a program over its operations on the shared segment,
    the semaphores, the clocks and the log.  [sup_step] says what each operation
    does to the part of the segment it shares with the other threads. *)

From stdpp Require Import strings.
From S2P Require Import Prelude Os Shm Ctx Prog.

Definition SUP_TICK_MS : Z := 20.
Definition STALL_MS : Z := 200.
Definition PERSIST_TICKS : Z := 5.
Definition OVERRUN_PER_S : Z := 5.
Definition LOCK_STUCK_MS : Z := 2000.
Definition STATUS_EVERY_MS : Z := 5000.

(** Faults that forbid torque.  LEADER_COMM only forbids TELEOP. *)
Definition F_BLOCK_ALL : Z :=
  Z.lor SO101_F_FOLLOWER_COMM (Z.lor SO101_F_OVERTEMP
    (Z.lor SO101_F_VOLTAGE (Z.lor SO101_F_STALL SO101_F_ESTOP))).
Definition F_BLOCK_TELEOP : Z := Z.lor F_BLOCK_ALL SO101_F_LEADER_COMM.

Definition fault_name (bit : Z) : string :=
  if bit =? SO101_F_LEADER_COMM then "LEADER_COMM"
  else if bit =? SO101_F_FOLLOWER_COMM then "FOLLOWER_COMM"
  else if bit =? SO101_F_OVERTEMP then "OVERTEMP"
  else if bit =? SO101_F_VOLTAGE then "VOLTAGE"
  else if bit =? SO101_F_OVERRUN then "OVERRUN"
  else if bit =? SO101_F_STALL then "STALL"
  else if bit =? SO101_F_ESTOP then "ESTOP"
  else if bit =? SO101_F_TORQUE_REFUSED then "TORQUE_REFUSED"
  else "?".

Definition cmd_name (c : Z) : string :=
  if (0 <=? c) && (c <? 5)
  then nth (Z.to_nat c) ["NONE"; "SET_MODE"; "ESTOP"; "RESET"; "PING"] "" else "?".

(** The log lines, by their arguments. *)
Inductive log_line :=
| LogFault (name why : string)
| LogLowered (from to cause : string)
| LogCommand (name : string) (arg pid : Z) (answer : string)
| LogLockReleased
| LogLeaderBack
| LogFollowerBack
| LogModeNow (name : string) (torque : bool)
| LogSoftStartDone
| LogStatus (s : so101_sample).

(** ** The shared part of the segment *)

Record shared := mk_shared {
  sh_mode_req : Z;
  sh_faults : Z;
  sh_sup_beat : Z;
  sh_cmd : so101_cmd;
  sh_ack : so101_ack;
  sh_lock : Z;            (* value of SO101_SEM_CMD_LOCK *)
  sh_ready : Z;           (* value of SO101_SEM_CMD_READY *)
  sh_sample : so101_sample;
  sh_clock : Z            (* CLOCK_MONOTONIC, ns *)
}.

Definition set_mode_req (v : Z) (s : shared) : shared :=
  mk_shared v (sh_faults s) (sh_sup_beat s) (sh_cmd s) (sh_ack s) (sh_lock s) (sh_ready s) (sh_sample s) (sh_clock s).
Definition set_faults (v : Z) (s : shared) : shared :=
  mk_shared (sh_mode_req s) v (sh_sup_beat s) (sh_cmd s) (sh_ack s) (sh_lock s) (sh_ready s) (sh_sample s) (sh_clock s).
Definition set_beat (v : Z) (s : shared) : shared :=
  mk_shared (sh_mode_req s) (sh_faults s) v (sh_cmd s) (sh_ack s) (sh_lock s) (sh_ready s) (sh_sample s) (sh_clock s).
Definition set_cmd (v : so101_cmd) (s : shared) : shared :=
  mk_shared (sh_mode_req s) (sh_faults s) (sh_sup_beat s) v (sh_ack s) (sh_lock s) (sh_ready s) (sh_sample s) (sh_clock s).
Definition set_ack (v : so101_ack) (s : shared) : shared :=
  mk_shared (sh_mode_req s) (sh_faults s) (sh_sup_beat s) (sh_cmd s) v (sh_lock s) (sh_ready s) (sh_sample s) (sh_clock s).
Definition set_lock (v : Z) (s : shared) : shared :=
  mk_shared (sh_mode_req s) (sh_faults s) (sh_sup_beat s) (sh_cmd s) (sh_ack s) v (sh_ready s) (sh_sample s) (sh_clock s).
Definition set_ready (v : Z) (s : shared) : shared :=
  mk_shared (sh_mode_req s) (sh_faults s) (sh_sup_beat s) (sh_cmd s) (sh_ack s) (sh_lock s) v (sh_sample s) (sh_clock s).
Definition set_sample (v : so101_sample) (s : shared) : shared :=
  mk_shared (sh_mode_req s) (sh_faults s) (sh_sup_beat s) (sh_cmd s) (sh_ack s) (sh_lock s) (sh_ready s) v (sh_clock s).

Inductive sup_ev : Type -> Type :=
| SupLoadRun : sup_ev bool
| RealTime : sup_ev timespec
| MonoTime : sup_ev timespec
| TimedWait (deadline : timespec) : sup_ev bool      (* sem_timedwait(sem_ready) == 0 *)
| ReadCmd : sup_ev so101_cmd
| FetchOrFaults (bits : Z) : sup_ev Z
| ReadFaults : sup_ev Z
| StoreFaults (v : Z) : sup_ev unit
| ReadModeReq : sup_ev Z
| StoreModeReq (v : Z) : sup_ev unit
| StoreAckResult (v : Z) : sup_ev unit
| StoreAckId (v : Z) : sup_ev unit
| GetLockValue : sup_ev Z                             (* sem_getvalue(sem_lock) *)
| PostLock : sup_ev unit                              (* sem_post(sem_lock) *)
| ReadSnapshot (max_tries : nat) : sup_ev (option so101_sample)
| AddBeat : sup_ev unit
| Log (l : log_line) : sup_ev unit.

(** What an operation returns and leaves.  The run flag and CLOCK_REALTIME
    are inputs; a wait fails only when there is nothing to take; a snapshot is the
    published one, or the read gave up. *)
Definition sup_step (R : Type) (e : sup_ev R) (s : shared) : R -> shared -> Prop :=
  match e in sup_ev R return R -> shared -> Prop with
  | SupLoadRun => fun _ s' => s' = s
  | RealTime => fun t s' => s' = s /\ 0 <= tv_nsec t < 1000000000
  | MonoTime => fun t s' =>
      s' = s /\ 0 <= tv_nsec t < 1000000000 /\ tv_sec t * 1000000000 + tv_nsec t = sh_clock s
  | TimedWait _ => fun got s' =>
      if got : bool then 0 < sh_ready s /\ s' = set_ready (sh_ready s - 1) s
      else sh_ready s <= 0 /\ s' = s
  | ReadCmd => fun c s' => c = sh_cmd s /\ s' = s
  | FetchOrFaults bits => fun old s' =>
      old = sh_faults s /\ s' = set_faults (Z.lor (sh_faults s) bits) s
  | ReadFaults => fun f s' => f = sh_faults s /\ s' = s
  | StoreFaults v => fun _ s' => s' = set_faults v s
  | ReadModeReq => fun m s' => m = sh_mode_req s /\ s' = s
  | StoreModeReq v => fun _ s' => s' = set_mode_req v s
  | StoreAckResult v => fun _ s' => s' = set_ack (mk_ack (ack_id (sh_ack s)) v) s
  | StoreAckId v => fun _ s' => s' = set_ack (mk_ack v (ack_result (sh_ack s))) s
  | GetLockValue => fun v s' => v = sh_lock s /\ s' = s
  | PostLock => fun _ s' => s' = set_lock (sh_lock s + 1) s
  | ReadSnapshot _ => fun r s' => (r = None \/ r = Some (sh_sample s)) /\ s' = s
  | AddBeat => fun _ s' => s' = set_beat (u64 (sh_sup_beat s + 1)) s
  | Log _ => fun _ s' => s' = s
  end.

(** ** Latching a fault *)

Definition has (f bits : Z) : bool := negb (Z.land f bits =? 0).

(** The test [lower] of [raise_fault]: only ever go down. *)
Definition lower (safe m : Z) : bool :=
  (safe =? SO101_MODE_ESTOP) ||
  ((safe =? SO101_MODE_IDLE) && negb (m =? SO101_MODE_ESTOP)) ||
  ((safe =? SO101_MODE_HOLD) && (m =? SO101_MODE_TELEOP)).

Definition raise_fault (bit : Z) (force_mode : bool) (safe : Z) (why : string) : prog sup_ev unit :=
  old ← do (FetchOrFaults bit);
  (if negb (has old bit) then do (Log (LogFault (fault_name bit) why)) else mret tt);;
  if force_mode then
    m ← do ReadModeReq;
    if lower safe m && negb (m =? safe) then
      do (StoreModeReq safe);;
      do (Log (LogLowered (so101_mode_name m) (so101_mode_name safe) (fault_name bit)))
    else mret tt
  else mret tt.

(** ** The command server *)

Definition serve_command (cmd : so101_cmd) : prog sup_ev Z :=
  f ← do ReadFaults;
  if cmd_cmd cmd =? SO101_CMD_SET_MODE then
    refuse ← (if cmd_arg cmd =? SO101_MODE_IDLE then
                m ← do ReadModeReq;
                mret (if m =? SO101_MODE_ESTOP then Some SO101_RES_REFUSED else None)
              else if cmd_arg cmd =? SO101_MODE_TELEOP then
                mret (if has f F_BLOCK_TELEOP then Some SO101_RES_REFUSED else None)
              else if cmd_arg cmd =? SO101_MODE_HOLD then
                mret (if has f F_BLOCK_ALL then Some SO101_RES_REFUSED else None)
              else mret (Some SO101_RES_BAD_CMD));
    match refuse with
    | Some res => mret res
    | None => do (StoreModeReq (u32 (cmd_arg cmd)));; mret SO101_RES_OK
    end
  else if cmd_cmd cmd =? SO101_CMD_ESTOP then
    _ ← do (FetchOrFaults SO101_F_ESTOP);
    do (StoreModeReq SO101_MODE_ESTOP);;
    mret SO101_RES_OK
  else if cmd_cmd cmd =? SO101_CMD_RESET then
    do (StoreFaults 0);;
    do (StoreModeReq SO101_MODE_IDLE);;
    mret SO101_RES_OK
  else if cmd_cmd cmd =? SO101_CMD_PING then mret SO101_RES_OK
  else mret SO101_RES_BAD_CMD.

(** ** The thread's locals *)

Record sup := mk_sup {
  last_cycle : Z;
  last_advance : Z;
  temp_ticks : Z;
  volt_ticks : Z;
  ovr_base : Z;
  ovr_t0 : Z;
  next_status : Z;
  lock_zero_since : Z;
  last_mode : Z;
  prev_ls : Z;
  prev_fs : Z;
  last_ramp : Z
}.

Definition mono_ms : prog sup_ev Z :=
  t ← do MonoTime; mret (tv_sec t * 1000 + Z.quot (tv_nsec t) 1000000).

(** [dl] 20 ms from now, carried into the seconds. *)
Definition tick_deadline (dl : timespec) : timespec :=
  let ns := tv_nsec dl + SUP_TICK_MS * 1000000 in
  if 1000000000 <=? ns then mk_timespec (tv_sec dl + 1) (ns - 1000000000)
  else mk_timespec (tv_sec dl) ns.

(** Steps 1 and 2; returns [now] and the new [lock_zero_since]. *)
Definition serve_tick (lock_zero : Z) : prog sup_ev (Z * Z) :=
  dl ← do RealTime;
  got ← do (TimedWait (tick_deadline dl));
  now ← mono_ms;
  if got : bool then
    cmd ← do ReadCmd;
    res ← serve_command cmd;
    do (StoreAckResult res);;
    do (StoreAckId (cmd_id cmd));;
    do (Log (LogCommand (cmd_name (cmd_cmd cmd)) (cmd_arg cmd) (cmd_client_pid cmd)
               (if res =? 0 then "OK" else if res =? SO101_RES_REFUSED then "REFUSED" else "BAD_CMD")));;
    mret (now, -1)
  else
    v ← do GetLockValue;
    if 0 <? v then mret (now, -1)
    else if lock_zero <? 0 then mret (now, now)
    else if LOCK_STUCK_MS <? now - lock_zero then
      do (Log LogLockReleased);;
      do PostLock;;
      mret (now, -1)
    else mret (now, lock_zero).

(** ** The safety checks on one snapshot *)

Definition hot (c : so101d_ctx) (s : so101_sample) : bool :=
  existsb (fun t => temp_limit c <=? t) (s_follower_temp s).
Definition badv (c : so101d_ctx) (s : so101_sample) : bool :=
  existsb (fun v => (v <? vmin_dv c) || (vmax_dv c <? v)) (s_follower_volt s).

Definition when (b : bool) (p : prog sup_ev unit) : prog sup_ev unit := if b then p else mret tt.

Definition check_stall (k : sup) (s : so101_sample) (now : Z) : prog sup_ev (Z * Z) :=
  if negb (s_cycle s =? last_cycle k) then mret (s_cycle s, now)
  else
    when (STALL_MS <? now - last_advance k)
      (raise_fault SO101_F_STALL true SO101_MODE_ESTOP "control loop not publishing");;
    mret (last_cycle k, last_advance k).

Definition check_comm (c : so101d_ctx) (k : sup) (s : so101_sample) : prog sup_ev unit :=
  when ((comm_streak c <=? prev_ls k) && (s_leader_streak s =? 0)) (do (Log LogLeaderBack));;
  when ((comm_streak c <=? prev_fs k) && (s_follower_streak s =? 0)) (do (Log LogFollowerBack));;
  when (comm_streak c <=? s_leader_streak s)
    (raise_fault SO101_F_LEADER_COMM true SO101_MODE_HOLD "leader bus not answering");;
  when (comm_streak c <=? s_follower_streak s)
    (raise_fault SO101_F_FOLLOWER_COMM true SO101_MODE_IDLE "follower bus not answering").

(** [x + 1] on [int]: undefined when it overflows. *)
Definition int_succ (x : Z) : option Z := if x <? 0x7FFFFFFF then Some (x + 1) else None.

Definition check_health (c : so101d_ctx) (k : sup) (s : so101_sample) : prog sup_ev (Z * Z) :=
  if s_follower_ok s then
    tt' ← defined (if hot c s then int_succ (temp_ticks k) else Some 0);
    vt ← defined (if badv c s then int_succ (volt_ticks k) else Some 0);
    when (PERSIST_TICKS <=? tt')
      (raise_fault SO101_F_OVERTEMP true SO101_MODE_IDLE "servo temperature above limit");;
    when (PERSIST_TICKS <=? vt)
      (raise_fault SO101_F_VOLTAGE true SO101_MODE_IDLE "servo supply voltage out of range");;
    mret (tt', vt)
  else mret (temp_ticks k, volt_ticks k).

Definition check_overrun (k : sup) (s : so101_sample) (now : Z) : prog sup_ev (Z * Z) :=
  if 1000 <=? now - ovr_t0 k then
    when (OVERRUN_PER_S <? u32 (s_overruns s - ovr_base k))
      (raise_fault SO101_F_OVERRUN false 0 "sustained deadline misses");;
    mret (s_overruns s, now)
  else mret (ovr_base k, ovr_t0 k).

(** 4. logging *)
Definition log_changes (k : sup) (s : so101_sample) (now : Z) : prog sup_ev Z :=
  when (negb (s_mode s =? last_mode k))
    (do (Log (LogModeNow (so101_mode_name (s_mode s)) (s_torque_on s))));;
  when (negb (last_ramp k =? 0) && (s_ramping s =? 0) && s_torque_on s) (do (Log LogSoftStartDone));;
  if next_status k <=? now then do (Log (LogStatus s));; mret (now + STATUS_EVERY_MS)
  else mret (next_status k).

(** One turn of the loop. *)
Definition supervise (c : so101d_ctx) (k : sup) : prog sup_ev sup :=
  nl ← serve_tick (lock_zero_since k);
  let now := nl.1 in
  snap ← do (ReadSnapshot 100);
  match snap with
  | None =>
      mret (mk_sup (last_cycle k) (last_advance k) (temp_ticks k) (volt_ticks k) (ovr_base k)
              (ovr_t0 k) (next_status k) nl.2 (last_mode k) (prev_ls k) (prev_fs k) (last_ramp k))
  | Some s =>
      cyc ← check_stall k s now;
      check_comm c k s;;
      ticks ← check_health c k s;
      ovr ← check_overrun k s now;
      do AddBeat;;
      status ← log_changes k s now;
      mret (mk_sup cyc.1 cyc.2 ticks.1 ticks.2 ovr.1 ovr.2 status nl.2
              (s_mode s) (s_leader_streak s) (s_follower_streak s) (s_ramping s))
  end.

Definition supervisor_start : prog sup_ev sup :=
  advance ← mono_ms;
  t0 ← mono_ms;
  st ← mono_ms;
  mret (mk_sup 0 advance 0 0 0 t0 (st + STATUS_EVERY_MS) (-1) 0xFF 0 0 0).

(** At most [fuel] turns of the [while (run)] loop. *)
Fixpoint supervisor_loop (fuel : nat) (c : so101d_ctx) (k : sup) : prog sup_ev unit :=
  match fuel with
  | O => Undef
  | S fuel =>
      go ← do SupLoadRun;
      if go : bool then k ← supervise c k; supervisor_loop fuel c k else mret tt
  end.

Definition supervisor_thread (fuel : nat) (c : so101d_ctx) : prog sup_ev unit :=
  k ← supervisor_start; supervisor_loop fuel c k.

(** The first [n] turns of the thread. *)
Fixpoint sup_turns (n : nat) (c : so101d_ctx) (k : sup) : prog sup_ev sup :=
  match n with
  | O => mret k
  | S n => k ← supervise c k; sup_turns n c k
  end.
Definition supervisor_turns (n : nat) (c : so101d_ctx) : prog sup_ev sup :=
  k ← supervisor_start; sup_turns n c k.
