(* ===== verification/SupervisorProps.v ===== *)
(** * What the supervisor guarantees

    Each part of [supervise] refines a pure function on the faults and the mode,
    whatever the other threads do meanwhile; the safety of the modes, the latching
    of ESTOP and the detection of faults follow. *)

From stdpp Require Import strings.
From S2P Require Import Prelude Os Shm Ctx Prog Supervisor.

(** ** Fault words *)

Lemma has_lor f a b : has f (Z.lor a b) = has f a || has f b.
Proof.
  unfold has. rewrite Z.land_lor_distr_r.
  destruct (Z.eqb_spec (Z.lor (Z.land f a) (Z.land f b)) 0) as [E|E],
           (Z.eqb_spec (Z.land f a) 0) as [Ea|Ea], (Z.eqb_spec (Z.land f b) 0) as [Eb|Eb]; try done.
  - apply Z.lor_eq_0_iff in E. tauto.
  - apply Z.lor_eq_0_iff in E. tauto.
  - apply Z.lor_eq_0_iff in E. tauto.
  - destruct E. apply Z.lor_eq_0_iff. tauto.
Qed.

Lemma has_lor_l f g b : has (Z.lor f g) b = has f b || has g b.
Proof. unfold has. rewrite !(Z.land_comm _ b). apply (has_lor b f g). Qed.

(** The control thread also writes TORQUE_REFUSED; the other bits are the
    supervisor's own. *)
Definition agree (f f' : Z) : Prop := forall i, i <> 7 -> Z.testbit f i = Z.testbit f' i.

#[export] Instance agree_equivalence : Equivalence agree.
Proof.
  split; [by intros f i|by intros f g H i Hi; rewrite H|].
  intros f g h H1 H2 i Hi. by rewrite H1, H2.
Qed.

#[export] Instance lor_agree : Proper (agree ==> eq ==> agree) Z.lor.
Proof. intros f g H b ? <- i Hi. by rewrite !Z.lor_spec, H. Qed.

Lemma has_agree f g bits : agree f g -> Z.testbit bits 7 = false -> has f bits = has g bits.
Proof.
  intros H Hb. unfold has. do 2 f_equal. apply Z.bits_inj'. intros i Hi.
  rewrite !Z.land_spec. destruct (Z.eq_dec i 7) as [->|]; [by rewrite Hb, !andb_false_r|].
  by rewrite H.
Qed.

(** ** The pure supervisor

    The faults and the mode, the answer in the mailbox, the beat and the two
    semaphores. *)

Record status := mk_status {
  st_faults : Z;
  st_mode : Z;
  st_ack : so101_ack;
  st_beat : Z;
  st_lock : Z;
  st_ready : Z
}.

Definition with_status (f m : Z) (st : status) : status :=
  mk_status f m (st_ack st) (st_beat st) (st_lock st) (st_ready st).

(** The mode after an order to go down to [safe]. *)
Definition lowered (safe m : Z) : Z := if lower safe m then safe else m.

(** A fault bit, and the mode it forces if any. *)
Definition raise_pure (st : status) (r : Z * option Z) : status :=
  with_status (Z.lor (st_faults st) r.1)
    (match r.2 with Some safe => lowered safe (st_mode st) | None => st_mode st end) st.
Definition raise_all (st : status) (l : list (Z * option Z)) : status := fold_left raise_pure l st.

Lemma raise_all_app st l1 l2 : raise_all st (l1 ++ l2) = raise_all (raise_all st l1) l2.
Proof. apply fold_left_app. Qed.

(** What a command does to the faults and the mode, and its answer. *)
Definition serve_pure (cmd : so101_cmd) (st : status) : Z * status :=
  let goto m := (SO101_RES_OK, with_status (st_faults st) m st) in
  if cmd_cmd cmd =? SO101_CMD_SET_MODE then
    if cmd_arg cmd =? SO101_MODE_IDLE then
      if st_mode st =? SO101_MODE_ESTOP then (SO101_RES_REFUSED, st) else goto SO101_MODE_IDLE
    else if cmd_arg cmd =? SO101_MODE_TELEOP then
      if has (st_faults st) F_BLOCK_TELEOP then (SO101_RES_REFUSED, st) else goto SO101_MODE_TELEOP
    else if cmd_arg cmd =? SO101_MODE_HOLD then
      if has (st_faults st) F_BLOCK_ALL then (SO101_RES_REFUSED, st) else goto SO101_MODE_HOLD
    else (SO101_RES_BAD_CMD, st)
  else if cmd_cmd cmd =? SO101_CMD_ESTOP then
    (SO101_RES_OK, with_status (Z.lor (st_faults st) SO101_F_ESTOP) SO101_MODE_ESTOP st)
  else if cmd_cmd cmd =? SO101_CMD_RESET then
    (SO101_RES_OK, with_status 0 SO101_MODE_IDLE st)
  else if cmd_cmd cmd =? SO101_CMD_PING then (SO101_RES_OK, st)
  else (SO101_RES_BAD_CMD, st).

(** The mailbox was held for too long. *)
Definition stuck (v now lz : Z) : bool :=
  negb (0 <? v) && negb (lz <? 0) && (LOCK_STUCK_MS <? now - lz).

(** A tick at [now]: the command served and answered, or else the value [v] of
    CMD_LOCK seen, and the lock released if it is stuck. *)
Definition tick_pure (served : option so101_cmd) (v now lz : Z) (st : status) : status :=
  match served with
  | None =>
      mk_status (st_faults st) (st_mode st) (st_ack st) (st_beat st)
        (if stuck v now lz then st_lock st + 1 else st_lock st) (st_ready st)
  | Some cmd =>
      let (res, st') := serve_pure cmd st in
      mk_status (st_faults st') (st_mode st') (mk_ack (cmd_id cmd) res) (st_beat st')
        (st_lock st') (st_ready st' - 1)
  end.

(** [lock_zero_since] after the tick. *)
Definition next_lz (served : option so101_cmd) (v now lz : Z) : Z :=
  match served with
  | Some _ => -1
  | None => if 0 <? v then -1 else if lz <? 0 then now else if stuck v now lz then -1 else lz
  end.

(** What each check raises, in order. *)
Definition raises_stall (k : sup) (s : so101_sample) (now : Z) : list (Z * option Z) :=
  if negb (s_cycle s =? last_cycle k) then []
  else if STALL_MS <? now - last_advance k then [(SO101_F_STALL, Some SO101_MODE_ESTOP)] else [].
Definition raises_comm (c : so101d_ctx) (s : so101_sample) : list (Z * option Z) :=
  (if comm_streak c <=? s_leader_streak s then [(SO101_F_LEADER_COMM, Some SO101_MODE_HOLD)] else []) ++
  (if comm_streak c <=? s_follower_streak s then [(SO101_F_FOLLOWER_COMM, Some SO101_MODE_IDLE)] else []).

(** The tick counters after a snapshot. *)
Definition ticks_after (ok bad : bool) (ticks : Z) : Z :=
  if ok then if bad then ticks + 1 else 0 else ticks.

Definition raises_health (c : so101d_ctx) (k : sup) (s : so101_sample) : list (Z * option Z) :=
  if s_follower_ok s then
    (if PERSIST_TICKS <=? ticks_after true (hot c s) (temp_ticks k)
     then [(SO101_F_OVERTEMP, Some SO101_MODE_IDLE)] else []) ++
    (if PERSIST_TICKS <=? ticks_after true (badv c s) (volt_ticks k)
     then [(SO101_F_VOLTAGE, Some SO101_MODE_IDLE)] else [])
  else [].
Definition raises_overrun (k : sup) (s : so101_sample) (now : Z) : list (Z * option Z) :=
  if (1000 <=? now - ovr_t0 k) && (OVERRUN_PER_S <? u32 (s_overruns s - ovr_base k))
  then [(SO101_F_OVERRUN, None)] else [].

(** Everything one iteration raises, in order. *)
Definition raises (c : so101d_ctx) (k : sup) (s : so101_sample) (now : Z) : list (Z * option Z) :=
  raises_stall k s now ++ raises_comm c s ++ raises_health c k s ++ raises_overrun k s now.

(** The locals after the checks. *)
Definition sup_checked (c : so101d_ctx) (k : sup) (s : so101_sample) (now lz : Z) : sup :=
  let advanced := negb (s_cycle s =? last_cycle k) in
  let second := 1000 <=? now - ovr_t0 k in
  mk_sup (if advanced then s_cycle s else last_cycle k)
         (if advanced then now else last_advance k)
         (ticks_after (s_follower_ok s) (hot c s) (temp_ticks k))
         (ticks_after (s_follower_ok s) (badv c s) (volt_ticks k))
         (if second then s_overruns s else ovr_base k)
         (if second then now else ovr_t0 k)
         (if next_status k <=? now then now + STATUS_EVERY_MS else next_status k)
         lz (s_mode s) (s_leader_streak s) (s_follower_streak s) (s_ramping s).

(** The locals of an iteration whose snapshot could not be read. *)
Definition sup_blind (k : sup) (lz : Z) : sup :=
  mk_sup (last_cycle k) (last_advance k) (temp_ticks k) (volt_ticks k) (ovr_base k)
    (ovr_t0 k) (next_status k) lz (last_mode k) (prev_ls k) (prev_fs k) (last_ramp k).

(** The tick counters fit an [int]. *)
Definition ticks_fit (k : sup) : Prop := temp_ticks k < 0x7FFFFFFF /\ volt_ticks k < 0x7FFFFFFF.

(** What one turn takes from outside: the command it served, the value of
    CMD_LOCK, the time, and the snapshot if one could be read. *)
Record input := mk_input {
  in_cmd : option so101_cmd;
  in_lock : Z;
  in_now : Z;
  in_smp : option so101_sample
}.

Definition beat (st : status) : status :=
  mk_status (st_faults st) (st_mode st) (st_ack st) (u64 (st_beat st + 1)) (st_lock st) (st_ready st).

Definition sup_model (c : so101d_ctx) (ks : sup * status) (i : input) : sup * status :=
  let (k, st) := ks in
  let st1 := tick_pure (in_cmd i) (in_lock i) (in_now i) (lock_zero_since k) st in
  let lz := next_lz (in_cmd i) (in_lock i) (in_now i) (lock_zero_since k) in
  match in_smp i with
  | None => (sup_blind k lz, st1)
  | Some smp => (sup_checked c k smp (in_now i) lz, beat (raise_all st1 (raises c k smp (in_now i))))
  end.

(** ** Interference *)

(** What the control thread and the clients may do between two operations of the
    supervisor: everything but touch the mode request, the answer, the beat and the
    supervisor's fault bits.  Time goes on. *)
Definition sup_env (s s' : shared) : Prop :=
  sh_mode_req s' = sh_mode_req s /\ sh_ack s' = sh_ack s /\ sh_sup_beat s' = sh_sup_beat s /\
  agree (sh_faults s') (sh_faults s) /\ sh_clock s <= sh_clock s'.

#[export] Instance sup_env_preorder : PreOrder sup_env.
Proof.
  split; [intros s; split_and!; try done; lia|].
  intros s1 s2 s3 (A1 & A2 & A3 & A4 & A5) (B1 & B2 & B3 & B4 & B5).
  split_and!; try congruence; [by rewrite B4|lia].
Qed.

Definition clock_ms (s : shared) : Z := sh_clock s / 1000000.

Section Refine.
(** An environment [env] that keeps [I], a predicate on the mailbox and the
    published snapshot, and, if [L], the semaphores. *)
Context (env : shared -> shared -> Prop) (I : so101_cmd -> so101_sample -> Prop) (L : Prop).
Context {Hpre : PreOrder env} (env_sup : forall s s', env s s' -> sup_env s s').
Context (env_I : forall s s', env s s' -> I (sh_cmd s) (sh_sample s) -> I (sh_cmd s') (sh_sample s')).
Context (env_L : forall s s', env s s' -> L -> sh_lock s' = sh_lock s /\ sh_ready s' = sh_ready s).

#[local] Abbreviation sup_holds := (holds env sup_step).

(** The shared state shows [st], except for what interference may change, no
    earlier than [t] ms. *)
Definition shows (st : status) (t : Z) (s : shared) : Prop :=
  sh_mode_req s = st_mode st /\ agree (sh_faults s) (st_faults st) /\
  sh_ack s = st_ack st /\ sh_sup_beat s = st_beat st /\
  t <= clock_ms s /\ I (sh_cmd s) (sh_sample s) /\
  (L -> sh_lock s = st_lock st /\ sh_ready s = st_ready st).

Lemma shows_env st t s s' : shows st t s -> env s s' -> shows st t s'.
Proof.
  intros (H1 & H2 & H3 & H4 & H5 & H6 & H7) E. pose proof (env_I _ _ E H6) as HI.
  pose proof (env_L _ _ E) as HL.
  destruct (env_sup _ _ E) as (E1 & E2 & E3 & E4 & E5). unfold shows, clock_ms in *.
  rewrite E1, E2, E3. split_and!; try done; [by rewrite E4| |].
  - etransitivity; [exact H5|]. apply Z.div_le_mono; lia.
  - intros l. destruct (HL l) as [-> ->]. by apply H7.
Qed.

Lemma raise_fault_refines st t s bit (force : bool) safe why :
  shows st t s ->
  sup_holds (raise_fault bit force safe why) s
    (fun _ s' => shows (raise_pure st (bit, if force then Some safe else None)) t s').
Proof.
  intros Hs. unfold raise_fault. cbn. intros s1 E1 old s2 [-> ->].
  pose proof (shows_env _ _ _ _ Hs E1) as H1.
  set (st1 := with_status (Z.lor (st_faults st) bit) (st_mode st) st).
  assert (H2 : shows st1 t (set_faults (Z.lor (sh_faults s1) bit) s1)).
  { destruct H1 as (A1 & A2 & A3 & A4 & A5 & A6 & A7). split_and!; try done. cbn. by rewrite A2. }
  assert (Hrest : forall s3, shows st1 t s3 ->
    sup_holds (if force then
                 m ← do ReadModeReq;
                 if lower safe m && negb (m =? safe) then
                   do (StoreModeReq safe);;
                   do (Log (LogLowered (so101_mode_name m) (so101_mode_name safe) (fault_name bit)))
                 else mret tt
               else mret tt) s3
      (fun _ s' => shows (raise_pure st (bit, if force then Some safe else None)) t s')).
  { intros s3 H3. destruct force; cbn; [|exact H3]. intros s4 E4 m s5 [-> ->].
    pose proof (shows_env _ _ _ _ H3 E4) as H4. pose proof (proj1 H4) as M4. cbn in M4.
    rewrite M4. unfold raise_pure, lowered. cbn [fst snd].
    destruct (lower safe (st_mode st)) eqn:El; cbn [andb].
    - destruct (Z.eqb_spec (st_mode st) safe) as [E|E]; cbn.
      + rewrite <- E. exact H4.
      + intros s5 E5 [] s6 ->. pose proof (shows_env _ _ _ _ H4 E5) as (M5 & A5 & B5 & C5 & D5 & F5 & G5).
        intros s7 E7 [] s8 ->. eapply shows_env; [|exact E7]. by split_and!.
    - exact H4. }
  destruct (has _ _); cbn.
  - apply Hrest, H2.
  - intros s3 E3 [] s4 ->. apply Hrest. by eapply shows_env.
Qed.

Lemma when_refines st t s (b : bool) bit safe why (force : bool) :
  shows st t s ->
  sup_holds (when b (raise_fault bit force safe why)) s
    (fun _ s' => shows (raise_all st (if b then [(bit, if force then Some safe else None)] else [])) t s').
Proof. intros Hs. destruct b; [by apply raise_fault_refines|exact Hs]. Qed.

Lemma when_log st t s b l :
  shows st t s -> sup_holds (when b (do (Log l))) s (fun _ s' => shows st t s').
Proof. intros Hs. destruct b; cbn; [|done]. intros s1 E [] s2 ->. by eapply shows_env. Qed.

(** ** The command server *)

Lemma shows_mode st t s m :
  shows st t s -> shows (with_status (st_faults st) m st) t (set_mode_req m s).
Proof. intros (H1 & H2 & H3 & H4 & H5 & H6 & H7). by split_and!. Qed.

Lemma shows_faults st t s f f' :
  shows st t s -> agree f' f ->
  shows (with_status f (st_mode st) st) t (set_faults f' s).
Proof. intros (H1 & H2 & H3 & H4 & H5 & H6 & H7) Hf. by split_and!. Qed.

Lemma shows_ack st t s a :
  shows st t s -> shows (mk_status (st_faults st) (st_mode st) a (st_beat st) (st_lock st) (st_ready st)) t (set_ack a s).
Proof. intros (H1 & H2 & H3 & H4 & H5 & H6 & H7). by split_and!. Qed.

Lemma serve_command_refines st t s cmd :
  shows st t s ->
  sup_holds (serve_command cmd) s
    (fun res s' => res = (serve_pure cmd st).1 /\ shows (serve_pure cmd st).2 t s').
Proof.
  intros Hs. unfold serve_command, serve_pure. cbn zeta. cbn -[Z.eqb]. intros s1 E1 f s2 [-> ->].
  pose proof (shows_env _ _ _ _ Hs E1) as H1.
  assert (Hall : has (sh_faults s1) F_BLOCK_ALL = has (st_faults st) F_BLOCK_ALL)
    by (apply has_agree; [apply H1|reflexivity]).
  assert (Htele : has (sh_faults s1) F_BLOCK_TELEOP = has (st_faults st) F_BLOCK_TELEOP)
    by (apply has_agree; [apply H1|reflexivity]).
  assert (Hgoto : forall m s3, shows st t s3 ->
    sup_holds (do (StoreModeReq m);; mret SO101_RES_OK) s3
      (fun res s' => res = SO101_RES_OK /\
         shows (with_status (st_faults st) m st) t s')).
  { intros m s3 H3 s4 E4 [] s5 ->. split; [done|]. apply shows_mode. by eapply shows_env. }
  destruct (Z.eqb_spec (cmd_cmd cmd) SO101_CMD_SET_MODE) as [Ec|Ec].
  - destruct (Z.eqb_spec (cmd_arg cmd) SO101_MODE_IDLE) as [Ea|Ea]; cbn -[Z.eqb].
    + rewrite Ea. intros s3 E3 m s4 [-> ->]. pose proof (shows_env _ _ _ _ H1 E3) as H3.
      rewrite (proj1 H3). destruct (_ =? SO101_MODE_ESTOP); cbn; [by split|]. by apply Hgoto.
    + destruct (Z.eqb_spec (cmd_arg cmd) SO101_MODE_TELEOP) as [Eb|Eb]; cbn -[Z.eqb].
      * destruct (has (sh_faults s1) F_BLOCK_TELEOP); rewrite <- Htele; cbn; [by split|].
        rewrite Eb. by apply Hgoto.
      * destruct (Z.eqb_spec (cmd_arg cmd) SO101_MODE_HOLD) as [Eh|Eh]; cbn -[Z.eqb]; [|by split].
        destruct (has (sh_faults s1) F_BLOCK_ALL); rewrite <- Hall; cbn; [by split|].
        rewrite Eh. by apply Hgoto.
  - destruct (Z.eqb_spec (cmd_cmd cmd) SO101_CMD_ESTOP) as [Ee|Ee]; cbn -[Z.eqb].
    + intros s3 E3 old s4 [-> ->] s5 E5 [] s6 ->. split; [done|].
      apply (shows_env _ _ _ _ H1) in E3.
      eapply shows_env in E5; [|apply (shows_faults st t _ (Z.lor (st_faults st) SO101_F_ESTOP)); [exact E3|]].
      * apply (shows_mode _ _ _ SO101_MODE_ESTOP) in E5. exact E5.
      * apply lor_agree; [apply E3|done].
    + destruct (Z.eqb_spec (cmd_cmd cmd) SO101_CMD_RESET) as [Er|Er]; cbn -[Z.eqb].
      * intros s3 E3 [] s4 -> s5 E5 [] s6 ->. split; [done|].
        apply (shows_env _ _ _ _ H1) in E3.
        eapply shows_env in E5; [|apply (shows_faults st t _ 0 0); [exact E3|done]].
        apply (shows_mode _ _ _ SO101_MODE_IDLE) in E5. exact E5.
      * destruct (_ =? SO101_CMD_PING); by split.
Qed.

(** ** The tick *)

(** What a tick sees of the mailbox. *)
Definition tick_saw (st : status) (served : option so101_cmd) (v : Z) : Prop :=
  match served with
  | Some cmd => (exists smp, I cmd smp) /\ (L -> 0 < st_ready st)
  | None => L -> st_ready st <= 0 /\ v = st_lock st
  end.

Lemma shows_time st t s x :
  shows st t s -> 0 <= tv_nsec x < 1000000000 /\ tv_sec x * 1000000000 + tv_nsec x = sh_clock s ->
  let now := tv_sec x * 1000 + Z.quot (tv_nsec x) 1000000 in t <= now /\ shows st now s.
Proof.
  intros (H1 & H2 & H3 & H4 & H5 & H6 & H7) [Hn Hc]. cbn zeta.
  rewrite Z.quot_div_nonneg by lia.
  assert (E : tv_sec x * 1000 + tv_nsec x / 1000000 = clock_ms s).
  { unfold clock_ms. rewrite <- Hc.
    replace (tv_sec x * 1000000000) with (tv_sec x * 1000 * 1000000) by lia.
    by rewrite Z.div_add_l. }
  rewrite E. by split_and!.
Qed.

Lemma shows_ready st t s :
  shows st t s ->
  shows (mk_status (st_faults st) (st_mode st) (st_ack st) (st_beat st) (st_lock st) (st_ready st - 1)) t
    (set_ready (sh_ready s - 1) s).
Proof.
  intros (H1 & H2 & H3 & H4 & H5 & H6 & H7). split_and!; try done.
  intros l. destruct (H7 l) as [A B]. cbn. by rewrite A, B.
Qed.

Lemma shows_lock st t s :
  shows st t s ->
  shows (mk_status (st_faults st) (st_mode st) (st_ack st) (st_beat st) (st_lock st + 1) (st_ready st)) t
    (set_lock (sh_lock s + 1) s).
Proof.
  intros (H1 & H2 & H3 & H4 & H5 & H6 & H7). split_and!; try done.
  intros l. destruct (H7 l) as [A B]. cbn. by rewrite A, B.
Qed.

(** Once the command is read. *)
Lemma serve_answers st st2 now s lz cmd v :
  shows st2 now s -> st2 = mk_status (st_faults st) (st_mode st) (st_ack st) (st_beat st) (st_lock st) (st_ready st - 1) ->
  sup_holds (res ← serve_command cmd;
             do (StoreAckResult res);;
             do (StoreAckId (cmd_id cmd));;
             do (Log (LogCommand (cmd_name (cmd_cmd cmd)) (cmd_arg cmd) (cmd_client_pid cmd)
                        (if res =? 0 then "OK" else if res =? SO101_RES_REFUSED then "REFUSED" else "BAD_CMD")));;
             mret (now, -1)) s
    (fun r s' => r = (now, next_lz (Some cmd) v now lz) /\ shows (tick_pure (Some cmd) v now lz st) now s').
Proof.
  intros H5 Hst2. eapply holds_seq; [by apply serve_command_refines|]. cbn beta. intros res s9 [-> H9].
  cbn -[Z.eqb]. intros s10 E10 [] s11 -> s12 E12 [] s13 -> s14 E14 [] s15 ->.
  split; [done|]. cbn [tick_pure].
  assert (Hserve : serve_pure cmd st2 = ((serve_pure cmd st).1,
    mk_status (st_faults (serve_pure cmd st).2) (st_mode (serve_pure cmd st).2)
      (st_ack (serve_pure cmd st).2) (st_beat (serve_pure cmd st).2)
      (st_lock (serve_pure cmd st).2) (st_ready (serve_pure cmd st).2 - 1))).
  { subst st2. unfold serve_pure. cbn [st_faults st_mode].
    repeat match goal with |- context [if ?b then _ else _] => destruct b end; done. }
  rewrite Hserve in *. cbn [fst snd] in *.
  destruct (serve_pure cmd st) as [res st']. cbn [fst snd] in *.
  apply (shows_env _ _ _ _ H9) in E10. eapply shows_env in E12; [|by apply shows_ack].
  eapply shows_env in E14; [|by apply shows_ack]. revert E14. cbn.
  by rewrite (proj1 (proj2 (proj2 E12))).
Qed.

(** Once the value of CMD_LOCK is read. *)
Lemma lock_watched st now s lz v :
  shows st now s ->
  sup_holds (if 0 <? v then mret (now, -1)
             else if lz <? 0 then mret (now, now)
             else if LOCK_STUCK_MS <? now - lz then
               do (Log LogLockReleased);;
               do PostLock;;
               mret (now, -1)
             else mret (now, lz)) s
    (fun r s' => r = (now, next_lz None v now lz) /\ shows (tick_pure None v now lz st) now s').
Proof.
  intros H7. cbn -[Z.ltb].
  assert (Hkeep : stuck v now lz = false -> shows (tick_pure None v now lz st) now s).
  { intros E. unfold tick_pure. rewrite E. by destruct st. }
  destruct (0 <? v) eqn:Ev; [split; [done|apply Hkeep; unfold stuck; by rewrite Ev]|].
  destruct (lz <? 0) eqn:El; [split; [done|apply Hkeep; unfold stuck; by rewrite El, andb_false_r]|].
  destruct (LOCK_STUCK_MS <? now - lz) eqn:Es; unfold tick_pure, stuck in *; rewrite Ev, El, Es in *;
    cbn [negb andb] in *; [|split; [done|by apply Hkeep]].
  intros s9 E9 [] s10 -> s11 E11 [] s12 ->. split; [done|].
  apply shows_lock. eapply shows_env; [eapply shows_env|]; eauto.
Qed.

Lemma serve_tick_refines st t s lz :
  shows st t s ->
  sup_holds (serve_tick lz) s
    (fun r s' => t <= r.1 /\ exists served v, r.2 = next_lz served v r.1 lz /\
       tick_saw st served v /\ shows (tick_pure served v r.1 lz st) r.1 s').
Proof.
  intros Hs. unfold serve_tick.
  apply holds_bind. intros s1 E1 dl s2 [-> _]. pose proof (shows_env _ _ _ _ Hs E1) as H1.
  apply holds_bind. intros s3 E3 got s4 Hgot. pose proof (shows_env _ _ _ _ H1 E3) as H3.
  assert (H4 : exists st4, shows st4 t s4 /\
    if got then st4 = mk_status (st_faults st) (st_mode st) (st_ack st) (st_beat st) (st_lock st) (st_ready st - 1)
                /\ (L -> 0 < st_ready st)
    else st4 = st /\ (L -> st_ready st <= 0)).
  { assert (HL : L -> sh_ready s3 = st_ready st) by (intros l; apply H3, l).
    cbn in Hgot. destruct got; destruct Hgot as [Hr ->]; eexists.
    - split; [by apply shows_ready|]. split; [done|]. intros l. by rewrite <- HL.
    - split; [exact H3|]. split; [done|]. intros l. by rewrite <- HL. }
  destruct H4 as (st4 & H4 & Hst4). clear Hgot.
  apply holds_bind, holds_bind. intros s5 E5 x s6 [-> Hx]. apply (shows_env _ _ _ _ H4) in E5.
  destruct (shows_time _ _ _ _ E5 Hx) as [Hnow H5]. cbn [holds mret prog_ret].
  set (now := tv_sec x * 1000 + Z.quot (tv_nsec x) 1000000) in *.
  eapply (holds_mono _ _ _ _ (fun r s' => r.1 = now /\ exists served v,
    r.2 = next_lz served v now lz /\ tick_saw st served v /\
    shows (tick_pure served v now lz st) now s')).
  { intros r s' [-> H]. by split. }
  destruct got; destruct Hst4 as [Hst Hready].
  - apply holds_bind. intros s7 E7 cmd s8 [-> ->]. apply (shows_env _ _ _ _ H5) in E7.
    refine (holds_mono env sup_step _ _ _ _ _ (serve_answers st st4 now s7 lz (sh_cmd s7) 0 E7 Hst)).
    intros r s' [-> H]. split; [done|]. exists (Some (sh_cmd s7)), 0. split; [done|]. split; [|exact H].
    split; [exists (sh_sample s7); apply E7|exact Hready].
  - subst st4. apply holds_bind. intros s7 E7 v s8 [-> ->]. apply (shows_env _ _ _ _ H5) in E7.
    refine (holds_mono env sup_step _ _ _ _ _ (lock_watched st now s7 lz (sh_lock s7) E7)).
    intros r s' [-> H]. split; [done|]. exists None, (sh_lock s7). split; [done|]. split; [|exact H].
    intros l. split; [by apply Hready|apply E7, l].
Qed.

(** ** The checks *)

Lemma check_stall_refines st t s k smp now :
  shows st t s ->
  sup_holds (check_stall k smp now) s
    (fun r s' => r = (if negb (s_cycle smp =? last_cycle k) then (s_cycle smp, now)
                      else (last_cycle k, last_advance k)) /\
       shows (raise_all st (raises_stall k smp now)) t s').
Proof.
  intros Hs. unfold check_stall, raises_stall. destruct (negb _); [by split|].
  eapply holds_seq; [by apply (when_refines st t s)|]. by intros [] s' H.
Qed.

Lemma check_comm_refines st t s c k smp :
  shows st t s ->
  sup_holds (check_comm c k smp) s (fun _ s' => shows (raise_all st (raises_comm c smp)) t s').
Proof.
  intros Hs. unfold check_comm, raises_comm.
  eapply holds_seq; [by apply when_log|]. intros [] s1 H1.
  eapply holds_seq; [by apply when_log|]. intros [] s2 H2.
  eapply holds_seq; [by apply when_refines|]. intros [] s3 H3.
  eapply holds_mono; [|by eapply when_refines]. intros [] s4 H4. by rewrite raise_all_app.
Qed.

Lemma succ_when (b : bool) x :
  x < 0x7FFFFFFF -> (if b then int_succ x else Some 0) = Some (ticks_after true b x).
Proof. intros Hx. unfold int_succ. destruct b; [|done]. by destruct (Z.ltb_spec x 0x7FFFFFFF); [|lia]. Qed.

Lemma check_health_refines st t s c k smp :
  ticks_fit k -> shows st t s ->
  sup_holds (check_health c k smp) s
    (fun r s' => r = (ticks_after (s_follower_ok smp) (hot c smp) (temp_ticks k),
                      ticks_after (s_follower_ok smp) (badv c smp) (volt_ticks k)) /\
       shows (raise_all st (raises_health c k smp)) t s').
Proof.
  intros [Ht Hv] Hs. unfold check_health, raises_health. destruct (s_follower_ok smp); [|by split].
  rewrite !succ_when by done. cbn [defined mbind prog_bind bind_prog].
  eapply holds_seq; [by apply when_refines|]. intros [] s1 H1.
  eapply holds_seq; [by eapply when_refines|]. intros [] s2 H2.
  split; [done|]. by rewrite raise_all_app.
Qed.

Lemma check_overrun_refines st t s k smp now :
  shows st t s ->
  sup_holds (check_overrun k smp now) s
    (fun r s' => r = (if 1000 <=? now - ovr_t0 k then (s_overruns smp, now) else (ovr_base k, ovr_t0 k)) /\
       shows (raise_all st (raises_overrun k smp now)) t s').
Proof.
  intros Hs. unfold check_overrun, raises_overrun. destruct (1000 <=? now - ovr_t0 k); [|by split].
  cbn [andb]. eapply holds_seq; [by apply (when_refines st t s)|]. by intros [] s' H.
Qed.

Lemma log_changes_refines st t s k smp now :
  shows st t s ->
  sup_holds (log_changes k smp now) s
    (fun r s' => r = (if next_status k <=? now then now + STATUS_EVERY_MS else next_status k) /\
       shows st t s').
Proof.
  intros Hs. unfold log_changes.
  eapply holds_seq; [by apply when_log|]. intros [] s1 H1.
  eapply holds_seq; [by apply when_log|]. intros [] s2 H2.
  destruct (next_status k <=? now); [|by split]. cbn. intros s3 E [] s4 ->.
  split; [done|]. by eapply shows_env.
Qed.

Lemma shows_beat st t s :
  shows st t s -> shows (beat st) t (set_beat (u64 (sh_sup_beat s + 1)) s).
Proof. intros (H1 & H2 & H3 & H4 & H5 & H6 & H7). split_and!; try done. cbn. by rewrite H4. Qed.

(** What a turn took in is possible, and was in [I]. *)
Definition input_ok (st : status) (i : input) : Prop :=
  tick_saw st (in_cmd i) (in_lock i) /\
  (forall smp, in_smp i = Some smp -> exists cmd, I cmd smp).

(** Once the snapshot is read. *)
Lemma checks_refine c k smp now lz st s :
  ticks_fit k -> shows st now s ->
  sup_holds (cyc ← check_stall k smp now;
             check_comm c k smp;;
             ticks ← check_health c k smp;
             ovr ← check_overrun k smp now;
             do AddBeat;;
             status ← log_changes k smp now;
             mret (mk_sup cyc.1 cyc.2 ticks.1 ticks.2 ovr.1 ovr.2 status lz
                     (s_mode smp) (s_leader_streak smp) (s_follower_streak smp) (s_ramping smp))) s
    (fun k' s' => k' = sup_checked c k smp now lz /\ shows (beat (raise_all st (raises c k smp now))) now s').
Proof.
  intros Hk Hs.
  eapply holds_seq; [by apply check_stall_refines|]. intros cyc s4 [-> H4].
  eapply holds_seq; [by eapply check_comm_refines|]. intros [] s5 H5.
  eapply holds_seq; [by eapply check_health_refines|]. intros ticks s6 [-> H6].
  eapply holds_seq; [by eapply check_overrun_refines|]. intros ovr s7 [-> H7].
  apply holds_bind. intros s8 E8 [] s9 ->. apply (shows_env _ _ _ _ H7), shows_beat in E8.
  eapply holds_seq; [by eapply log_changes_refines|]. intros stt s10 [-> H10].
  split; [cbn; unfold sup_checked; by destruct (negb _), (1000 <=? _)|].
  unfold raises. rewrite !raise_all_app. exact H10.
Qed.

(** After the tick, the locals and the state follow the pure supervisor. *)
Lemma supervise_refines c k st t s :
  ticks_fit k -> shows st t s ->
  sup_holds (supervise c k) s
    (fun k' s' => exists i st', sup_model c (k, st) i = (k', st') /\ t <= in_now i /\
       input_ok st i /\ shows st' (in_now i) s').
Proof.
  intros Hk Hs. unfold supervise.
  eapply holds_seq; [by apply serve_tick_refines|].
  intros [now lz] s1 (Hnow & served & v & Hlz & Hsaw & H1). cbn [fst snd] in *. subst lz.
  set (st1 := tick_pure served v now (lock_zero_since k) st) in *. cbn beta zeta. cbn [fst snd].
  apply holds_bind. intros s2 E2 snap s3 [Hsnap ->]. apply (shows_env _ _ _ _ H1) in E2.
  cbn [holds mret prog_ret]. destruct snap as [smp|].
  2:{ exists (mk_input served v now None), st1. by split_and!. }
  assert (HI : exists cmd, I cmd smp).
  { destruct Hsnap as [|[= ->]]; [done|]. exists (sh_cmd s2). apply E2. }
  refine (holds_mono env sup_step _ _ _ _ _ (checks_refine c k smp now _ st1 s2 Hk E2)).
  intros k' s4 [-> H4]. exists (mk_input served v now (Some smp)), (beat (raise_all st1 (raises c k smp now))).
  split; [done|]. cbn [in_now]. split; [done|]. split; [split; [done|by intros ? [= <-]]|exact H4].
Qed.

(** ** Any number of turns *)

(** The turns [l] from the locals and state [ks], no earlier than [t] and in the
    order of time. *)
Fixpoint possible (c : so101d_ctx) (ks : sup * status) (t : Z) (l : list input) : Prop :=
  match l with
  | [] => True
  | i :: l => t <= in_now i /\ input_ok ks.2 i /\ possible c (sup_model c ks i) (in_now i) l
  end.
Fixpoint time_after (t : Z) (l : list input) : Z :=
  match l with [] => t | i :: l => time_after (in_now i) l end.

(** [n] more turns cannot overflow the tick counters. *)
Definition turns_fit (n : nat) (k : sup) : Prop :=
  temp_ticks k + Z.of_nat n <= 0x7FFFFFFF /\ volt_ticks k + Z.of_nat n <= 0x7FFFFFFF /\
  0 <= temp_ticks k /\ 0 <= volt_ticks k.

Lemma turns_fit_step n c k st i :
  turns_fit (S n) k -> ticks_fit k /\ turns_fit n (sup_model c (k, st) i).1.
Proof.
  unfold turns_fit, ticks_fit. intros (H1 & H2 & H3 & H4). split; [lia|].
  unfold sup_model. destruct (in_smp i) as [smp|]; cbn; [|lia].
  unfold ticks_after. destruct (s_follower_ok smp), (hot c smp), (badv c smp); lia.
Qed.

Definition turned (c : so101d_ctx) (n : nat) (k : sup) (st : status) (t : Z)
    (k' : sup) (s' : shared) : Prop :=
  exists l st', length l = n /\ possible c (k, st) t l /\
    fold_left (sup_model c) l (k, st) = (k', st') /\ shows st' (time_after t l) s'.

Lemma turns_refine c n : forall k st t s,
  turns_fit n k -> shows st t s -> sup_holds (sup_turns n c k) s (turned c n k st t).
Proof.
  induction n as [|n IH]; intros k st t s Hk Hs.
  { exists [], st. by split_and!. }
  cbn [sup_turns].
  eapply holds_seq.
  { apply supervise_refines; [|exact Hs].
    by apply (turns_fit_step n c k st (mk_input None 0 0 None)). }
  intros k' s1 (i & st1 & Hm & Ht & Hin & H1).
  eapply holds_mono; [|apply IH; [|exact H1]].
  - intros k2 s2 (l & st2 & Hl & Hc & Hf & H2). exists (i :: l), st2.
    cbn [length possible time_after fold_left snd]. rewrite Hl, Hm. by split_and!.
  - pose proof (turns_fit_step n c k st i Hk) as [_ Hn]. by rewrite Hm in Hn.
Qed.

(** The locals when the thread starts, by the times it reads. *)
Definition sup_init (advance t0 ns : Z) : sup :=
  mk_sup 0 advance 0 0 0 t0 (ns + STATUS_EVERY_MS) (-1) 0xFF 0 0 0.

Lemma start_refines st t s :
  shows st t s ->
  sup_holds supervisor_start s
    (fun k s' => exists a b d, t <= a <= b /\ b <= d /\ k = sup_init a b d /\ shows st d s').
Proof.
  intros Hs. unfold supervisor_start, mono_ms.
  apply holds_bind, holds_bind. intros s1 E1 x1 s2 [-> H1]. apply (shows_env _ _ _ _ Hs) in E1.
  destruct (shows_time _ _ _ _ E1 H1) as [T1 S1].
  apply holds_bind, holds_bind. intros s3 E3 x2 s4 [-> H2]. apply (shows_env _ _ _ _ S1) in E3.
  destruct (shows_time _ _ _ _ E3 H2) as [T2 S2].
  apply holds_bind, holds_bind. intros s5 E5 x3 s6 [-> H3]. apply (shows_env _ _ _ _ S2) in E5.
  destruct (shows_time _ _ _ _ E5 H3) as [T3 S3].
  do 3 eexists. split; [split; [exact T1|exact T2]|]. split; [exact T3|]. by split.
Qed.

Definition started (c : so101d_ctx) (n : nat) (st : status) (t : Z) (k' : sup) (s' : shared) : Prop :=
  exists a b d, t <= a <= b /\ b <= d /\ turned c n (sup_init a b d) st d k' s'.

Lemma supervisor_turns_refine c n st t s :
  Z.of_nat n <= 0x7FFFFFFF -> shows st t s ->
  sup_holds (supervisor_turns n c) s (started c n st t).
Proof.
  intros Hn Hs. unfold supervisor_turns.
  eapply holds_seq; [by apply start_refines|]. intros k s1 (a & b & d & Hab & Hbd & -> & H1).
  eapply holds_mono; [|apply turns_refine; [|exact H1]].
  - intros k' s' H. by exists a, b, d.
  - unfold turns_fit. cbn. lia.
Qed.

(** Every execution of the thread is a number of turns, and interference. *)
Lemma supervisor_loop_turns c fuel : forall k s a s',
  shared_run env sup_step (supervisor_loop fuel c k) s a s' ->
  exists n k' s1, (n < fuel)%nat /\ shared_run env sup_step (sup_turns n c k) s k' s1 /\ env s1 s'.
Proof.
  induction fuel as [|fuel IH]; intros k s a s' Hrun; [done|].
  cbn [supervisor_loop] in Hrun. cbn [mbind prog_bind bind_prog do] in Hrun. destruct Hrun as (s1 & go & s2 & E1 & -> & Hrun).
  destruct go.
  - apply shared_run_bind in Hrun as (k' & s3 & Hsup & Hloop).
    apply IH in Hloop as (n & k2 & s4 & Hn & Hturns & E4).
    exists (S n), k2, s4. split; [lia|]. split; [|done]. cbn [sup_turns].
    apply shared_run_bind. exists k', s3. split; [|done].
    destruct Hsup as (s5 & r & s6 & E5 & Hrest). exists s5, r, s6. split; [|done].
    by etransitivity.
  - destruct Hrun as [_ ->]. exists 0%nat, k, s. split; [lia|]. by split.
Qed.

Lemma supervisor_thread_turns c fuel s a s' :
  shared_run env sup_step (supervisor_thread fuel c) s a s' ->
  exists n k' s1, (n < fuel)%nat /\ shared_run env sup_step (supervisor_turns n c) s k' s1 /\ env s1 s'.
Proof.
  intros (k & s1 & Hstart & Hloop)%shared_run_bind.
  apply supervisor_loop_turns in Hloop as (n & k' & s2 & Hn & Hturns & E2).
  exists n, k', s2. split; [done|]. split; [|done]. apply shared_run_bind. by exists k, s1.
Qed.

End Refine.
