(* ===== verification/SupervisorThms.v ===== *)
(** * What the supervisor guarantees

    The theorems on [supervise] and on any number of its turns, under whatever the
    control thread and the clients do meanwhile ([sup_env]). *)

From stdpp Require Import strings.
From S2P Require Import Prelude Os Shm Ctx Prog Supervisor SupervisorProps.

(** ** Environments *)

(** Interference that keeps [I], a predicate on the mailbox and the published
    snapshot. *)
Definition env_with (I : so101_cmd -> so101_sample -> Prop) (s s' : shared) : Prop :=
  sup_env s s' /\ (I (sh_cmd s) (sh_sample s) -> I (sh_cmd s') (sh_sample s')).

(** Interference that leaves the mailbox and its semaphores alone. *)
Definition env_quiet (s s' : shared) : Prop :=
  sup_env s s' /\ sh_cmd s' = sh_cmd s /\ sh_lock s' = sh_lock s /\ sh_ready s' = sh_ready s.

#[export] Instance env_with_preorder I : PreOrder (env_with I).
Proof.
  split; [by intros s; split|]. intros s1 s2 s3 [A1 A2] [B1 B2].
  split; [by etransitivity|]. intros H. by apply B2, A2.
Qed.

#[export] Instance env_quiet_preorder : PreOrder env_quiet.
Proof.
  split; [by intros s; split_and!|]. intros s1 s2 s3 (A1 & A2 & A3 & A4) (B1 & B2 & B3 & B4).
  split_and!; [by etransitivity|congruence..].
Qed.

Definition status_of (s : shared) : status :=
  mk_status (sh_faults s) (sh_mode_req s) (sh_ack s) (sh_sup_beat s) (sh_lock s) (sh_ready s).

Lemma shows_self I L s :
  I (sh_cmd s) (sh_sample s) -> shows I L (status_of s) (clock_ms s) s.
Proof. intros H. by split_and!. Qed.

(** ** Invariants of the pure supervisor *)

(** Everything the supervisor ever raises. *)
Definition known : list (Z * option Z) :=
  [(SO101_F_STALL, Some SO101_MODE_ESTOP); (SO101_F_LEADER_COMM, Some SO101_MODE_HOLD);
   (SO101_F_FOLLOWER_COMM, Some SO101_MODE_IDLE); (SO101_F_OVERTEMP, Some SO101_MODE_IDLE);
   (SO101_F_VOLTAGE, Some SO101_MODE_IDLE); (SO101_F_OVERRUN, None)].

Lemma Forall_if {A} (P : A -> Prop) (b : bool) x : P x -> Forall P (if b then [x] else []).
Proof. destruct b; by repeat constructor. Qed.

Lemma raises_known c k s now : Forall (fun r => In r known) (raises c k s now).
Proof.
  unfold raises, raises_stall, raises_comm, raises_health, raises_overrun.
  rewrite !Forall_app. split_and!.
  - destruct (negb _); [constructor|]. apply Forall_if. by left.
  - apply Forall_if. by do 1 right; left.
  - apply Forall_if. by do 2 right; left.
  - destruct (s_follower_ok s); [|constructor]. apply Forall_app.
    split; apply Forall_if; [by do 3 right; left|by do 4 right; left].
  - apply Forall_if. by do 5 right; left.
Qed.

Section ModelInv.
Context (c : so101d_ctx) (I : so101_cmd -> so101_sample -> Prop) (L : Prop) (P : Z -> Z -> Prop).
Context (Hserve : forall st cmd, (exists smp, I cmd smp) -> P (st_faults st) (st_mode st) ->
  P (st_faults (serve_pure cmd st).2) (st_mode (serve_pure cmd st).2)).
Context (Hraise : forall st r, In r known -> P (st_faults st) (st_mode st) ->
  P (st_faults (raise_pure st r)) (st_mode (raise_pure st r))).

Lemma raise_all_inv rs : Forall (fun r => In r known) rs -> forall st,
  P (st_faults st) (st_mode st) -> P (st_faults (raise_all st rs)) (st_mode (raise_all st rs)).
Proof. induction 1 as [|r rs Hr _ IH]; intros st H; [done|]. apply IH. by apply Hraise. Qed.

Lemma model_step_inv ks i :
  input_ok I L ks.2 i -> P (st_faults ks.2) (st_mode ks.2) ->
  P (st_faults (sup_model c ks i).2) (st_mode (sup_model c ks i).2).
Proof.
  destruct ks as [k st]. intros [Hsaw _] H. unfold sup_model.
  set (st1 := tick_pure (in_cmd i) (in_lock i) (in_now i) (lock_zero_since k) st).
  assert (H1 : P (st_faults st1) (st_mode st1)).
  { unfold st1, tick_pure. destruct (in_cmd i) as [cmd|]; [|done].
    pose proof (Hserve st cmd (proj1 Hsaw) H) as Hs. by destruct (serve_pure cmd st). }
  destruct (in_smp i); [|done]. cbn. apply raise_all_inv; [apply raises_known|done].
Qed.

Lemma model_inv l : forall ks t,
  possible I L c ks t l -> P (st_faults ks.2) (st_mode ks.2) ->
  P (st_faults (fold_left (sup_model c) l ks).2) (st_mode (fold_left (sup_model c) l ks).2).
Proof.
  induction l as [|i l IH]; intros ks t Hl H; [done|]. destruct Hl as (_ & Hi & Hl).
  eapply IH; [exact Hl|]. by apply model_step_inv.
Qed.
End ModelInv.

(** ** Safety of the modes *)

(** A fault that forbids torque keeps the arm limp, one of the leader forbids
    following it, and ESTOP is requested just when it or a stall is latched. *)
Definition mode_safe (f m : Z) : Prop :=
  In m [SO101_MODE_IDLE; SO101_MODE_TELEOP; SO101_MODE_HOLD; SO101_MODE_ESTOP] /\
  (has f F_BLOCK_ALL = true -> m = SO101_MODE_IDLE \/ m = SO101_MODE_ESTOP) /\
  (has f SO101_F_LEADER_COMM = true -> m <> SO101_MODE_TELEOP) /\
  (has f (Z.lor SO101_F_STALL SO101_F_ESTOP) = true <-> m = SO101_MODE_ESTOP).

Lemma mode_safe_agree f f' m : agree f f' -> mode_safe f m -> mode_safe f' m.
Proof.
  intros H. unfold mode_safe.
  rewrite (has_agree f f' F_BLOCK_ALL), (has_agree f f' SO101_F_LEADER_COMM),
    (has_agree f f' (Z.lor SO101_F_STALL SO101_F_ESTOP)); done.
Qed.

Lemma block_teleop f : has f F_BLOCK_TELEOP = has f F_BLOCK_ALL || has f SO101_F_LEADER_COMM.
Proof. apply has_lor. Qed.

Lemma estop_blocks f : has f (Z.lor SO101_F_STALL SO101_F_ESTOP) = true -> has f F_BLOCK_ALL = true.
Proof.
  unfold F_BLOCK_ALL. rewrite !has_lor. intros ->. by rewrite !orb_true_r.
Qed.

Lemma serve_mode_safe st cmd :
  mode_safe (st_faults st) (st_mode st) ->
  mode_safe (st_faults (serve_pure cmd st).2) (st_mode (serve_pure cmd st).2).
Proof.
  intros Hsame. pose proof Hsame as (Hm & Hall & Hlead & Hstop). pose proof (estop_blocks (st_faults st)) as Hb.
  assert (Hset : forall m, In m [SO101_MODE_IDLE; SO101_MODE_TELEOP; SO101_MODE_HOLD] ->
    (has (st_faults st) F_BLOCK_ALL = true -> m = SO101_MODE_IDLE) ->
    (has (st_faults st) SO101_F_LEADER_COMM = true -> m <> SO101_MODE_TELEOP) ->
    st_mode st <> SO101_MODE_ESTOP \/ m <> SO101_MODE_IDLE -> mode_safe (st_faults st) m).
  { intros m Hin H1 H2 H3. split; [cbn in *; tauto|]. split; [by left; apply H1|]. split; [done|].
    split.
    - intros He. exfalso. destruct H3 as [H3|H3]; [by apply H3, Hstop|]. by apply H3, H1, Hb.
    - intros ->. destruct Hin as [|[|[|[]]]]; done. }
  unfold serve_pure.
  destruct (cmd_cmd cmd =? SO101_CMD_SET_MODE).
  { destruct (cmd_arg cmd =? SO101_MODE_IDLE).
    { destruct (Z.eqb_spec (st_mode st) SO101_MODE_ESTOP); [exact Hsame|].
      apply Hset; [by left|done|done|by left]. }
    destruct (cmd_arg cmd =? SO101_MODE_TELEOP).
    { rewrite block_teleop.
      destruct (has _ F_BLOCK_ALL) eqn:Ea; [exact Hsame|].
      destruct (has _ SO101_F_LEADER_COMM) eqn:El; [exact Hsame|].
      apply Hset; [by right; left|done|done|by right]. }
    destruct (cmd_arg cmd =? SO101_MODE_HOLD); [|exact Hsame].
    destruct (has _ F_BLOCK_ALL) eqn:Ea; [exact Hsame|].
    apply Hset; [by do 2 right; left|done|done|by right]. }
  destruct (cmd_cmd cmd =? SO101_CMD_ESTOP).
  { cbn. split; [cbn; tauto|]. split; [by right|]. split; [done|]. split; [done|].
    intros _. rewrite has_lor_l. by rewrite orb_true_r. }
  destruct (cmd_cmd cmd =? SO101_CMD_RESET); [by split; [left|]|].
  destruct (cmd_cmd cmd =? SO101_CMD_PING); exact Hsame.
Qed.

Lemma raise_mode_safe st r :
  In r known -> mode_safe (st_faults st) (st_mode st) ->
  mode_safe (st_faults (raise_pure st r)) (st_mode (raise_pure st r)).
Proof.
  intros Hr (Hm & Hall & Hlead & Hstop). pose proof (estop_blocks (st_faults st)) as Hb.
  unfold raise_pure, mode_safe, lowered. cbn [with_status st_faults st_mode].
  rewrite !has_lor_l. clear - Hr Hm Hall Hlead Hstop Hb.
  generalize dependent (st_mode st). generalize dependent (st_faults st). clear st.
  intros f Hb m Hm Hall Hlead Hstop. cbn in Hr, Hm.
  destruct Hr as [<-|[<-|[<-|[<-|[<-|[<-|[]]]]]]]; cbn [fst snd];
    destruct Hm as [<-|[<-|[<-|[<-|[]]]]];
    destruct (has f (Z.lor SO101_F_STALL SO101_F_ESTOP));
    destruct (has f F_BLOCK_ALL); destruct (has f SO101_F_LEADER_COMM);
    vm_compute in Hall, Hlead, Hstop, Hb |- *; intuition (try congruence).
Qed.

(** ** Faults and the ladder of modes *)

Lemma has_raise_all rs : forall st b,
  has (st_faults (raise_all st rs)) b = has (st_faults st) b || existsb (fun r => has r.1 b) rs.
Proof.
  induction rs as [|r rs IH]; intros st b; cbn; [by rewrite orb_false_r|].
  unfold raise_all in IH. rewrite IH. unfold raise_pure. cbn [with_status st_faults].
  by rewrite has_lor_l, orb_assoc.
Qed.

Lemma existsb_if {A} (p : A -> bool) (b : bool) x :
  existsb p (if b then [x] else []) = b && p x.
Proof. destruct b; cbn; [by rewrite orb_false_r|done]. Qed.

Definition stall_seen (k : sup) (smp : so101_sample) (now : Z) : bool :=
  (s_cycle smp =? last_cycle k) && (STALL_MS <? now - last_advance k).

(** Which check raises which fault. *)
Definition cause (c : so101d_ctx) (k : sup) (smp : so101_sample) (now b : Z) : bool :=
  stall_seen k smp now && has SO101_F_STALL b ||
  (comm_streak c <=? s_leader_streak smp) && has SO101_F_LEADER_COMM b ||
  (comm_streak c <=? s_follower_streak smp) && has SO101_F_FOLLOWER_COMM b ||
  s_follower_ok smp && (PERSIST_TICKS <=? ticks_after true (hot c smp) (temp_ticks k)) && has SO101_F_OVERTEMP b ||
  s_follower_ok smp && (PERSIST_TICKS <=? ticks_after true (badv c smp) (volt_ticks k)) && has SO101_F_VOLTAGE b ||
  (1000 <=? now - ovr_t0 k) && (OVERRUN_PER_S <? u32 (s_overruns smp - ovr_base k)) && has SO101_F_OVERRUN b.

Lemma raises_cause c k smp now b :
  existsb (fun r => has r.1 b) (raises c k smp now) = cause c k smp now b.
Proof.
  unfold raises, raises_stall, raises_comm, raises_health, raises_overrun, cause, stall_seen.
  rewrite !existsb_app. destruct (s_cycle smp =? last_cycle k); cbn [negb andb];
    destruct (s_follower_ok smp); cbn [andb]; rewrite ?existsb_app, !existsb_if; cbn [existsb fst];
    rewrite ?orb_false_l, ?orb_false_r, ?orb_assoc; done.
Qed.

Definition rank (m : Z) : Z :=
  if m =? SO101_MODE_TELEOP then 3 else if m =? SO101_MODE_HOLD then 2
  else if m =? SO101_MODE_IDLE then 1 else 0.

Lemma rank_lowered safe m :
  In safe [SO101_MODE_IDLE; SO101_MODE_HOLD; SO101_MODE_ESTOP] ->
  In m [SO101_MODE_IDLE; SO101_MODE_TELEOP; SO101_MODE_HOLD; SO101_MODE_ESTOP] ->
  rank (lowered safe m) <= rank m.
Proof.
  intros [<-|[<-|[<-|[]]]] [<-|[<-|[<-|[<-|[]]]]]; by vm_compute.
Qed.

(** From [m0] down. *)
Definition below (m0 f m : Z) : Prop := mode_safe f m /\ rank m <= rank m0.

Lemma raise_below m0 st r :
  In r known -> below m0 (st_faults st) (st_mode st) ->
  below m0 (st_faults (raise_pure st r)) (st_mode (raise_pure st r)).
Proof.
  intros Hr [Hs Hm]. split; [by apply raise_mode_safe|]. etransitivity; [|exact Hm].
  destruct Hs as (Hin & _). unfold raise_pure. cbn [with_status st_mode].
  cbn in Hr. destruct Hr as [<-|[<-|[<-|[<-|[<-|[<-|[]]]]]]]; cbn [snd]; try done;
    (apply rank_lowered; [cbn; tauto|done]).
Qed.

(** ** The properties *)

(** Instances of the refinement of a number of turns. *)
Definition anything (cmd : so101_cmd) (smp : so101_sample) : Prop := True.

Lemma turns_with I c n k s :
  turns_fit n k -> I (sh_cmd s) (sh_sample s) ->
  holds (env_with I) sup_step (sup_turns n c k) s (turned I False c n k (status_of s) (clock_ms s)).
Proof.
  intros Hn HI. apply (turns_refine (env_with I) I False); try done; by intros s1 s2 [].
Qed.

Lemma supervise_with I c k s :
  ticks_fit k -> I (sh_cmd s) (sh_sample s) ->
  holds (env_with I) sup_step (supervise c k) s
    (fun k' s' => exists i st', sup_model c (k, status_of s) i = (k', st') /\ clock_ms s <= in_now i /\
       input_ok I False (status_of s) i /\ shows I False st' (in_now i) s').
Proof.
  intros Hn HI. apply (supervise_refines (env_with I) I False); try done; by intros s1 s2 [].
Qed.

(** From the start of the thread, after any number of its turns and whatever
    commands came in: a latched fault that forbids torque keeps the requested mode at
    IDLE or ESTOP, a latched leader fault keeps it out of TELEOP, and the mode is
    ESTOP exactly while an emergency stop or a stall is latched. *)
Theorem modes_are_safe c n s :
  Z.of_nat n <= 0x7FFFFFFF -> mode_safe (sh_faults s) (sh_mode_req s) ->
  holds sup_env sup_step (supervisor_turns n c) s
    (fun _ s' => mode_safe (sh_faults s') (sh_mode_req s')).
Proof.
  intros Hn Hs. eapply holds_mono;
    [|apply (supervisor_turns_refine sup_env anything False (fun _ _ H => H) (fun _ _ _ _ => Logic.I)
        (fun _ _ _ l => match l with end) c n (status_of s) (clock_ms s) s Hn
        (shows_self anything False s Logic.I))].
  intros k' s' (t1 & t2 & t3 & _ & _ & l & st' & _ & Hp & Hf & Hsh).
  pose proof (model_inv c anything False mode_safe) as Hinv.
  specialize (Hinv (fun st cmd _ => serve_mode_safe st cmd) raise_mode_safe l _ _ Hp Hs).
  rewrite Hf in Hinv. destruct Hsh as (-> & Ha & _).
  eapply mode_safe_agree; [|exact Hinv]. by symmetry.
Qed.

Definition not_reset (cmd : so101_cmd) (smp : so101_sample) : Prop := cmd_cmd cmd <> SO101_CMD_RESET.

Lemma serve_latched f0 st cmd :
  cmd_cmd cmd <> SO101_CMD_RESET ->
  (forall bits, has f0 bits = true -> has (st_faults st) bits = true) ->
  forall bits, has f0 bits = true -> has (st_faults (serve_pure cmd st).2) bits = true.
Proof.
  intros Hc H bits Hb. specialize (H bits Hb). unfold serve_pure.
  destruct (Z.eqb_spec (cmd_cmd cmd) SO101_CMD_RESET); [done|].
  destruct (cmd_cmd cmd =? SO101_CMD_ESTOP) eqn:Ee.
  - destruct (cmd_cmd cmd =? SO101_CMD_SET_MODE) eqn:Es.
    { apply Z.eqb_eq in Ee, Es. by rewrite Ee in Es. }
    cbn. by rewrite has_lor_l, H.
  - repeat match goal with |- context [if ?b then _ else _] => destruct b end; exact H.
Qed.

(** C19: The supervisor's faults are latched: as long as no client sends RESET, after any
    number of turns every fault that was set still is -- but TORQUE_REFUSED, bit 7, which
    the control thread itself takes back once torque is on -- and an emergency stop or
    stall still holds the mode at ESTOP. *)
Theorem faults_latch c n k s :
  turns_fit n k -> not_reset (sh_cmd s) (sh_sample s) -> mode_safe (sh_faults s) (sh_mode_req s) ->
  holds (env_with not_reset) sup_step (sup_turns n c k) s
    (fun _ s' =>
       (forall bits, Z.testbit bits 7 = false -> has (sh_faults s) bits = true -> has (sh_faults s') bits = true) /\
       (sh_mode_req s = SO101_MODE_ESTOP -> sh_mode_req s' = SO101_MODE_ESTOP)).
Proof.
  intros Hn HI Hs. eapply holds_mono; [|by apply (turns_with not_reset)].
  intros k' s' (l & st' & _ & Hp & Hf & Hsh).
  set (P f m := mode_safe f m /\ forall bits, has (sh_faults s) bits = true -> has f bits = true).
  assert (Hinv : P (st_faults st') (st_mode st')).
  { replace st' with (fold_left (sup_model c) l (k, status_of s)).2 by (by rewrite Hf).
    eapply (model_inv c not_reset False P); [| |exact Hp|by split].
    - intros st cmd [smp Hcmd] [H1 H2]. split; [by apply serve_mode_safe|by apply serve_latched].
    - intros st r Hr [H1 H2]. split; [by apply raise_mode_safe|].
      intros bits Hb. cbn. by rewrite has_lor_l, H2. }
  destruct Hinv as [Hsafe Hlatch], Hsh as (-> & Ha & _). split.
  - intros bits H7 Hb. rewrite (has_agree _ (st_faults st')); auto.
  - intros Hm. apply Hsafe, Hlatch. by apply Hs.
Qed.

Definition no_promotion (cmd : so101_cmd) (smp : so101_sample) : Prop :=
  cmd_cmd cmd <> SO101_CMD_RESET /\ cmd_cmd cmd <> SO101_CMD_SET_MODE.

(** The supervisor never raises the mode by itself: as long as no client sends
    SET_MODE or RESET, after any number of turns the mode is where it was or lower, on
    the ladder TELEOP, HOLD, IDLE, ESTOP. *)
Theorem only_commands_raise_mode c n k s :
  turns_fit n k -> no_promotion (sh_cmd s) (sh_sample s) -> mode_safe (sh_faults s) (sh_mode_req s) ->
  holds (env_with no_promotion) sup_step (sup_turns n c k) s
    (fun _ s' => rank (sh_mode_req s') <= rank (sh_mode_req s)).
Proof.
  intros Hn HI Hs. eapply holds_mono; [|by apply (turns_with no_promotion)].
  intros k' s' (l & st' & _ & Hp & Hf & Hsh).
  destruct Hsh as (-> & _ & _).
  replace st' with (fold_left (sup_model c) l (k, status_of s)).2 by (by rewrite Hf).
  eapply (model_inv c no_promotion False (below (sh_mode_req s))); [| |exact Hp|by split].
  - intros st cmd (smp & Hr & Hset) [H1 H2]. split; [by apply serve_mode_safe|].
    etransitivity; [|exact H2]. unfold serve_pure.
    destruct (Z.eqb_spec (cmd_cmd cmd) SO101_CMD_SET_MODE); [done|].
    destruct (Z.eqb_spec (cmd_cmd cmd) SO101_CMD_RESET); [done|].
    destruct (cmd_cmd cmd =? SO101_CMD_ESTOP); [|by destruct (cmd_cmd cmd =? SO101_CMD_PING)].
    change (0 <= rank (st_mode st)). unfold rank. repeat case_match; lia.
  - intros st r. apply raise_below.
Qed.

(** ** What a command leaves alone *)

Lemma serve_pure_beat cmd st :
  st_beat (serve_pure cmd st).2 = st_beat st /\ st_lock (serve_pure cmd st).2 = st_lock st /\
  st_ready (serve_pure cmd st).2 = st_ready st.
Proof.
  unfold serve_pure. by repeat match goal with |- context [if ?b then _ else _] => destruct b end.
Qed.

Lemma tick_beat served v now lz st : st_beat (tick_pure served v now lz st) = st_beat st.
Proof.
  destruct served as [cmd|]; [|done]. unfold tick_pure.
  pose proof (serve_pure_beat cmd st) as (H & _). by destruct (serve_pure cmd st).
Qed.

Lemma raise_all_beat rs : forall st, st_beat (raise_all st rs) = st_beat st.
Proof. induction rs as [|r rs IH]; intros st; [done|]. unfold raise_all in *. cbn. by rewrite IH. Qed.

Lemma turns_fit_le n m k : (n <= m)%nat -> turns_fit m k -> turns_fit n k.
Proof. unfold turns_fit. lia. Qed.

Lemma turns_fit_fold c l : forall m k st,
  turns_fit (length l + m) k -> turns_fit m (fold_left (sup_model c) l (k, st)).1.
Proof.
  induction l as [|i l IH]; intros m k st H; [done|]. cbn [fold_left].
  apply (turns_fit_step (length l + m) c k st i) in H as [_ H].
  destruct (sup_model c (k, st) i) as [k1 st1]. by apply IH.
Qed.

(** ** The mailbox *)

Lemma supervise_quiet c k s :
  ticks_fit k ->
  let I cmd (_ : so101_sample) := cmd = sh_cmd s in
  holds env_quiet sup_step (supervise c k) s
    (fun k' s' => exists i st', sup_model c (k, status_of s) i = (k', st') /\ clock_ms s <= in_now i /\
       input_ok I True (status_of s) i /\ shows I True st' (in_now i) s').
Proof.
  intros Hk I. apply (supervise_refines env_quiet I True); try done; [by intros s1 s2 []| |].
  - intros s1 s2 (_ & -> & _) H. exact H.
  - intros s1 s2 (_ & _ & -> & ->). done.
Qed.

(** The modes a client may ask for, and the faults that stand in the way: none of IDLE,
    the five that forbid torque of HOLD, and that of the leader too of TELEOP. *)
Definition torque_faults : list Z :=
  [SO101_F_FOLLOWER_COMM; SO101_F_OVERTEMP; SO101_F_VOLTAGE; SO101_F_STALL; SO101_F_ESTOP].
Definition obstacles (arg : Z) : option (list Z) :=
  if arg =? SO101_MODE_IDLE then Some []
  else if arg =? SO101_MODE_HOLD then Some torque_faults
  else if arg =? SO101_MODE_TELEOP then Some (SO101_F_LEADER_COMM :: torque_faults)
  else None.

(** The answer a command gets, by the faults and the mode it meets. *)
Definition verdict (f m : Z) (cmd : so101_cmd) : Z :=
  if cmd_cmd cmd =? SO101_CMD_SET_MODE then
    match obstacles (cmd_arg cmd) with
    | None => SO101_RES_BAD_CMD
    | Some bad =>
        if existsb (has f) bad || (cmd_arg cmd =? SO101_MODE_IDLE) && (m =? SO101_MODE_ESTOP)
        then SO101_RES_REFUSED else SO101_RES_OK
    end
  else if existsb (Z.eqb (cmd_cmd cmd)) [SO101_CMD_ESTOP; SO101_CMD_RESET; SO101_CMD_PING]
  then SO101_RES_OK else SO101_RES_BAD_CMD.

Lemma torque_faults_block f : existsb (has f) torque_faults = has f F_BLOCK_ALL.
Proof. unfold F_BLOCK_ALL. rewrite !has_lor. cbn. by rewrite orb_false_r, !orb_assoc. Qed.

Lemma serve_verdict cmd st : (serve_pure cmd st).1 = verdict (st_faults st) (st_mode st) cmd.
Proof.
  unfold serve_pure, verdict, obstacles. cbn [existsb].
  destruct (cmd_cmd cmd =? SO101_CMD_SET_MODE).
  { destruct (Z.eqb_spec (cmd_arg cmd) SO101_MODE_IDLE); cbn [existsb orb andb].
    { by destruct (st_mode st =? SO101_MODE_ESTOP). }
    destruct (Z.eqb_spec (cmd_arg cmd) SO101_MODE_HOLD) as [->|]; rewrite ?orb_false_r.
    { rewrite torque_faults_block. by destruct (has (st_faults st) F_BLOCK_ALL). }
    destruct (cmd_arg cmd =? SO101_MODE_TELEOP); [|done].
    cbn [existsb]. rewrite torque_faults_block, block_teleop, orb_false_r, orb_comm.
    by destruct (_ || _). }
  repeat match goal with |- context [if ?b then _ else _] => destruct b; cbn [fst orb] end; done.
Qed.

Lemma raise_all_ready rs : forall st,
  st_ready (raise_all st rs) = st_ready st /\ st_lock (raise_all st rs) = st_lock st /\
  st_ack (raise_all st rs) = st_ack st.
Proof.
  induction rs as [|r rs IH]; intros st; [done|]. unfold raise_all in *. cbn.
  destruct (IH (raise_pure st r)) as (-> & -> & ->). done.
Qed.

(** What a turn leaves of the mailbox. *)
Lemma model_mailbox c k st i :
  let st1 := tick_pure (in_cmd i) (in_lock i) (in_now i) (lock_zero_since k) st in
  let r := sup_model c (k, st) i in
  st_ready r.2 = st_ready st1 /\ st_lock r.2 = st_lock st1 /\ st_ack r.2 = st_ack st1 /\
  lock_zero_since r.1 = next_lz (in_cmd i) (in_lock i) (in_now i) (lock_zero_since k).
Proof.
  unfold sup_model. destruct (in_smp i); [|done].
  cbn [snd fst beat st_ready st_lock st_ack sup_checked lock_zero_since].
  destruct (raise_all_ready (raises c k s (in_now i))
    (tick_pure (in_cmd i) (in_lock i) (in_now i) (lock_zero_since k) st)) as (-> & -> & ->). done.
Qed.

Lemma model_mode c k st i :
  mode_safe (st_faults st) (st_mode st) ->
  let st1 := tick_pure (in_cmd i) (in_lock i) (in_now i) (lock_zero_since k) st in
  let r := sup_model c (k, st) i in
  (mode_safe (st_faults r.2) (st_mode r.2) /\ rank (st_mode r.2) <= rank (st_mode st1)) /\
  forall b, has (st_faults st1) b = true -> has (st_faults r.2) b = true.
Proof.
  intros Hs. unfold sup_model.
  set (st1 := tick_pure (in_cmd i) (in_lock i) (in_now i) (lock_zero_since k) st).
  assert (H1 : mode_safe (st_faults st1) (st_mode st1)).
  { unfold st1, tick_pure. destruct (in_cmd i) as [cmd|]; [|done].
    pose proof (serve_mode_safe st cmd Hs) as H. by destruct (serve_pure cmd st). }
  destruct (in_smp i); [|done]. cbn zeta. cbn [snd beat st_mode st_faults]. split.
  - apply (raise_all_inv (below (st_mode st1)) (raise_below (st_mode st1))); [apply raises_known|by split].
  - intros b Hb. by rewrite has_raise_all, Hb.
Qed.

(** C8: Every command is served once and answered.  A client that holds the mailbox
    lock, has written its command and posted CMD_READY finds, after one turn, the
    semaphore taken, its own id in the answer and the verdict on its command: IDLE is
    refused in ESTOP only, HOLD when a fault that forbids torque is latched, TELEOP then
    or when the leader's is, and an unknown command or mode is a bad one.  (OVERRUN and
    TORQUE_REFUSED refuse nothing, where docs/INTERFACE.md says that any fault refuses
    TELEOP and any but the leader's HOLD.)  The mode is no higher than the command (or,
    refused, the mode before) allows; and an ESTOP is never refused: ESTOP is then
    requested and latched. *)
Theorem command_answered c k s :
  ticks_fit k -> 0 < sh_ready s -> mode_safe (sh_faults s) (sh_mode_req s) ->
  let cmd := sh_cmd s in
  let res := verdict (sh_faults s) (sh_mode_req s) cmd in
  holds env_quiet sup_step (supervise c k) s (fun _ s' =>
    sh_ready s' = sh_ready s - 1 /\
    sh_ack s' = mk_ack (cmd_id cmd) res /\
    (cmd_cmd cmd = SO101_CMD_SET_MODE ->
       rank (sh_mode_req s') <= rank (if res =? SO101_RES_OK then cmd_arg cmd else sh_mode_req s)) /\
    (cmd_cmd cmd = SO101_CMD_RESET -> rank (sh_mode_req s') <= rank SO101_MODE_IDLE) /\
    (cmd_cmd cmd = SO101_CMD_ESTOP ->
       res = SO101_RES_OK /\ sh_mode_req s' = SO101_MODE_ESTOP /\ has (sh_faults s') SO101_F_ESTOP = true)).
Proof.
  intros Hk Hready Hs cmd res. eapply holds_mono; [|by apply supervise_quiet].
  intros k' s' (i & st' & Hm & _ & [Hsaw _] & Hsh).
  destruct Hsh as (Hmode & Ha & Hack & _ & _ & _ & Hsem).
  pose proof (model_mailbox c k (status_of s) i) as Hbox.
  pose proof (model_mode c k (status_of s) i Hs) as Hlad. rewrite Hm in Hbox, Hlad.
  destruct (in_cmd i) as [cmd'|]; [|destruct (Hsaw Logic.I) as [H _]; cbn in H; lia].
  destruct Hsaw as [[smp ->] _]. fold cmd in Hbox, Hlad.
  pose proof (serve_verdict cmd (status_of s)) as Hv. cbn [st_faults st_mode status_of] in Hv. fold res in Hv.
  pose proof (serve_pure_beat cmd (status_of s)) as (_ & _ & Hr).
  assert (Hset : cmd_cmd cmd = SO101_CMD_SET_MODE ->
    st_mode (serve_pure cmd (status_of s)).2 = if res =? SO101_RES_OK then cmd_arg cmd else sh_mode_req s).
  { intros E. rewrite <- Hv. unfold serve_pure. rewrite E. cbn [status_of st_faults st_mode].
    rewrite Z.eqb_refl.
    destruct (Z.eqb_spec (cmd_arg cmd) SO101_MODE_IDLE) as [->|]; [by destruct (_ =? SO101_MODE_ESTOP)|].
    destruct (Z.eqb_spec (cmd_arg cmd) SO101_MODE_TELEOP) as [->|]; [by destruct (has _ _)|].
    destruct (Z.eqb_spec (cmd_arg cmd) SO101_MODE_HOLD) as [->|]; [by destruct (has _ _)|done]. }
  assert (Hreset : cmd_cmd cmd = SO101_CMD_RESET -> st_mode (serve_pure cmd (status_of s)).2 = SO101_MODE_IDLE)
    by (intros E; unfold serve_pure; by rewrite E).
  assert (Hstop : cmd_cmd cmd = SO101_CMD_ESTOP -> res = SO101_RES_OK /\
    st_mode (serve_pure cmd (status_of s)).2 = SO101_MODE_ESTOP /\
    has (st_faults (serve_pure cmd (status_of s)).2) SO101_F_ESTOP = true).
  { intros E. unfold res, verdict, serve_pure. rewrite E. split; [done|]. split; [done|].
    cbn. by rewrite has_lor_l, orb_true_r. }
  unfold tick_pure in Hbox, Hlad. destruct (serve_pure cmd (status_of s)) as [res' st1].
  cbn [fst snd status_of st_ready st_lock st_ack st_mode st_faults] in *. subst res'.
  destruct Hbox as (B1 & B2 & B3 & _), Hlad as [[L0 L1] L2], (Hsem Logic.I) as [_ S2].
  rewrite Hmode, S2, Hack, B1, B3, Hr. split; [done|]. split; [done|].
  split; [intros E; by rewrite <- Hset|]. split; [intros E; by rewrite <- Hreset|].
  intros E. destruct (Hstop E) as (R1 & R2 & R3). split; [done|]. split.
  - apply L0. by rewrite has_lor, (L2 SO101_F_ESTOP R3), orb_true_r.
  - rewrite (has_agree _ (st_faults st')) by done. by apply L2.
Qed.

Lemma turns_quiet c n k s :
  turns_fit n k ->
  holds env_quiet sup_step (sup_turns n c k) s (turned anything True c n k (status_of s) (clock_ms s)).
Proof.
  intros Hk. apply (turns_refine env_quiet anything True); try done; [by intros s1 s2 []|].
  by intros s1 s2 (_ & _ & -> & ->).
Qed.

Section Stuck.
(** The mailbox is held, and nobody posts; [lo] and [hi] bound the time at which it
    was first seen so. *)
Context (lock0 lo hi : Z) (Hlock0 : lock0 <= 0).

Definition stuck_inv (t : Z) (ks : sup * status) : Prop :=
  (lock0 < st_lock ks.2 /\ lo + LOCK_STUCK_MS < t) \/
  (st_lock ks.2 = lock0 /\ st_ready ks.2 <= 0 /\ 0 <= lo /\ lo <= lock_zero_since ks.1 <= hi).

Lemma tick_lock_grows served v now lz st : st_lock st <= st_lock (tick_pure served v now lz st).
Proof.
  unfold tick_pure. destruct served as [cmd|].
  - pose proof (serve_pure_beat cmd st) as (_ & H & _). destruct (serve_pure cmd st). cbn in *. lia.
  - cbn. destruct (stuck v now lz); lia.
Qed.

Lemma stuck_step c k st t i :
  t <= in_now i -> input_ok anything True st i -> stuck_inv t (k, st) ->
  stuck_inv (in_now i) (sup_model c (k, st) i) /\
  (hi + LOCK_STUCK_MS < in_now i -> lock0 < st_lock (sup_model c (k, st) i).2).
Proof.
  intros Ht [Hsaw _] Hinv. pose proof (model_mailbox c k st i) as (R & Lk & _ & Lz).
  unfold stuck_inv. rewrite R, Lk, Lz. clear R Lk Lz. destruct Hinv as [[H1 H2]|(H1 & H2 & H3 & H4)]; cbn [fst snd] in *.
  - pose proof (tick_lock_grows (in_cmd i) (in_lock i) (in_now i) (lock_zero_since k) st).
    split; [left; lia|lia].
  - destruct (in_cmd i) as [cmd|]; [destruct Hsaw as [_ H]; specialize (H Logic.I); lia|].
    destruct (Hsaw Logic.I) as [_ ->]. cbn [tick_pure next_lz st_lock st_ready].
    unfold stuck. rewrite H1. destruct (Z.ltb_spec 0 lock0), (Z.ltb_spec (lock_zero_since k) 0); try lia.
    cbn [negb andb]. destruct (Z.ltb_spec LOCK_STUCK_MS (in_now i - lock_zero_since k)); lia.
Qed.

Lemma stuck_turns c l : forall k st t,
  possible anything True c (k, st) t l -> stuck_inv t (k, st) ->
  stuck_inv (time_after t l) (fold_left (sup_model c) l (k, st)).
Proof.
  induction l as [|i l IH]; intros k st t Hp Hinv; [done|]. destruct Hp as (Ht & Hi & Hp).
  cbn [fold_left time_after]. pose proof (stuck_step c k st t i Ht Hi Hinv) as [H _].
  destruct (sup_model c (k, st) i). by eapply IH.
Qed.
End Stuck.

Lemma supervise_anything c k s :
  ticks_fit k ->
  holds env_quiet sup_step (supervise c k) s
    (fun k' s' => exists i st', sup_model c (k, status_of s) i = (k', st') /\ clock_ms s <= in_now i /\
       input_ok anything True (status_of s) i /\ shows anything True st' (in_now i) s').
Proof.
  intros Hk. apply (supervise_refines env_quiet anything True); try done; [by intros s1 s2 []|].
  by intros s1 s2 (_ & _ & -> & ->).
Qed.

(** C37: A client that dies while it holds the mailbox blocks the others for about two
    seconds only.  When CMD_LOCK is held and nobody posts it or CMD_READY: from a turn
    that starts to watch it, the lock is not released before 2 s have passed, and every
    turn that starts more than 2 s after that one has ended leaves it released. *)
Theorem mailbox_recovered c n k s :
  turns_fit (S (S n)) k -> 0 <= clock_ms s -> sh_ready s <= 0 -> sh_lock s <= 0 -> lock_zero_since k < 0 ->
  holds env_quiet sup_step (supervise c k) s (fun k1 s1 =>
    holds env_quiet sup_step (sup_turns n c k1) s1 (fun k2 s2 =>
      (clock_ms s2 <= clock_ms s + LOCK_STUCK_MS -> sh_lock s2 = sh_lock s) /\
      (clock_ms s1 + LOCK_STUCK_MS < clock_ms s2 ->
       holds env_quiet sup_step (supervise c k2) s2 (fun _ s3 => sh_lock s < sh_lock s3)))).
Proof.
  intros Hn Ht Hready Hlock Hlz.
  pose proof (turns_fit_step (S n) c k (status_of s)) as Hfit.
  eapply holds_mono; [|apply supervise_anything; by apply (Hfit (mk_input None 0 0 None))].
  intros k1 s1 (i & st1 & Hm1 & Hi & [Hsaw _] & Hsh1).
  pose proof (Hfit i Hn) as [_ Hn1]. rewrite Hm1 in Hn1. cbn [fst] in Hn1.
  pose proof (model_mailbox c k (status_of s) i) as (R & Lk & _ & Lz). rewrite Hm1 in R, Lk, Lz.
  destruct (in_cmd i) as [cmd|]; [destruct Hsaw as [_ H]; specialize (H Logic.I); cbn in H; lia|].
  destruct (Hsaw Logic.I) as [_ Hv]. cbn [status_of st_lock st_ready tick_pure next_lz fst snd] in *.
  unfold stuck in Lk. rewrite Hv in Lk, Lz.
  destruct (Z.ltb_spec 0 (sh_lock s)), (Z.ltb_spec (lock_zero_since k) 0); try lia. cbn [negb andb] in Lk.
  destruct Hsh1 as (_ & _ & _ & _ & Hnow1 & _ & Hsem1). destruct (Hsem1 Logic.I) as [Sl Sr].
  eapply holds_mono; [|apply turns_quiet; by apply (turns_fit_le n (S n)); [lia|]].
  intros k2 s2 (l & st2 & Hl & Hp & Hf & Hsh2).
  assert (Hinv : stuck_inv (sh_lock s) (clock_ms s) (clock_ms s1) (clock_ms s1) (k1, status_of s1)).
  { right. cbn. lia. }
  apply (stuck_turns _ _ _ Hlock c l) in Hinv; [|exact Hp]. rewrite Hf in Hinv.
  destruct Hsh2 as (_ & _ & _ & _ & Hnow2 & _ & Hsem2). destruct (Hsem2 Logic.I) as [Sl2 Sr2].
  split.
  { intros Hearly. rewrite Sl2. destruct Hinv as [[_ Hl2]|[Hl2 _]]; [lia|exact Hl2]. }
  intros Hlate.
  pose proof (turns_fit_fold c l 1 k1 (status_of s1)) as Hn2. rewrite Hf in Hn2. cbn [fst] in Hn2.
  replace (length l + 1)%nat with (S n) in Hn2 by lia.
  eapply holds_mono; [|apply supervise_anything].
  2:{ by apply (turns_fit_step 0 c k2 (status_of s2) (mk_input None 0 0 None)), Hn2. }
  intros k3 s3 (i3 & st3 & Hm3 & Hi3 & Hin3 & Hsh3).
  assert (Hinv2 : stuck_inv (sh_lock s) (clock_ms s) (clock_ms s1) (clock_ms s2) (k2, status_of s2)).
  { unfold stuck_inv in *. cbn [fst snd status_of st_lock st_ready] in *. rewrite Sl2, Sr2. lia. }
  destruct (stuck_step _ _ _ Hlock c k2 (status_of s2) _ i3 Hi3 Hin3 Hinv2) as [_ Hfree].
  rewrite Hm3 in Hfree. destruct Hsh3 as (_ & _ & _ & _ & _ & _ & Hsem3). destruct (Hsem3 Logic.I) as [-> _].
  apply Hfree. lia.
Qed.

(** ** Witnesses *)

Section Play.
(** Nobody interferes; the run flag stays up for a given number of turns. *)
Definition play (R : Type) (e : sup_ev R) : M (nat * shared) R := fun t =>
  let (n, s) := t in
  match e in sup_ev R return option (R * (nat * shared)) with
  | SupLoadRun => match n with O => Some (false, (O, s)) | S n => Some (true, (n, s)) end
  | RealTime => Some (mk_timespec 0 0, (n, s))
  | MonoTime => Some (mk_timespec (sh_clock s / 1000000000) (sh_clock s mod 1000000000), (n, s))
  | TimedWait _ =>
      if 0 <? sh_ready s then Some (true, (n, set_ready (sh_ready s - 1) s)) else Some (false, (n, s))
  | ReadCmd => Some (sh_cmd s, (n, s))
  | FetchOrFaults bits => Some (sh_faults s, (n, set_faults (Z.lor (sh_faults s) bits) s))
  | ReadFaults => Some (sh_faults s, (n, s))
  | StoreFaults v => Some (tt, (n, set_faults v s))
  | ReadModeReq => Some (sh_mode_req s, (n, s))
  | StoreModeReq v => Some (tt, (n, set_mode_req v s))
  | StoreAckResult v => Some (tt, (n, set_ack (mk_ack (ack_id (sh_ack s)) v) s))
  | StoreAckId v => Some (tt, (n, set_ack (mk_ack v (ack_result (sh_ack s))) s))
  | GetLockValue => Some (sh_lock s, (n, s))
  | PostLock => Some (tt, (n, set_lock (sh_lock s + 1) s))
  | ReadSnapshot _ => Some (Some (sh_sample s), (n, s))
  | AddBeat => Some (tt, (n, set_beat (u64 (sh_sup_beat s + 1)) s))
  | Log _ => Some (tt, (n, s))
  end.

Lemma play_steps R e t r t' : play R e t = Some (r, t') -> sup_step R e t.2 r t'.2.
Proof.
  destruct t as [n s]. destruct e; cbn -[Z.div Z.modulo Z.ltb]; intros H.
  all: try (injection H as <- <-; cbn; try done; try (split; [done|]); try lia).
  - destruct n; injection H as <- <-; done.
  - pose proof (Z.mod_pos_bound (sh_clock s) 1000000000 ltac:(lia)).
    split; [lia|]. pose proof (Z.div_mod (sh_clock s) 1000000000). lia.
  - destruct (Z.ltb_spec 0 (sh_ready s)); injection H as <- <-; [done|]. split; [lia|done].
  - split; [by right|done].
Qed.

Lemma play_run {A} (p : prog sup_ev A) n s a n' s' :
  interp play p (n, s) = Some (a, (n', s')) -> shared_run sup_env sup_step p s a s'.
Proof.
  intros H. apply (interp_shared_run sup_env sup_step play snd p) in H; [done| |apply play_steps].
  intros s0. reflexivity.
Qed.

(** TELEOP, an ESTOP command waiting in the mailbox. *)
Definition estop_cmd : so101_cmd := mk_cmd 77 SO101_CMD_ESTOP 0 1234.
Definition teleop_state : shared :=
  mk_shared SO101_MODE_TELEOP 0 0 estop_cmd (mk_ack 0 0) 0 1 sample_zero 5000000000.
Definition some_ctx : so101d_ctx := default_ctx [] [].

(** The same, an idle mailbox. *)
Definition idle_state : shared :=
  mk_shared SO101_MODE_TELEOP 0 0 (mk_cmd 76 SO101_CMD_PING 0 1234) (mk_ack 0 0) 1 0 sample_zero 5000000000.
Definition fresh_sup : sup := sup_init 5000 5000 5000.
End Play.

Lemma fresh_fit n : Z.of_nat n <= 0x7FFFFFFF -> turns_fit n fresh_sup.
Proof. unfold turns_fit. cbn. lia. Qed.

Lemma start_safe : mode_safe 0 SO101_MODE_TELEOP.
Proof. split; [by right; left|]. by split_and!. Qed.

Lemma modes_are_safe_witness :
  mode_safe (sh_faults teleop_state) (sh_mode_req teleop_state) /\
  holds sup_env sup_step (supervisor_turns 100 some_ctx) teleop_state
    (fun _ s' => mode_safe (sh_faults s') (sh_mode_req s')).
Proof. split; [exact start_safe|]. apply (modes_are_safe some_ctx 100); [lia|exact start_safe]. Defined.

Lemma faults_latch_witness :
  let s := set_faults (Z.lor SO101_F_ESTOP SO101_F_VOLTAGE) (set_mode_req SO101_MODE_ESTOP teleop_state) in
  holds (env_with not_reset) sup_step (sup_turns 100 some_ctx fresh_sup) s
    (fun _ s' =>
       (forall bits, Z.testbit bits 7 = false -> has (sh_faults s) bits = true -> has (sh_faults s') bits = true) /\
       (sh_mode_req s = SO101_MODE_ESTOP -> sh_mode_req s' = SO101_MODE_ESTOP)).
Proof.
  intros s. apply (faults_latch some_ctx 100 fresh_sup s); [by apply fresh_fit|done|].
  split; [by do 3 right; left|]. split; [by right|]. by split_and!.
Defined.

Lemma only_commands_raise_mode_witness :
  holds (env_with no_promotion) sup_step (sup_turns 100 some_ctx fresh_sup) teleop_state
    (fun _ s' => rank (sh_mode_req s') <= 3).
Proof.
  apply (only_commands_raise_mode some_ctx 100 fresh_sup teleop_state);
    [by apply fresh_fit|by split|exact start_safe].
Defined.

Lemma command_answered_witness :
  holds env_quiet sup_step (supervise some_ctx fresh_sup) teleop_state (fun _ s' =>
    sh_ready s' = 0 /\ sh_ack s' = mk_ack 77 SO101_RES_OK /\ sh_mode_req s' = SO101_MODE_ESTOP).
Proof.
  pose proof (command_answered some_ctx fresh_sup teleop_state (conj eq_refl eq_refl) eq_refl start_safe) as H.
  eapply holds_mono; [|exact H]. intros k' s' (H1 & H2 & _ & _ & H3). by destruct (H3 eq_refl) as (_ & -> & _).
Defined.

Lemma mailbox_recovered_witness :
  let dead := set_lock 0 idle_state in
  holds env_quiet sup_step (supervise some_ctx fresh_sup) dead (fun k1 s1 =>
    holds env_quiet sup_step (sup_turns 200 some_ctx k1) s1 (fun k2 s2 =>
      (clock_ms s2 <= 5000 + LOCK_STUCK_MS -> sh_lock s2 = 0) /\
      (clock_ms s1 + LOCK_STUCK_MS < clock_ms s2 ->
       holds env_quiet sup_step (supervise some_ctx k2) s2 (fun _ s3 => 0 < sh_lock s3)))).
Proof.
  intros dead. apply (mailbox_recovered some_ctx 200 fresh_sup dead); [by apply fresh_fit|done..].
Defined.
