(* ===== verification/SupervisorTrace.v ===== *)
(** * The supervisor by its trace

    What the supervisor does, told by what its own operations returned: [inputs] reads
    off a trace the commands served, the values of CMD_LOCK, the times and the
    snapshots, turn by turn, and the theorems say what these make of the faults, the
    mode, the answer and the beat. *)

From stdpp Require Import strings.
From S2P Require Import Prelude Os Shm Ctx Prog Supervisor SupervisorProps SupervisorThms.

(** ** The inputs of a trace *)

Definition ms_of (t : timespec) : Z := tv_sec t * 1000 + Z.quot (tv_nsec t) 1000000.

Definition see {R} (e : sup_ev R) : R -> input -> input :=
  match e in sup_ev R return R -> input -> input with
  | MonoTime => fun t i => mk_input (in_cmd i) (in_lock i) (ms_of t) (in_smp i)
  | ReadCmd => fun c i => mk_input (Some c) (in_lock i) (in_now i) (in_smp i)
  | GetLockValue => fun v i => mk_input (in_cmd i) v (in_now i) (in_smp i)
  | ReadSnapshot _ => fun r i => mk_input (in_cmd i) (in_lock i) (in_now i) r
  | _ => fun _ i => i
  end.

(** The snapshot is the last a turn takes in. *)
Definition is_snapshot {R} (e : sup_ev R) : bool :=
  match e with ReadSnapshot _ => true | _ => false end.

Definition blank : input := mk_input None 0 0 None.

Fixpoint turns_from (i : input) (tr : list (obs sup_ev)) : list input :=
  match tr with
  | [] => []
  | Obs e r :: tr =>
      let i := see e r i in
      if is_snapshot e then i :: turns_from blank tr else turns_from i tr
  end.

(** What each turn took in, in order. *)
Definition inputs (tr : list (obs sup_ev)) : list input := turns_from blank tr.

(** The times read in a trace, and the locals after [supervisor_start]. *)
Definition time_of (o : obs sup_ev) : option Z :=
  match o with
  | Obs e r => match e in sup_ev R return R -> option Z with MonoTime => fun t => Some (ms_of t) | _ => fun _ => None end r
  end.
Definition start_of (tr : list (obs sup_ev)) : sup :=
  match omap time_of tr with a :: b :: d :: _ => sup_init a b d | _ => sup_init 0 0 0 end.

(** Operations that take nothing in. *)
Definition silent (R : Type) (e : sup_ev R) : Prop :=
  match e with MonoTime | ReadCmd | GetLockValue | ReadSnapshot _ => False | _ => True end.

Lemma turns_from_silent tr : forall i tr2,
  Forall (fun o => match o with Obs e _ => silent _ e end) tr ->
  turns_from i (tr ++ tr2) = turns_from i tr2.
Proof.
  induction tr as [|[R e r] tr IH]; intros i tr2 H; [done|].
  inversion H as [|? ? He Htr]; subst. cbn. destruct e; cbn in *; try done; by apply IH.
Qed.

Ltac silence :=
  repeat first [apply only_bind; [|intros ?] | apply only_do; exact Logic.I | apply only_ret
               | apply only_defined | progress unfold when | case_match].

Lemma raise_fault_silent bit force safe why : only silent (raise_fault bit force safe why).
Proof. unfold raise_fault. silence. Qed.

Lemma serve_command_silent cmd : only silent (serve_command cmd).
Proof. unfold serve_command. cbn zeta. silence. Qed.

Lemma when_silent b p : only silent p -> only silent (when b p).
Proof. by destruct b. Qed.

Lemma checks_silent c k smp now (lz : Z) :
  only silent (cyc ← check_stall k smp now;
      check_comm c k smp;;
      ticks ← check_health c k smp;
      ovr ← check_overrun k smp now;
      do AddBeat;;
      status ← log_changes k smp now;
      mret (mk_sup cyc.1 cyc.2 ticks.1 ticks.2 ovr.1 ovr.2 status lz
              (s_mode smp) (s_leader_streak smp) (s_follower_streak smp) (s_ramping smp))).
Proof.
  unfold check_stall, check_comm, check_health, check_overrun, log_changes.
  repeat first [simple apply only_bind; [|intros ?] | simple apply only_do; exact Logic.I
               | simple apply only_ret | simple apply only_defined | simple apply when_silent
               | simple apply raise_fault_silent | case_match].
Qed.

(** ** One turn *)

#[local] Abbreviation sees := (shows anything False).

Lemma env_any s s' : sup_env s s' -> anything (sh_cmd s) (sh_sample s) -> anything (sh_cmd s') (sh_sample s').
Proof. done. Qed.
Lemma env_none s s' : sup_env s s' -> False -> sh_lock s' = sh_lock s /\ sh_ready s' = sh_ready s.
Proof. done. Qed.

Lemma sees_env st t s s' : sees st t s -> sup_env s s' -> sees st t s'.
Proof. apply (shows_env sup_env anything False (fun _ _ H => H) env_any env_none). Qed.

Lemma traced_tick st t s lz tr r s' :
  sees st t s -> traced sup_env sup_step (serve_tick lz) s tr r s' ->
  exists served v,
    (forall now0 tr2, turns_from (mk_input None 0 now0 None) (tr ++ tr2) =
                      turns_from (mk_input served v r.1 None) tr2) /\
    r.2 = next_lz served v r.1 lz /\ t <= r.1 /\ sees (tick_pure served v r.1 lz st) r.1 s'.
Proof.
  intros Hs H. unfold serve_tick in H. apply traced_do in H as (s1 & dl & s2 & tr1 & -> & E1 & [-> _] & H); cbv beta in H.
  apply (sees_env _ _ _ _ Hs) in E1. apply traced_do in H as (s3 & got & s4 & tr2 & -> & E3 & Hgot & H); cbv beta in H.
  apply (sees_env _ _ _ _ E1) in E3.
  assert (H4 : sees (if got then mk_status (st_faults st) (st_mode st) (st_ack st) (st_beat st) (st_lock st)
    (st_ready st - 1) else st) t s4)
    by (cbn in Hgot; destruct got; destruct Hgot as [_ ->]; [by apply shows_ready|done]).
  apply traced_bind in H as (tr3 & tr4 & now & s5 & -> & Hnow & H).
  apply traced_do in Hnow as (s6 & x & s7 & tr5 & -> & E6 & [-> Hx] & -> & -> & ->).
  apply (sees_env _ _ _ _ H4) in E6. destruct (shows_time _ _ _ _ _ _ E6 Hx) as [Ht H5].
  fold (ms_of x) in *. cbv beta in H. destruct got; apply traced_do in H.
  - destruct H as (s8 & cmd & s9 & tr6 & -> & E8 & [-> ->] & H); cbv beta in H. apply (sees_env _ _ _ _ H5) in E8.
    exists (Some (sh_cmd s8)), 0.
    pose proof (holds_traced _ _ _ _ _ _ _ _
      (serve_answers sup_env anything False (fun _ _ H => H) env_any env_none st _ _ s8 lz (sh_cmd s8) 0
        E8 eq_refl) H) as [-> Hsh].
    split_and!; [|done|exact Ht|exact Hsh]. intros now0 tr2. cbn.
    apply turns_from_silent. apply traced_run in H. eapply only_run; [|exact H].
    apply only_bind; [apply serve_command_silent|intros res]. silence.
  - destruct H as (s8 & v & s9 & tr6 & -> & E8 & [-> ->] & H); cbv beta in H. apply (sees_env _ _ _ _ H5) in E8.
    exists None, (sh_lock s8).
    pose proof (holds_traced _ _ _ _ _ _ _ _
      (lock_watched sup_env anything False (fun _ _ H => H) env_any env_none st _ s8 lz (sh_lock s8)
        E8) H) as [-> Hsh].
    split_and!; [|done|exact Ht|exact Hsh]. intros now0 tr2. cbn.
    apply turns_from_silent. apply traced_run in H. eapply only_run; [|exact H]. silence.
Qed.

Lemma traced_turn c k st t s tr k' s' now0 :
  ticks_fit k -> sees st t s -> traced sup_env sup_step (supervise c k) s tr k' s' ->
  exists i st',
    (forall tr2, turns_from (mk_input None 0 now0 None) (tr ++ tr2) = i :: inputs tr2) /\
    sup_model c (k, st) i = (k', st') /\ t <= in_now i /\ sees st' (in_now i) s'.
Proof.
  intros Hk Hs H. unfold supervise in H. apply traced_bind in H as (tr1 & tr2 & [now lz] & s1 & -> & Htick & H).
  destruct (traced_tick _ _ _ _ _ _ _ Hs Htick) as (served & v & Htr & Hlz & Hnow & H1).
  cbn [fst snd] in *. subst lz.
  apply traced_do in H as (s2 & snap & s3 & tr3 & -> & E2 & [_ ->] & H); cbv beta zeta in H; cbn [fst snd] in H.
  apply (sees_env _ _ _ _ H1) in E2.
  assert (Hins : forall tr4, Forall (fun o => match o with Obs e _ => silent _ e end) tr3 ->
    turns_from (mk_input None 0 now0 None) ((tr1 ++ Obs (ReadSnapshot 100) snap :: tr3) ++ tr4) =
      mk_input served v now snap :: inputs tr4).
  { intros tr4 Hsil. rewrite <- app_assoc, Htr. cbn. f_equal. by apply turns_from_silent. }
  destruct snap as [smp|].
  - pose proof (holds_traced _ _ _ _ _ _ _ _
      (checks_refine sup_env anything False (fun _ _ H => H) env_any env_none c k smp now _ _ s2 Hk E2) H)
      as [-> Hsh].
    eexists (mk_input served v now (Some smp)), _. split; [|by split_and!].
    intros tr4. apply Hins. apply traced_run in H. eapply only_run; [|exact H]. apply checks_silent.
  - destruct H as (-> & -> & ->). eexists (mk_input served v now None), _. split; [|by split_and!].
    intros tr4. by apply Hins.
Qed.

(** ** Any number of turns *)

Lemma traced_turns c n : forall k st t s tr k' s' now0,
  turns_fit n k -> sees st t s -> traced sup_env sup_step (sup_turns n c k) s tr k' s' ->
  exists l st', turns_from (mk_input None 0 now0 None) tr = l /\ length l = n /\
    possible anything False c (k, st) t l /\
    fold_left (sup_model c) l (k, st) = (k', st') /\ sees st' (time_after t l) s'.
Proof.
  induction n as [|n IH]; intros k st t s tr k' s' now0 Hk Hs H; cbn [sup_turns] in H.
  { destruct H as (-> & -> & ->). exists [], st. by split_and!. }
  apply traced_bind in H as (tr1 & tr2 & k1 & s1 & -> & H1 & H2).
  destruct (traced_turn c k st t s tr1 k1 s1 now0 (proj1 (turns_fit_step n c k st blank Hk)) Hs H1)
    as (i & st1 & Hi & Hm & Ht & Hs1).
  pose proof (turns_fit_step n c k st i Hk) as [_ Hn]. rewrite Hm in Hn.
  destruct (IH k1 st1 _ s1 tr2 k' s' 0 Hn Hs1 H2) as (l & st2 & Hl & Hlen & Hp & Hf & Hs2).
  exists (i :: l), st2. cbn [length possible fold_left time_after snd]. rewrite Hi, Hm, Hlen.
  split; [unfold inputs, blank; by rewrite Hl|]. split; [done|]. split; [|by split].
  split; [done|]. split; [|done]. split; [by destruct (in_cmd i); [split; [exists sample_zero|]|]|].
  intros smp _. by exists (mk_cmd 0 0 0 0).
Qed.

Lemma traced_loop c fuel : forall k st t s tr a s' now0,
  turns_fit fuel k -> sees st t s -> traced sup_env sup_step (supervisor_loop fuel c k) s tr a s' ->
  exists l k' st', turns_from (mk_input None 0 now0 None) tr = l /\ (length l < fuel)%nat /\
    possible anything False c (k, st) t l /\
    fold_left (sup_model c) l (k, st) = (k', st') /\ sees st' (time_after t l) s'.
Proof.
  induction fuel as [|n IH]; intros k st t s tr a s' now0 Hk Hs H; [done|]. cbn [supervisor_loop] in H.
  apply traced_do in H as (s1 & go & s2 & tr1 & -> & E1 & -> & H); cbv beta in H.
  apply (sees_env _ _ _ _ Hs) in E1. destruct go.
  2:{ destruct H as (-> & _ & ->). exists [], k, st. split; [done|]. split; [cbn; lia|]. by split. }
  apply traced_bind in H as (tr2 & tr3 & k1 & s3 & -> & H1 & H2).
  destruct (traced_turn c k st t s1 tr2 k1 s3 now0 (proj1 (turns_fit_step n c k st blank Hk)) E1 H1)
    as (i & st1 & Hi & Hm & Ht & Hs1).
  pose proof (turns_fit_step n c k st i Hk) as [_ Hn]. rewrite Hm in Hn.
  destruct (IH k1 st1 _ s3 tr3 a s' 0 Hn Hs1 H2) as (l & k2 & st2 & Hl & Hlen & Hp & Hf & Hs2).
  exists (i :: l), k2, st2. cbn [length possible fold_left time_after snd turns_from see is_snapshot].
  rewrite Hi, Hm. split; [unfold inputs, blank; by rewrite Hl|]. split; [lia|]. split; [|by split].
  split; [done|]. split; [|done]. split; [by destruct (in_cmd i); [split; [exists sample_zero|]|]|].
  intros smp _. by exists (mk_cmd 0 0 0 0).
Qed.

Lemma traced_start st t s tr k s' :
  sees st t s -> traced sup_env sup_step supervisor_start s tr k s' ->
  (forall tr2, inputs (tr ++ tr2) = turns_from (mk_input None 0 (next_status k - STATUS_EVERY_MS) None) tr2) /\
  (forall tr2, start_of (tr ++ tr2) = k) /\ temp_ticks k = 0 /\ volt_ticks k = 0 /\
  t <= last_advance k <= ovr_t0 k /\ sees st t s'.
Proof.
  intros Hs H. unfold supervisor_start in H.
  apply traced_bind in H as (tr1 & tr2 & a & s1 & -> & Ha & H); cbv beta in H.
  apply traced_do in Ha as (s2 & x1 & s3 & tr3 & -> & E1 & [-> H1] & -> & -> & ->).
  apply (sees_env _ _ _ _ Hs) in E1. destruct (shows_time _ _ _ _ _ _ E1 H1) as [T1 S1].
  apply traced_bind in H as (tr1 & tr4 & b & s4 & -> & Hb & H); cbv beta in H.
  apply traced_do in Hb as (s5 & x2 & s6 & tr5 & -> & E2 & [-> H2] & -> & -> & ->).
  apply (sees_env _ _ _ _ S1) in E2. destruct (shows_time _ _ _ _ _ _ E2 H2) as [T2 S2].
  apply traced_bind in H as (tr1 & tr6 & d & s7 & -> & Hd & H); cbv beta in H.
  apply traced_do in Hd as (s8 & x3 & s9 & tr7 & -> & E3 & [-> H3] & -> & -> & ->).
  apply (sees_env _ _ _ _ S2) in E3. destruct (shows_time _ _ _ _ _ _ E3 H3) as [T3 S3].
  destruct H as (-> & -> & ->). cbn [app]. fold (ms_of x1) (ms_of x2) (ms_of x3) in *.
  split; [intros tr2; cbn [next_status]; rewrite Z.add_simpl_r; reflexivity|].
  do 3 (split; [done|]). cbn. split; [lia|].
  destruct S3 as (A1 & A2 & A3 & A4 & A5 & A6 & A7). split_and!; try done. lia.
Qed.

(** ** What the thread does *)

(** C38: The thread refines the pure supervisor.  Whatever the control thread and the
    clients do between its operations, the mode requested, the faults (but
    TORQUE_REFUSED, which the control thread owns), the answer in the mailbox and the
    beat that an execution of [supervisor_thread] leaves in the segment are exactly
    those [sup_model] computes from what the thread's own operations returned: the
    times at its start and, turn by turn, the command it took from the mailbox, the
    value of CMD_LOCK it saw, the time, and the snapshot it read. *)
Theorem supervisor_refines c fuel s tr a s' :
  Z.of_nat fuel <= 0x7FFFFFFF ->
  traced sup_env sup_step (supervisor_thread fuel c) s tr a s' ->
  let st := (fold_left (sup_model c) (inputs tr) (start_of tr, status_of s)).2 in
  sh_mode_req s' = st_mode st /\ agree (sh_faults s') (st_faults st) /\
  sh_ack s' = st_ack st /\ sh_sup_beat s' = st_beat st /\
  (length (inputs tr) < fuel)%nat.
Proof.
  intros Hfuel H. unfold supervisor_thread in H. apply traced_bind in H as (tr1 & tr2 & k & s1 & -> & H1 & H2).
  destruct (traced_start (status_of s) (clock_ms s) s tr1 k s1) as (Hin & Hst & Htemp & Hvolt & _ & Hs1);
    [by apply shows_self|exact H1|].
  rewrite Hin, Hst.
  destruct (traced_loop c fuel k _ _ s1 tr2 a s' (next_status k - STATUS_EVERY_MS)
    ltac:(unfold turns_fit in *; lia) Hs1 H2) as (l & k' & st' & Hl & Hlen & _ & Hf & Hsh).
  rewrite Hl, Hf. destruct Hsh as (A1 & A2 & A3 & A4 & _). by split_and!.
Qed.

(** ** Causes of faults *)

(** What the command served in a turn makes of the faults. *)
Definition faults_after (served : option so101_cmd) (f : Z) : Z :=
  match served with
  | None => f
  | Some cmd =>
      if cmd_cmd cmd =? SO101_CMD_ESTOP then Z.lor f SO101_F_ESTOP
      else if cmd_cmd cmd =? SO101_CMD_RESET then 0 else f
  end.

Lemma tick_faults_after served v now lz st :
  st_faults (tick_pure served v now lz st) = faults_after served (st_faults st).
Proof.
  destruct served as [cmd|]; [|done]. unfold tick_pure, faults_after.
  assert (H : st_faults (serve_pure cmd st).2 = if cmd_cmd cmd =? SO101_CMD_ESTOP
    then Z.lor (st_faults st) SO101_F_ESTOP else if cmd_cmd cmd =? SO101_CMD_RESET then 0 else st_faults st).
  { unfold serve_pure. destruct (Z.eqb_spec (cmd_cmd cmd) SO101_CMD_SET_MODE) as [->|].
    - change (SO101_CMD_SET_MODE =? SO101_CMD_ESTOP) with false.
      change (SO101_CMD_SET_MODE =? SO101_CMD_RESET) with false.
      repeat match goal with |- context [if ?b then _ else _] => destruct b end; done.
    - destruct (cmd_cmd cmd =? SO101_CMD_ESTOP), (cmd_cmd cmd =? SO101_CMD_RESET),
        (cmd_cmd cmd =? SO101_CMD_PING); done. }
  by destruct (serve_pure cmd st).
Qed.

(** The faults the checks of a turn find. *)
Definition found (c : so101d_ctx) (k : sup) (i : input) (b : Z) : bool :=
  match in_smp i with Some smp => cause c k smp (in_now i) b | None => false end.

Lemma model_faults c k st i b :
  has (st_faults (sup_model c (k, st) i).2) b = has (faults_after (in_cmd i) (st_faults st)) b || found c k i b.
Proof.
  unfold sup_model, found. destruct (in_smp i) as [smp|]; cbn [snd beat st_faults].
  - by rewrite has_raise_all, raises_cause, tick_faults_after.
  - by rewrite tick_faults_after, orb_false_r.
Qed.

Lemma model_beat c k st i :
  st_beat (sup_model c (k, st) i).2 =
    match in_smp i with Some _ => u64 (st_beat st + 1) | None => st_beat st end.
Proof.
  unfold sup_model. destruct (in_smp i) as [smp|]; cbn [snd beat st_beat]; [|apply tick_beat].
  by rewrite raise_all_beat, tick_beat.
Qed.

(** C36: The faults a turn leaves, exactly.  Of every fault but TORQUE_REFUSED (which the
    control thread sets and clears), and of every set of them: it is latched after the
    turn just when it was before and the command served is no RESET, or it is ESTOP and
    the command served is ESTOP, or the turn read a snapshot and the check of that fault
    fires on it.  A turn that could read no consistent snapshot checks nothing, and its
    beat stands still. *)
Theorem faults_have_causes c k s tr k' s' :
  ticks_fit k -> traced sup_env sup_step (supervise c k) s tr k' s' ->
  exists i, inputs tr = [i] /\
    (forall b, Z.testbit b 7 = false ->
       has (sh_faults s') b =
         has (faults_after (in_cmd i) (sh_faults s)) b ||
         match in_smp i with Some smp => cause c k smp (in_now i) b | None => false end) /\
    sh_sup_beat s' = match in_smp i with Some _ => u64 (sh_sup_beat s + 1) | None => sh_sup_beat s end.
Proof.
  intros Hk H.
  destruct (traced_turn c k (status_of s) (clock_ms s) s tr k' s' 0 Hk
    (shows_self anything False s Logic.I) H) as (i & st' & Hi & Hm & _ & Hsh).
  specialize (Hi []). rewrite app_nil_r in Hi. exists i. split; [exact Hi|].
  destruct Hsh as (_ & Ha & _ & Hb & _). replace st' with (sup_model c (k, status_of s) i).2 in * by (by rewrite Hm).
  split.
  - intros b H7. rewrite (has_agree _ _ b Ha H7). apply model_faults.
  - rewrite Hb. apply model_beat.
Qed.

(** ** Temperature and voltage *)

(** The two checks that must persist, by whether it is the voltage. *)
Definition bad_of (volt : bool) (c : so101d_ctx) (smp : so101_sample) : bool :=
  if volt then badv c smp else hot c smp.
Definition ticks_of (volt : bool) (k : sup) : Z := if volt then volt_ticks k else temp_ticks k.
Definition bit_of (volt : bool) : Z := if volt then SO101_F_VOLTAGE else SO101_F_OVERTEMP.

(** The snapshots of a reachable follower that were read, in order. *)
Definition reading (i : input) : option so101_sample :=
  match in_smp i with Some smp => if s_follower_ok smp then Some smp else None | None => None end.
Definition readings (l : list input) : list so101_sample := omap reading l.

(** The last [n] readings are all bad. *)
Definition bad_run (volt : bool) (c : so101d_ctx) (n : nat) (l : list input) : Prop :=
  exists l0 bad, readings l = l0 ++ bad /\ length bad = n /\
    Forall (fun smp => bad_of volt c smp = true) bad.

Definition resets (i : input) : Prop :=
  exists cmd, in_cmd i = Some cmd /\ cmd_cmd cmd = SO101_CMD_RESET.

Lemma model_ticks volt c k st i :
  ticks_of volt (sup_model c (k, st) i).1 =
    match reading i with
    | Some smp => if bad_of volt c smp then ticks_of volt k + 1 else 0
    | None => ticks_of volt k
    end.
Proof.
  unfold sup_model, reading. destruct (in_smp i) as [smp|]; [|by destruct volt].
  unfold ticks_of, bad_of. destruct volt; cbn [fst sup_checked temp_ticks volt_ticks];
    unfold ticks_after; by destruct (s_follower_ok smp).
Qed.

Lemma found_persist volt c k i :
  found c k i (bit_of volt) =
    match reading i with
    | Some smp => PERSIST_TICKS <=? (if bad_of volt c smp then ticks_of volt k + 1 else 0)
    | None => false
    end.
Proof.
  unfold found, reading. destruct (in_smp i) as [smp|]; [|done].
  unfold cause, bad_of, ticks_of, bit_of. destruct volt;
    repeat match goal with |- context [has ?a ?b] =>
      let v := eval vm_compute in (has a b) in change (has a b) with v end;
    rewrite ?andb_false_r, ?andb_true_r, ?orb_false_r, ?orb_false_l; by destruct (s_follower_ok smp).
Qed.

Lemma faults_after_bit volt i f :
  has (faults_after (in_cmd i) f) (bit_of volt) = true <-> has f (bit_of volt) = true /\ ~ resets i.
Proof.
  unfold faults_after, resets. destruct (in_cmd i) as [cmd|].
  2:{ split; [intros H; split; [done|by intros (? & ? & _)]|by intros []]. }
  destruct (Z.eqb_spec (cmd_cmd cmd) SO101_CMD_ESTOP) as [E|_].
  - rewrite has_lor_l. replace (has SO101_F_ESTOP (bit_of volt)) with false by (by destruct volt).
    rewrite orb_false_r. split; [|by intros []]. intros H. split; [done|].
    intros (? & [= <-] & Hr). by rewrite E in Hr.
  - destruct (Z.eqb_spec (cmd_cmd cmd) SO101_CMD_RESET) as [E|E].
    + split; [by destruct volt|]. intros [_ []]. by exists cmd.
    + split; [|by intros []]. intros H. split; [done|]. by intros (? & [= <-] & Hr).
Qed.

Lemma readings_snoc l i :
  readings (l ++ [i]) = readings l ++ match reading i with Some smp => [smp] | None => [] end.
Proof. unfold readings. rewrite omap_app. cbn. by destruct (reading i). Qed.

Section Persist.
Context (volt : bool) (c : so101d_ctx) (k0 : sup) (st0 : status) (Hk0 : ticks_of volt k0 = 0).

#[local] Abbreviation after l := (fold_left (sup_model c) l (k0, st0)).

Lemma after_snoc l i : after (l ++ [i]) = sup_model c ((after l).1, (after l).2) i.
Proof. by rewrite fold_left_app, <- surjective_pairing. Qed.

(** The counter is the length of the bad run at the end. *)
Lemma ticks_run l n : Z.of_nat n <= ticks_of volt (after l).1 <-> bad_run volt c n l.
Proof.
  revert n. induction l as [|i l IH] using rev_ind; intros n.
  { cbn. rewrite Hk0. unfold bad_run. cbn. split.
    - intros H. exists [], []. split_and!; [done|cbn; lia|constructor].
    - intros (l0 & bad & H & <- & _). symmetry in H. apply app_nil in H as [_ ->]. cbn. lia. }
  rewrite after_snoc, model_ticks. unfold bad_run. rewrite readings_snoc.
  destruct (reading i) as [smp|]; [|rewrite app_nil_r; apply IH].
  destruct (bad_of volt c smp) eqn:Eb.
  - destruct n as [|n].
    { split; [|intros _; assert (H0 : bad_run volt c 0 l)
        by (exists (readings l), []; by rewrite app_nil_r); apply IH in H0; lia].
      intros _. exists (readings l ++ [smp]), []. by rewrite app_nil_r. }
    rewrite Nat2Z.inj_succ. transitivity (Z.of_nat n <= ticks_of volt (after l).1); [lia|]. rewrite IH. split.
    + intros (l0 & bad & -> & Hlen & Hbad). exists l0, (bad ++ [smp]).
      rewrite length_app, Hlen, app_assoc. split_and!; [done|cbn; lia|]. apply Forall_app. by repeat constructor.
    + intros (l0 & bad & E & Hlen & Hbad). destruct bad as [|x bad] using rev_ind; [done|]. clear IHbad.
      rewrite app_assoc in E. apply app_inj_tail in E as [E _]. exists l0, bad.
      rewrite length_app in Hlen. apply Forall_app in Hbad as [Hbad _]. split_and!; [done|cbn in Hlen; lia|done].
  - split.
    + intros H. exists (readings l ++ [smp]), []. rewrite app_nil_r. split_and!; [done|cbn; lia|constructor].
    + intros (l0 & bad & E & <- & Hbad). destruct bad as [|x bad] using rev_ind; [done|]. clear IHbad.
      rewrite app_assoc in E. apply app_inj_tail in E as [_ <-].
      apply Forall_app in Hbad as [_ Hbad]. inversion Hbad. congruence.
Qed.

(** The fault after [l]. *)
Lemma persist_bit l :
  has (st_faults (after l).2) (bit_of volt) = true <->
  (has (st_faults st0) (bit_of volt) = true /\ Forall (fun i => ~ resets i) l) \/
  exists l1 i l2, l = l1 ++ i :: l2 /\ is_Some (reading i) /\ bad_run volt c 5 (l1 ++ [i]) /\
    Forall (fun i => ~ resets i) l2.
Proof.
  induction l as [|i l IH] using rev_ind.
  { cbn. split; [by left|]. intros [[H _]|(l1 & i & l2 & H & _)]; [done|].
    symmetry in H. by apply app_nil in H as [_ ?]. }
  rewrite after_snoc, model_faults, orb_true_iff, faults_after_bit, IH, found_persist.
  assert (Hfound : match reading i with
      | Some smp => PERSIST_TICKS <=? (if bad_of volt c smp then ticks_of volt (after l).1 + 1 else 0)
      | None => false end = true <-> is_Some (reading i) /\ bad_run volt c 5 (l ++ [i])).
  { rewrite <- ticks_run, after_snoc, model_ticks. unfold PERSIST_TICKS.
    destruct (reading i) as [smp|]; [|by split; [|intros [[] _]]].
    rewrite Z.leb_le. split; [intros H; split; [by eexists|exact H]|by intros []]. }
  rewrite Hfound. split.
  - intros [[[[H0 H]|(l1 & x & l2 & -> & Hx & Hrun & H)] Hi]|[H1 H2]].
    + left. split; [done|]. apply Forall_app. by repeat constructor.
    + right. exists l1, x, (l2 ++ [i]). rewrite <- app_assoc. split_and!; [done..|].
      apply Forall_app. by repeat constructor.
    + right. by exists l, i, [].
  - intros [[H0 H]|(l1 & x & l2 & E & Hx & Hrun & H)].
    + apply Forall_app in H as [H Hi]. inversion Hi; subst. left. split; [by left|done].
    + destruct l2 as [|y l2 _] using rev_ind.
      { apply app_inj_tail in E as [<- <-]. by right. }
      rewrite app_comm_cons, app_assoc in E. apply app_inj_tail in E as [-> <-].
      apply Forall_app in H as [H Hi]. inversion Hi; subst. left. split; [|done]. right.
      by exists l1, x, l2.
Qed.
End Persist.

(** C15: Temperature and supply voltage trip on the fifth bad reading in a row, neither
    sooner nor later, and stay until a RESET.  A reading is a turn that reads a snapshot
    of a reachable follower; turns that read none, or one of an unreachable follower, do
    not count and do not break a run; a good reading does.  From counters at zero, after
    any number of turns: the fault is latched just when it was from the beginning and no
    RESET came, or some turn was a reading, the last five readings up to it were all
    bad, and no RESET came after that turn.  (Readings are counted by turns, and every
    command served is a turn of its own: five readings in a row need not take 100 ms.) *)
Theorem trips_after_five volt c n k s tr k' s' :
  turns_fit n k -> ticks_of volt k = 0 ->
  traced sup_env sup_step (sup_turns n c k) s tr k' s' ->
  has (sh_faults s') (bit_of volt) = true <->
  (has (sh_faults s) (bit_of volt) = true /\ Forall (fun i => ~ resets i) (inputs tr)) \/
  exists l1 i l2, inputs tr = l1 ++ i :: l2 /\ is_Some (reading i) /\ bad_run volt c 5 (l1 ++ [i]) /\
    Forall (fun i => ~ resets i) l2.
Proof.
  intros Hn H0 H. destruct (traced_turns c n k (status_of s) (clock_ms s) s tr k' s' 0 Hn
    (shows_self anything False s Logic.I) H) as (l & st' & Hl & _ & _ & Hf & Hsh).
  unfold inputs, blank. rewrite Hl. destruct Hsh as (_ & Ha & _).
  rewrite (has_agree _ _ (bit_of volt) Ha) by (by destruct volt).
  replace st' with (fold_left (sup_model c) l (k, status_of s)).2 by (by rewrite Hf).
  by apply (persist_bit volt c k (status_of s)).
Qed.

(** ** Stalls *)

Lemma stall_raised c k st i smp :
  in_smp i = Some smp -> stall_seen k smp (in_now i) = true ->
  has (st_faults (sup_model c (k, st) i).2) SO101_F_STALL = true /\
  st_mode (sup_model c (k, st) i).2 = SO101_MODE_ESTOP.
Proof.
  intros Hsmp Hseen. unfold sup_model. rewrite Hsmp. cbn [snd beat st_faults st_mode].
  set (st1 := tick_pure _ _ _ _ _).
  pose proof (raises_known c k smp (in_now i)) as Hkn.
  assert (Hr : exists rs, raises c k smp (in_now i) = (SO101_F_STALL, Some SO101_MODE_ESTOP) :: rs).
  { unfold stall_seen in Hseen. apply andb_true_iff in Hseen as [H1 H2].
    unfold raises, raises_stall. rewrite H1, H2. by eexists. }
  destruct Hr as (rs & Hr). rewrite Hr in *. inversion Hkn as [|? ? _ Hrs]; subst.
  apply (raise_all_inv (fun f m => has f SO101_F_STALL = true /\ m = SO101_MODE_ESTOP)) with
    (rs := rs) (st := raise_pure st1 (SO101_F_STALL, Some SO101_MODE_ESTOP)); [|exact Hrs|].
  - intros st2 r Hin [H1 H2]. cbn [raise_pure with_status st_faults st_mode].
    rewrite has_lor_l, H1, H2. split; [done|].
    cbn in Hin. by destruct Hin as [<-|[<-|[<-|[<-|[<-|[<-|[]]]]]]].
  - cbn. split; [|done]. by rewrite has_lor_l, orb_true_r.
Qed.

Lemma model_advance c k st i :
  let k' := (sup_model c (k, st) i).1 in
  match in_smp i with
  | None => last_cycle k' = last_cycle k /\ last_advance k' = last_advance k
  | Some smp => last_cycle k' = s_cycle smp /\
      last_advance k' = if s_cycle smp =? last_cycle k then last_advance k else in_now i
  end.
Proof.
  unfold sup_model. destruct (in_smp i) as [smp|]; [|done]. cbn.
  by destruct (Z.eqb_spec (s_cycle smp) (last_cycle k)).
Qed.

Lemma advance_past c l : forall k st t,
  possible anything False c (k, st) t l -> last_advance k <= t ->
  last_advance (fold_left (sup_model c) l (k, st)).1 <= time_after t l.
Proof.
  induction l as [|i l IH]; intros k st t Hp Hk; [done|]. destruct Hp as (Ht & _ & Hp).
  cbn [fold_left time_after]. pose proof (model_advance c k st i) as H. cbn zeta in H.
  destruct (sup_model c (k, st) i) as [k1 st1]. apply IH; [exact Hp|]. cbn [fst] in H.
  destruct (in_smp i) as [smp|]; destruct H as [_ ->]; [|lia]. destruct (_ =? _); lia.
Qed.

(** Only snapshots of cycle [z] are read. *)
Definition frozen (z : Z) (i : input) : Prop := forall smp, in_smp i = Some smp -> s_cycle smp = z.

Lemma frozen_advance c z l : Forall (frozen z) l -> forall k st,
  last_cycle k = z ->
  last_cycle (fold_left (sup_model c) l (k, st)).1 = z /\
  last_advance (fold_left (sup_model c) l (k, st)).1 = last_advance k.
Proof.
  induction 1 as [|i l Hi _ IH]; intros k st Hz; [done|]. cbn [fold_left].
  pose proof (model_advance c k st i) as H. cbn zeta in H.
  destruct (sup_model c (k, st) i) as [k1 st1]. cbn [fst] in H.
  assert (H1 : last_cycle k1 = z /\ last_advance k1 = last_advance k).
  { destruct (in_smp i) as [smp|] eqn:E; destruct H as [H1 H2]; [|by rewrite H1, H2].
    rewrite (Hi smp E), Hz, Z.eqb_refl in *. done. }
  destruct (IH k1 st1 (proj1 H1)) as [H2 H3]. by rewrite H3, (proj2 H1).
Qed.

Lemma possible_app c l1 l2 : forall ks t,
  possible anything False c ks t (l1 ++ l2) ->
  possible anything False c ks t l1 /\
  possible anything False c (fold_left (sup_model c) l1 ks) (time_after t l1) l2.
Proof.
  induction l1 as [|i l1 IH]; intros ks t H; [done|]. destruct H as (Ht & Hi & H).
  apply IH in H as [H1 H2]. by split.
Qed.

Lemma time_after_app l1 l2 : forall t, time_after t (l1 ++ l2) = time_after (time_after t l1) l2.
Proof. induction l1 as [|i l1 IH]; intros t; [done|]. apply IH. Qed.

(** C4: A control loop that has stopped publishing is stopped, as far as its snapshots
    can be read.  If two turns each read a consistent snapshot, the second more than
    200 ms after the first, and all snapshots read from the first to the second are of
    the same cycle, then after the second STALL is latched and ESTOP requested, whatever
    clients ask meanwhile, RESET included.  (The condition that the second turn reads a
    snapshot is the code's: when the control thread stops in the middle of a
    publication no read succeeds any more, and then STALL is never raised.) *)
Theorem stall_detected c n k s tr k' s' l1 i l2 j a b :
  turns_fit n k -> last_advance k <= clock_ms s ->
  traced sup_env sup_step (sup_turns n c k) s tr k' s' ->
  inputs tr = l1 ++ i :: l2 ++ [j] -> in_smp i = Some a -> in_smp j = Some b ->
  Forall (frozen (s_cycle a)) (l2 ++ [j]) -> in_now i + STALL_MS < in_now j ->
  has (sh_faults s') SO101_F_STALL = true /\ sh_mode_req s' = SO101_MODE_ESTOP.
Proof.
  intros Hn Hadv H Hl Ha Hb Hfroz Hlate.
  destruct (traced_turns c n k (status_of s) (clock_ms s) s tr k' s' 0 Hn
    (shows_self anything False s Logic.I) H) as (l & st' & E & _ & Hp & Hf & Hsh).
  unfold inputs, blank in Hl. rewrite E in Hl. subst l. clear E H.
  destruct Hsh as (-> & Hag & _). rewrite (has_agree _ _ SO101_F_STALL Hag eq_refl).
  replace st' with (fold_left (sup_model c) (l1 ++ i :: l2 ++ [j]) (k, status_of s)).2 by (by rewrite Hf).
  clear Hf st' Hag. apply Forall_app in Hfroz as [Hl2 Hj]. inversion Hj as [|? ? Hj1 _]; subst.
  apply possible_app in Hp as [Hp1 (Ht & _ & _)]. apply (advance_past c l1) in Hp1; [|exact Hadv].
  rewrite fold_left_app. cbn [fold_left]. rewrite fold_left_app. cbn [fold_left].
  set (r1 := fold_left (sup_model c) l1 (k, status_of s)) in *. rewrite (surjective_pairing r1) in *.
  pose proof (model_advance c r1.1 r1.2 i) as Hi. cbn zeta in Hi. rewrite Ha in Hi.
  set (r2 := sup_model c (r1.1, r1.2) i) in *. rewrite (surjective_pairing r2) in *.
  destruct (frozen_advance c (s_cycle a) l2 Hl2 r2.1 r2.2 (proj1 Hi)) as [H1 H2].
  set (r3 := fold_left (sup_model c) l2 (r2.1, r2.2)) in *. rewrite (surjective_pairing r3) in *.
  apply (stall_raised c _ _ j b Hb). unfold stall_seen. cbn [fst] in *.
  rewrite H1, H2, (Hj1 b Hb), Z.eqb_refl. cbn [andb]. apply Z.ltb_lt.
  destruct Hi as [_ ->]. destruct (_ =? _); lia.
Qed.

(** ** Witnesses *)

Section Play.
(** [play], 100 ms later at each turn. *)
Definition passes {R} (e : sup_ev R) (s : shared) : shared :=
  match e with
  | RealTime => mk_shared (sh_mode_req s) (sh_faults s) (sh_sup_beat s) (sh_cmd s) (sh_ack s) (sh_lock s)
      (sh_ready s) (sh_sample s) (sh_clock s + 100000000)
  | _ => s
  end.
Definition play_on (R : Type) (e : sup_ev R) : M (nat * shared) R := fun t => play R e (t.1, passes e t.2).

Lemma play_on_traced {A} (p : prog sup_ev A) n s tr a t' :
  interp_log play_on p (n, s) = Some (tr, a, t') -> traced sup_env sup_step p s tr a t'.2.
Proof.
  apply (interp_traced sup_env sup_step play_on snd p). clear. intros R e t r t' H.
  exists (passes e t.2). split; [|exact (play_steps R e (t.1, passes e t.2) r t' H)].
  destruct e; try reflexivity. cbn. split_and!; try done. cbn. lia.
Qed.

(** Every joint at [temp] degrees and [volt] tenths of a volt. *)
Definition sample_at (temp volt : Z) : so101_sample :=
  mk_sample 1 0 0 0 0 0 0 1 true true true zero_joints zero_joints zero_joints zero_joints
    zero_joints (replicate SO101_NJ volt) (replicate SO101_NJ temp) zero_joints zero_joints
    0 0 0 0 0 0 0 0 0.
Definition hot_state : shared := set_sample (sample_at 80 60) idle_state.
End Play.

(** The execution of [p] under [play_on], computed. *)
Ltac played p s :=
  let r := eval vm_compute in (interp_log play_on p (3%nat, s)) in
  match r with
  | Some (?tr, ?a, ?t') =>
      assert (Hrun : interp_log play_on p (3%nat, s) = Some (tr, a, t')) by (vm_compute; reflexivity);
      apply play_on_traced in Hrun; exists tr, a, t'.2
  end.

Lemma supervisor_refines_witness :
  exists tr a s', traced sup_env sup_step (supervisor_thread 9 some_ctx) teleop_state tr a s' /\
    map in_cmd (inputs tr) = [Some estop_cmd; None; None] /\
    sh_mode_req s' = SO101_MODE_ESTOP /\ sh_ack s' = mk_ack 77 SO101_RES_OK.
Proof.
  played (supervisor_thread 9 some_ctx) teleop_state. split; [exact Hrun|]. split; [vm_compute; reflexivity|].
  destruct (supervisor_refines some_ctx 9 teleop_state _ _ _ ltac:(lia) Hrun) as (-> & _ & -> & _).
  split; vm_compute; reflexivity.
Defined.

Lemma faults_have_causes_witness :
  exists tr k' s', traced sup_env sup_step (supervise some_ctx fresh_sup) teleop_state tr k' s' /\
    has (sh_faults s') SO101_F_ESTOP = true /\ has (sh_faults s') SO101_F_STALL = false.
Proof.
  played (supervise some_ctx fresh_sup) teleop_state. split; [exact Hrun|].
  destruct (faults_have_causes some_ctx fresh_sup teleop_state _ _ _ (conj eq_refl eq_refl) Hrun)
    as (i & Hi & H & _).
  vm_compute in Hi. injection Hi as <-.
  split; [rewrite (H SO101_F_ESTOP eq_refl)|rewrite (H SO101_F_STALL eq_refl)]; vm_compute; reflexivity.
Defined.

Lemma trips_after_five_witness :
  exists tr k' s', traced sup_env sup_step (sup_turns 5 some_ctx fresh_sup) hot_state tr k' s' /\
    has (sh_faults s') SO101_F_OVERTEMP = true.
Proof.
  played (sup_turns 5 some_ctx fresh_sup) hot_state. split; [exact Hrun|].
  apply (trips_after_five false some_ctx 5 fresh_sup hot_state _ _ _ (fresh_fit 5 ltac:(lia)) eq_refl Hrun).
  right. eexists [_; _; _; _], _, []. split; [vm_compute; reflexivity|].
  split; [by eexists|]. split; [|constructor].
  exists [], (replicate 5 (sample_at 80 60)). split; [vm_compute; reflexivity|]. by repeat constructor.
Defined.

Lemma stall_detected_witness :
  exists tr k' s', traced sup_env sup_step (sup_turns 4 some_ctx fresh_sup) idle_state tr k' s' /\
    has (sh_faults s') SO101_F_STALL = true /\ sh_mode_req s' = SO101_MODE_ESTOP.
Proof.
  played (sup_turns 4 some_ctx fresh_sup) idle_state. split; [exact Hrun|].
  eapply (stall_detected some_ctx 4 fresh_sup idle_state _ _ _ [] _ [_; _] _ sample_zero sample_zero
    (fresh_fit 4 ltac:(lia)) ltac:(vm_compute; discriminate) Hrun).
  - vm_compute; reflexivity.
  - vm_compute; reflexivity.
  - vm_compute; reflexivity.
  - repeat constructor; by intros ? [= <-].
  - vm_compute; reflexivity.
Defined.

(** Five commands served in quick succession on one hot snapshot trip OVERTEMP: the
    readings are of the same cycle. *)
Example five_readings_of_one_cycle :
  let s := mk_shared SO101_MODE_TELEOP 0 0 (mk_cmd 76 SO101_CMD_PING 0 1234) (mk_ack 0 0) 1 5 (sample_at 80 60)
             5000000000 in
  match interp play (sup_turns 5 some_ctx fresh_sup) (0%nat, s) with
  | Some (_, (_, s')) => has (sh_faults s') SO101_F_OVERTEMP && (sh_clock s' =? sh_clock s)
  | None => false
  end = true.
Proof. vm_compute. reflexivity. Qed.
