(* ===== verification/PyClient.v ===== *)
(** * The Python client (clients/python/so101.py)

    The formats and offsets by which the Python client reads and writes the segment, as
    literals of its own, the part of Python's struct module they use, and what the
    client makes of the bytes: it reads what the daemon stored, field by field, and the
    daemon finds in its mailbox what the client wrote. *)

From Stdlib Require Import Ascii.
From stdpp Require Import strings.
From S2P Require Import Prelude Float32 Calib Shm Layout Os Ctx Prog Supervisor.

(** ** Python's struct, for formats that start with a less-than sign

    Little-endian, standard sizes, no alignment; a count before a letter repeats it, and
    [x] is a byte of padding without a value. *)

Inductive item := Val (t : ctype) | Pad.

Definition item_of (c : ascii) : option item :=
  if (c =? "Q")%char then Some (Val U64) else if (c =? "q")%char then Some (Val I64)
  else if (c =? "I")%char then Some (Val U32) else if (c =? "i")%char then Some (Val I32)
  else if (c =? "H")%char then Some (Val U16) else if (c =? "h")%char then Some (Val I16)
  else if (c =? "B")%char then Some (Val U8) else if (c =? "f")%char then Some (Val F32)
  else if (c =? "x")%char then Some Pad else None.
Definition item_size (i : item) : nat := match i with Val t => ctype_size t | Pad => 1 end.

Abbreviation layout := (list (nat * item)).

Fixpoint parse_format (s : string) (count : option nat) : option layout :=
  match s with
  | EmptyString => match count with None => Some [] | Some _ => None end
  | String c s =>
      let d := (nat_of_ascii c - 48)%nat in
      if (48 <=? nat_of_ascii c)%nat && (d <? 10)%nat then parse_format s (Some (10 * default 0 count + d)%nat)
      else i ← item_of c; rest ← parse_format s None; Some ((default 1%nat count, i) :: rest)
  end.

(** [struct.Struct]; an ill-formed format raises. *)
Definition Struct (fmt : string) : option layout :=
  match fmt with
  | String c s => if (c =? "<")%char then parse_format s None else None
  | EmptyString => None
  end.

Definition calcsize (l : layout) : nat := fold_right (fun i n => (i.1 * item_size i.2 + n)%nat) 0%nat l.

Fixpoint unpack_items (l : layout) (buf : list Z) (off : nat) : list Z :=
  match l with
  | [] => []
  | (n, i) :: l =>
      (match i with Val t => dec_array t n (drop off buf) | Pad => [] end) ++
      unpack_items l buf (off + n * item_size i)
  end.
(** A buffer that is too short raises. *)
Definition unpack_from (s : option layout) (buf : list Z) (off : nat) : option (list Z) :=
  l ← s; if (length buf <? off + calcsize l)%nat then None else Some (unpack_items l buf off).

(** Integers out of their range raise; the client packs integers only. *)
Definition fits (t : ctype) (z : Z) : bool :=
  match t with
  | U8 | U16 | U32 | U64 => (0 <=? z) && (z <? 2 ^ bits_of t)
  | I16 | I32 | I64 => (- 2 ^ (bits_of t - 1) <=? z) && (z <? 2 ^ (bits_of t - 1))
  | F32 => false
  end.
Fixpoint pack (l : layout) (vs : list Z) : option (list Z) :=
  match l with
  | [] => match vs with [] => Some [] | _ => None end
  | (n, Val t) :: l =>
      if (length vs <? n)%nat || negb (forallb (fits t) (take n vs)) then None
      else rest ← pack l (drop n vs); Some (concat (map (enc t) (take n vs)) ++ rest)
  | (n, Pad) :: l => rest ← pack l vs; Some (replicate n 0 ++ rest)
  end.
Definition pack_into (s : option layout) (buf : list Z) (off : nat) (vs : list Z) : option (list Z) :=
  l ← s; bs ← pack l vs;
  if (length buf <? off + length bs)%nat then None
  else Some (take off buf ++ bs ++ drop (off + length bs) buf).

(** ** The client's constants *)

Definition MAGIC : Z := 0x31303153.
Definition VERSION : Z := 2.
Definition NJ : nat := 6.
Definition MODES : list string := ["IDLE"; "TELEOP"; "HOLD"; "ESTOP"].
Definition FAULTS : list string :=
  ["LEADER_COMM"; "FOLLOWER_COMM"; "OVERTEMP"; "VOLTAGE"; "OVERRUN"; "STALL"; "ESTOP"; "TORQUE_REFUSED"].
Definition COMMANDS : list (string * (Z * Z)) :=
  [("idle", (1, 0)); ("teleop", (1, 1)); ("hold", (1, 2)); ("estop", (2, 0)); ("reset", (3, 0)); ("ping", (4, 0))].
Definition RESULTS : list (Z * string) := [(0, "OK"); (-1, "BAD_CMD"); (-2, "REFUSED")].

Definition HEADER : option layout := Struct "<IIIiII".
Definition OFF_NAMES : nat := 24.
Definition OFF_SEQ : nat := 120.
Definition OFF_SAMPLE : nat := 128.
Definition OFF_MODE_REQ : nat := 320.
Definition OFF_FAULTS : nat := 324.
Definition OFF_SUP_BEAT : nat := 328.
Definition OFF_CMD : nat := 336.
Definition OFF_ACK : nat := 352.
Definition SHM_SIZE : nat := 360.
Definition SAMPLE : option layout :=
  Struct ("<Qq" +:+ "iiii" +:+ "I" +:+ "BBBB" +:+ "6h6h6h6h6h" +:+ "6B6B" +:+ "6f6f" +:+ "IIII" +:+ "ii" +:+ "HHB3x").
Definition U32_ : option layout := Struct "<I".
Definition CMD : option layout := Struct "<IIii".
Definition ACK : option layout := Struct "<Ii".

(** ** Reading *)

(** One number at an offset, [U32.unpack_from(mm, off)[0]]. *)
Definition u32_at (mm : list Z) (off : nat) : option Z := v ← unpack_from U32_ mm off; head v.

Definition alive (mm : list Z) : bool := match u32_at mm 0 with Some v => v =? MAGIC | None => false end.

(** [bytes(...).split(b"\0", 1)[0]]. *)
Fixpoint until_zero (bs : list Z) : list Z :=
  match bs with [] => [] | b :: bs => if b =? 0 then [] else b :: until_zero bs end.
Definition joint_name (mm : list Z) (j : nat) : list Z := until_zero (take 16 (drop (OFF_NAMES + 16 * j) mm)).

(** [__init__] on the mapped segment: the pid, the period in ns and the joints' names,
    or the error that the segment is not ready. *)
Definition attach (mm : list Z) : option (Z * Z * list (list Z)) :=
  v ← unpack_from HEADER mm 0;
  match v with
  | [magic; version; size; pid; period_ns; nj] =>
      if negb (magic =? MAGIC) || negb (version =? VERSION) || negb (size =? Z.of_nat SHM_SIZE) then None
      else Some (pid, period_ns, map (joint_name mm) (List.seq 0 (Z.to_nat nj)))
  | _ => None
  end.

(** A try of [read_raw] while nobody writes. *)
Definition read_raw (mm : list Z) : option (list Z) :=
  q1 ← u32_at mm OFF_SEQ;
  if Z.odd q1 then None
  else l ← SAMPLE; unpack_from SAMPLE (take (calcsize l) (drop OFF_SAMPLE mm)) 0.

(** [read] without the conversions of units and the names of modes and faults: the
    dict's entries by the names of the members they stand for. *)
Definition read (mm : list Z) : option so101_sample :=
  v ← read_raw mm;
  let take_ i := take NJ (drop (11 + i * NJ) v) in
  match take 11 v, drop (11 + 9 * NJ) v with
  | [cycle; t_ns; wake; exe; bus_l; bus_f; faults; mode; l_ok; f_ok; torque],
    [overruns; missed; l_errs; f_errs; max_wake; max_exec; l_st; f_st; ramping] =>
      let l_pos := take_ 0%nat in let f_goal := take_ 1%nat in let f_pos := take_ 2%nat in
      let f_vel := take_ 3%nat in let f_load := take_ 4%nat in
      let f_volt := take_ 5%nat in let f_temp := take_ 6%nat in
      let l_norm := take_ 7%nat in let f_norm := take_ 8%nat in
      Some (mk_sample cycle t_ns wake exe bus_l bus_f faults mode (negb (l_ok =? 0)) (negb (f_ok =? 0))
        (negb (torque =? 0)) l_pos f_goal f_pos f_vel f_load f_volt f_temp l_norm f_norm
        overruns missed l_errs f_errs max_wake max_exec l_st f_st ramping)
  | _, _ => None
  end.

Definition fault_names (bits : Z) : list string :=
  omap (fun i => if Z.testbit bits (Z.of_nat i) then FAULTS !! i else None) (List.seq 0 8).

(** The test of [wait_new]: a cycle other than [last_cycle]. *)
Definition is_new (mm : list Z) (last_cycle : Z) : bool :=
  match u32_at mm OFF_SAMPLE with Some v => negb (v =? Z.land last_cycle 0xFFFFFFFF) | None => false end.

(** ** Commands *)

Definition command_id (pid now : Z) : Z :=
  let cid := Z.land (Z.lxor (Z.shiftl pid 12) now) 0xFFFFFFFF in if cid =? 0 then 1 else cid.

(** The two writes of [command]: the mailbox with the id 0, then the id. *)
Definition post_command (mm : list Z) (cid pid : Z) (name : string) : option (list Z) :=
  c ← find (fun c => (c.1 =? name)%string) COMMANDS;
  mm ← pack_into CMD mm OFF_CMD [0; c.2.1; c.2.2; pid];
  pack_into U32_ mm OFF_CMD [cid].

(** A look at the answer: [None] as long as it is another command's; else the name of
    the result, or the number if it has none. *)
Definition answer (mm : list Z) (cid : Z) : option (string + Z) :=
  v ← unpack_from ACK mm OFF_ACK;
  match v with
  | [ack_id; res] =>
      if ack_id =? cid then
        Some (match find (fun r => r.1 =? res) RESULTS with Some r => inl r.2 | None => inr res end)
      else None
  | _ => None
  end.

(** ** Formats and structs *)

(** The items [l] read the members [ms], placed from [off] on without gaps. *)
Definition item_reads (n : nat) (i : item) (m : member) : bool :=
  match i with
  | Val t => (n =? m_count m)%nat && bool_decide (t = m_type m)
  | Pad => (n =? m_size m)%nat
  end.
Fixpoint reads (off : nat) (l : layout) (ms : list member) : bool :=
  match l, ms with
  | [], [] => true
  | (n, i) :: l, m :: ms =>
      (align_up off (ctype_size (m_type m)) =? off)%nat && item_reads n i m && reads (off + m_size m) l ms
  | _, _ => false
  end.

(** The values of the items that are no padding. *)
Fixpoint taken (l : layout) (vss : list (list Z)) : list Z :=
  match l, vss with
  | (_, Val _) :: l, vs :: vss => vs ++ taken l vss
  | (_, Pad) :: l, _ :: vss => taken l vss
  | _, _ => []
  end.

Lemma reads_cons off n i l m ms :
  reads off ((n, i) :: l) (m :: ms) = true ->
  align_up off (ctype_size (m_type m)) = off /\ (n * item_size i)%nat = m_size m /\
  match i with Val t => n = m_count m /\ t = m_type m | Pad => True end /\ reads (off + m_size m) l ms = true.
Proof.
  cbn [reads]. intros H. apply andb_true_iff in H as [H H3]. apply andb_true_iff in H as [H1 H2].
  apply Nat.eqb_eq in H1. destruct i as [t|]; cbn [item_reads item_size] in *.
  - apply andb_true_iff in H2 as [H2 H4]. apply Nat.eqb_eq in H2. apply bool_decide_eq_true_1 in H4. by subst.
  - apply Nat.eqb_eq in H2. split_and!; try done. lia.
Qed.

Lemma unpack_reads ms vss :
  Forall2 member_ok ms vss -> forall l off pre rest, reads off l ms = true -> length pre = off ->
  unpack_items l (pre ++ encode off ms vss ++ rest) off = taken l vss.
Proof.
  induction 1 as [|m vs ms vss Hm _ IH]; intros [|[n i] l] off pre rest Hr Hpre; try done.
  apply reads_cons in Hr as (Hal & Hn & Hi & Hr). cbn [unpack_items encode taken]. cbn zeta.
  rewrite Hal, Nat.sub_diag, Hn. cbn [replicate app].
  assert (Hlen : length (enc_member m vs) = m_size m)
    by (rewrite length_enc_member; unfold m_size; by rewrite (proj1 Hm)).
  specialize (IH l (off + m_size m)%nat (pre ++ enc_member m vs) rest Hr).
  rewrite <- !app_assoc in *. rewrite IH by (rewrite length_app, Hlen; lia).
  destruct i as [t|]; [|done]. f_equal. destruct Hi as [-> ->].
  rewrite drop_app_ge by lia. rewrite Hpre, Nat.sub_diag, drop_0.
  destruct Hm as [<- Hv]. by apply dec_array_enc.
Qed.

Lemma calcsize_reads l : forall off ms, reads off l ms = true -> (off + calcsize l)%nat = (place off ms).2.
Proof.
  induction l as [|[n i] l IH]; intros off [|m ms] Hr; try done; try (cbn; lia).
  apply reads_cons in Hr as (Hal & Hn & _ & Hr). cbn [calcsize fold_right place snd fst]. cbn zeta. cbn [snd].
  rewrite Hal, <- (IH _ _ Hr), Hn. unfold calcsize. lia.
Qed.

(** A format that reads a run of members in the middle of a struct. *)
Lemma unpack_within l ms1 ms2 ms3 vss1 vss2 vss3 off :
  Forall2 member_ok ms1 vss1 -> Forall2 member_ok ms2 vss2 -> (place 0 ms1).2 = off -> reads off l ms2 = true ->
  unpack_from (Some l) (encode 0 (ms1 ++ ms2 ++ ms3) (vss1 ++ vss2 ++ vss3)) off = Some (taken l vss2).
Proof.
  intros H1 H2 Hoff Hr. rewrite (encode_app _ _ _ _ H1), (encode_app _ _ _ _ H2), Hoff.
  pose proof (length_encode _ _ H1 0) as L1. rewrite Hoff in L1. pose proof (length_encode _ _ H2 off) as L2.
  pose proof (calcsize_reads l off ms2 Hr) as L3. unfold unpack_from. cbn [mbind option_bind].
  destruct (Nat.ltb_spec (length (encode 0 ms1 vss1 ++ encode off ms2 vss2 ++ encode (place off ms2).2 ms3 vss3))
    (off + calcsize l)) as [Hlt|_]; [rewrite !length_app in Hlt; lia|].
  f_equal. by apply unpack_reads.
Qed.

(** A format that reads [k] members of the segment from the [i]-th on. *)
Lemma shm_reads m l i k off :
  shm_typed m -> (place 0 (take i so101_shm_t)).2 = off -> reads off l (take k (drop i so101_shm_t)) = true ->
  unpack_from (Some l) (encode_shm m) off = Some (taken l (take k (drop i (shm_values m)))).
Proof.
  intros H Hoff Hr.
  assert (Hs : forall A (x : list A), x = take i x ++ take k (drop i x) ++ drop k (drop i x))
    by (intros A x; by rewrite !take_drop).
  unfold encode_shm. rewrite (Hs _ so101_shm_t), (Hs _ (shm_values m)) at 1.
  apply unpack_within; [by apply list_relations.list.Forall2_take|
    by apply list_relations.list.Forall2_take, list_relations.list.Forall2_drop|exact Hoff|exact Hr].
Qed.

Lemma six (l : list Z) : length l = SO101_NJ -> exists a b c d e f, l = [a; b; c; d; e; f].
Proof. intros H. do 6 (destruct l as [|? l]; [done|]). destruct l; [by repeat eexists|done]. Qed.

(** ** Reading *)

(** Where a member lies. *)
Definition offsetof (name : string) : option nat :=
  snd <$> find (fun p => (p.1 =? name)%string) (place 0 so101_shm_t).1.

Lemma u32_reads m i off v rest :
  shm_typed m -> (place 0 (take i so101_shm_t)).2 = off ->
  reads off [(1%nat, Val U32)] (take 1 (drop i so101_shm_t)) = true ->
  drop i (shm_values m) = [v] :: rest -> u32_at (encode_shm m) off = Some v.
Proof.
  intros H Hoff Hr Hv. unfold u32_at. change U32_ with (Some [(1%nat, Val U32)]).
  rewrite (shm_reads m _ i 1 off H Hoff Hr), Hv. done.
Qed.

Definition sample_layout : layout := Eval vm_compute in default [] SAMPLE.

Lemma read_raw_values m :
  shm_typed m -> Z.even (shm_seq m) = true ->
  read_raw (encode_shm m) = Some (taken sample_layout (sample_values (shm_s m))).
Proof.
  intros H Hev. unfold read_raw.
  rewrite (u32_reads m 7 OFF_SEQ (shm_seq m) _ H eq_refl eq_refl eq_refl). cbn [mbind option_bind].
  rewrite <- Z.negb_even, Hev. cbn [negb].
  change SAMPLE with (Some sample_layout). cbn [mbind option_bind].
  assert (Hsmp : Forall2 member_ok so101_sample_t (sample_values (shm_s m))).
  { apply (nest_ok "s"). apply (list_relations.list.Forall2_drop _ _ _ 9) in H.
    exact (list_relations.list.Forall2_take _ _ _ 30 H). }
  assert (E : exists pre post, encode_shm m = pre ++ encode_sample (shm_s m) ++ post /\ length pre = OFF_SAMPLE).
  { unfold encode_shm. rewrite <- (take_drop 9 so101_shm_t), <- (take_drop 9 (shm_values m)).
    assert (H1 : Forall2 member_ok (take 9 so101_shm_t) (take 9 (shm_values m)))
      by (by apply list_relations.list.Forall2_take).
    rewrite (encode_app _ _ _ _ H1). pose proof (length_encode _ _ H1 0) as L1.
    change (drop 9 so101_shm_t) with (nest "s" so101_sample_t ++ drop 39 so101_shm_t).
    change (drop 9 (shm_values m)) with (sample_values (shm_s m) ++ drop 39 (shm_values m)).
    rewrite encode_app by (by apply nest_ok). rewrite encode_nest.
    eexists _, _. split; [reflexivity|exact L1]. }
  destruct E as (pre & post & -> & Hpre).
  assert (Hlen : length (encode_sample (shm_s m)) = calcsize sample_layout) by apply (length_encode _ _ Hsmp 0).
  rewrite drop_app_ge, Hpre, Nat.sub_diag, drop_0 by lia.
  rewrite take_app_le, take_ge by lia. unfold unpack_from. cbn [mbind option_bind].
  rewrite Hlen, Nat.ltb_irrefl. f_equal.
  pose proof (unpack_reads _ _ Hsmp sample_layout 0 [] [] eq_refl eq_refl) as U.
  by rewrite app_nil_r in U.
Qed.

Lemma read_sample m :
  shm_typed m -> Z.even (shm_seq m) = true -> read (encode_shm m) = Some (shm_s m).
Proof.
  intros H Hev. unfold read. rewrite (read_raw_values m H Hev). cbn [mbind option_bind].
  assert (Hj : forall i f, so101_shm_t !! i = Some f -> m_count f = SO101_NJ ->
    forall vs, shm_values m !! i = Some vs -> exists a b c d e f, vs = [a; b; c; d; e; f]).
  { intros i f Hi Hn vs Hv. apply six. rewrite <- Hn.
    destruct (Forall2_lookup_lr _ _ _ _ _ _ H Hi Hv) as [Hl _]. exact Hl. }
  pose proof (Hj 20%nat _ eq_refl eq_refl (s_leader_pos (shm_s m)) eq_refl) as (? & ? & ? & ? & ? & ? & E1).
  pose proof (Hj 21%nat _ eq_refl eq_refl (s_follower_goal (shm_s m)) eq_refl) as (? & ? & ? & ? & ? & ? & E2).
  pose proof (Hj 22%nat _ eq_refl eq_refl (s_follower_pos (shm_s m)) eq_refl) as (? & ? & ? & ? & ? & ? & E3).
  pose proof (Hj 23%nat _ eq_refl eq_refl (s_follower_vel (shm_s m)) eq_refl) as (? & ? & ? & ? & ? & ? & E4).
  pose proof (Hj 24%nat _ eq_refl eq_refl (s_follower_load (shm_s m)) eq_refl) as (? & ? & ? & ? & ? & ? & E5).
  pose proof (Hj 25%nat _ eq_refl eq_refl (s_follower_volt (shm_s m)) eq_refl) as (? & ? & ? & ? & ? & ? & E6).
  pose proof (Hj 26%nat _ eq_refl eq_refl (s_follower_temp (shm_s m)) eq_refl) as (? & ? & ? & ? & ? & ? & E7).
  pose proof (Hj 27%nat _ eq_refl eq_refl (s_leader_norm (shm_s m)) eq_refl) as (? & ? & ? & ? & ? & ? & E8).
  pose proof (Hj 28%nat _ eq_refl eq_refl (s_follower_norm (shm_s m)) eq_refl) as (? & ? & ? & ? & ? & ? & E9).
  clear Hj H Hev. destruct m as [h q s]. cbn [shm_s] in *.
  destruct s as [? ? ? ? ? ? ? ? b1 b2 b3 l1 l2 l3 l4 l5 l6 l7 l8 l9 z1 z2 z3 z4 z5 z6 z7 z8 z9]. cbn [s_leader_pos s_follower_goal s_follower_pos
    s_follower_vel s_follower_load s_follower_volt s_follower_temp s_leader_norm s_follower_norm] in *. subst.
  destruct b1, b2, b3; reflexivity.
Qed.

(** A header that [main] has completed. *)
Definition header_ready (h : shm_header) : Prop :=
  h_magic h = MAGIC /\ h_version h = VERSION /\ h_size h = Z.of_nat SHM_SIZE /\ h_n_joints h = Z.of_nat NJ /\
  h_joint_names h = joint_name_bytes.

Definition header_layout : layout := Eval vm_compute in default [] HEADER.

Lemma header_reads m :
  shm_typed m -> let h := shm_header_ m in
  unpack_from HEADER (encode_shm m) 0 =
    Some [h_magic h; h_version h; h_size h; h_daemon_pid h; h_period_ns h; h_n_joints h].
Proof.
  intros H h. change HEADER with (Some header_layout).
  by rewrite (shm_reads m header_layout 0 6 0 H eq_refl eq_refl).
Qed.

(** The low half of the cycle. *)
Lemma cycle_at m :
  shm_typed m -> u32_at (encode_shm m) OFF_SAMPLE = Some (s_cycle (shm_s m) mod 2 ^ 32).
Proof.
  intros H. unfold encode_shm.
  assert (H1 : Forall2 member_ok (take 9 so101_shm_t) (take 9 (shm_values m)))
    by (by apply list_relations.list.Forall2_take).
  rewrite <- (take_drop 9 so101_shm_t), <- (take_drop 9 (shm_values m)), (encode_app _ _ _ _ H1).
  pose proof (length_encode _ _ H1 0) as L1. change (place 0 (take 9 so101_shm_t)).2 with OFF_SAMPLE in *.
  change (drop 9 so101_shm_t) with (mk_member "s.cycle" U64 1 :: drop 10 so101_shm_t).
  change (drop 9 (shm_values m)) with ([s_cycle (shm_s m)] :: drop 10 (shm_values m)).
  cbn [encode]. cbn zeta. set (rest := encode _ (drop 10 so101_shm_t) _). clearbody rest.
  set (pre := encode 0 _ _) in *. clearbody pre. unfold u32_at, unpack_from.
  change U32_ with (Some [(1%nat, Val U32)]). cbn [mbind option_bind].
  change (replicate _ 0) with (@nil Z). unfold enc_member. cbn [map concat app m_type]. rewrite app_nil_r.
  destruct (Nat.ltb_spec (length (pre ++ enc U64 (s_cycle (shm_s m)) ++ rest)) (OFF_SAMPLE + calcsize [(1%nat, Val U32)])) as [Hl|_].
  { rewrite !length_app, length_enc in Hl. change (ctype_size _) with 8%nat in Hl.
    change (calcsize _) with 4%nat in Hl. lia. }
  cbn [unpack_items mbind option_bind]. rewrite drop_app_ge by lia.
  replace (OFF_SAMPLE - length pre)%nat with 0%nat by lia. rewrite drop_0.
  assert (Hz : wrap_u 64 (s_cycle (shm_s m)) = s_cycle (shm_s m)).
  { apply wrap_u_id. apply (list_relations.list.Forall2_drop _ _ _ 9) in H.
    inversion_clear H as [|? ? ? ? [_ Hc] _]. by inversion Hc. }
  assert (Hb : take 4 (enc U64 (s_cycle (shm_s m)) ++ rest) = le_bytes 4 (s_cycle (shm_s m)))
    by (unfold enc; change (bits_of U64) with 64; by rewrite Hz).
  cbn [dec_array ctype_size]. rewrite Hb. cbn [head app]. unfold dec. by rewrite of_le_bytes.
Qed.

(** The 96 bytes of the names. *)
Lemma names_at m :
  shm_typed m -> h_joint_names (shm_header_ m) = joint_name_bytes ->
  map (joint_name (encode_shm m)) (List.seq 0 NJ) = map str calib_joint_names.
Proof.
  intros H Hn. unfold encode_shm.
  assert (H1 : Forall2 member_ok (take 6 so101_shm_t) (take 6 (shm_values m)))
    by (by apply list_relations.list.Forall2_take).
  rewrite <- (take_drop 6 so101_shm_t), <- (take_drop 6 (shm_values m)), (encode_app _ _ _ _ H1).
  pose proof (length_encode _ _ H1 0) as L1. change (place 0 (take 6 so101_shm_t)).2 with OFF_NAMES in *.
  change (drop 6 so101_shm_t) with (mk_member "joint_names" U8 (SO101_NJ * 16) :: drop 7 so101_shm_t).
  change (drop 6 (shm_values m)) with (h_joint_names (shm_header_ m) :: drop 7 (shm_values m)).
  rewrite Hn. cbn [encode]. cbn zeta.
  set (rest := encode _ (drop 7 so101_shm_t) _). clearbody rest.
  set (pre := encode 0 (take 6 so101_shm_t) (take 6 (shm_values m))) in *. clearbody pre.
  assert (Hj : forall j, joint_name (pre ++ replicate (align_up OFF_NAMES 1 - OFF_NAMES) 0 ++
      enc_member (mk_member "joint_names" U8 (SO101_NJ * 16)) joint_name_bytes ++ rest) j =
    until_zero (take 16 (drop (16 * j) (joint_name_bytes ++ rest)))).
  { intros j. unfold joint_name. rewrite <- drop_drop. rewrite drop_app_ge by lia.
    replace (OFF_NAMES - length pre)%nat with 0%nat by lia. reflexivity. }
  cbn [ctype_size m_type]. unfold NJ. cbn [List.seq map]. rewrite !Hj. reflexivity.
Qed.

(** C17: the Python client and the C compiler agree on the segment.  For a segment whose
    fields hold values of their C types, placed by the compiler's rules in the order of
    the struct: its bytes are the 360 the client maps; what lies at each of the client's
    literal offsets, unpacked with its literal format, is the member the offset is named
    for -- header, sequence counter, mode request, faults, beat (an unsigned 64-bit
    number: the client names its offset but does not read it), mailbox, answer;
    the low half of the cycle is where [wait_new] looks for it; with no writer at work
    [read] gets every member of the snapshot under its own name; a completed header is
    accepted, with the six joint names; and the tables of modes and faults are the
    daemon's. *)
Theorem segment_layout m :
  shm_typed m ->
  let mm := encode_shm m in
  let h := shm_header_ m in
  (length mm = SHM_SIZE /\ Forall (in_u 8) mm) /\
  unpack_from HEADER mm 0 = Some [h_magic h; h_version h; h_size h; h_daemon_pid h; h_period_ns h; h_n_joints h] /\
  u32_at mm OFF_SEQ = Some (shm_seq m) /\
  u32_at mm OFF_MODE_REQ = Some (shm_mode_req m) /\
  u32_at mm OFF_FAULTS = Some (shm_faults m) /\
  (forall last, is_new mm last = negb (s_cycle (shm_s m) mod 2 ^ 32 =? last mod 2 ^ 32)) /\
  unpack_from (Struct "<Q") mm OFF_SUP_BEAT = Some [shm_sup_beat m] /\
  unpack_from CMD mm OFF_CMD =
    Some [cmd_id (shm_cmd m); cmd_cmd (shm_cmd m); cmd_arg (shm_cmd m); cmd_client_pid (shm_cmd m)] /\
  unpack_from ACK mm OFF_ACK = Some [ack_id (shm_ack m); ack_result (shm_ack m)] /\
  (Z.even (shm_seq m) = true -> read mm = Some (shm_s m)) /\
  (header_ready h -> attach mm = Some (h_daemon_pid h, h_period_ns h, map str calib_joint_names)) /\
  map offsetof ["joint_names"; "seq"; "s.cycle"; "mode_req"; "faults"; "sup_beat"; "cmd.id"; "ack.id"] =
    map Some [OFF_NAMES; OFF_SEQ; OFF_SAMPLE; OFF_MODE_REQ; OFF_FAULTS; OFF_SUP_BEAT; OFF_CMD; OFF_ACK] /\
  MODES = map so101_mode_name [SO101_MODE_IDLE; SO101_MODE_TELEOP; SO101_MODE_HOLD; SO101_MODE_ESTOP] /\
  FAULTS = map (fun i => fault_name (2 ^ i)) [0; 1; 2; 3; 4; 5; 6; 7].
Proof.
  intros H mm h. split.
  { split; [apply (length_encode _ _ H 0)|apply encode_bytes]. }
  split; [by apply header_reads|].
  split; [exact (u32_reads m 7 OFF_SEQ _ _ H eq_refl eq_refl eq_refl)|].
  split; [exact (u32_reads m 39 OFF_MODE_REQ _ _ H eq_refl eq_refl eq_refl)|].
  split; [exact (u32_reads m 40 OFF_FAULTS _ _ H eq_refl eq_refl eq_refl)|].
  split; [intros last; unfold is_new, mm; rewrite (cycle_at m H); do 2 f_equal; exact (Z.land_ones last 32 ltac:(lia))|].
  split; [exact (shm_reads m [(1%nat, Val U64)] 41 1 OFF_SUP_BEAT H eq_refl eq_refl)|].
  split; [exact (shm_reads m [(1%nat, Val U32); (1%nat, Val U32); (1%nat, Val I32); (1%nat, Val I32)] 42 4
                   OFF_CMD H eq_refl eq_refl)|].
  split; [exact (shm_reads m [(1%nat, Val U32); (1%nat, Val I32)] 46 2 OFF_ACK H eq_refl eq_refl)|].
  split; [by apply read_sample|]. split; [|by split_and!].
  intros (H1 & H2 & H3 & H4 & H5). unfold attach, mm. rewrite (header_reads m H). cbn [mbind option_bind].
  fold h. rewrite H1, H2, H3, H4. rewrite !Z.eqb_refl. cbn [negb orb].
  rewrite Nat2Z.id. by rewrite (names_at m H H5).
Qed.

(** ** Commands *)

Definition with_cmd (c : so101_cmd) (m : so101_shm) : so101_shm :=
  mk_shm (shm_header_ m) (shm_seq m) (shm_s m) (shm_mode_req m) (shm_faults m) (shm_sup_beat m) c (shm_ack m).

Definition ints_only (l : layout) : bool :=
  forallb (fun i => match i.2 with Val F32 | Pad => false | Val _ => true end) l.

Lemma fits_of_type t z : t <> F32 -> of_type t z -> fits t z = true.
Proof.
  intros Ht H. destruct t; try done; cbn [fits of_type] in *;
    apply andb_true_iff; rewrite Z.leb_le, Z.ltb_lt; exact H.
Qed.

Lemma pack_reads ms vss :
  Forall2 member_ok ms vss -> forall l off, reads off l ms = true -> ints_only l = true ->
  pack l (concat vss) = Some (encode off ms vss).
Proof.
  induction 1 as [|m vs ms vss Hm _ IH]; intros [|[n i] l] off Hr Hi; try done.
  apply reads_cons in Hr as (Hal & _ & Ht & Hr). cbn [ints_only forallb] in Hi. apply andb_true_iff in Hi as [Hi1 Hi].
  destruct i as [t|]; [|done]. destruct Ht as [-> ->]. cbn [pack encode concat]. cbn zeta. cbn [snd] in Hi1.
  rewrite Hal, Nat.sub_diag. cbn [replicate app]. destruct Hm as [Hl Hv]. rewrite <- Hl.
  rewrite take_app_length, drop_app_length, length_app.
  destruct (Nat.ltb_spec (length vs + length (concat vss)) (length vs)) as [|_]; [lia|].
  assert (Hf : forallb (fits (m_type m)) vs = true).
  { apply forallb_forall. intros z Hz. apply fits_of_type; [by destruct (m_type m)|].
    rewrite List.Forall_forall in Hv. by apply Hv. }
  rewrite Hf. cbn [negb orb]. rewrite (IH l _ Hr Hi). done.
Qed.

Lemma pack_splice l vs bs pre old post off :
  pack l vs = Some bs -> length pre = off -> length bs = length old ->
  pack_into (Some l) (pre ++ old ++ post) off vs = Some (pre ++ bs ++ post).
Proof.
  intros Hp Hpre Hlen. unfold pack_into. cbn [mbind option_bind]. rewrite Hp. cbn [mbind option_bind].
  destruct (Nat.ltb_spec (length (pre ++ old ++ post)) (off + length bs)) as [Hlt|_];
    [rewrite !length_app in Hlt; lia|].
  subst off. rewrite take_app_length. do 3 f_equal. rewrite app_assoc, drop_app_ge by (rewrite length_app; lia).
  rewrite length_app. replace (length pre + length bs - (length pre + length old))%nat with 0%nat by lia. done.
Qed.

(** The segment after the [k] members from the [i]-th on are overwritten. *)
Lemma shm_writes m m' l i k off vss :
  shm_typed m ->
  shm_values m' = take i (shm_values m) ++ vss ++ drop k (drop i (shm_values m)) ->
  Forall2 member_ok (take k (drop i so101_shm_t)) vss ->
  (place 0 (take i so101_shm_t)).2 = off -> reads off l (take k (drop i so101_shm_t)) = true -> ints_only l = true ->
  pack_into (Some l) (encode_shm m) off (concat vss) = Some (encode_shm m').
Proof.
  intros H Hv Hok Hoff Hr Hi.
  assert (Hs : forall A (x : list A), x = take i x ++ take k (drop i x) ++ drop k (drop i x))
    by (intros A x; by rewrite !take_drop).
  unfold encode_shm. rewrite Hv, (Hs _ so101_shm_t). rewrite (Hs _ (shm_values m)) at 1.
  pose proof (list_relations.list.Forall2_take _ _ _ i H) as H1.
  pose proof (list_relations.list.Forall2_take _ _ _ k (list_relations.list.Forall2_drop _ _ _ i H)) as H2.
  rewrite (encode_app _ _ _ _ H1), (encode_app _ _ _ _ H2), (encode_app _ _ _ _ H1), (encode_app _ _ _ _ Hok), Hoff.
  apply pack_splice.
  - by apply pack_reads.
  - rewrite <- Hoff. apply (length_encode _ _ H1 0).
  - pose proof (length_encode _ _ H2 off) as L2. pose proof (length_encode _ _ Hok off) as L3.
    rewrite <- L3 in L2. clear -L2. revert L2. generalize (encode off (take k (drop i so101_shm_t)) vss).
    generalize (encode off (take k (drop i so101_shm_t)) (take k (drop i (shm_values m)))). intros x y. lia.
Qed.

Lemma with_cmd_values c m :
  shm_values (with_cmd c m) = take 42 (shm_values m) ++
    [[cmd_id c]; [cmd_cmd c]; [cmd_arg c]; [cmd_client_pid c]] ++ drop 4 (drop 42 (shm_values m)).
Proof. vm_compute. reflexivity. Qed.

(** The id alone. *)
Lemma with_id_values i c a p m :
  shm_values (with_cmd (mk_cmd i c a p) m) = take 42 (shm_values (with_cmd (mk_cmd 0 c a p) m)) ++
    [[i]] ++ drop 1 (drop 42 (shm_values (with_cmd (mk_cmd 0 c a p) m))).
Proof. vm_compute. reflexivity. Qed.

Lemma cmd_typed_values c m :
  shm_typed m -> in_u 32 (cmd_id c) -> in_u 32 (cmd_cmd c) -> in_s 32 (cmd_arg c) -> in_s 32 (cmd_client_pid c) ->
  Forall2 member_ok (take 4 (drop 42 so101_shm_t)) [[cmd_id c]; [cmd_cmd c]; [cmd_arg c]; [cmd_client_pid c]] /\
  shm_typed (with_cmd c m).
Proof.
  intros H H1 H2 H3 H4.
  assert (Hc : Forall2 member_ok (take 4 (drop 42 so101_shm_t)) [[cmd_id c]; [cmd_cmd c]; [cmd_arg c]; [cmd_client_pid c]])
    by (repeat (apply List.Forall2_cons; [split; [reflexivity|apply List.Forall_cons; [assumption|constructor]]|]);
        apply List.Forall2_nil).
  split; [exact Hc|]. unfold shm_typed. rewrite with_cmd_values.
  change so101_shm_t with (take 42 so101_shm_t ++ take 4 (drop 42 so101_shm_t) ++ drop 4 (drop 42 so101_shm_t)).
  apply Forall2_app; [by apply list_relations.list.Forall2_take|].
  apply Forall2_app; [exact Hc|by do 2 apply list_relations.list.Forall2_drop].
Qed.

Lemma command_id_range pid now : 0 < command_id pid now < 2 ^ 32.
Proof.
  unfold command_id. cbv zeta. change 0xFFFFFFFF with (Z.ones 32). rewrite Z.land_ones by lia.
  pose proof (Z.mod_pos_bound (Z.lxor (Z.shiftl pid 12) now) (2 ^ 32) ltac:(lia)).
  destruct (Z.eqb_spec (Z.lxor (Z.shiftl pid 12) now `mod` 2 ^ 32) 0); lia.
Qed.

Definition cmd_layout : layout := Eval vm_compute in default [] CMD.
Definition ack_layout : layout := Eval vm_compute in default [] ACK.

(** What a client asks for by name. *)
Definition asked (name : string) : option (Z * Z) := snd <$> find (fun c => (c.1 =? name)%string) COMMANDS.

(** C18: What the Python client writes is what the daemon reads.  Posting a command by
    name leaves the segment as it was but for the mailbox, which then holds, as the
    supervisor's [so101_cmd], the client's id -- never 0 -- the daemon's own code of that
    command and mode, and the client's pid; and the client takes an answer for its own
    just when the id matches, and names the daemon's three results rightly. *)
Theorem python_commands m name c pid now :
  shm_typed m -> asked name = Some c -> in_s 32 pid ->
  let cid := command_id pid now in
  0 < cid < 2 ^ 32 /\
  post_command (encode_shm m) cid pid name = Some (encode_shm (with_cmd (mk_cmd cid c.1 c.2 pid) m)) /\
  map asked ["idle"; "teleop"; "hold"; "estop"; "reset"; "ping"] =
    [Some (SO101_CMD_SET_MODE, SO101_MODE_IDLE); Some (SO101_CMD_SET_MODE, SO101_MODE_TELEOP);
     Some (SO101_CMD_SET_MODE, SO101_MODE_HOLD); Some (SO101_CMD_ESTOP, 0); Some (SO101_CMD_RESET, 0);
     Some (SO101_CMD_PING, 0)] /\
  answer (encode_shm m) cid =
    if ack_id (shm_ack m) =? cid then
      Some (if ack_result (shm_ack m) =? SO101_RES_OK then inl "OK"
            else if ack_result (shm_ack m) =? SO101_RES_BAD_CMD then inl "BAD_CMD"
            else if ack_result (shm_ack m) =? SO101_RES_REFUSED then inl "REFUSED"
            else inr (ack_result (shm_ack m)))
    else None.
Proof.
  intros H Hname Hpid cid. split; [apply command_id_range|]. pose proof (command_id_range pid now) as Hcid.
  fold cid in Hcid. split; [|split; [reflexivity|]].
  - unfold asked in Hname. unfold post_command.
    destruct (find _ COMMANDS) as [[n' c']|] eqn:Ef; [|done]. injection Hname as <-. cbn [mbind option_bind fst snd].
    assert (Hc : in_u 32 c'.1 /\ in_s 32 c'.2).
    { apply find_some in Ef as [Hin _]. cbn in Hin.
      repeat (destruct Hin as [[= <- <-]|Hin]; [by split; vm_compute|]). destruct Hin. }
    destruct (cmd_typed_values (mk_cmd 0 c'.1 c'.2 pid) m H ltac:(by vm_compute) (proj1 Hc) (proj2 Hc) Hpid) as [Hok H0].
    change [0; c'.1; c'.2; pid] with (concat [[0]; [c'.1]; [c'.2]; [pid]]).
    change CMD with (Some cmd_layout).
    rewrite (shm_writes m (with_cmd (mk_cmd 0 c'.1 c'.2 pid) m) cmd_layout 42 4 OFF_CMD [[0]; [c'.1]; [c'.2]; [pid]] H (with_cmd_values _ m) Hok
      eq_refl eq_refl eq_refl). cbn [mbind option_bind].
    change [cid] with (concat [[cid]]). change U32_ with (Some [(1%nat, Val U32)]).
    apply (shm_writes (with_cmd (mk_cmd 0 c'.1 c'.2 pid) m) (with_cmd (mk_cmd cid c'.1 c'.2 pid) m) [(1%nat, Val U32)] 42 1 OFF_CMD
      [[cid]] H0 (with_id_values _ _ _ _ m)); [|done..].
    constructor; [|constructor]. split; [done|]. constructor; [|constructor]. cbn. unfold in_u, bits_of. cbn. lia.
  - unfold answer. change ACK with (Some ack_layout).
    rewrite (shm_reads m ack_layout 46 2 OFF_ACK H eq_refl eq_refl). cbn [mbind option_bind].
    change (taken _ _) with [ack_id (shm_ack m); ack_result (shm_ack m)]. cbn iota.
    destruct (_ =? cid); [|done]. f_equal. cbn [RESULTS find fst snd].
    rewrite !(Z.eqb_sym _ (ack_result (shm_ack m))). change SO101_RES_OK with 0.
    change SO101_RES_BAD_CMD with (-1). change SO101_RES_REFUSED with (-2).
    destruct (_ =? 0); [done|]. destruct (_ =? -1); [done|]. by destruct (_ =? -2).
Qed.

(** ** Witnesses *)

Lemma segment_layout_witness :
  take 8 (encode_shm demo_shm) = [0x53; 0x31; 0x30; 0x31; 2; 0; 0; 0] /\
  read (encode_shm demo_shm) = Some sample_zero /\
  u32_at (encode_shm demo_shm) OFF_MODE_REQ = Some SO101_MODE_TELEOP /\
  attach (encode_shm demo_shm) = Some (4242, 10000000, map str calib_joint_names).
Proof.
  split; [vm_compute; reflexivity|].
  destruct (segment_layout demo_shm demo_shm_typed) as (_ & _ & _ & H1 & _ & _ & _ & _ & _ & H2 & H3 & _).
  split; [exact (H2 eq_refl)|]. split; [exact H1|]. apply H3. split_and!; reflexivity.
Defined.

Lemma python_commands_witness :
  post_command (encode_shm demo_shm) (command_id 4321 123456789) 4321 "teleop" =
    Some (encode_shm (with_cmd (mk_cmd (command_id 4321 123456789) SO101_CMD_SET_MODE SO101_MODE_TELEOP 4321) demo_shm)).
Proof.
  apply (python_commands demo_shm "teleop" (SO101_CMD_SET_MODE, SO101_MODE_TELEOP) 4321 123456789 demo_shm_typed).
  - reflexivity.
  - by vm_compute.
Defined.
