(* ===== verification/Double.v ===== *)
(** * Binary64 arithmetic

    The [double] expressions of the sources (rates, periods), on the Standard
    Library's specification of IEEE 754 floats. *)

From Stdlib Require Import SpecFloat.
From S2P Require Import Prelude.

Definition double : Type := spec_float.

Definition d_of_Z (z : Z) : double := binary_normalize 53 1024 z 0 false.
Definition d_div (x y : double) : double := SFdiv 53 1024 x y.
Definition d_mul (x y : double) : double := SFmul 53 1024 x y.
Definition d_sub (x y : double) : double := SFsub 53 1024 x y.
Definition d_add (x y : double) : double := SFadd 53 1024 x y.

(** [x <= y], false when one is not a number. *)
Definition d_leb (x y : double) : bool := SFleb x y.
Definition d_ltb (x y : double) : bool := SFltb x y.

(** The integer part; nothing of an infinity or a NaN. *)
Definition d_trunc (x : double) : option Z :=
  match x with
  | S754_zero _ => Some 0
  | S754_finite s m e =>
      let a := if 0 <=? e then Z.pos m * 2 ^ e else Z.pos m / 2 ^ (- e) in
      Some (if s then - a else a)
  | _ => None
  end.

(** Conversion to a signed type of width [w]: undefined out of range. *)
Definition d_to_s (w : Z) (x : double) : option Z :=
  z ← d_trunc x;
  if (- 2 ^ (w - 1) <=? z) && (z <? 2 ^ (w - 1)) then Some z else None.

Example d_period : d_to_s 64 (d_div (d_of_Z 1000000000) (d_of_Z 300)) = Some 3333333.
Proof. reflexivity. Qed.

Lemma d_to_s_range w x z : d_to_s w x = Some z -> in_s w z.
Proof.
  unfold d_to_s. destruct (d_trunc x) as [a|]; [|done]. cbn.
  destruct (Z.leb_spec (- 2 ^ (w - 1)) a), (Z.ltb_spec a (2 ^ (w - 1))); try done.
  intros [= <-]. by split.
Qed.
