(* ===== verification/Client.v ===== *)
(** * The command-line client (daemon/tools/so101ctl.c)

    [main] as a program over its operations on the segment, the semaphores, the
    clock and the terminal: attaching, sending one command through the mailbox, and
    showing snapshots.  [cli_step] says what an operation does to the shared part of
    the segment. *)

From stdpp Require Import strings.
From S2P Require Import Prelude Os Shm Ctx Prog Double Supervisor.

(** What the client prints, by its arguments. *)
Inductive cli_line :=
| NotFound | MmapFailed | Mismatch (magic version size : Z) | SemOpenFailed | MailboxBusy
| Answer (text : string) | NoAnswer | NoSnapshot | Show (s : so101_sample) | Clear | Stopped
| Usage | UnknownCommand (name : string).

Inductive cli_ev : Type -> Type :=
| ShmOpen (writable : bool) : cli_ev bool
| Mmap (writable : bool) : cli_ev bool
| ReadMagic : cli_ev Z
| ReadVersion : cli_ev Z
| ReadSize : cli_ev Z
| OpenLock : cli_ev bool
| OpenReady : cli_ev bool
| CliRealTime : cli_ev timespec
| CliMonoTime : cli_ev timespec
| LockWait (deadline : timespec) : cli_ev bool        (* sem_timedwait(lock) == 0 *)
| GetPid : cli_ev Z
| SetCmd (v : Z) : cli_ev unit
| SetArg (v : Z) : cli_ev unit
| SetPid (v : Z) : cli_ev unit
| SetId (v : Z) : cli_ev unit
| PostReady : cli_ev unit
| LoadAckId : cli_ev Z
| LoadAckResult : cli_ev Z
| ReleaseLock : cli_ev unit                           (* sem_post(lock) *)
| Nanosleep (t : timespec) : cli_ev unit
| ReadSample (max_tries : nat) : cli_ev (option so101_sample)
| Print (l : cli_line) : cli_ev unit.

(** sizeof(so101_shm_t) *)
Definition SHM_SIZE : Z := 360.

(** The header check of [attach]. *)
Definition header_ok : prog cli_ev bool :=
  magic ← do ReadMagic;
  if negb (magic =? SO101_SHM_MAGIC) then mret false
  else
    version ← do ReadVersion;
    if negb (version =? SO101_SHM_VERSION) then mret false
    else size ← do ReadSize; mret (size =? SHM_SIZE).

(** [attach]: true when the segment is mapped and its header is right. *)
Definition attach (writable : bool) : prog cli_ev bool :=
  opened ← do (ShmOpen writable);
  if negb opened then do (Print NotFound);; mret false
  else
    mapped ← do (Mmap writable);
    if negb mapped then do (Print MmapFailed);; mret false
    else
      ok ← header_ok;
      if ok : bool then mret true
      else
        magic ← do ReadMagic;
        version ← do ReadVersion;
        size ← do ReadSize;
        do (Print (Mismatch magic version size));;
        mret false.

(** [print_faults] *)
Definition fault_bit_names : list string :=
  ["LEADER_COMM"; "FOLLOWER_COMM"; "OVERTEMP"; "VOLTAGE"; "OVERRUN"; "STALL"; "ESTOP"; "TORQUE_REFUSED"].
Fixpoint bits_text (b : Z) (names : list string) (f : Z) : string :=
  match names with
  | [] => ""
  | n :: names =>
      let rest := bits_text (b + 1) names f in
      if negb (Z.land f (Z.shiftl 1 b) =? 0) then (n +:+ " " +:+ rest)%string else rest
  end.
Definition print_faults (f : Z) : string := if f =? 0 then "none" else bits_text 0 fault_bit_names f.

(** ** The mailbox protocol *)

Definition result_text (r : Z) : string :=
  if r =? SO101_RES_OK then "OK"
  else if r =? SO101_RES_REFUSED then "REFUSED (active faults: try 'reset')" else "BAD_CMD".

(** The wait for the answer, up to about one second. *)
Fixpoint poll_ack (tries : nat) (id : Z) : prog cli_ev Z :=
  match tries with
  | O => do ReleaseLock;; do (Print NoAnswer);; mret 1
  | S tries =>
      a ← do LoadAckId;
      if a =? id then
        r ← do LoadAckResult;
        do ReleaseLock;;
        do (Print (Answer (result_text r)));;
        mret (if r =? SO101_RES_OK then 0 else 1)
      else
        do (Nanosleep (mk_timespec 0 1000000));;
        poll_ack tries id
  end.

(** [((uint32_t)getpid() << 12) ^ (uint32_t)t.tv_nsec], never 0. *)
Definition command_id (pid nsec : Z) : Z :=
  let id := Z.lxor (u32 (Z.shiftl (u32 pid) 12)) (u32 nsec) in
  if id =? 0 then 1 else id.

(** The four stores to the mailbox. *)
Definition write_mailbox (cmd arg pid id : Z) : prog cli_ev unit :=
  do (SetCmd cmd);;
  do (SetArg arg);;
  do (SetPid pid);;
  do (SetId id).

Definition send_cmd (cmd arg : Z) : prog cli_ev Z :=
  lock ← do OpenLock;
  ready ← do OpenReady;
  if negb lock || negb ready then do (Print SemOpenFailed);; mret 1
  else
    dl ← do CliRealTime;
    got ← do (LockWait (mk_timespec (tv_sec dl + 1) (tv_nsec dl)));
    if negb got then do (Print MailboxBusy);; mret 1
    else
      t ← do CliMonoTime;
      pid ← do GetPid;
      let id := command_id pid (tv_nsec t) in
      write_mailbox cmd arg pid id;;
      do PostReady;;
      poll_ack 1000 id.

(** ** main *)

Definition cmds : list (string * Z * Z) :=
  [("idle", SO101_CMD_SET_MODE, SO101_MODE_IDLE); ("teleop", SO101_CMD_SET_MODE, SO101_MODE_TELEOP);
   ("hold", SO101_CMD_SET_MODE, SO101_MODE_HOLD); ("estop", SO101_CMD_ESTOP, 0);
   ("reset", SO101_CMD_RESET, 0); ("ping", SO101_CMD_PING, 0)].

Fixpoint find_cmd (name : string) (l : list (string * Z * Z)) : option (Z * Z) :=
  match l with
  | [] => None
  | (n, cmd, arg) :: l => if (name =? n)%string then Some (cmd, arg) else find_cmd name l
  end.

Section Main.
(** libc's [atof]. *)
Context (atof : string -> double).

(** The pause between two displays; [None]: the conversion overflows. *)
Definition watch_pause (hz : option string) : option timespec :=
  let hz := match hz with Some s => atof s | None => d_of_Z 5 end in
  let hz := if d_leb hz (d_of_Z 0) then d_of_Z 5 else hz in
  let q := d_div (d_of_Z 1) hz in
  sec ← d_to_s 64 q;
  nsec ← d_to_s 64 (d_mul (d_sub q (d_of_Z sec)) (d_of_Z 1000000000));
  Some (mk_timespec sec nsec).

Fixpoint watch (fuel : nat) (p : timespec) : prog cli_ev Z :=
  match fuel with
  | O => Undef
  | S fuel =>
      magic ← do ReadMagic;
      if negb (magic =? SO101_SHM_MAGIC) then do (Print Stopped);; mret 0
      else
        s ← do (ReadSample 1000);
        (match s with Some s => do (Print Clear);; do (Print (Show s)) | None => mret tt end);;
        do (Nanosleep p);;
        watch fuel p
  end.

(** [main] on the arguments after the program's name. *)
Definition ctl_main (fuel : nat) (args : list string) : prog cli_ev Z :=
  match args with
  | [] => do (Print Usage);; mret 2
  | name :: rest =>
      match find_cmd name cmds with
      | Some (cmd, arg) =>
          w ← attach true;
          if w : bool then send_cmd cmd arg else mret 1
      | None =>
          shm ← attach false;
          if negb shm then mret 1
          else if (name =? "status")%string then
            s ← do (ReadSample 1000);
            match s with
            | None => do (Print NoSnapshot);; mret 1
            | Some s => do (Print (Show s));; mret 0
            end
          else if (name =? "watch")%string then
            p ← defined (watch_pause (head rest));
            watch fuel p
          else do (Print (UnknownCommand name));; mret 2
      end
  end.
End Main.

(** ** The shared part of the segment *)

Definition set_cmd_field (f : so101_cmd -> so101_cmd) (s : shared) : shared := set_cmd (f (sh_cmd s)) s.

(** The header, the terminal and the clocks are inputs; a store converts to the
    type of its field. *)
Definition cli_step (R : Type) (e : cli_ev R) (s : shared) : R -> shared -> Prop :=
  match e in cli_ev R return R -> shared -> Prop with
  | LockWait _ => fun got s' =>
      if got : bool then 0 < sh_lock s /\ s' = set_lock (sh_lock s - 1) s
      else sh_lock s <= 0 /\ s' = s
  | SetCmd v => fun _ s' =>
      s' = set_cmd_field (fun c => mk_cmd (cmd_id c) (u32 v) (cmd_arg c) (cmd_client_pid c)) s
  | SetArg v => fun _ s' =>
      s' = set_cmd_field (fun c => mk_cmd (cmd_id c) (cmd_cmd c) (i32 v) (cmd_client_pid c)) s
  | SetPid v => fun _ s' =>
      s' = set_cmd_field (fun c => mk_cmd (cmd_id c) (cmd_cmd c) (cmd_arg c) (i32 v)) s
  | SetId v => fun _ s' =>
      s' = set_cmd_field (fun c => mk_cmd (u32 v) (cmd_cmd c) (cmd_arg c) (cmd_client_pid c)) s
  | PostReady => fun _ s' => s' = set_ready (sh_ready s + 1) s
  | LoadAckId => fun a s' => a = ack_id (sh_ack s) /\ s' = s
  | LoadAckResult => fun r s' => r = ack_result (sh_ack s) /\ s' = s
  | ReleaseLock => fun _ s' => s' = set_lock (sh_lock s + 1) s
  | ReadSample _ => fun r s' => (r = None \/ r = Some (sh_sample s)) /\ s' = s
  | _ => fun _ s' => s' = s
  end.
