(* ===== verification/System.v ===== *)
(** * The whole daemon and its clients

    The control thread, the supervisor and any number of clients, interleaved one
    operation at a time on the shared segment.  Each thread is its own program
    ([control_thread], [supervisor_thread], [ctl_main]); what one does is what the
    others meet between two of their operations. *)

From stdpp Require Import relations strings.
From S2P Require Import Prelude Os Shm Ctx Prog Control ControlProps Supervisor SupervisorProps SupervisorThms Client.

(** The control thread on the shared part of the segment.  The buses are its own:
    their answers are inputs. *)
Definition ctl_step (R : Type) (e : ctl_ev R) (s : shared) (r : R) (s' : shared) : Prop :=
  ctl_ok (Obs e r) /\
  match e in ctl_ev R return R -> shared -> Prop with
  | MonoNs => fun t s' => t = sh_clock s /\ s' = s
  | LoadModeReq => fun m s' => m = sh_mode_req s /\ s' = s
  | FaultsOr bits => fun _ s' => s' = set_faults (Z.lor (sh_faults s) bits) s
  | FaultsAnd bits => fun _ s' => s' = set_faults (Z.land (sh_faults s) bits) s
  | LoadFaults => fun f s' => f = sh_faults s /\ s' = s
  | Publish smp => fun _ s' => s' = set_sample smp s
  | _ => fun _ s' => s' = s
  end r s'.

Record system := mk_system {
  sy_ctl : proc ctl_ev unit;
  sy_sup : proc sup_ev unit;
  sy_cli : list (proc cli_ev Z);
  sy_mem : shared
}.

Definition set_clock (t : Z) (s : shared) : shared :=
  mk_shared (sh_mode_req s) (sh_faults s) (sh_sup_beat s) (sh_cmd s) (sh_ack s) (sh_lock s) (sh_ready s)
    (sh_sample s) t.

(** Clients come at any time; [client] says what programs they run. *)
Inductive sys_step (client : prog cli_ev Z -> Prop) : system -> system -> Prop :=
| sys_ctl y p m :
    proc_step ctl_step (sy_ctl y) (sy_mem y) p m -> sys_step client y (mk_system p (sy_sup y) (sy_cli y) m)
| sys_sup y p m :
    proc_step sup_step (sy_sup y) (sy_mem y) p m -> sys_step client y (mk_system (sy_ctl y) p (sy_cli y) m)
| sys_cli y i p p' m :
    sy_cli y !! i = Some p -> proc_step cli_step p (sy_mem y) p' m ->
    sys_step client y (mk_system (sy_ctl y) (sy_sup y) (<[i:=p']> (sy_cli y)) m)
| sys_cli_starts y p :
    client p -> sys_step client y (mk_system (sy_ctl y) (sy_sup y) (sy_cli y ++ [mk_proc p []]) (sy_mem y))
| sys_time y t :
    sh_clock (sy_mem y) <= t ->
    sys_step client y (mk_system (sy_ctl y) (sy_sup y) (sy_cli y) (set_clock t (sy_mem y))).

(** The threads start on the segment [main] has set up. *)
Definition boot (c : so101d_ctx) (fuel_c fuel_s : nat) (m : shared) : system :=
  mk_system (mk_proc (control_thread fuel_c c) []) (mk_proc (supervisor_thread fuel_s c) []) [] m.
