(* ===== verification/SystemProps.v ===== *)
(** * The threads together: what each guarantees the others

    [sup_env] and the other assumptions of the theorems on a single thread hold of
    every step of the other threads; the position of a thread in its program is known
    in every reachable state. *)

From stdpp Require Import relations strings.
From S2P Require Import Prelude Os Shm Ctx Prog Control ControlProps Supervisor SupervisorProps SupervisorThms Client System.

(** ** The control thread only touches its own fault bit *)

Definition own_bit (R : Type) (e : ctl_ev R) : Prop :=
  match e with
  | FaultsOr bits => bits = SO101_F_TORQUE_REFUSED
  | FaultsAnd bits => bits = u32 (Z.lnot SO101_F_TORQUE_REFUSED)
  | _ => True
  end.

(** The operations other than the test of the run flag. *)
Definition not_load_run (R : Type) (e : ctl_ev R) : Prop :=
  match e with LoadRun => False | _ => True end.

(** Both at once, for the parts of a cycle. *)
Definition inside (R : Type) (e : ctl_ev R) : Prop := own_bit R e /\ not_load_run R e.

Create HintDb inside.

Ltac only_parts :=
  repeat first
    [ apply only_ret | apply only_defined | apply only_bind; [|intros ?]
    | apply only_do; by split
    | match goal with
      | |- only _ (let _ := _ in _) => cbv zeta
      | |- only _ (if ?b then _ else _) => destruct b
      | |- only _ (match ?o with Some _ => _ | None => _ end) => destruct o
      end ].

Lemma read_leader_inside c k : only inside (read_leader c k).
Proof. unfold read_leader, set_torque. only_parts. Qed.
Lemma read_follower_inside c k : only inside (read_follower c k).
Proof. unfold read_follower, set_torque. only_parts. Qed.
Lemma apply_mode_inside c k : only inside (apply_mode c k).
Proof. unfold apply_mode, set_torque, write_goal. only_parts. Qed.
Lemma track_goal_inside c k : only inside (track_goal c k).
Proof. unfold track_goal, write_goal. only_parts. Qed.
Lemma publish_inside k wake t0 t1 t2 : only inside (publish k wake t0 t1 t2).
Proof. unfold publish. only_parts. Qed.
Lemma next_slot_inside c k : only inside (next_slot c k).
Proof. unfold next_slot. only_parts. Qed.
Lemma control_start_inside c : only inside (control_start c).
Proof. unfold control_start, set_torque. only_parts. Qed.
Lemma control_stop_inside c : only inside (control_stop c).
Proof. unfold control_stop, set_torque. only_parts. Qed.

#[export] Hint Resolve read_leader_inside read_follower_inside apply_mode_inside track_goal_inside
  publish_inside next_slot_inside control_start_inside control_stop_inside : inside.

Lemma control_cycle_inside c k : only inside (control_cycle c k).
Proof.
  unfold control_cycle.
  repeat first [solve [auto with inside]|apply only_do; by split|apply only_bind; [|intros ?]|progress cbv zeta].
Qed.

Lemma only_weaken {E A} (P Q : forall R, E R -> Prop) (p : prog E A) :
  (forall R e, P R e -> Q R e) -> only P p -> only Q p.
Proof.
  intros H. induction p as [a| |R e k IH]; cbn; [done..|]. intros [H1 H2].
  split; [by apply H|]. intros r. by apply IH.
Qed.

Lemma control_loop_own fuel c : forall k, only own_bit (control_loop fuel c k).
Proof.
  induction fuel as [|fuel IH]; intros k; [done|]. cbn [control_loop].
  apply only_bind; [by apply only_do|]. intros [|].
  - apply only_bind; [|apply IH]. eapply only_weaken; [|apply control_cycle_inside]. by intros ? ? [].
  - eapply only_weaken; [|apply control_stop_inside]. by intros ? ? [].
Qed.

Lemma control_thread_own fuel c : only own_bit (control_thread fuel c).
Proof.
  apply only_bind; [|intros k; apply control_loop_own].
  eapply only_weaken; [|apply control_start_inside]. by intros ? ? [].
Qed.

(** ** Steps of the others as interference *)

Lemma agree_lor7 f : agree (Z.lor f SO101_F_TORQUE_REFUSED) f.
Proof.
  intros i Hi. rewrite Z.lor_spec. replace SO101_F_TORQUE_REFUSED with (2 ^ 7) by reflexivity.
  rewrite Z.pow2_bits_eqb by lia. destruct (Z.eqb_spec 7 i); [lia|]. apply orb_false_r.
Qed.

Lemma agree_land7 f : in_u 32 f -> agree (Z.land f (u32 (Z.lnot SO101_F_TORQUE_REFUSED))) f.
Proof.
  intros [H0 H32] i Hi. rewrite Z.land_spec. unfold wrap_u.
  destruct (Z.ltb_spec i 0); [by rewrite !Z.testbit_neg_r by lia|].
  destruct (Z.ltb_spec i 32).
  - rewrite Z.mod_pow2_bits_low, Z.lnot_spec by lia.
    replace SO101_F_TORQUE_REFUSED with (2 ^ 7) by reflexivity.
    rewrite Z.pow2_bits_eqb by lia. destruct (Z.eqb_spec 7 i); [lia|]. apply andb_true_r.
  - rewrite <- (Z.mod_small f (2 ^ 32)) by done. by rewrite !Z.mod_pow2_bits_high by lia.
Qed.

(** ** The fields of the segment keep their types *)

Definition cmd_typed (c : so101_cmd) : Prop :=
  in_u 32 (cmd_id c) /\ in_u 32 (cmd_cmd c) /\ in_s 32 (cmd_arg c) /\ in_s 32 (cmd_client_pid c).
(** The mode request, the faults, the beat, the mailbox and the answer are values of
    their types.  (The snapshot and the header, written by one thread each, are not
    in it.) *)
Definition mem_typed (s : shared) : Prop :=
  in_u 32 (sh_mode_req s) /\ in_u 32 (sh_faults s) /\ in_u 64 (sh_sup_beat s) /\
  cmd_typed (sh_cmd s) /\ in_u 32 (ack_id (sh_ack s)) /\ in_s 32 (ack_result (sh_ack s)).

(** Below [2 ^ w] means no bit from [w] on. *)
Lemma in_u_bits w z : 0 <= w -> 0 <= z -> in_u w z <-> forall i, w <= i -> Z.testbit z i = false.
Proof.
  intros Hw Hz. split.
  - intros [_ H] i Hi. rewrite <- (Z.mod_small z (2 ^ w)) by done. by apply Z.mod_pow2_bits_high.
  - intros H. split; [done|].
    assert (E : z = z mod 2 ^ w).
    { apply Z.bits_inj'. intros i Hi. destruct (Z.ltb_spec i w).
      - by rewrite Z.mod_pow2_bits_low.
      - rewrite Z.mod_pow2_bits_high by lia. by apply H. }
    rewrite E. apply Z.mod_pos_bound. lia.
Qed.

Lemma lor_in_u w a b : 0 <= w -> in_u w a -> in_u w b -> in_u w (Z.lor a b).
Proof.
  intros Hw Ha Hb. pose proof Ha as [Ha0 _]. pose proof Hb as [Hb0 _].
  apply in_u_bits; [done|by apply Z.lor_nonneg|]. intros i Hi. rewrite Z.lor_spec.
  rewrite (proj1 (in_u_bits w a Hw Ha0) Ha i Hi). by apply (proj1 (in_u_bits w b Hw Hb0)).
Qed.

Lemma land_in_u w a b : 0 <= w -> in_u w a -> in_u w (Z.land a b).
Proof.
  intros Hw Ha. pose proof Ha as [Ha0 _].
  apply in_u_bits; [done|apply Z.land_nonneg; by left|]. intros i Hi. rewrite Z.land_spec.
  by rewrite (proj1 (in_u_bits w a Hw Ha0) Ha i Hi).
Qed.

Section Setters.
Context (s : shared) (H : mem_typed s).

Lemma mode_typed v : in_u 32 v -> mem_typed (set_mode_req v s).
Proof. unfold mem_typed in *. cbn. tauto. Qed.
Lemma faults_typed v : in_u 32 v -> mem_typed (set_faults v s).
Proof. unfold mem_typed in *. cbn. tauto. Qed.
Lemma beat_typed v : mem_typed (set_beat (u64 v) s).
Proof. unfold mem_typed in *. cbn. pose proof (wrap_u_range 64 v ltac:(lia)). tauto. Qed.
Lemma ack_typed i r : in_u 32 i -> in_s 32 r -> mem_typed (set_ack (mk_ack i r) s).
Proof. unfold mem_typed in *. cbn. tauto. Qed.
Lemma cmd_mem_typed c : cmd_typed c -> mem_typed (set_cmd c s).
Proof. unfold mem_typed in *. cbn. tauto. Qed.
Lemma lock_typed v : mem_typed (set_lock v s).
Proof. unfold mem_typed in *. cbn. tauto. Qed.
Lemma ready_typed v : mem_typed (set_ready v s).
Proof. unfold mem_typed in *. cbn. tauto. Qed.
Lemma sample_mem_typed v : mem_typed (set_sample v s).
Proof. unfold mem_typed in *. cbn. tauto. Qed.
Lemma clock_typed v : mem_typed (set_clock v s).
Proof. unfold mem_typed in *. cbn. tauto. Qed.
Lemma get_faults_typed : in_u 32 (sh_faults s).
Proof. apply H. Qed.
Lemma get_mode_typed : in_u 32 (sh_mode_req s).
Proof. apply H. Qed.
Lemma get_ack_typed : in_u 32 (ack_id (sh_ack s)) /\ in_s 32 (ack_result (sh_ack s)).
Proof. unfold mem_typed in *. tauto. Qed.
Lemma get_cmd_typed : cmd_typed (sh_cmd s).
Proof. apply H. Qed.
End Setters.

Create HintDb typed.
#[export] Hint Resolve mode_typed faults_typed beat_typed ack_typed cmd_mem_typed lock_typed ready_typed
  sample_mem_typed clock_typed get_faults_typed get_mode_typed get_cmd_typed wrap_u_range wrap_s_range : typed.
#[export] Hint Extern 1 (in_u 32 (Z.lor _ _)) => apply lor_in_u; [lia| |] : typed.
#[export] Hint Extern 1 (in_u 32 (Z.land _ _)) => apply land_in_u; [lia|] : typed.
#[export] Hint Extern 1 (_ <= _) => lia : typed.
#[export] Hint Extern 2 (in_u _ _) => by vm_compute : typed.
#[export] Hint Extern 2 (in_s _ _) => by vm_compute : typed.
#[export] Hint Extern 1 (in_u 32 (ack_id (sh_ack _))) => apply get_ack_typed : typed.
#[export] Hint Extern 1 (in_s 32 (ack_result (sh_ack _))) => apply get_ack_typed : typed.

Abbreviation sup_typed := (keeps sup_step mem_typed).

(** One operation that keeps the types. *)
Ltac typed_step :=
  intros ? ? ? ? Hstep; cbn -[Z.lor] in Hstep;
  repeat match goal with H : _ /\ _ |- _ => destruct H end; subst;
  repeat match goal with H : context [if ?b then _ else _] |- _ => destruct b end;
  repeat match goal with H : _ /\ _ |- _ => destruct H end; subst; auto with typed.

Lemma raise_fault_typed bit (force : bool) safe why :
  in_u 32 bit -> in_u 32 safe -> sup_typed (raise_fault bit force safe why).
Proof.
  intros Hb Hsafe. unfold raise_fault.
  apply keeps_do_any; [typed_step|]. intros old.
  apply keeps_bind; [destruct (negb _); [|done]; apply keeps_one; typed_step|]. intros _.
  destruct force; [|done].
  apply keeps_do_any; [typed_step|]. intros m. destruct (_ && _); [|done].
  apply keeps_do_any; [typed_step|]. intros _. apply keeps_one. typed_step.
Qed.

Lemma serve_command_typed cmd : sup_typed (serve_command cmd).
Proof.
  unfold serve_command. apply keeps_do_any; [typed_step|]. intros f.
  destruct (cmd_cmd cmd =? SO101_CMD_SET_MODE).
  { apply keeps_bind.
    - destruct (cmd_arg cmd =? SO101_MODE_IDLE); [apply keeps_do_any; [typed_step|done]|].
      destruct (cmd_arg cmd =? SO101_MODE_TELEOP); [done|].
      by destruct (cmd_arg cmd =? SO101_MODE_HOLD).
    - intros [res|]; [done|]. apply keeps_do_any; [typed_step|done]. }
  destruct (cmd_cmd cmd =? SO101_CMD_ESTOP).
  { apply keeps_do_any; [typed_step|]. intros _. apply keeps_do_any; [typed_step|done]. }
  destruct (cmd_cmd cmd =? SO101_CMD_RESET).
  { apply keeps_do_any; [typed_step|]. intros _. apply keeps_do_any; [typed_step|done]. }
  by destruct (cmd_cmd cmd =? SO101_CMD_PING).
Qed.

Definition answers : list Z := [SO101_RES_OK; SO101_RES_REFUSED; SO101_RES_BAD_CMD].

Lemma answers_typed r : In r answers -> in_s 32 r.
Proof. intros [<-|[<-|[<-|[]]]]; unfold in_s, SO101_RES_OK, SO101_RES_REFUSED, SO101_RES_BAD_CMD; lia. Qed.

Lemma serve_command_result cmd : returns (fun r => In r answers) (serve_command cmd).
Proof.
  assert (H0 : In SO101_RES_OK answers) by (by left).
  assert (H1 : In SO101_RES_REFUSED answers) by (by right; left).
  assert (H2 : In SO101_RES_BAD_CMD answers) by (by right; right; left).
  unfold serve_command. intros f. destruct (cmd_cmd cmd =? SO101_CMD_SET_MODE).
  { apply (returns_bind (fun refuse => match refuse with Some res => In res answers | None => True end)).
    - destruct (cmd_arg cmd =? SO101_MODE_IDLE); [intros m; cbn [prog_bind bind_prog mret prog_ret returns]; destruct (m =? SO101_MODE_ESTOP); [exact H1|exact I]|].
      destruct (cmd_arg cmd =? SO101_MODE_TELEOP); [destruct (has f F_BLOCK_TELEOP); [exact H1|exact I]|].
      destruct (cmd_arg cmd =? SO101_MODE_HOLD); [destruct (has f F_BLOCK_ALL); [exact H1|exact I]|exact H2].
    - intros [res|] H; [exact H|]. intros ?. exact H0. }
  destruct (cmd_cmd cmd =? SO101_CMD_ESTOP); [intros ? ?; exact H0|].
  destruct (cmd_cmd cmd =? SO101_CMD_RESET); [intros ? ?; exact H0|].
  destruct (cmd_cmd cmd =? SO101_CMD_PING); [exact H0|exact H2].
Qed.

Lemma serve_tick_typed lz : sup_typed (serve_tick lz).
Proof.
  unfold serve_tick, mono_ms.
  apply keeps_do_any; [typed_step|]. intros dl.
  apply keeps_do_any; [typed_step|]. intros got.
  apply keeps_bind; [apply keeps_do_any; [typed_step|done]|]. intros now. destruct got.
  - apply (keeps_do _ _ _ _ cmd_typed); [intros s r s' H [-> ->]; by auto with typed|]. intros cmd Hcmd.
    apply (keeps_bind_returns _ _ (fun r => In r answers));
      [apply serve_command_typed|apply serve_command_result|].
    intros res Hres%answers_typed.
    apply keeps_do_any; [typed_step|]. intros _.
    apply keeps_do_any; [destruct Hcmd; typed_step|]. intros _.
    apply keeps_do_any; [typed_step|done].
  - apply keeps_do_any; [typed_step|]. intros v.
    destruct (0 <? v); [done|]. destruct (lz <? 0); [done|]. destruct (LOCK_STUCK_MS <? _); [|done].
    apply keeps_do_any; [typed_step|]. intros _. apply keeps_do_any; [typed_step|done].
Qed.

Lemma when_typed b p : sup_typed p -> sup_typed (when b p).
Proof. by destruct b. Qed.

Lemma log_typed b l : sup_typed (when b (do (Log l))).
Proof. apply when_typed, keeps_one. typed_step. Qed.

Lemma check_stall_typed k s now : sup_typed (check_stall k s now).
Proof.
  unfold check_stall. destruct (negb _); [exact I|].
  apply keeps_bind; [by apply when_typed, raise_fault_typed|]. intros ?. exact I.
Qed.

Lemma check_comm_typed c k s : sup_typed (check_comm c k s).
Proof.
  unfold check_comm. apply keeps_bind; [apply log_typed|]. intros _.
  apply keeps_bind; [apply log_typed|]. intros _.
  apply keeps_bind; [by apply when_typed, raise_fault_typed|]. intros _.
  by apply when_typed, raise_fault_typed.
Qed.

Lemma check_health_typed c k s : sup_typed (check_health c k s).
Proof.
  unfold check_health. destruct (s_follower_ok s); [|exact I].
  apply keeps_bind; [by destruct (if hot c s then _ else _)|]. intros tt'.
  apply keeps_bind; [by destruct (if badv c s then _ else _)|]. intros vt.
  apply keeps_bind; [by apply when_typed, raise_fault_typed|]. intros _.
  apply keeps_bind; [by apply when_typed, raise_fault_typed|]. intros _. exact I.
Qed.

Lemma check_overrun_typed k s now : sup_typed (check_overrun k s now).
Proof.
  unfold check_overrun. destruct (1000 <=? _); [|exact I].
  apply keeps_bind; [by apply when_typed, raise_fault_typed|]. intros _. exact I.
Qed.

Lemma log_changes_typed k s now : sup_typed (log_changes k s now).
Proof.
  unfold log_changes. apply keeps_bind; [apply log_typed|]. intros _.
  apply keeps_bind; [apply log_typed|]. intros _. destruct (next_status k <=? now); [|exact I].
  apply keeps_do_any; [typed_step|]. intros _. exact I.
Qed.

Lemma supervise_typed c k : sup_typed (supervise c k).
Proof.
  unfold supervise. apply keeps_bind; [apply serve_tick_typed|]. intros [now lz].
  apply keeps_do_any; [typed_step|]. intros [smp|]; [|exact I].
  apply keeps_bind; [apply check_stall_typed|]. intros cyc.
  apply keeps_bind; [apply check_comm_typed|]. intros _.
  apply keeps_bind; [apply check_health_typed|]. intros ticks.
  apply keeps_bind; [apply check_overrun_typed|]. intros ovr.
  apply keeps_do_any; [typed_step|]. intros _.
  apply keeps_bind; [apply log_changes_typed|]. intros status. exact I.
Qed.

Lemma supervisor_loop_typed fuel c : forall k, sup_typed (supervisor_loop fuel c k).
Proof.
  induction fuel as [|fuel IH]; intros k; [done|]. cbn [supervisor_loop].
  apply keeps_do_any; [typed_step|]. intros [|]; [|done].
  apply keeps_bind; [apply supervise_typed|apply IH].
Qed.

Lemma supervisor_thread_typed fuel c : sup_typed (supervisor_thread fuel c).
Proof.
  apply keeps_bind; [|intros k; apply supervisor_loop_typed].
  unfold supervisor_start, mono_ms.
  repeat first [ done | apply keeps_bind; [|intros ?] | apply keeps_do_any; [typed_step|intros ?]].
Qed.

(** ** What a step of the control thread or of a client is to the supervisor *)

Lemma faults_env f s : agree f (sh_faults s) -> sup_env s (set_faults f s).
Proof. intros H. by split_and!. Qed.
Lemma cmd_env c s : sup_env s (set_cmd c s).
Proof. by split_and!. Qed.
Lemma lock_env v s : sup_env s (set_lock v s).
Proof. by split_and!. Qed.
Lemma ready_env v s : sup_env s (set_ready v s).
Proof. by split_and!. Qed.
Lemma sample_env v s : sup_env s (set_sample v s).
Proof. by split_and!. Qed.

Create HintDb interference.
#[export] Hint Resolve cmd_env lock_env ready_env sample_env : interference.
#[export] Hint Extern 0 (sup_env ?s ?s) => reflexivity : interference.

(** The conclusion of a step on the segment. *)
Ltac step_inv H :=
  cbn -[Z.lor Z.land] in H; try unfold set_cmd_field in H;
  repeat match type of H with
  | ?x = _ /\ _ => let H' := fresh "H" in destruct H as [H' H]; first [subst x|idtac]
  | _ /\ _ => let H' := fresh "H" in destruct H as [H' H]
  | context [if ?b then _ else _] => destruct b
  end;
  match type of H with ?x = _ => subst x | _ => idtac end.

Lemma ctl_step_env R (e : ctl_ev R) s r s' :
  own_bit R e -> in_u 32 (sh_faults s) -> ctl_step R e s r s' -> sup_env s s'.
Proof.
  intros He Hf [_ Hs]. destruct e; step_inv Hs; auto with interference; cbn in He; subst.
  - apply faults_env, agree_lor7.
  - by apply faults_env, agree_land7.
Qed.

Lemma cli_step_env R (e : cli_ev R) s r s' : cli_step R e s r s' -> sup_env s s'.
Proof. intros Hs. destruct e; step_inv Hs; auto with interference. Qed.

Lemma clock_env s t : sh_clock s <= t -> sup_env s (set_clock t s).
Proof. intros H. by split_and!. Qed.

Lemma ctl_step_typed R (e : ctl_ev R) s r s' :
  own_bit R e -> mem_typed s -> ctl_step R e s r s' -> mem_typed s'.
Proof. intros He Hm [_ Hs]. destruct e; step_inv Hs; cbn in He; subst; auto with typed. Qed.

Lemma cli_step_typed R (e : cli_ev R) s r s' : mem_typed s -> cli_step R e s r s' -> mem_typed s'.
Proof.
  intros Hm Hs. pose proof (get_cmd_typed s Hm) as (C1 & C2 & C3 & C4).
  destruct e; step_inv Hs; auto with typed; apply cmd_mem_typed; try done;
    unfold cmd_typed; cbn; auto 6 with typed.
Qed.

(** ** The invariant of the types *)

Definition sys_typed (y : system) : Prop :=
  mem_typed (sy_mem y) /\ only own_bit (code (sy_ctl y)) /\ keeps sup_step mem_typed (code (sy_sup y)).

Lemma boot_typed c fuel_c fuel_s m : mem_typed m -> sys_typed (boot c fuel_c fuel_s m).
Proof. intros Hm. split; [done|]. split; [apply control_thread_own|apply supervisor_thread_typed]. Qed.

Lemma sys_step_typed client y y' : sys_typed y -> sys_step client y y' -> sys_typed y'.
Proof.
  intros (Hm & Hc & Hs) Hstep. destruct Hstep as [y p m Hp|y p m Hp|y i q p m Hi Hp|y p Hp|y t Ht].
  - destruct y as [pc ps cl mm]; cbn in *. inversion Hp as [R e k tr s r s' Hst]; subst.
    destruct Hc as [He Hk]. split_and!; cbn; [by eapply ctl_step_typed|apply Hk|exact Hs].
  - destruct y as [pc ps cl mm]; cbn in *. inversion Hp as [R e k tr s r s' Hst]; subst.
    destruct (Hs _ _ _ Hm Hst) as [H1 H2]. by split_and!.
  - destruct y as [pc ps cl mm]; cbn in *. inversion Hp as [R e k tr s r s' Hst]; subst.
    split_and!; cbn; [by eapply cli_step_typed|exact Hc|exact Hs].
  - by split_and!.
  - split_and!; cbn; [by apply clock_typed|exact Hc|exact Hs].
Qed.

(** What a step is to the supervisor, when it is not its own. *)
Lemma sys_step_env client y y' :
  sys_typed y -> sys_step client y y' ->
  (sy_sup y' = sy_sup y /\ sup_env (sy_mem y) (sy_mem y')) \/
  proc_step sup_step (sy_sup y) (sy_mem y) (sy_sup y') (sy_mem y').
Proof.
  intros (Hm & Hc & Hs) Hstep. destruct Hstep as [y p m Hp|y p m Hp|y i q p m Hi Hp|y p Hp|y t Ht]; cbn.
  - left. split; [done|]. destruct y as [pc ps cl mm]; cbn in *. inversion Hp; subst.
    destruct Hc as [He _]. eapply ctl_step_env; [done| |done]. by apply get_faults_typed.
  - right. exact Hp.
  - left. split; [done|]. destruct y as [pc ps cl mm]; cbn in *. inversion Hp; subst. by eapply cli_step_env.
  - left. by split.
  - left. split; [done|]. by apply clock_env.
Qed.

(** ** Where the supervisor is *)

Definition load_run_next {A} (p : prog sup_ev A) : bool :=
  match p with Do SupLoadRun _ => true | _ => false end.

Definition sup_not_load_run (R : Type) (e : sup_ev R) : Prop :=
  match e with SupLoadRun => False | _ => True end.

Lemma load_run_inside {A B} (p : prog sup_ev A) (f : A -> prog sup_ev B) :
  only sup_not_load_run p -> load_run_next (p ≫= f) = true -> exists a, p = Ret a.
Proof.
  destruct p as [a| |R e k]; cbn; [by exists a|done|]. intros [He _]. by destruct e.
Qed.

Ltac only_sup :=
  repeat first
    [ apply only_ret | apply only_defined | exact I | apply only_bind; [|intros ?]
    | apply only_do; exact I
    | match goal with
      | |- only _ (if ?b then _ else _) => destruct b
      | |- only _ (match ?o with Some _ => _ | None => _ end) => destruct o
      end ].

Lemma raise_fault_inside bit f safe why : only sup_not_load_run (raise_fault bit f safe why).
Proof. unfold raise_fault. only_sup. Qed.
Lemma when_inside b p : only sup_not_load_run p -> only sup_not_load_run (when b p).
Proof. by destruct b. Qed.
Lemma serve_tick_inside lz : only sup_not_load_run (serve_tick lz).
Proof. unfold serve_tick, mono_ms, serve_command. only_sup. Qed.
Lemma start_inside : only sup_not_load_run supervisor_start.
Proof. unfold supervisor_start, mono_ms. only_sup. Qed.

Lemma supervise_inside c k : only sup_not_load_run (supervise c k).
Proof.
  assert (Hr : forall b bit f safe why, only sup_not_load_run (when b (raise_fault bit f safe why)))
    by (intros; apply when_inside, raise_fault_inside).
  assert (Hl : forall b l, only sup_not_load_run (when b (do (Log l))))
    by (intros; apply when_inside, only_do, Logic.I).
  unfold supervise. apply only_bind; [apply serve_tick_inside|]. intros [now lz].
  apply only_bind; [apply only_do, Logic.I|]. intros [smp|]; [|apply only_ret].
  apply only_bind; [unfold check_stall; destruct (negb _); [apply only_ret|]; apply only_bind; [apply Hr|intros; apply only_ret]|].
  intros cyc. apply only_bind; [unfold check_comm; repeat (apply only_bind; [auto|intros _]); auto|]. intros _.
  apply only_bind.
  { unfold check_health. destruct (s_follower_ok smp); [|apply only_ret].
    repeat (apply only_bind; [first [apply only_defined|apply Hr]|intros ?]). apply only_ret. }
  intros ticks. apply only_bind.
  { unfold check_overrun. destruct (1000 <=? _); [|apply only_ret].
    apply only_bind; [apply Hr|intros; apply only_ret]. }
  intros ovr. apply only_bind; [apply only_do, Logic.I|]. intros _.
  apply only_bind; [|intros; apply only_ret].
  unfold log_changes. repeat (apply only_bind; [apply Hl|intros _]).
  destruct (_ <=? _); [|apply only_ret].
  apply only_bind; [apply only_do, Logic.I|intros; apply only_ret].
Qed.

Lemma supervise_mode_safe c k n s :
  turns_fit (S n) k -> mode_safe (sh_faults s) (sh_mode_req s) ->
  holds sup_env sup_step (supervise c k) s
    (fun k' s' => turns_fit n k' /\ mode_safe (sh_faults s') (sh_mode_req s')).
Proof.
  intros Hn Hs. pose proof (turns_fit_step n c k (status_of s)) as Hfit.
  eapply holds_mono; [|apply (supervise_refines sup_env anything False (fun _ _ H => H) (fun _ _ _ _ => Logic.I)
    (fun _ _ _ l => match l with end) c k (status_of s) (clock_ms s) s);
    [by apply (Hfit (mk_input None 0 0 None))|by apply shows_self]].
  intros k' s' (i & st' & Hm & _ & Hi & Hsh). split.
  - pose proof (Hfit i Hn) as [_ H]. by rewrite Hm in H.
  - pose proof (model_step_inv c anything False mode_safe (fun st cmd _ => serve_mode_safe st cmd)
      raise_mode_safe (k, status_of s) i Hi Hs) as H. rewrite Hm in H.
    destruct Hsh as (-> & Ha & _). eapply mode_safe_agree; [|exact H]. by symmetry.
Qed.

(** The supervisor in its loop: at a turn's start, or with the rest of a turn to do. *)
Inductive sup_at (c : so101d_ctx) (s : shared) : prog sup_ev unit -> Prop :=
| sup_in_turn p n :
    only sup_not_load_run p ->
    holds sup_env sup_step p s (fun k s' => turns_fit n k /\ mode_safe (sh_faults s') (sh_mode_req s')) ->
    sup_at c s (p ≫= supervisor_loop n c)
| sup_over : sup_at c s (Ret tt).

Lemma sup_at_env c s s' p : sup_env s s' -> sup_at c s p -> sup_at c s' p.
Proof.
  intros He [q n Hq Hh|]; [|constructor]. constructor; [done|].
  eapply holds_env; [typeclasses eauto|exact He| |exact Hh].
  intros k [H1 H2]. split; [done|]. destruct He as (-> & _ & _ & Ha & _).
  eapply mode_safe_agree; [|exact H2]. by symmetry.
Qed.

Lemma sup_at_next c s p :
  sup_at c s p ->
  match p with Do e k => forall r s', sup_step _ e s r s' -> sup_at c s' (k r) | _ => True end.
Proof.
  intros [q n Hq Hh|]; [|done]. destruct q as [k| |R e k]; [|done|].
  - destruct n as [|n]; [done|]. destruct Hh as [Hfit Hs]. intros [|] s' ->.
    + apply (sup_in_turn c s (supervise c k) n); [apply supervise_inside|by apply supervise_mode_safe].
    + apply sup_over.
  - intros r s' Hstep. destruct Hq as [_ Hq].
    apply (sup_in_turn c s' (k r) n); [apply Hq|]. by eapply (holds_step _ _ e).
Qed.

Lemma sup_at_boot c fuel s :
  Z.of_nat fuel <= 0x7FFFFFFF -> mode_safe (sh_faults s) (sh_mode_req s) ->
  sup_at c s (supervisor_thread fuel c).
Proof.
  intros Hfuel Hs. apply sup_in_turn; [apply start_inside|].
  eapply holds_mono; [|apply (start_refines sup_env anything False (fun _ _ H => H) (fun _ _ _ _ => Logic.I)
    (fun _ _ _ l => match l with end) (status_of s) (clock_ms s) s); by apply shows_self].
  intros k s' (t1 & t2 & t3 & _ & _ & -> & Hsh). split.
  - unfold turns_fit. cbn. lia.
  - destruct Hsh as (-> & Ha & _). eapply mode_safe_agree; [|exact Hs]. by symmetry.
Qed.

(** Between two turns the modes are safe. *)
Lemma sup_at_safe c s p :
  sup_at c s p -> load_run_next p = true -> mode_safe (sh_faults s) (sh_mode_req s).
Proof.
  intros [q n Hq Hh|]; [|done]. intros Hnext. apply load_run_inside in Hnext as [k ->]; [|done].
  apply Hh.
Qed.

Lemma sys_step_sup client c y y' :
  sys_typed y -> sys_step client y y' ->
  sup_at c (sy_mem y) (code (sy_sup y)) -> sup_at c (sy_mem y') (code (sy_sup y')).
Proof.
  intros Ht Hstep Hat. destruct (sys_step_env client y y' Ht Hstep) as [[-> He]|Hp].
  - by eapply sup_at_env.
  - inversion Hp as [R e k tr s r s' Hst E1 E2 E3 E4]. rewrite <- E1 in Hat. cbn.
    by apply (sup_at_next _ _ _ Hat).
Qed.

Lemma reach_typed client c fuel_c fuel_s m y :
  mem_typed m -> rtc (sys_step client) (boot c fuel_c fuel_s m) y -> sys_typed y.
Proof.
  intros Hm Hr. remember (boot c fuel_c fuel_s m) as y0 eqn:E.
  assert (H0 : sys_typed y0) by (subst; by apply boot_typed). clear E.
  induction Hr as [y0|y0 y1 y2 Hs _ IH]; [done|]. apply IH. by eapply sys_step_typed.
Qed.

Lemma reach_sup client c fuel_c fuel_s m y :
  Z.of_nat fuel_s <= 0x7FFFFFFF -> mem_typed m -> mode_safe (sh_faults m) (sh_mode_req m) ->
  rtc (sys_step client) (boot c fuel_c fuel_s m) y ->
  sys_typed y /\ sup_at c (sy_mem y) (code (sy_sup y)).
Proof.
  intros Hf Hm Hs Hr. remember (boot c fuel_c fuel_s m) as y0 eqn:E.
  assert (H0 : sys_typed y0 /\ sup_at c (sy_mem y0) (code (sy_sup y0)))
    by (subst; split; [by apply boot_typed|by apply sup_at_boot]). clear E.
  induction Hr as [y0|y0 y1 y2 Hstep _ IH]; [done|]. destruct H0 as [Ht Hat].
  apply IH. split; [by eapply sys_step_typed|by eapply sys_step_sup].
Qed.

(** ** ESTOP lasts, at every moment *)

Definition stopped (s : shared) : Prop :=
  sh_mode_req s = SO101_MODE_ESTOP /\ has (sh_faults s) (Z.lor SO101_F_STALL SO101_F_ESTOP) = true /\
  cmd_cmd (sh_cmd s) <> SO101_CMD_RESET.

Lemma stopped_env s s' :
  sup_env s s' -> cmd_cmd (sh_cmd s') <> SO101_CMD_RESET -> stopped s -> stopped s'.
Proof.
  intros (Hm & _ & _ & Ha & _) Hc (H1 & H2 & H3). split; [congruence|]. split; [|done].
  by rewrite (has_agree _ _ _ Ha).
Qed.

Abbreviation sup_stopped := (keeps sup_step stopped).

Ltac stopped_step :=
  intros ? ? ? (? & ? & ?) Hstep; step_inv Hstep; split_and!; try done.

Lemma fetch_or_stopped bits s : stopped s -> stopped (set_faults (Z.lor (sh_faults s) bits) s).
Proof.
  intros (H1 & H2 & H3). split; [done|]. split; [|done]. cbn [set_faults sh_faults].
  by rewrite has_lor_l, H2.
Qed.

Lemma lower_estop safe : lower safe SO101_MODE_ESTOP && negb (SO101_MODE_ESTOP =? safe) = false.
Proof.
  unfold lower. destruct (Z.eqb_spec safe SO101_MODE_ESTOP) as [->|]; [done|].
  destruct (safe =? SO101_MODE_IDLE), (safe =? SO101_MODE_HOLD); done.
Qed.

Lemma raise_fault_stopped bit (force : bool) safe why : sup_stopped (raise_fault bit force safe why).
Proof.
  unfold raise_fault. apply keeps_do_any; [intros s r s' H [-> ->]; by apply fetch_or_stopped|]. intros old.
  apply keeps_bind; [destruct (negb _); [|exact I]; apply keeps_one; stopped_step|]. intros _.
  destruct force; [|exact I].
  apply (keeps_do _ _ _ _ (fun m => m = SO101_MODE_ESTOP)).
  - intros s r s' H [-> ->]. split; [done|apply H].
  - intros m ->. by rewrite lower_estop.
Qed.

Lemma serve_command_stopped cmd : cmd_cmd cmd <> SO101_CMD_RESET -> sup_stopped (serve_command cmd).
Proof.
  intros Hc. unfold serve_command.
  apply (keeps_do _ _ _ _ (fun f => has f F_BLOCK_ALL = true)).
  { intros s r s' H [-> ->]. split; [done|]. apply estop_blocks, H. }
  intros f Hf. assert (Ht : has f F_BLOCK_TELEOP = true) by (by rewrite block_teleop, Hf).
  destruct (cmd_cmd cmd =? SO101_CMD_SET_MODE).
  { destruct (cmd_arg cmd =? SO101_MODE_IDLE).
    - intros s m s' H [-> ->]. split; [done|]. rewrite (proj1 H). exact I.
    - destruct (cmd_arg cmd =? SO101_MODE_TELEOP); [by rewrite Ht|].
      destruct (cmd_arg cmd =? SO101_MODE_HOLD); [by rewrite Hf|exact I]. }
  destruct (cmd_cmd cmd =? SO101_CMD_ESTOP).
  { apply keeps_do_any; [intros s r s' H [-> ->]; by apply fetch_or_stopped|]. intros _.
    apply keeps_do_any; [stopped_step|]. intros _. exact I. }
  destruct (Z.eqb_spec (cmd_cmd cmd) SO101_CMD_RESET); [done|].
  destruct (cmd_cmd cmd =? SO101_CMD_PING); exact I.
Qed.

Lemma serve_tick_stopped lz : sup_stopped (serve_tick lz).
Proof.
  unfold serve_tick, mono_ms.
  apply keeps_do_any; [stopped_step|]. intros dl.
  apply keeps_do_any; [intros s r s' (?&?&?) Hst; step_inv Hst; by split_and!|]. intros got.
  apply keeps_bind; [apply keeps_do_any; [stopped_step|intros; exact I]|]. intros now. destruct got.
  - apply (keeps_do _ _ _ _ (fun cmd => cmd_cmd cmd <> SO101_CMD_RESET)).
    { intros s r s' H [-> ->]. split; [done|apply H]. }
    intros cmd Hcmd. apply keeps_bind; [by apply serve_command_stopped|]. intros res.
    apply keeps_do_any; [stopped_step|]. intros _.
    apply keeps_do_any; [stopped_step|]. intros _.
    apply keeps_do_any; [stopped_step|]. intros _. exact I.
  - apply keeps_do_any; [stopped_step|]. intros v.
    destruct (0 <? v); [exact I|]. destruct (lz <? 0); [exact I|].
    destruct (LOCK_STUCK_MS <? _); [|exact I].
    apply keeps_do_any; [stopped_step|]. intros _. apply keeps_do_any; [stopped_step|]. intros _. exact I.
Qed.

Lemma when_stopped b bit f safe why : sup_stopped (when b (raise_fault bit f safe why)).
Proof. destruct b; [apply raise_fault_stopped|exact I]. Qed.
Lemma log_stopped b l : sup_stopped (when b (do (Log l))).
Proof. destruct b; [|exact I]. apply keeps_one. stopped_step. Qed.

Lemma supervise_stopped c k : sup_stopped (supervise c k).
Proof.
  unfold supervise. apply keeps_bind; [apply serve_tick_stopped|]. intros [now lz].
  apply keeps_do_any; [stopped_step|]. intros [smp|]; [|exact I].
  apply keeps_bind.
  { unfold check_stall. destruct (negb _); [exact I|].
    apply keeps_bind; [apply when_stopped|intros; exact I]. }
  intros cyc. apply keeps_bind.
  { unfold check_comm. do 2 (apply keeps_bind; [apply log_stopped|intros _]).
    apply keeps_bind; [apply when_stopped|intros _]. apply when_stopped. }
  intros _. apply keeps_bind.
  { unfold check_health. destruct (s_follower_ok smp); [|exact I].
    apply keeps_bind; [by destruct (if hot c smp then _ else _)|intros tt'].
    apply keeps_bind; [by destruct (if badv c smp then _ else _)|intros vt].
    do 2 (apply keeps_bind; [apply when_stopped|intros _]). exact I. }
  intros ticks. apply keeps_bind.
  { unfold check_overrun. destruct (1000 <=? _); [|exact I].
    apply keeps_bind; [apply when_stopped|intros; exact I]. }
  intros ovr. apply keeps_do_any; [stopped_step|]. intros _.
  apply keeps_bind; [|intros; exact I].
  unfold log_changes. do 2 (apply keeps_bind; [apply log_stopped|intros _]).
  destruct (_ <=? _); [|exact I]. apply keeps_do_any; [stopped_step|intros; exact I].
Qed.

Lemma supervisor_loop_stopped fuel c : forall k, sup_stopped (supervisor_loop fuel c k).
Proof.
  induction fuel as [|fuel IH]; intros k; [exact I|]. cbn [supervisor_loop].
  apply keeps_do_any; [stopped_step|]. intros [|]; [|exact I].
  apply keeps_bind; [apply supervise_stopped|apply IH].
Qed.

(** ** Where the control thread is *)

Definition ctl_between {A} (p : prog ctl_ev A) : bool :=
  match p with Do LoadRun _ => true | _ => false end.

Lemma between_inside {A B} (p : prog ctl_ev A) (f : A -> prog ctl_ev B) :
  only inside p -> ctl_between (p ≫= f) = true -> exists a, p = Ret a.
Proof.
  destruct p as [a| |R e k]; cbn; [by exists a|done|]. intros [[_ He] _]. by destruct e.
Qed.

Section Position.
(** [R tr k]: between two cycles with locals [k], after the events [tr]; [fresh] when
    the thread may still be starting. *)
Context (c : so101d_ctx) (R : list (obs ctl_ev) -> ctl -> Prop) (fresh : Prop).
Context (R_start : fresh -> forall tr k, run (control_start c) tr k -> R tr k).
Context (R_turn : forall tr k tr' k',
  R tr k -> run (control_cycle c k) tr' k' -> R (tr ++ Obs LoadRun true :: tr') k').

Inductive ctl_at : list (obs ctl_ev) -> prog ctl_ev unit -> Prop :=
| at_start p fuel tr :
    fresh -> only inside p -> evolves (control_start c) tr p -> ctl_at tr (p ≫= control_loop fuel c)
| at_between fuel tr k : R tr k -> ctl_at tr (control_loop fuel c k)
| at_cycle p fuel tr0 k tr :
    R tr0 k -> only inside p -> evolves (control_cycle c k) tr p ->
    ctl_at (tr0 ++ Obs LoadRun true :: tr) (p ≫= control_loop fuel c)
| at_stop p tr : only inside p -> ctl_at tr p.

Lemma ctl_at_next tr p :
  ctl_at tr p ->
  match p with Do e k => forall r, ctl_at (tr ++ [Obs e r]) (k r) | _ => True end.
Proof.
  assert (Hbetween : forall fuel tr k, R tr k ->
    match control_loop fuel c k with Do e q => forall r, ctl_at (tr ++ [Obs e r]) (q r) | _ => True end).
  { intros [|fuel] t k Hk; [done|]. intros [|]; cbn [bind_prog].
    - apply (at_cycle (control_cycle c k) fuel t k []); [done|apply control_cycle_inside|done].
    - apply at_stop, control_stop_inside. }
  intros [q fuel t Hf Hq Hev|fuel t k Hk|q fuel t0 k t Hk Hq Hev|q t Hq].
  - destruct q as [k| |R' e k]; [|done|].
    + apply Hbetween. apply R_start; [done|]. by apply evolves_run.
    + intros r. apply (at_start (k r)); [done|apply Hq|by apply evolves_snoc].
  - by apply Hbetween.
  - destruct q as [k'| |R' e k']; [|done|].
    + apply Hbetween. eapply R_turn; [exact Hk|]. by apply evolves_run.
    + intros r. rewrite <- app_assoc. apply (at_cycle (k' r) fuel t0 k); [done|apply Hq|by apply evolves_snoc].
  - destruct q as [|  |R' e k]; [done..|]. intros r. apply at_stop, Hq.
Qed.

(** Between two cycles. *)
Lemma ctl_at_between tr p : ctl_at tr p -> ctl_between p = true -> exists fuel k, p = control_loop fuel c k /\ R tr k.
Proof.
  intros [q fuel t Hf Hq Hev|fuel t k Hk|q fuel t0 k t Hk Hq Hev|q t Hq] Hb.
  - apply between_inside in Hb as [k ->]; [|done]. exists fuel, k. split; [done|].
    apply R_start; [done|]. by apply evolves_run.
  - by exists fuel, k.
  - apply between_inside in Hb as [k' ->]; [|done]. exists fuel, k'. split; [done|].
    eapply R_turn; [exact Hk|]. by apply evolves_run.
  - destruct q as [| |R' e k]; [done..|]. destruct Hq as [[_ He] _]. by destruct e.
Qed.
End Position.

(** What a step is to the control thread, when it is not its own. *)
Lemma sys_step_ctl client y y' :
  sys_step client y y' ->
  sy_ctl y' = sy_ctl y \/ proc_step ctl_step (sy_ctl y) (sy_mem y) (sy_ctl y') (sy_mem y').
Proof. intros [ | | | | ]; cbn; auto. Qed.

(** A position is kept by every step of the system. *)
Lemma sys_step_at client c R fresh y y' :
  (fresh -> forall tr k, run (control_start c) tr k -> R tr k) ->
  (forall tr k tr' k', R tr k -> run (control_cycle c k) tr' k' -> R (tr ++ Obs LoadRun true :: tr') k') ->
  sys_step client y y' ->
  ctl_at c R fresh (past (sy_ctl y)) (code (sy_ctl y)) ->
  ctl_at c R fresh (past (sy_ctl y')) (code (sy_ctl y')).
Proof.
  intros H1 H2 Hstep Hat. destruct (sys_step_ctl client y y' Hstep) as [->|Hp]; [done|].
  inversion Hp as [R' e k tr s r s' Hst E1 E2 E3 E4]. rewrite <- E1 in Hat. cbn in *.
  by apply (ctl_at_next c R fresh H1 H2 _ _ Hat).
Qed.

(** The events of the control thread are well-formed. *)
Lemma sys_step_ok client y y' :
  sys_step client y y' -> Forall ctl_ok (past (sy_ctl y)) -> Forall ctl_ok (past (sy_ctl y')).
Proof.
  intros Hstep Hok. destruct (sys_step_ctl client y y' Hstep) as [->|Hp]; [done|].
  inversion Hp as [R' e k tr s r s' Hst E1 E2 E3 E4]. rewrite <- E1 in Hok. cbn in *.
  apply Forall_app. split; [done|]. constructor; [apply Hst|constructor].
Qed.

Lemma reach_ctl client c fuel_c fuel_s m y :
  rtc (sys_step client) (boot c fuel_c fuel_s m) y ->
  ctl_at c (ctl_reach c) True (past (sy_ctl y)) (code (sy_ctl y)) /\ Forall ctl_ok (past (sy_ctl y)).
Proof.
  intros Hr. remember (boot c fuel_c fuel_s m) as y0 eqn:E.
  assert (H0 : ctl_at c (ctl_reach c) True (past (sy_ctl y0)) (code (sy_ctl y0)) /\
    Forall ctl_ok (past (sy_ctl y0))).
  { subst. split; [|constructor]. apply at_start; [done|apply control_start_inside|done]. }
  clear E. induction Hr as [y0|y0 y1 y2 Hstep _ IH]; [done|]. destruct H0 as [Hat Hok].
  apply IH. split; [|by eapply sys_step_ok].
  eapply sys_step_at; [| |exact Hstep|exact Hat].
  - intros _. apply ctl_started.
  - intros tr k tr' k'. apply ctl_turn.
Qed.
