(* ===== verification/SystemThms.v ===== *)
(** * What the daemon and its clients guarantee together

    The theorems on every interleaving of the control thread, the supervisor and any
    number of clients: [sys_step] from [boot]. *)

From stdpp Require Import relations strings.
From S2P Require Import Prelude Os Float32 Calib Shm Ctx Prog Double Control ControlProps ControlThms Supervisor SupervisorProps SupervisorThms Client System SystemProps.

(** ** Programs of clients *)

(** A client that never asks for RESET. *)
Definition no_reset (R : Type) (e : cli_ev R) : Prop :=
  match e with SetCmd v => u32 v <> SO101_CMD_RESET | _ => True end.
Definition never_resets (p : prog cli_ev Z) : Prop := only no_reset p.

Section Lockstep.
Context {A : Type}.

(** A client takes the lock only when it does not hold it, writes to the mailbox and
    posts only while it holds it, releases it only then, and ends without it. *)
Fixpoint lockstep (h : bool) (p : prog cli_ev A) : Prop :=
  match p with
  | Ret _ => h = false
  | Undef => True
  | @Do _ _ R e k =>
      match e in cli_ev R return (R -> prog cli_ev A) -> (R -> Prop) -> (R -> Prop) -> (R -> Prop) -> Prop with
      | LockWait _ => fun _ kt kf _ => h = false /\ kt true /\ kf false
      | ReleaseLock => fun _ _ kf _ => h = true /\ kf tt
      | SetCmd _ | SetArg _ | SetPid _ | SetId _ | PostReady => fun _ kt _ _ => h = true /\ kt tt
      | _ => fun _ _ _ kh => forall r, kh r
      end k (fun r => lockstep true (k r)) (fun r => lockstep false (k r)) (fun r => lockstep h (k r))
  end.
End Lockstep.

Lemma poll_ack_lockstep tries id : lockstep true (poll_ack tries id).
Proof.
  induction tries as [|tries IH]; [by split|]. cbn [poll_ack]. intros a. cbn [prog_bind bind_prog].
  destruct (a =? id); [intros r; by split|]. intros r. apply IH.
Qed.

Lemma send_cmd_lockstep cmd arg : lockstep false (send_cmd cmd arg).
Proof.
  unfold send_cmd, write_mailbox. intros [|] [|]; cbn -[poll_ack]; try done.
  intros _. split; [done|]. split; [|done]. intros t pid. do 5 (split; [done|]).
  apply poll_ack_lockstep.
Qed.

Lemma send_cmd_no_reset cmd arg : u32 cmd <> SO101_CMD_RESET -> never_resets (send_cmd cmd arg).
Proof.
  intros Hc. assert (Hpoll : forall tries id, only no_reset (poll_ack tries id)).
  { induction tries as [|tries IH]; intros id; [by split_and!|]. cbn [poll_ack].
    apply only_bind; [by apply only_do|]. intros a. destruct (a =? id).
    - apply only_bind; [by apply only_do|]. intros r. by split_and!.
    - apply only_bind; [by apply only_do|]. intros _. apply IH. }
  unfold never_resets, send_cmd.
  do 2 (apply only_bind; [by apply only_do|intros ?]).
  destruct (_ || _); [by split|].
  do 2 (apply only_bind; [by apply only_do|intros ?]). destruct (negb _); [by split|].
  do 2 (apply only_bind; [by apply only_do|intros ?]).
  apply only_bind; [by split_and!|]. intros _.
  apply only_bind; [by apply only_do|]. intros _. apply Hpoll.
Qed.

(** [so101ctl] keeps to both. *)
Lemma lockstep_bind {A B} (p : prog cli_ev A) (f : A -> prog cli_ev B) h :
  lockstep h p -> (forall a, lockstep false (f a)) -> lockstep h (p ≫= f).
Proof.
  intros Hp Hf. revert h Hp. induction p as [a| |R e k IH]; intros h Hp.
  - cbn in Hp. subst h. apply Hf.
  - done.
  - destruct e; cbn in *; try (intros r; by apply IH).
    all: destruct Hp as [-> Hp]; split; [done|]; try destruct Hp; try (split; by apply IH); by apply IH.
Qed.

Lemma attach_lockstep w : lockstep false (attach w).
Proof.
  unfold attach, header_ok. intros [|]; [|by split]. intros [|]; [|by split]. cbn.
  intros magic. destruct (negb _); cbn; [done|]. intros version. destruct (negb _); cbn; [done|].
  intros size. by destruct (_ =? _).
Qed.

Lemma watch_lockstep fuel p : lockstep false (watch fuel p).
Proof.
  induction fuel as [|fuel IH]; [done|]. cbn [watch]. intros magic. cbn [prog_bind bind_prog].
  destruct (negb _); [done|]. intros [smp|]; cbn; auto.
Qed.

Lemma ctl_main_lockstep atof fuel args : lockstep false (ctl_main atof fuel args).
Proof.
  destruct args as [|name rest]; [done|]. cbn [ctl_main].
  destruct (find_cmd name cmds) as [[cmd arg]|]; (apply lockstep_bind; [apply attach_lockstep|]); intros ok.
  - destruct ok; [apply send_cmd_lockstep|done].
  - destruct (negb ok); [done|]. destruct (_ =? _)%string; [by intros [smp|]|].
    destruct (_ =? _)%string; [|done]. destruct (watch_pause atof (head rest)); [apply watch_lockstep|done].
Qed.

Lemma attach_no_reset w : only no_reset (attach w).
Proof.
  unfold attach, header_ok.
  repeat first [ apply only_ret | apply only_bind; [|intros ?] | by apply only_do
               | match goal with |- only _ (if ?b then _ else _) => destruct b end ].
Qed.

Lemma watch_no_reset fuel p : only no_reset (watch fuel p).
Proof.
  induction fuel as [|fuel IH]; [done|]. cbn [watch].
  apply only_bind; [by apply only_do|]. intros magic. destruct (negb _); [by split|].
  apply only_bind; [by apply only_do|]. intros smp.
  apply only_bind; [by destruct smp|]. intros _. apply only_bind; [by apply only_do|]. intros _. apply IH.
Qed.

Lemma find_cmd_in name l cmd arg : find_cmd name l = Some (cmd, arg) -> In (name, cmd, arg) l.
Proof.
  induction l as [|[[n c] a] l IH]; [done|]. cbn. destruct (String.eqb_spec name n) as [->|].
  - intros [= -> ->]. by left.
  - intros H. right. auto.
Qed.

Lemma ctl_main_no_reset atof fuel args :
  head args <> Some "reset"%string -> never_resets (ctl_main atof fuel args).
Proof.
  destruct args as [|name rest]; [by split|]. intros Hn. unfold never_resets. cbn [ctl_main].
  destruct (find_cmd name cmds) as [[cmd arg]|] eqn:E; (apply only_bind; [apply attach_no_reset|]); intros ok.
  - destruct ok; [|done]. apply send_cmd_no_reset. apply find_cmd_in in E.
    repeat destruct E as [E|E]; try (injection E as <- <- <-); try done; by vm_compute.
  - destruct (negb ok); [done|]. destruct (_ =? _)%string.
    { apply only_bind; [by apply only_do|]. by intros [smp|]. }
    destruct (_ =? _)%string; [|by split]. destruct (watch_pause atof (head rest)); [apply watch_no_reset|done].
Qed.

(** ** The mailbox *)

(** Whether a client with this past holds the lock. *)
Definition held1 (h : bool) (o : obs cli_ev) : bool :=
  match o with
  | Obs e r =>
      match e in cli_ev R return R -> bool with
      | LockWait _ => fun got => got
      | ReleaseLock => fun _ => false
      | _ => fun _ => h
      end r
  end.
Definition held (tr : list (obs cli_ev)) : bool := fold_left held1 tr false.

(** The clients that hold the lock; the releases by the supervisor; whether a client is
    about to write to the mailbox or to post a command. *)
Definition holders (y : system) : nat := length (List.filter (fun p : proc cli_ev Z => held (past p)) (sy_cli y)).
Definition recovers (o : obs sup_ev) : bool :=
  match o with Obs e _ => match e with PostLock => true | _ => false end end.
Definition recoveries (y : system) : Z := Z.of_nat (length (List.filter recovers (past (sy_sup y)))).
Definition writes_mailbox (p : prog cli_ev Z) : bool :=
  match p with
  | Do e _ => match e with SetCmd _ | SetArg _ | SetPid _ | SetId _ | PostReady => true | _ => false end
  | _ => false
  end.

(** The value of the lock's semaphore accounts for its holders. *)
Definition lock_inv (v0 : Z) (y : system) : Prop :=
  Forall (fun p => lockstep (held (past p)) (code p)) (sy_cli y) /\
  0 <= sh_lock (sy_mem y) /\ Z.of_nat (holders y) + sh_lock (sy_mem y) = v0 + recoveries y.

Lemma held_snoc {R} tr (e : cli_ev R) r : held (tr ++ [Obs e r]) = held1 (held tr) (Obs e r).
Proof. unfold held. by rewrite fold_left_app. Qed.

(** A step of a client, and what it takes from the lock. *)
Lemma cli_lockstep p s p' s' :
  proc_step cli_step (A := Z) p s p' s' -> lockstep (held (past p)) (code p) ->
  lockstep (held (past p')) (code p') /\ (0 <= sh_lock s -> 0 <= sh_lock s') /\
  Z.b2z (held (past p')) + sh_lock s' = Z.b2z (held (past p)) + sh_lock s.
Proof.
  intros [R e k tr s0 r s0' Hst] Hl. cbn [past code] in *. rewrite held_snoc.
  destruct e; cbn [lockstep] in Hl; cbn [held1]; step_inv Hst.
  all: repeat match goal with
    | H : _ /\ _ |- _ => destruct H
    | r : () |- _ => destruct r
    | H : held _ = _ |- _ => rewrite H; clear H
    end; cbn; split_and!; auto; lia.
Qed.

Lemma filter_insert_length {A} (f : A -> bool) l i p p' :
  l !! i = Some p ->
  Z.of_nat (length (List.filter f (<[i:=p']> l))) + Z.b2z (f p) =
  Z.of_nat (length (List.filter f l)) + Z.b2z (f p').
Proof.
  revert i. induction l as [|x l IH]; intros [|i] H; try done; cbn in *.
  - injection H as ->. destruct (f p), (f p'); cbn; lia.
  - specialize (IH i H). unfold insert in *. destruct (f x); cbn; lia.
Qed.

Lemma sup_step_lock R (e : sup_ev R) s r s' :
  sup_step R e s r s' -> sh_lock s' = sh_lock s + Z.b2z (recovers (Obs e r)).
Proof. intros Hs. destruct e; step_inv Hs; cbn; lia. Qed.

Lemma ctl_step_lock R (e : ctl_ev R) s r s' : ctl_step R e s r s' -> sh_lock s' = sh_lock s.
Proof. intros [_ Hs]. by destruct e; step_inv Hs. Qed.

Lemma sys_step_lock client v0 y y' :
  (forall p, client p -> lockstep false p) -> sys_step client y y' -> lock_inv v0 y -> lock_inv v0 y'.
Proof.
  intros Hcl Hstep (H1 & H2 & H3). unfold lock_inv, holders, recoveries in *.
  destruct Hstep as [y p m Hp|y p m Hp|y i q p m Hi Hp|y p Hp|y t Ht]; cbn [sy_cli sy_mem sy_sup].
  - destruct y as [pc ps cl mm]; cbn in *. inversion Hp; subst. erewrite ctl_step_lock by done. done.
  - destruct y as [pc ps cl mm]; cbn in *. inversion Hp; subst. cbn [past] in *.
    rewrite List.filter_app, length_app. erewrite !sup_step_lock by done. cbn.
    destruct (match e with PostLock => _ | _ => _ end); cbn; split_and!; (done || lia).
  - destruct (cli_lockstep _ _ _ _ Hp (Forall_lookup_1 _ _ _ _ H1 Hi)) as (L1 & L2 & L3).
    pose proof (filter_insert_length (fun p => held (past p)) _ _ _ p Hi).
    split_and!; [by apply Forall_insert|auto|lia].
  - split_and!; [|done|].
    + apply Forall_app. split; [done|]. constructor; [by apply Hcl|constructor].
    + rewrite List.filter_app. cbn [List.filter past held fold_left]. by rewrite app_nil_r.
  - done.
Qed.

(** C13: the mailbox has one writer at a time.  Whatever the threads and any number of
    clients do, as long as the clients run [so101ctl] (or anything that takes the lock
    before it writes and releases it once), a client that is about to write to the
    mailbox or to post a command holds the lock, and the clients that hold it are at
    most one more than the locks the supervisor has released in place of a client it
    took for dead. *)
Theorem mailbox_exclusion c client fuel_c fuel_s m y i p :
  sh_lock m = 1 -> (forall p, client p -> lockstep false p) ->
  rtc (sys_step client) (boot c fuel_c fuel_s m) y ->
  Z.of_nat (holders y) <= 1 + recoveries y /\
  (sy_cli y !! i = Some p -> writes_mailbox (code p) = true -> held (past p) = true).
Proof.
  intros Hm Hcl Hr.
  assert (H : lock_inv 1 y).
  { remember (boot c fuel_c fuel_s m) as y0 eqn:E.
    assert (H0 : lock_inv 1 y0) by (subst; split; [apply List.Forall_nil|change (0 <= sh_lock m /\ 0 + sh_lock m = 1 + 0); lia]). clear E.
    induction Hr as [y0|y0 y1 y2 Hs _ IH]; [done|]. apply IH. by eapply sys_step_lock. }
  destruct H as (H1 & H2 & H3). split; [lia|]. intros Hi Hw.
  pose proof (Forall_lookup_1 _ _ _ _ H1 Hi) as Hl. cbn beta in Hl.
  destruct (code p) as [| |R e k]; [done..|]. destruct e; try done; by destruct Hl.
Qed.

(** ** Types and modes *)

(** The segment [main] sets up: an empty mailbox, no fault, IDLE (or any mode that is
    right for the faults). *)
Definition set_up (m : shared) : Prop := mem_typed m /\ mode_safe (sh_faults m) (sh_mode_req m).

(** C3: the requested mode is safe in the whole system.  However the control thread, the
    supervisor and any number of clients (well-behaved or not) interleave, whenever the
    supervisor is between two turns the requested mode fits the latched faults: a
    blocking fault means IDLE or ESTOP, a leader fault excludes TELEOP, and ESTOP is
    requested exactly while ESTOP or STALL is latched.  (For fewer than 2^31 turns,
    after which a counter of bad readings may overflow.) *)
Theorem system_modes_safe c client fuel_c fuel_s m y :
  Z.of_nat fuel_s <= 0x7FFFFFFF -> set_up m ->
  rtc (sys_step client) (boot c fuel_c fuel_s m) y -> load_run_next (code (sy_sup y)) = true ->
  mode_safe (sh_faults (sy_mem y)) (sh_mode_req (sy_mem y)).
Proof.
  intros Hf [Hm Hs] Hr Hnext.
  destruct (reach_sup client c fuel_c fuel_s m y Hf Hm Hs Hr) as [_ Hat].
  by apply (sup_at_safe c _ _ Hat).
Qed.

(** ** Stopping *)

(** The requests a stopped system makes. *)
Definition asks_estop (o : obs ctl_ev) : Prop :=
  match o with
  | Obs e r => match e in ctl_ev R return R -> Prop with
               | LoadModeReq => fun m => m = SO101_MODE_ESTOP
               | _ => fun _ => True
               end r
  end.

Record halted (y : system) : Prop := {
  halted_typed : sys_typed y;
  halted_mem : stopped (sy_mem y);
  halted_sup : keeps sup_step stopped (code (sy_sup y));
  halted_cli : Forall (fun p => never_resets (code p)) (sy_cli y)
}.

Lemma cli_step_stopped R (e : cli_ev R) s r s' :
  no_reset R e -> cli_step R e s r s' -> stopped s -> stopped s'.
Proof.
  intros He Hs H. eapply stopped_env; [by eapply cli_step_env| |exact H].
  destruct H as (_ & _ & H). destruct e; step_inv Hs; done.
Qed.

Lemma ctl_step_mail R (e : ctl_ev R) s r s' :
  ctl_step R e s r s' -> sh_cmd s' = sh_cmd s /\ (stopped s -> asks_estop (Obs e r)).
Proof.
  intros [_ Hs]. destruct e; step_inv Hs; (split; [done|]); try done. by intros [H _].
Qed.

(** A halted system stays halted, and asks the control thread for ESTOP only. *)
Lemma sys_step_halted client y y' :
  (forall p, client p -> never_resets p) -> sys_step client y y' -> halted y ->
  halted y' /\
  exists tr, past (sy_ctl y') = past (sy_ctl y) ++ tr /\ Forall asks_estop tr.
Proof.
  intros Hcl Hstep [Ht Hm Hs Hc]. pose proof (sys_step_typed _ _ _ Ht Hstep) as Ht'.
  pose proof Ht as (Hm0 & Ho & _).
  destruct Hstep as [y p m Hp|y p m Hp|y i q p m Hi Hp|y p Hp|y t Htime].
  - destruct y as [pc ps cl mm]; cbn in *. inversion Hp as [R e k tr s r s' Hst]; subst.
    destruct (ctl_step_mail _ _ _ _ _ Hst) as [Hcmd Hask].
    split; [split; cbn; [done| |done|done]|].
    + eapply stopped_env; [|by rewrite Hcmd; apply Hm|exact Hm].
      eapply ctl_step_env; [apply Ho|by apply get_faults_typed|exact Hst].
    + exists [Obs e r]. split; [done|]. repeat constructor. by apply Hask.
  - destruct y as [pc ps cl mm]; cbn in *. inversion Hp as [R e k tr s r s' Hst]; subst.
    destruct (Hs _ _ _ Hm Hst) as [S1 S2]. split; [by split|]. exists []. by rewrite app_nil_r.
  - pose proof (Forall_lookup_1 _ _ _ _ Hc Hi) as Hq. cbn beta in Hq.
    destruct y as [pc ps cl mm]; cbn in *. inversion Hp as [R e k tr s r s' Hst]; subst.
    destruct Hq as [Q1 Q2]. split; [|exists []; by rewrite app_nil_r].
    split; cbn; [done|by eapply cli_step_stopped|done|]. apply Forall_insert; [done|]. apply Q2.
  - split; [|exists []; by rewrite app_nil_r].
    split; cbn; [done..|]. apply Forall_app. split; [done|]. constructor; [by apply Hcl|constructor].
  - split; [|exists []; by rewrite app_nil_r]. by split.
Qed.

Lemma halted_steps client y y' :
  (forall p, client p -> never_resets p) -> rtc (sys_step client) y y' -> halted y ->
  halted y' /\
  exists tr, past (sy_ctl y') = past (sy_ctl y) ++ tr /\ Forall asks_estop tr.
Proof.
  intros Hcl. induction 1 as [y|y0 y1 y2 Hstep _ IH]; intros Hh.
  - split; [done|]. exists []. by rewrite app_nil_r.
  - destruct (sys_step_halted client _ _ Hcl Hstep Hh) as [H1 (t1 & E1 & F1)].
    destruct (IH H1) as [H2 (t2 & -> & F2)]. split; [done|].
    exists (t1 ++ t2). rewrite E1, app_assoc. split; [done|]. by apply Forall_app.
Qed.

(** Acts of an arm that stays limp: torque is never switched on, no goal is sent, and
    every snapshot shows ESTOP without torque. *)
Definition limp (c : so101d_ctx) (l : list act) : Prop :=
  (torque_act c Follower true ∉ l) /\ existsb sends_goal l = false /\
  Forall (fun s => s_mode s = SO101_MODE_ESTOP /\ s_torque_on s = false) (snapshots l).

Lemma limp_app c l1 l2 : limp c l1 -> limp c l2 -> limp c (l1 ++ l2).
Proof.
  intros (A1 & A2 & A3) (B1 & B2 & B3). unfold limp.
  rewrite existsb_app, snapshots_app, A2, B2, elem_of_app.
  split; [tauto|]. split; [done|]. by apply Forall_app.
Qed.

Lemma asks_requests tr : Forall asks_estop tr -> Forall (fun m => m = SO101_MODE_ESTOP) (requests (acts tr)).
Proof.
  induction 1 as [|[R e r] tr Ho _ IH]; [constructor|]. destruct e; cbn; try exact IH.
  - by destruct a.
  - by constructor.
Qed.

(** One cycle of a stopped system. *)
Lemma cycle_limp c tr k tr' k' :
  ctx_ok c -> ctl_reach c tr k -> Forall ctl_ok (tr ++ tr') -> run (control_cycle c k) tr' k' ->
  Forall asks_estop tr' ->
  limp c (acts tr') /\ commanded (acts (tr ++ tr')) false = false.
Proof.
  intros Hc Hreach [Hok Hok']%Forall_app Hrun Hask%asks_requests.
  pose proof (reach_history _ _ _ Hc Hreach Hok) as Hh.
  pose proof (history_inv c Hc _ _ Hh) as Hinv.
  pose proof (cycle_run _ _ _ _ Hc Hrun Hok') as Hpost.
  destruct (cycle_obeyed _ _ _ _ _ _ Hinv Hpost) as (m & s & Hm & Hs & [Hob _] & _ & _ & Ht & _).
  rewrite Hm in Hask. inversion_clear Hask as [|? ? Em _]. subst m.
  destruct (Hob eq_refl) as (O1 & O2 & O3). split; [split_and!|].
  - intros (l1 & l2 & E)%list_elem_of_split.
    destruct (cycle_torque_on _ _ _ _ _ _ _ Hpost E) as (l0 & bf & m' & E' & Hmot).
    assert (Hin : In m' (requests (acts tr'))).
    { rewrite E, E', !requests_app, !in_app_iff. cbn. tauto. }
    rewrite Hm in Hin. destruct Hin as [<-|[]]. by vm_compute in Hmot.
  - done.
  - rewrite Hs. by repeat constructor.
  - rewrite acts_app. rewrite <- (inv_torque _ _ (history_inv c Hc _ _ (hist_cycle _ _ _ _ _ _ Hh Hpost))).
    congruence.
Qed.

(** The control thread between two cycles of a stopped system, [past1] events after
    its start. *)
Definition limp_since (c : so101d_ctx) (past1 tr : list (obs ctl_ev)) (k : ctl) : Prop :=
  ctl_reach c tr k /\
  exists tr2, tr = past1 ++ tr2 /\
    (Forall ctl_ok tr -> Forall asks_estop tr2 ->
     limp c (acts tr2) /\ (tr2 <> [] -> commanded (acts tr) false = false)).

Lemma limp_since_turn c past1 tr k tr' k' :
  ctx_ok c -> limp_since c past1 tr k -> run (control_cycle c k) tr' k' ->
  limp_since c past1 (tr ++ Obs LoadRun true :: tr') k'.
Proof.
  intros Hc (Hreach & tr2 & -> & H) Hrun. split; [by eapply ctl_turn|].
  exists (tr2 ++ Obs LoadRun true :: tr'). split; [by rewrite app_assoc|]. intros Hok Hask.
  pose proof (proj1 (Forall_app _ _ _) Hok) as [Hok1 Hok2]. inversion_clear Hok2 as [|? ? _ Hok3].
  apply Forall_app in Hask as [Ha1 Ha2]. inversion_clear Ha2 as [|? ? _ Ha3].
  destruct (cycle_limp c (past1 ++ tr2) k tr' k' Hc Hreach) as [L1 L2]; [by apply Forall_app|done..|].
  split; [|intros _].
  - rewrite acts_app. apply limp_app; [by apply H|exact L1].
  - rewrite acts_app in *. exact L2.
Qed.

Lemma steps_ctl_at client c R fresh y y' :
  (fresh -> forall tr k, run (control_start c) tr k -> R tr k) ->
  (forall tr k tr' k', R tr k -> run (control_cycle c k) tr' k' -> R (tr ++ Obs LoadRun true :: tr') k') ->
  rtc (sys_step client) y y' ->
  ctl_at c R fresh (past (sy_ctl y)) (code (sy_ctl y)) ->
  ctl_at c R fresh (past (sy_ctl y')) (code (sy_ctl y')).
Proof.
  intros H1 H2. induction 1 as [y|y0 y1 y2 Hstep _ IH]; [done|]. intros Hat. apply IH.
  by eapply sys_step_at.
Qed.

Lemma steps_ctl_ok client y y' :
  rtc (sys_step client) y y' -> Forall ctl_ok (past (sy_ctl y)) -> Forall ctl_ok (past (sy_ctl y')).
Proof. induction 1 as [y|y0 y1 y2 Hstep _ IH]; [done|]. intros H. apply IH. by eapply sys_step_ok. Qed.

(** The supervisor between two turns is at the head of its loop. *)
Lemma sup_at_loop c s p :
  sup_at c s p -> load_run_next p = true -> keeps sup_step stopped p.
Proof.
  intros [q n Hq _|] Hnext; [|done]. apply load_run_inside in Hnext as [k ->]; [|done].
  apply supervisor_loop_stopped.
Qed.

(** C2: ESTOP stops the arm and it stays stopped, in the whole system.  Once ESTOP is
    requested and latched (at a moment when the supervisor is between two turns and
    no RESET waits in the mailbox), then however the control thread, the supervisor and
    any number of clients go on, as long as no client sends RESET: ESTOP stays
    requested and latched, and from the control thread's next cycle on it never enables
    torque, never sends a goal, and every snapshot it publishes shows ESTOP with the
    torque off; after one complete cycle the last torque command sent is off. *)
Theorem estop_stops_the_arm c any client fuel_c fuel_s m y0 y1 y2 :
  ctx_ok c -> Z.of_nat fuel_s <= 0x7FFFFFFF -> set_up m ->
  rtc (sys_step any) (boot c fuel_c fuel_s m) y0 ->
  stopped (sy_mem y0) -> load_run_next (code (sy_sup y0)) = true ->
  Forall (fun p => never_resets (code p)) (sy_cli y0) -> (forall p, client p -> never_resets p) ->
  rtc (sys_step client) y0 y1 -> ctl_between (code (sy_ctl y1)) = true ->
  rtc (sys_step client) y1 y2 -> ctl_between (code (sy_ctl y2)) = true ->
  stopped (sy_mem y2) /\
  exists tr, past (sy_ctl y2) = past (sy_ctl y1) ++ tr /\ limp c (acts tr) /\
    (tr <> [] -> commanded (acts (past (sy_ctl y2))) false = false).
Proof.
  intros Hc Hf [Hm Hsafe] Hr0 Hstop Hnext Hcli Hcl Hr1 Hb1 Hr2 Hb2.
  destruct (reach_sup any c fuel_c fuel_s m y0 Hf Hm Hsafe Hr0) as [Hty Hat].
  destruct (reach_ctl any c fuel_c fuel_s m y0 Hr0) as [Hat0 Hok0].
  assert (Hh0 : halted y0) by (split; [done|done|by eapply sup_at_loop|done]).
  destruct (halted_steps client y0 y1 Hcl Hr1 Hh0) as [Hh1 _].
  destruct (halted_steps client y1 y2 Hcl Hr2 Hh1) as [Hh2 (tr & Etr & Hask)].
  split; [apply Hh2|]. exists tr. split; [done|].
  assert (Hat1 : ctl_at c (ctl_reach c) True (past (sy_ctl y1)) (code (sy_ctl y1))).
  { eapply steps_ctl_at; [| |exact Hr1|exact Hat0]; [intros _; apply ctl_started|apply ctl_turn]. }
  destruct (ctl_at_between c (ctl_reach c) True) with (4 := Hb1) (3 := Hat1) as (f1 & k1 & E1 & Hreach1);
    [intros _; apply ctl_started|apply ctl_turn|].
  assert (Hat2 : ctl_at c (limp_since c (past (sy_ctl y1))) False (past (sy_ctl y2)) (code (sy_ctl y2))).
  { eapply steps_ctl_at; [| |exact Hr2|]; [done|intros; by eapply limp_since_turn|].
    rewrite E1. apply at_between. split; [exact Hreach1|]. exists []. rewrite app_nil_r.
    split; [done|]. intros _ _. split; [|done]. split; [apply not_elem_of_nil|]. by split. }
  destruct (ctl_at_between c (limp_since c (past (sy_ctl y1))) False) with (4 := Hb2) (3 := Hat2)
    as (f2 & k2 & _ & _ & tr2 & E2 & H2); [done|intros; by eapply limp_since_turn|].
  rewrite Etr in E2. apply app_inv_head in E2 as <-. apply H2; [|done].
  eapply steps_ctl_ok; [exact Hr2|]. eapply steps_ctl_ok; [exact Hr1|exact Hok0].
Qed.

(** What clients never do, they never do. *)
Lemma clients_only P client y y' :
  (forall p, client p -> only P p) -> rtc (sys_step client) y y' ->
  Forall (fun p => only P (code p)) (sy_cli y) -> Forall (fun p => only P (code p)) (sy_cli y').
Proof.
  intros Hcl. induction 1 as [y|y0 y1 y2 Hstep _ IH]; [done|]. intros H. apply IH. clear IH.
  destruct Hstep as [y p m Hp|y p m Hp|y i q p m Hi Hp|y p Hp|y t Ht]; cbn [sy_cli]; try done.
  - pose proof (Forall_lookup_1 _ _ _ _ H Hi) as Hq. cbn beta in Hq. inversion Hp; subst.
    apply Forall_insert; [done|]. apply Hq.
  - apply Forall_app. split; [done|]. constructor; [by apply Hcl|constructor].
Qed.

(** ** Playing the system

    [exec ts y]: the threads named in [ts] take one step each, in that order, in a world
    where servos always answer and every operation succeeds. *)

Section Exec.

Definition exec_ctl (R : Type) (e : ctl_ev R) (s : shared) : option (R * shared) :=
  match e in ctl_ev R return option (R * shared) with
  | LoadRun => Some (true, s)
  | MonoNs => Some (sh_clock s, s)
  | SleepUntil _ => Some (tt, s)
  | SyncRead a ids addr len =>
      if (len =? 2) || (len =? 8)
      then Some ((Protocol.FTS_OK, concat (map (fun _ => sc_reply len) ids)), s) else None
  | SyncWrite _ _ _ _ _ => Some (Protocol.FTS_OK, s)
  | ReopenBus _ _ => Some (tt, s)
  | LoadModeReq => if ctl_okb (Obs LoadModeReq (sh_mode_req s)) then Some (sh_mode_req s, s) else None
  | FaultsOr bits => Some (tt, set_faults (Z.lor (sh_faults s) bits) s)
  | FaultsAnd bits => Some (tt, set_faults (Z.land (sh_faults s) bits) s)
  | LoadFaults => Some (sh_faults s, s)
  | Publish smp => Some (tt, set_sample smp s)
  end.

Definition exec_sup (R : Type) (e : sup_ev R) (s : shared) : option (R * shared) :=
  r ← play R e (1%nat, s); mret (r.1, r.2.2).

Definition exec_cli (R : Type) (e : cli_ev R) (s : shared) : option (R * shared) :=
  match e in cli_ev R return option (R * shared) with
  | ShmOpen _ | Mmap _ | OpenLock | OpenReady => Some (true, s)
  | ReadMagic => Some (SO101_SHM_MAGIC, s)
  | ReadVersion => Some (SO101_SHM_VERSION, s)
  | ReadSize => Some (SHM_SIZE, s)
  | CliRealTime | CliMonoTime => Some (mk_timespec 1 4660, s)
  | LockWait _ => if 0 <? sh_lock s then Some (true, set_lock (sh_lock s - 1) s) else Some (false, s)
  | GetPid => Some (77, s)
  | SetCmd v => Some (tt, set_cmd_field (fun c => mk_cmd (cmd_id c) (u32 v) (cmd_arg c) (cmd_client_pid c)) s)
  | SetArg v => Some (tt, set_cmd_field (fun c => mk_cmd (cmd_id c) (cmd_cmd c) (i32 v) (cmd_client_pid c)) s)
  | SetPid v => Some (tt, set_cmd_field (fun c => mk_cmd (cmd_id c) (cmd_cmd c) (cmd_arg c) (i32 v)) s)
  | SetId v => Some (tt, set_cmd_field (fun c => mk_cmd (u32 v) (cmd_cmd c) (cmd_arg c) (cmd_client_pid c)) s)
  | PostReady => Some (tt, set_ready (sh_ready s + 1) s)
  | LoadAckId => Some (ack_id (sh_ack s), s)
  | LoadAckResult => Some (ack_result (sh_ack s), s)
  | ReleaseLock => Some (tt, set_lock (sh_lock s + 1) s)
  | Nanosleep _ => Some (tt, s)
  | ReadSample _ => Some (Some (sh_sample s), s)
  | Print _ => Some (tt, s)
  end.

(** One operation of a thread. *)
Definition exec_proc {E : Type -> Type} {A} (h : forall R, E R -> shared -> option (R * shared))
    (p : proc E A) (s : shared) : option (proc E A * shared) :=
  match code p with
  | Do e k => r ← h _ e s; mret (mk_proc (k r.1) (past p ++ [Obs e r.1]), r.2)
  | _ => None
  end.

Inductive who := Ctl | Sup | Cli (i : nat) | Start (p : prog cli_ev Z).

Definition exec1 (y : system) (w : who) : option system :=
  match w with
  | Ctl => r ← exec_proc exec_ctl (sy_ctl y) (sy_mem y); mret (mk_system r.1 (sy_sup y) (sy_cli y) r.2)
  | Sup => r ← exec_proc exec_sup (sy_sup y) (sy_mem y); mret (mk_system (sy_ctl y) r.1 (sy_cli y) r.2)
  | Cli i =>
      p ← sy_cli y !! i;
      r ← exec_proc exec_cli p (sy_mem y);
      mret (mk_system (sy_ctl y) (sy_sup y) (<[i:=r.1]> (sy_cli y)) r.2)
  | Start p => Some (mk_system (sy_ctl y) (sy_sup y) (sy_cli y ++ [mk_proc p []]) (sy_mem y))
  end.

Definition exec (ws : list who) (y : system) : option system :=
  fold_left (fun y w => y ≫= fun y => exec1 y w) ws (Some y).

Lemma exec_proc_step {E : Type -> Type} {A} h (step : forall R, E R -> shared -> R -> shared -> Prop)
    (p : proc E A) s p' s' :
  (forall R e s r s', h R e s = Some (r, s') -> step R e s r s') ->
  exec_proc h p s = Some (p', s') -> proc_step step p s p' s'.
Proof.
  intros Hh H. destruct p as [q tr]. unfold exec_proc in H. cbn [code past] in H.
  destruct q as [| |R e k]; [done..|]. apply bind_Some_inv in H as ([r s1] & He & H).
  injection H as <- <-. constructor. by apply Hh.
Qed.

Lemma sc_replies len (ids : list Z) :
  len = 2 \/ len = 8 ->
  length (concat (map (fun _ => sc_reply len) ids)) = (length ids * Z.to_nat len)%nat /\
  Forall (in_u 8) (concat (map (fun _ => sc_reply len) ids)).
Proof.
  intros Hl. induction ids as [|i ids [IH1 IH2]]; [split; [done|constructor]|].
  cbn [map concat length]. rewrite length_app, IH1. split.
  - destruct Hl as [-> | ->]; cbn; lia.
  - apply Forall_app. split; [|done]. destruct Hl as [-> | ->]; repeat constructor; by vm_compute.
Qed.

Lemma exec_ctl_step R (e : ctl_ev R) s r s' : exec_ctl R e s = Some (r, s') -> ctl_step R e s r s'.
Proof.
  intros H. split.
  - destruct e; try done; cbn -[concat] in H.
    + destruct (_ || _) eqn:El; [|done]. injection H as <- <-. intros _. apply sc_replies.
      by apply orb_true_iff in El as [?%Z.eqb_eq|?%Z.eqb_eq]; [left|right].
    + destruct (_ && _) eqn:El; [|done]. injection H as <- <-. apply andb_true_iff in El as [H1 H2].
      split; [by apply Z.leb_le|by apply Z.ltb_lt].
  - destruct e; cbn -[concat] in H |- *; try (injection H as <- <-; done).
    + destruct (_ || _); [|done]. by injection H as <- <-.
    + destruct (_ && _); [|done]. by injection H as <- <-.
Qed.

Lemma exec_sup_step R (e : sup_ev R) s r s' : exec_sup R e s = Some (r, s') -> sup_step R e s r s'.
Proof.
  intros H. apply bind_Some_inv in H as ([x [n t]] & Hp & H). injection H as <- <-.
  exact (play_steps R e (1%nat, s) x (n, t) Hp).
Qed.

Lemma exec_cli_step R (e : cli_ev R) s r s' : exec_cli R e s = Some (r, s') -> cli_step R e s r s'.
Proof.
  intros H. destruct e; cbn -[Z.ltb] in H |- *;
    try (injection H as <- <-; first [done|split; [by right|done]]).
  destruct (Z.ltb_spec 0 (sh_lock s)); injection H as <- <-; by split.
Qed.

(** Every execution is one of the system. *)
Lemma exec_steps (client : prog cli_ev Z -> Prop) ws y y' :
  Forall (fun w => match w with Start p => client p | _ => True end) ws ->
  exec ws y = Some y' -> rtc (sys_step client) y y'.
Proof.
  intros Hws. revert y. induction Hws as [|w ws Hw _ IH]; intros y H.
  - injection H as <-. constructor.
  - unfold exec in H. cbn [fold_left mbind option_bind] in H.
    destruct (exec1 y w) as [y1|] eqn:E1; [|by (clear -H; exfalso; induction ws; [done|auto])].
    eapply rtc_l; [|by apply IH]. clear IH H. destruct w as [| |i|p]; cbn [exec1] in E1.
    + apply bind_Some_inv in E1 as ([p m] & Hp & E1). injection E1 as <-.
      apply sys_ctl. eapply exec_proc_step; [apply exec_ctl_step|exact Hp].
    + apply bind_Some_inv in E1 as ([p m] & Hp & E1). injection E1 as <-.
      apply sys_sup. eapply exec_proc_step; [apply exec_sup_step|exact Hp].
    + apply bind_Some_inv in E1 as (q & Hq & E1).
      apply bind_Some_inv in E1 as ([p m] & Hp & E1). injection E1 as <-.
      eapply sys_cli; [exact Hq|]. eapply exec_proc_step; [apply exec_cli_step|exact Hp].
    + injection E1 as <-. by apply sys_cli_starts.
Qed.
End Exec.

(** Teleoperation, and [so101ctl estop]. *)
Definition teleop_segment : shared :=
  mk_shared SO101_MODE_TELEOP 0 0 (mk_cmd 0 SO101_CMD_NONE 0 0) (mk_ack 0 0) 1 0 sample_zero 5000.
Definition five (_ : string) : double := d_of_Z 5.
Definition estop_client : prog cli_ev Z := ctl_main five 1 ["estop"%string].
Definition demo_system : system := boot demo_ctx 8 8 teleop_segment.

(** The threads start and one cycle enables the torque; a client posts ESTOP, and the
    supervisor serves it; the control thread finishes two cycles more. *)
Definition demo_stop : list who :=
  replicate 3 Ctl ++ replicate 3 Sup ++ replicate 17 Ctl ++ [Start estop_client] ++
  replicate 17 (Cli 0) ++ replicate 14 Sup.
Definition demo_rest : list who := replicate 14 Ctl ++ replicate 4 (Cli 0) ++ replicate 13 Ctl.

Definition after (ws : list who) (y : system) : system := default y (exec ws y).

Lemma after_steps client ws y :
  Forall (fun w => match w with Start p => client p | _ => True end) ws ->
  (if exec ws y is Some _ then true else false) = true -> rtc (sys_step client) y (after ws y).
Proof.
  intros Hws H. apply (exec_steps client ws); [done|]. unfold after. by destruct (exec ws y).
Qed.

Definition y_boot : system := demo_system.
Definition y_stop : system := after demo_stop y_boot.
Definition y_rest : system := after demo_rest y_stop.

Lemma teleop_set_up : set_up teleop_segment.
Proof.
  split; [unfold mem_typed, cmd_typed; split_and!; by vm_compute|]. unfold mode_safe. cbn. split; [tauto|].
  split; [done|]. split; [done|]. split; done.
Qed.

Lemma estop_never_resets : never_resets estop_client.
Proof. by apply ctl_main_no_reset. Qed.

Lemma demo_stop_steps (client : prog cli_ev Z -> Prop) :
  client estop_client -> rtc (sys_step client) y_boot y_stop.
Proof.
  intros H. apply after_steps; [|vm_compute; reflexivity]. unfold demo_stop.
  repeat (apply Forall_app; split); repeat constructor. exact H.
Qed.

Lemma estop_stops_the_arm_witness :
  commanded (acts (past (sy_ctl y_stop))) false = true /\
  stopped (sy_mem y_rest) /\
  exists tr, past (sy_ctl y_rest) = past (sy_ctl y_stop) ++ tr /\ limp demo_ctx (acts tr) /\
    (tr <> [] -> commanded (acts (past (sy_ctl y_rest))) false = false).
Proof.
  split; [vm_compute; reflexivity|].
  apply (estop_stops_the_arm demo_ctx never_resets never_resets 8 8 teleop_segment y_stop y_stop y_rest).
  - exact demo_ctx_ok.
  - vm_compute. discriminate.
  - exact teleop_set_up.
  - exact (demo_stop_steps _ estop_never_resets).
  - split_and!; vm_compute; [reflexivity|reflexivity|discriminate].
  - vm_compute. reflexivity.
  - apply (clients_only no_reset never_resets y_boot); [done|exact (demo_stop_steps _ estop_never_resets)|].
    apply List.Forall_nil.
  - done.
  - constructor.
  - vm_compute. reflexivity.
  - apply after_steps; [|vm_compute; reflexivity]. unfold demo_rest.
    repeat (apply Forall_app; split); repeat constructor.
  - vm_compute. reflexivity.
Defined.

Lemma system_modes_safe_witness :
  sh_faults (sy_mem y_stop) = SO101_F_ESTOP /\
  mode_safe (sh_faults (sy_mem y_stop)) (sh_mode_req (sy_mem y_stop)).
Proof.
  split; [vm_compute; reflexivity|].
  apply (system_modes_safe demo_ctx never_resets 8 8 teleop_segment).
  - vm_compute. discriminate.
  - exact teleop_set_up.
  - exact (demo_stop_steps _ estop_never_resets).
  - vm_compute. reflexivity.
Defined.

(** Two clients, one of them about to write its command. *)
Definition estop_starts : list who :=
  [Start estop_client; Start estop_client] ++ replicate 11 (Cli 1) ++ replicate 5 (Cli 0).
Definition y_two : system := after estop_starts y_boot.

Lemma mailbox_exclusion_witness :
  exists p, sy_cli y_two !! 1%nat = Some p /\ writes_mailbox (code p) = true /\
    (Z.of_nat (holders y_two) <= 1 + recoveries y_two /\ held (past p) = true).
Proof.
  assert (E2 : (if sy_cli y_two !! 1%nat is Some p then writes_mailbox (code p) else false) = true)
    by (vm_compute; reflexivity).
  destruct (sy_cli y_two !! 1%nat) as [p|] eqn:E1; [|discriminate E2].
  exists p. split; [reflexivity|]. split; [exact E2|].
  destruct (mailbox_exclusion demo_ctx (lockstep false) 8 8 teleop_segment y_two 1 p) as [H1 H2].
  - vm_compute. reflexivity.
  - done.
  - apply after_steps; [|vm_compute; reflexivity]. unfold estop_starts.
    apply Forall_app. split; [|apply Forall_app; split; repeat constructor].
    repeat constructor; apply ctl_main_lockstep.
  - split; [exact H1|exact (H2 E1 E2)].
Defined.
