(* ===== verification/Daemon.v ===== *)
(** * The daemon's main thread (daemon/src/so101d.c)

    [main] as a program over its operations: the options, the calibrations, the buses,
    the segment, the semaphores, the threads, the systemd watchdog, and the shutdown.
    [main_step] says what an operation does to the segment. *)

From Stdlib Require Import Ascii.
From stdpp Require Import strings.
From S2P Require Import Prelude Protocol Os Calib Libc Double Shm Layout Ctx Prog Control Supervisor Client.

(** ** Options *)

Inductive thread := CtlThread | SupThread.
Inductive sem := SemLock | SemReady.

(** What [main] prints, by its arguments. *)
Inductive main_line :=
| UsageLine | UnknownGroup (name : string) | CalibLine (e : calib_error) | CannotOpenLine (port : string) (rc : Z)
| PerrorLine (what : string) | AnotherInstance | StaleSemaphores | CreateFailed (t : thread) (e : Z)
| RunningLine | WatchdogEvery (usec : Z) | SignalLine (sig : Z) | AliveAgain | StuckLine (ctl_ok : bool)
| FinalStatus (s : so101_sample).

(** The fields of [so101d_ctx] that the options set. *)
Record conf := mk_conf {
  o_leader_port : string; o_follower_port : string;
  o_leader_calib : option string; o_follower_calib : option string;
  o_freq : double; o_realtime : bool; o_prio : Z; o_cpu : Z;
  o_max_step : Z; o_ramp_step : Z; o_temp_limit : Z; o_bus_timeout_ms : Z; o_echo : bool;
  o_initial_mode : Z; o_ipc_gid : Z; o_ipc_mode : Z
}.

(** [(gid_t)-1]; the modes 0666 and 0660. *)
Definition NO_GID : Z := u32 (-1).
Definition MODE_ALL : Z := 0x1B6.
Definition MODE_GROUP : Z := 0x1B0.

Definition default_conf : conf :=
  mk_conf "/dev/so101_leader" "/dev/so101_follower" None None (d_of_Z 100) false 80 (-1)
    50 6 60 4 false SO101_MODE_IDLE NO_GID MODE_ALL.

Definition parse_mode (s : string) : option Z :=
  if (s =? "idle")%string then Some SO101_MODE_IDLE
  else if (s =? "teleop")%string then Some SO101_MODE_TELEOP
  else if (s =? "hold")%string then Some SO101_MODE_HOLD
  else None.

Section Options.
(** libc's [atof] and [getgrnam]. *)
Context (atof : string -> double) (getgrnam : string -> option Z).

(** One turn of the [switch]: the configuration after it, or what is printed before
    exit status 2. *)
Definition apply_option (c : conf) (opt : ascii * string) : main_line + conf :=
  let '(ch, optarg) := opt in
  let '(mk_conf lp fp lc fc freq rt prio cpu ms rs tl tmo ec im gid md) := c in
  if (ch =? "l")%char then inr (mk_conf optarg fp lc fc freq rt prio cpu ms rs tl tmo ec im gid md)
  else if (ch =? "f")%char then inr (mk_conf lp optarg lc fc freq rt prio cpu ms rs tl tmo ec im gid md)
  else if (ch =? "L")%char then inr (mk_conf lp fp (Some optarg) fc freq rt prio cpu ms rs tl tmo ec im gid md)
  else if (ch =? "F")%char then inr (mk_conf lp fp lc (Some optarg) freq rt prio cpu ms rs tl tmo ec im gid md)
  else if (ch =? "R")%char then inr (mk_conf lp fp lc fc (atof optarg) rt prio cpu ms rs tl tmo ec im gid md)
  else if (ch =? "r")%char then inr (mk_conf lp fp lc fc freq true prio cpu ms rs tl tmo ec im gid md)
  else if (ch =? "P")%char then inr (mk_conf lp fp lc fc freq rt (atoi optarg) cpu ms rs tl tmo ec im gid md)
  else if (ch =? "C")%char then inr (mk_conf lp fp lc fc freq rt prio (atoi optarg) ms rs tl tmo ec im gid md)
  else if (ch =? "s")%char then inr (mk_conf lp fp lc fc freq rt prio cpu (atoi optarg) rs tl tmo ec im gid md)
  else if (ch =? "a")%char then inr (mk_conf lp fp lc fc freq rt prio cpu ms (atoi optarg) tl tmo ec im gid md)
  else if (ch =? "T")%char then inr (mk_conf lp fp lc fc freq rt prio cpu ms rs (atoi optarg) tmo ec im gid md)
  else if (ch =? "t")%char then inr (mk_conf lp fp lc fc freq rt prio cpu ms rs tl (atoi optarg) ec im gid md)
  else if (ch =? "e")%char then inr (mk_conf lp fp lc fc freq rt prio cpu ms rs tl tmo true im gid md)
  else if (ch =? "g")%char then
    match getgrnam optarg with
    | None => inl (UnknownGroup optarg)
    | Some g => inr (mk_conf lp fp lc fc freq rt prio cpu ms rs tl tmo ec im g MODE_GROUP)
    end
  else if (ch =? "m")%char then
    match parse_mode optarg with
    | None => inl UsageLine
    | Some m => inr (mk_conf lp fp lc fc freq rt prio cpu ms rs tl tmo ec m gid md)
    end
  else inl UsageLine.

(** The options [getopt] returns, in order; for one it rejects, a question mark. *)
Fixpoint parse_options (c : conf) (opts : list (ascii * string)) : main_line + conf :=
  match opts with
  | [] => inr c
  | o :: opts => match apply_option c o with inl l => inl l | inr c => parse_options c opts end
  end.

(** The check after the loop; the two calibration files when it passes. *)
Definition check_options (c : conf) : option (string * string) :=
  match o_leader_calib c, o_follower_calib c with
  | Some l, Some f =>
      if d_leb (o_freq c) (d_of_Z 0) || (o_max_step c <=? 0) || (o_ramp_step c <=? 0) then None
      else Some (l, f)
  | _, _ => None
  end.
End Options.

(** [(int64_t)(1e9 / freq)] of the control thread and [(uint32_t)(1e9 / freq)] of the
    header: nothing out of range. *)
Definition period_of (freq : double) : option Z := d_to_s 64 (d_div (d_of_Z NSEC_PER_SEC) freq).
Definition period_ns_of (freq : double) : option Z :=
  z ← d_trunc (d_div (d_of_Z NSEC_PER_SEC) freq);
  if (0 <=? z) && (z <? 2 ^ 32) then Some z else None.

(** The context the threads get. *)
Definition ctx_of (c : conf) (period : Z) (cal_l cal_f : calib_arm) : so101d_ctx :=
  mk_ctx (o_leader_port c) (o_follower_port c) period (o_max_step c) (o_ramp_step c) 50
    (o_bus_timeout_ms c) (o_echo c) (o_initial_mode c) (o_temp_limit c) 45 84 10 cal_l cal_f.

Example default_ctx_of l f : ctx_of default_conf 10000000 l f = default_ctx l f.
Proof. reflexivity. Qed.

(** ** Operations *)

Inductive main_ev : Type -> Type :=
| ReadFile (path : string) : main_ev (option (list Z))       (* fopen, fread *)
| OpenBus (a : arm) (port : string) : main_ev Z              (* fts_open at 1 Mbaud *)
| SetBus (a : arm) (timeout : Z) (echo : bool) : main_ev unit
| CloseBus (a : arm) : main_ev unit
| OpenShm (mode : Z) : main_ev bool
| FlockShm : main_ev bool
| ChownShm (gid : Z) : main_ev bool
| ChmodShm (mode : Z) : main_ev unit
| TruncateShm (size : Z) : main_ev bool
| MapShm : main_ev bool
| CloseShm : main_ev unit
| UnmapShm : main_ev unit
| UnlinkShm : main_ev unit
| MainPid : main_ev Z
| ZeroShm : main_ev unit                                     (* memset *)
| StoreHeader (f : shm_header -> shm_header) : main_ev unit  (* a field other than magic *)
| MStoreModeReq (v : Z) : main_ev unit
| StoreMagic (v : Z) : main_ev unit
| SemUnlink (s : sem) : main_ev unit
| Umask (m : Z) : main_ev Z
| SemOpen (s : sem) (mode value : Z) : main_ev bool          (* O_CREAT | O_EXCL *)
| ErrnoExists : main_ev bool                                 (* errno == EEXIST *)
| ChownSem (s : sem) (gid : Z) : main_ev bool
| SemClose (s : sem) : main_ev unit
| BlockSignals : main_ev unit
| LockMemory : main_ev bool                                  (* mlockall *)
| StoreRun (v : bool) : main_ev unit
| CreateThread (t : thread) (fifo : option Z) (cpu : Z) : main_ev Z
| JoinThread (t : thread) : main_ev unit
| Getenv (name : string) : main_ev (option string)
| SigTimedWait (t : timespec) : main_ev Z
| MainRead (max_tries : nat) : main_ev (option so101_sample)
| LoadBeat : main_ev Z
| Socket : main_ev Z
| SendTo (fd : Z) (path msg : list Z) : main_ev unit
| CloseSocket (fd : Z) : main_ev unit
| Say (l : main_line) : main_ev unit.

(** ** systemd *)

(** The notifications, as the bytes of their text. *)
Inductive sd_msg := MsgReady (mode : Z) | MsgWatchdog (s : so101_sample) | MsgStopping.

Definition hex_digit (d : Z) : Z := if d <? 10 then 48 + d else 87 + d.
Fixpoint hex (fuel : nat) (n : Z) : list Z :=
  match fuel with
  | O => []
  | S fuel => (if n <? 16 then [] else hex fuel (n / 16)) ++ [hex_digit (n mod 16)]
  end.
(** [%02x] of a [uint32_t]; [%llu] of a [uint64_t]. *)
Definition hex02 (n : Z) : list Z := let h := hex 8 n in if (length h <? 2)%nat then 48 :: h else h.
Definition decimal (n : Z) : list Z := Calib.dec 20 n.

Definition msg_bytes (m : sd_msg) : list Z :=
  match m with
  | MsgReady mode => str "READY=1" ++ [10] ++ str "STATUS=running, mode " ++ str (so101_mode_name mode)
  | MsgWatchdog s =>
      str "WATCHDOG=1" ++ [10] ++ str "STATUS=mode " ++ str (so101_mode_name (s_mode s)) ++
      str (if s_ramping s =? 0 then "" else " (soft start)") ++ str ", cycle " ++ decimal (s_cycle s) ++
      str ", faults 0x" ++ hex02 (s_faults s)
  | MsgStopping => str "STOPPING=1"
  end.

(** [sizeof sa.sun_path]; the address, an initial at-sign becoming 0. *)
Definition SUN_PATH : nat := 108.
Definition sun_path (path : list Z) : list Z :=
  match path with c :: rest => (if c =? 64 then 0 else c) :: rest | [] => [] end.

Definition sd_notifyf (m : sd_msg) : prog main_ev unit :=
  env ← do (Getenv "NOTIFY_SOCKET");
  match env with
  | None => mret tt
  | Some path =>
      let path := str path in
      let msg := msg_bytes m in
      if negb ((at_ path 0 =? 47) || (at_ path 0 =? 64)) then mret tt
      else if (SUN_PATH <=? length path)%nat then mret tt
      else
        fd ← do Socket;
        if fd <? 0 then mret tt
        else do (SendTo fd (sun_path path) (take 255 msg));; do (CloseSocket fd)
  end.

Definition sd_watchdog_usec : prog main_ev Z :=
  u ← do (Getenv "WATCHDOG_USEC");
  p ← do (Getenv "WATCHDOG_PID");
  match u with
  | None => mret 0
  | Some u =>
      match p with
      | Some p => pid ← do MainPid; mret (if atoi p =? pid then strtoull u else 0)
      | None => mret (strtoull u)
      end
  end.

(** ** Setting up *)

Definition open_bus (a : arm) (port : string) (c : conf) : prog main_ev bool :=
  rc ← do (OpenBus a port);
  if negb (rc =? 0) then do (Say (CannotOpenLine port rc));; mret false
  else do (SetBus a (o_bus_timeout_ms c) (o_echo c));; mret true.

(** The 16-byte arrays of the header, each [snprintf] of a name. *)
Definition name_bytes (n : string) : list Z :=
  let b := take 15 (str n) in b ++ replicate (16 - length b) 0.
Definition store_names : shm_header -> shm_header := fun h =>
  mk_header (h_magic h) (h_version h) (h_size h) (h_daemon_pid h) (h_period_ns h) (h_n_joints h)
    (concat (map name_bytes calib_joint_names)).
Definition store_version (v : Z) (h : shm_header) : shm_header :=
  mk_header (h_magic h) (u32 v) (h_size h) (h_daemon_pid h) (h_period_ns h) (h_n_joints h) (h_joint_names h).
Definition store_size (v : Z) (h : shm_header) : shm_header :=
  mk_header (h_magic h) (h_version h) (u32 v) (h_daemon_pid h) (h_period_ns h) (h_n_joints h) (h_joint_names h).
Definition store_pid (v : Z) (h : shm_header) : shm_header :=
  mk_header (h_magic h) (h_version h) (h_size h) (i32 v) (h_period_ns h) (h_n_joints h) (h_joint_names h).
Definition store_period (v : Z) (h : shm_header) : shm_header :=
  mk_header (h_magic h) (h_version h) (h_size h) (h_daemon_pid h) (u32 v) (h_n_joints h) (h_joint_names h).
Definition store_n_joints (v : Z) (h : shm_header) : shm_header :=
  mk_header (h_magic h) (h_version h) (h_size h) (h_daemon_pid h) (h_period_ns h) (u32 v) (h_joint_names h).

(** The stores of [shm_create], from the [memset] on. *)
Definition shm_init (c : conf) : prog main_ev unit :=
  do ZeroShm;;
  do (StoreHeader (store_version SO101_SHM_VERSION));;
  do (StoreHeader (store_size SHM_SIZE));;
  pid ← do MainPid;
  do (StoreHeader (store_pid pid));;
  p ← defined (period_ns_of (o_freq c));
  do (StoreHeader (store_period p));;
  do (StoreHeader (store_n_joints (Z.of_nat SO101_NJ)));;
  do (StoreHeader store_names);;
  do (MStoreModeReq (o_initial_mode c));;
  do (StoreMagic SO101_SHM_MAGIC).

Definition shm_create (c : conf) : prog main_ev bool :=
  fd ← do (OpenShm (o_ipc_mode c));
  if negb fd then do (Say (PerrorLine "shm_open"));; mret false
  else
    locked ← do FlockShm;
    if negb locked then do (Say AnotherInstance);; do CloseShm;; mret false
    else
      (if negb (o_ipc_gid c =? NO_GID) then
         ok ← do (ChownShm (o_ipc_gid c));
         if ok : bool then mret tt else do (Say (PerrorLine "so101d: fchown shm"))
       else mret tt);;
      do (ChmodShm (o_ipc_mode c));;
      ok ← do (TruncateShm SHM_SIZE);
      if negb ok then do (Say (PerrorLine "ftruncate"));; do CloseShm;; mret false
      else
        ok ← do MapShm;
        if negb ok then do (Say (PerrorLine "mmap"));; do CloseShm;; mret false
        else shm_init c;; mret true.

Definition sems_create (c : conf) : prog main_ev bool :=
  do (SemUnlink SemLock);;
  do (SemUnlink SemReady);;
  old ← do (Umask 0);
  lock ← do (SemOpen SemLock (o_ipc_mode c) 1);
  ready ← do (SemOpen SemReady (o_ipc_mode c) 0);
  do (Umask old);;
  if negb lock || negb ready then
    do (Say (PerrorLine "so101d: sem_open"));;
    exists_ ← do ErrnoExists;
    (if exists_ : bool then do (Say StaleSemaphores) else mret tt);;
    mret false
  else if negb (o_ipc_gid c =? NO_GID) then
    l ← do (ChownSem SemLock (o_ipc_gid c));
    ok ← (if l : bool then do (ChownSem SemReady (o_ipc_gid c)) else mret false);
    (if ok : bool then mret tt else do (Say (PerrorLine "so101d: chown semaphores")));;
    mret true
  else mret true.

Definition sems_destroy : prog main_ev unit :=
  do (SemClose SemLock);;
  do (SemClose SemReady);;
  do (SemUnlink SemLock);;
  do (SemUnlink SemReady).

Definition main_log_status : prog main_ev unit :=
  s ← do (MainRead 100);
  match s with Some s => do (Say (FinalStatus s)) | None => mret tt end.

(** From the calibrations to the semaphores: the exit status, or what the threads get. *)
Definition main_setup (c : conf) (lcal fcal : string) : prog main_ev (Z + calib_arm * calib_arm) :=
  lf ← do (ReadFile lcal);
  match calib_load lf with
  | inl e => do (Say (CalibLine e));; mret (inl 1)
  | inr cal_l =>
      ff ← do (ReadFile fcal);
      match calib_load ff with
      | inl e => do (Say (CalibLine e));; mret (inl 1)
      | inr cal_f =>
          ok ← open_bus Leader (o_leader_port c) c;
          if negb ok then mret (inl 1)
          else
            ok ← open_bus Follower (o_follower_port c) c;
            if negb ok then mret (inl 1)
            else
              ok ← shm_create c;
              if negb ok then mret (inl 1)
              else
                ok ← sems_create c;
                if negb ok then do UnlinkShm;; mret (inl 1)
                else mret (inr (cal_l, cal_f))
      end
  end.

(** ** Running *)

(** Both threads; the exit status when one cannot be created. *)
Definition main_threads (c : conf) : prog main_ev (option Z) :=
  do BlockSignals;;
  (if o_realtime c then
     ok ← do LockMemory;
     if ok : bool then mret tt else do (Say (PerrorLine "so101d: mlockall (continuing)"))
   else mret tt);;
  do (StoreRun true);;
  e ← do (CreateThread CtlThread (if o_realtime c then Some (o_prio c) else None) (o_cpu c));
  if negb (e =? 0) then
    do (Say (CreateFailed CtlThread e));;
    sems_destroy;;
    do UnlinkShm;;
    mret (Some 1)
  else
    e ← do (CreateThread SupThread
              (if o_realtime c then Some (if 10 <? o_prio c then o_prio c - 10 else 1) else None) (-1));
    if negb (e =? 0) then
      do (Say (CreateFailed SupThread e));;
      do (StoreRun false);;
      do (JoinThread CtlThread);;
      sems_destroy;;
      do UnlinkShm;;
      mret (Some 1)
    else do (Say RunningLine);; mret None.

Definition SIGINT : Z := 2.
Definition SIGTERM : Z := 15.

(** The [for (;;)]: at most [fuel] turns. *)
Fixpoint watchdog_loop (fuel : nat) (chk : timespec) (last_cycle last_beat : Z) (healthy : bool)
    : prog main_ev unit :=
  match fuel with
  | O => Undef
  | S fuel =>
      sig ← do (SigTimedWait chk);
      if (sig =? SIGINT) || (sig =? SIGTERM) then do (Say (SignalLine sig))
      else
        s ← do (MainRead 100);
        match s with
        | None => watchdog_loop fuel chk last_cycle last_beat healthy
        | Some s =>
            beat ← do LoadBeat;
            let ctl_ok := negb (s_cycle s =? last_cycle) in
            let sup_ok := negb (beat =? last_beat) in
            let alive := ctl_ok && sup_ok in
            (if alive then
               sd_notifyf (MsgWatchdog s);;
               (if negb healthy then do (Say AliveAgain) else mret tt)
             else if healthy then do (Say (StuckLine ctl_ok))
             else mret tt);;
            watchdog_loop fuel chk (s_cycle s) beat alive
        end
  end.

(** The watchdog's interval, and how often it is checked. *)
Definition check_interval (wd_usec : Z) : timespec :=
  let chk := if wd_usec =? 0 then 1000000 else wd_usec / 2 in
  mk_timespec (chk / 1000000) (chk mod 1000000 * 1000).

Definition main_shutdown : prog main_ev unit :=
  sd_notifyf MsgStopping;;
  do (StoreRun false);;
  do (JoinThread SupThread);;
  do (JoinThread CtlThread);;
  main_log_status;;
  sems_destroy;;
  do (CloseBus Leader);;
  do (CloseBus Follower);;
  do (StoreMagic 0);;
  do UnmapShm;;
  do UnlinkShm;;
  do CloseShm.

Definition main_run (fuel : nat) (c : conf) : prog main_ev Z :=
  failed ← main_threads c;
  match failed with
  | Some rc => mret rc
  | None =>
      wd ← sd_watchdog_usec;
      sd_notifyf (MsgReady (o_initial_mode c));;
      (if wd =? 0 then mret tt else do (Say (WatchdogEvery wd)));;
      watchdog_loop fuel (check_interval wd) 0 0 true;;
      main_shutdown;;
      mret 0
  end.

(** [main] on the options [getopt] returns. *)
Definition main (atof : string -> double) (getgrnam : string -> option Z) (fuel : nat)
    (opts : list (ascii * string)) : prog main_ev Z :=
  match parse_options atof getgrnam default_conf opts with
  | inl l => do (Say l);; mret 2
  | inr c =>
      match check_options c with
      | None => do (Say UsageLine);; mret 2
      | Some (lcal, fcal) =>
          r ← main_setup c lcal fcal;
          match r with inl rc => mret rc | inr _ => main_run fuel c end
      end
  end.

(** ** The segment *)

Record main_mem := mk_mem { mm_header : shm_header; mm_shared : shared }.

Definition set_header (f : shm_header -> shm_header) (m : main_mem) : main_mem :=
  mk_mem (f (mm_header m)) (mm_shared m).
Definition set_shared (f : shared -> shared) (m : main_mem) : main_mem :=
  mk_mem (mm_header m) (f (mm_shared m)).
Definition put_magic (v : Z) (h : shm_header) : shm_header :=
  mk_header (u32 v) (h_version h) (h_size h) (h_daemon_pid h) (h_period_ns h) (h_n_joints h) (h_joint_names h).

(** All bytes 0; the semaphores and the clock are elsewhere. *)
Definition zero_header : shm_header := mk_header 0 0 0 0 0 0 (replicate 96 0).
Definition zero_shared (s : shared) : shared :=
  mk_shared 0 0 0 (mk_cmd 0 0 0 0) (mk_ack 0 0) (sh_lock s) (sh_ready s) sample_zero (sh_clock s).

Definition main_step (R : Type) (e : main_ev R) (m : main_mem) : R -> main_mem -> Prop :=
  match e in main_ev R return R -> main_mem -> Prop with
  | ZeroShm => fun _ m' => m' = mk_mem zero_header (zero_shared (mm_shared m))
  | StoreHeader f => fun _ m' => m' = set_header f m
  | MStoreModeReq v => fun _ m' => m' = set_shared (set_mode_req (u32 v)) m
  | StoreMagic v => fun _ m' => m' = set_header (put_magic v) m
  | SemOpen s _ v => fun ok m' =>
      m' = if ok : bool then set_shared (match s with SemLock => set_lock v | SemReady => set_ready v end) m else m
  | MainRead _ => fun r m' => (r = None \/ r = Some (sh_sample (mm_shared m))) /\ m' = m
  | LoadBeat => fun b m' => b = sh_sup_beat (mm_shared m) /\ m' = m
  | _ => fun _ m' => m' = m
  end.
