(* ===== verification/DaemonThms.v ===== *)
(** * What the main thread guarantees

    The order of its operations, the segment it sets up, the configurations it accepts,
    and when it tells systemd that the daemon is alive. *)

From Stdlib Require Import Ascii.
From stdpp Require Import relations strings.
From S2P Require Import Prelude Protocol Os Calib Libc Double Shm Layout Ctx Prog Control ControlProps ControlThms Supervisor SupervisorProps SupervisorThms Client System SystemProps SystemThms Daemon.

(** ** Monitors

    A monitor is a state machine over the events of a program; [None] is a violation. *)

Section Monitor.
Context {E : Type -> Type} {St : Type} (mon : St -> obs E -> option St).

Definition watch_run (st : St) (tr : list (obs E)) : option St :=
  fold_left (fun st o => st ≫= fun st => mon st o) tr (Some st).

(** From [st], [p] never violates the monitor, and ends in [Q]. *)
Fixpoint obeys {A} (p : prog E A) (st : St) (Q : A -> St -> Prop) : Prop :=
  match p with
  | Ret a => Q a st
  | Undef => True
  | Do e k => forall r, exists st', mon st (Obs e r) = Some st' /\ obeys (k r) st' Q
  end.

Lemma obeys_bind {A B} (p : prog E A) (f : A -> prog E B) st Q :
  obeys p st (fun a st' => obeys (f a) st' Q) -> obeys (p ≫= f) st Q.
Proof.
  revert st. induction p as [a| |R e k IH]; intros st H; [done..|].
  intros r. destruct (H r) as (st' & H1 & H2). exists st'. split; [done|]. by apply IH.
Qed.

Lemma obeys_mono {A} (p : prog E A) st (P Q : A -> St -> Prop) :
  (forall a st', P a st' -> Q a st') -> obeys p st P -> obeys p st Q.
Proof.
  intros HPQ. revert st. induction p as [a| |R e k IH]; intros st H; cbn in *; auto.
  intros r. destruct (H r) as (st' & H1 & H2). exists st'. auto.
Qed.

Lemma obeys_seq {A B} (p : prog E A) (f : A -> prog E B) st P Q :
  obeys p st P -> (forall a st', P a st' -> obeys (f a) st' Q) -> obeys (p ≫= f) st Q.
Proof. intros Hp Hf. apply obeys_bind. eapply obeys_mono; [|exact Hp]. exact Hf. Qed.

Lemma obeys_do {A R} (e : E R) (f : R -> prog E A) st Q :
  (forall r, exists st', mon st (Obs e r) = Some st' /\ obeys (f r) st' Q) -> obeys (do e ≫= f) st Q.
Proof. done. Qed.

Lemma watch_run_app st t1 t2 st1 :
  watch_run st t1 = Some st1 -> watch_run st (t1 ++ t2) = watch_run st1 t2.
Proof. unfold watch_run. rewrite fold_left_app. by intros ->. Qed.

Lemma watch_run_cons st o tr st1 : mon st o = Some st1 -> watch_run st (o :: tr) = watch_run st1 tr.
Proof. intros H. unfold watch_run. cbn. by rewrite H. Qed.

(** Every beginning of an execution, and every whole one. *)
Lemma obeys_evolves {A} (p : prog E A) st Q tr p' :
  obeys p st Q -> evolves p tr p' -> exists st', watch_run st tr = Some st' /\ obeys p' st' Q.
Proof.
  revert p st. induction tr as [|[R e r] tr IH]; intros p st H He.
  - cbn in He. subst p'. by exists st.
  - destruct p as [a| |R' e' k]; [done..|]. destruct He as (r' & Er & He).
    destruct (H r') as (st1 & H1 & H2). rewrite <- Er in H1.
    destruct (IH _ _ H2 He) as (st2 & H3 & H4). exists st2. split; [|done].
    by rewrite (watch_run_cons _ _ _ _ H1).
Qed.

End Monitor.

(** ** The order of operations *)

(** The names of the segment and of the semaphores that exist: they outlive [main]. *)
Record names := mk_names { n_shm : bool; n_lock : bool; n_ready : bool }.

(** What [main] holds at a moment, and the names. *)
Record owned := mk_owned {
  w_leader : bool; w_follower : bool;        (* the ports are open *)
  w_locked : bool; w_mapped : bool;          (* the segment: flock, mmap *)
  w_valid : bool;                            (* magic stored *)
  w_lock : bool; w_ready : bool;             (* the semaphores are open *)
  w_blocked : bool;                          (* signals *)
  w_run : bool; w_ctl : bool; w_sup : bool;  (* the run flag and the threads *)
  w_names : names
}.

Definition nothing (n : names) : owned :=
  mk_owned false false false false false false false false false false false n.
Definition no_names : names := mk_names false false false.
Definition no_threads (w : owned) : bool := negb (w_ctl w) && negb (w_sup w).
Definition ready_to_run (w : owned) : bool :=
  w_leader w && w_follower w && w_locked w && w_mapped w && w_valid w && w_lock w && w_ready w &&
  w_blocked w && w_run w.

Definition need (b : bool) (w : owned) : option owned := if b then Some w else None.

(** The rules.  The threads run only while both ports are open, the segment is mapped
    and its header valid, the semaphores exist and the signals are blocked; nothing of
    these goes away before the threads are joined, and they are joined only once told
    to stop.  The segment is written, and the semaphores and names removed, only under
    the lock that keeps a second daemon out.  A semaphore is created only when nothing
    of its name is left.  [OpenShm] and [SemOpen] create the names, the unlinks remove
    them. *)
Definition order (w : owned) (o : obs main_ev) : option owned :=
  let '(mk_owned le fo lk mp va sl sr bl ru ct su nm) := w in
  match o with
  | Obs e r =>
      match e in main_ev R return R -> option owned with
      | OpenBus Leader _ => fun rc => need (negb le) (mk_owned (rc =? 0) fo lk mp va sl sr bl ru ct su nm)
      | OpenBus Follower _ => fun rc => need (negb fo) (mk_owned le (rc =? 0) lk mp va sl sr bl ru ct su nm)
      | SetBus Leader _ _ => fun _ => need (le && no_threads w) w
      | SetBus Follower _ _ => fun _ => need (fo && no_threads w) w
      | CloseBus Leader => fun _ => need (le && no_threads w) (mk_owned false fo lk mp va sl sr bl ru ct su nm)
      | CloseBus Follower => fun _ => need (fo && no_threads w) (mk_owned le false lk mp va sl sr bl ru ct su nm)
      | FlockShm => fun ok => need (negb lk) (mk_owned le fo ok mp va sl sr bl ru ct su nm)
      | ChownShm _ => fun _ => need lk w
      | ChmodShm _ => fun _ => need lk w
      | TruncateShm _ => fun _ => need (lk && negb mp) w
      | MapShm => fun ok => need lk (mk_owned le fo lk ok va sl sr bl ru ct su nm)
      | ZeroShm => fun _ => need (lk && mp && negb va && no_threads w) w
      | StoreHeader _ => fun _ => need (lk && mp && negb va && no_threads w) w
      | MStoreModeReq _ => fun _ => need (lk && mp && negb va && no_threads w) w
      | StoreMagic v => fun _ =>
          need (lk && mp && no_threads w) (mk_owned le fo lk mp (negb (v =? 0)) sl sr bl ru ct su nm)
      | UnmapShm => fun _ => need (mp && negb va && no_threads w) (mk_owned le fo lk false va sl sr bl ru ct su nm)
      | OpenShm _ => fun ok => Some (mk_owned le fo lk mp va sl sr bl ru ct su
          (if ok : bool then mk_names true (n_lock nm) (n_ready nm) else nm))
      | UnlinkShm => fun _ => need (lk && no_threads w)
          (mk_owned le fo lk mp va sl sr bl ru ct su (mk_names false (n_lock nm) (n_ready nm)))
      | CloseShm => fun _ => need (no_threads w) (mk_owned le fo false mp va sl sr bl ru ct su nm)
      | SemUnlink SemLock => fun _ => need (lk && no_threads w)
          (mk_owned le fo lk mp va sl sr bl ru ct su (mk_names (n_shm nm) false (n_ready nm)))
      | SemUnlink SemReady => fun _ => need (lk && no_threads w)
          (mk_owned le fo lk mp va sl sr bl ru ct su (mk_names (n_shm nm) (n_lock nm) false))
      | SemOpen SemLock _ v => fun ok => need (lk && (v =? 1) && negb (n_lock nm))
          (mk_owned le fo lk mp va ok sr bl ru ct su (mk_names (n_shm nm) ok (n_ready nm)))
      | SemOpen SemReady _ v => fun ok => need (lk && (v =? 0) && negb (n_ready nm))
          (mk_owned le fo lk mp va sl ok bl ru ct su (mk_names (n_shm nm) (n_lock nm) ok))
      | ChownSem _ _ => fun _ => need (lk && sl && sr) w
      | SemClose SemLock => fun _ => need (sl && no_threads w) (mk_owned le fo lk mp va false sr bl ru ct su nm)
      | SemClose SemReady => fun _ => need (sr && no_threads w) (mk_owned le fo lk mp va sl false bl ru ct su nm)
      | BlockSignals => fun _ => need (no_threads w) (mk_owned le fo lk mp va sl sr true ru ct su nm)
      | StoreRun v => fun _ => Some (mk_owned le fo lk mp va sl sr bl v ct su nm)
      | CreateThread CtlThread _ _ => fun rc =>
          need (ready_to_run w && negb ct) (mk_owned le fo lk mp va sl sr bl ru (rc =? 0) su nm)
      | CreateThread SupThread _ _ => fun rc =>
          need (ready_to_run w && negb su) (mk_owned le fo lk mp va sl sr bl ru ct (rc =? 0) nm)
      | JoinThread CtlThread => fun _ => need (ct && negb ru) (mk_owned le fo lk mp va sl sr bl ru false su nm)
      | JoinThread SupThread => fun _ => need (su && negb ru) (mk_owned le fo lk mp va sl sr bl ru ct false nm)
      | SigTimedWait _ => fun _ => need (ready_to_run w && ct && su) w
      | MainRead _ => fun _ => need mp w
      | LoadBeat => fun _ => need mp w
      | _ => fun _ => Some w
      end r
  end.

Abbreviation ordered := (obeys order).







Definition all_names : names := mk_names true true true.
Definition with_signals : owned := mk_owned true true true true true true true true true false false all_names.

















(** ** The segment at start-up *)

(** What clients of an earlier or of this daemon may do to the segment meanwhile. *)
Definition cli_do (s s' : shared) : Prop := exists R (e : cli_ev R) r, cli_step R e s r s'.
Definition clients (m m' : main_mem) : Prop :=
  mm_header m' = mm_header m /\ rtc cli_do (mm_shared m) (mm_shared m').

#[export] Instance clients_preorder : PreOrder clients.
Proof.
  split; [by intros m; split|]. intros m1 m2 m3 [A1 A2] [B1 B2].
  split; [congruence|by etransitivity].
Qed.

(** What the clients leave alone. *)
Definition kept (s s' : shared) : Prop :=
  sh_mode_req s' = sh_mode_req s /\ sh_faults s' = sh_faults s /\ sh_sup_beat s' = sh_sup_beat s /\
  sh_ack s' = sh_ack s /\ sh_sample s' = sh_sample s /\ (mem_typed s -> mem_typed s').

Lemma cli_do_kept s s' : cli_do s s' -> kept s s'.
Proof.
  intros (R & e & r & Hs). assert (Ht : mem_typed s -> mem_typed s') by (intros; by eapply cli_step_typed).
  unfold kept. destruct e; step_inv Hs; by split_and!.
Qed.

Lemma rtc_kept s s' : rtc cli_do s s' -> kept s s'.
Proof.
  induction 1 as [s|s1 s2 s3 H%cli_do_kept _ IH]; [unfold kept; by split_and!|].
  destruct H as (A1 & A2 & A3 & A4 & A5 & A6), IH as (B1 & B2 & B3 & B4 & B5 & B6).
  unfold kept. split_and!; [congruence..|]. auto.
Qed.

(** The fields [main] has set; a complete header. *)
Definition fresh_shared (mode : Z) (s : shared) : Prop :=
  sh_mode_req s = mode /\ sh_faults s = 0 /\ sh_sup_beat s = 0 /\ sh_ack s = mk_ack 0 0 /\
  sh_sample s = sample_zero /\ mem_typed s.
Definition header_for (c : conf) (h : shm_header) : Prop :=
  h_magic h = SO101_SHM_MAGIC /\ h_version h = SO101_SHM_VERSION /\ h_size h = SHM_SIZE /\
  h_n_joints h = Z.of_nat SO101_NJ /\ Some (h_period_ns h) = period_ns_of (o_freq c) /\
  h_joint_names h = concat (map name_bytes calib_joint_names).

Lemma fresh_kept mode s s' : kept s s' -> fresh_shared mode s -> fresh_shared mode s'.
Proof.
  intros (A1 & A2 & A3 & A4 & A5 & A6) (B1 & B2 & B3 & B4 & B5 & B6). unfold fresh_shared.
  split_and!; [congruence..|]. auto.
Qed.

Abbreviation main_holds := (holds clients main_step).

(** A memory predicate the clients keep. *)
Definition stable (P : main_mem -> Prop) : Prop := forall m m', clients m m' -> P m -> P m'.

Fixpoint never_undef {E : Type -> Type} {A} (p : prog E A) : Prop :=
  match p with Ret _ => True | Undef => False | Do e k => forall r, never_undef (k r) end.

(** One operation. *)
Lemma holds_op {A R} (e : main_ev R) (f : R -> prog main_ev A) P P' Q m :
  stable P -> P m -> (forall m1 r m2, P m1 -> main_step R e m1 r m2 -> P' r m2) ->
  (forall r m2, P' r m2 -> main_holds (f r) m2 Q) -> main_holds (do e ≫= f) m Q.
Proof. intros HP Hm Hs Hf m1 H1 r m2 H2. eapply Hf, Hs; [|exact H2]. by eapply HP. Qed.

Lemma holds_next {A R} (e : main_ev R) (f : R -> prog main_ev A) m Q :
  (forall r m', main_holds (f r) m' Q) -> main_holds (do e ≫= f) m Q.
Proof. intros Hf m1 _ r m2 _. apply Hf. Qed.

(** Operations whose effect does not matter. *)
Ltac next_op := apply holds_next; intros ? ?.

Definition has_header (h : shm_header) (mode : Z) (m : main_mem) : Prop :=
  mm_header m = h /\ fresh_shared mode (mm_shared m).

Lemma has_header_stable h mode : stable (has_header h mode).
Proof.
  intros m m' [Hh Hr] [H1 H2]. split; [congruence|]. eapply fresh_kept; [by apply rtc_kept|exact H2].
Qed.

Lemma store_holds {A} f (p : prog main_ev A) h mode Q m :
  has_header h mode m ->
  (forall m', has_header (f h) mode m' -> main_holds p m' Q) -> main_holds (do (StoreHeader f);; p) m Q.
Proof.
  intros Hm Hp.
  apply (holds_op _ _ (has_header h mode) (fun _ => has_header (f h) mode) _ _ (has_header_stable h mode) Hm).
  - intros m1 [] m2 [<- Hf] ->. by split.
  - intros _ m'. apply Hp.
Qed.

Lemma fresh_zero s : fresh_shared 0 (zero_shared s).
Proof. unfold fresh_shared, zero_shared, mem_typed, cmd_typed; cbn. split_and!; try done; by vm_compute. Qed.

Lemma fresh_mode mode v s : in_u 32 v -> fresh_shared mode s -> fresh_shared v (set_mode_req v s).
Proof.
  intros Hv (B1 & B2 & B3 & B4 & B5 & B6). unfold fresh_shared; cbn. split_and!; try done. by apply mode_typed.
Qed.

(** The header main writes. *)
Definition header_of (pid period : Z) : shm_header :=
  mk_header SO101_SHM_MAGIC SO101_SHM_VERSION SHM_SIZE (i32 pid) (u32 period) (Z.of_nat SO101_NJ)
    (concat (map name_bytes calib_joint_names)).

Lemma shm_init_holds c p m :
  period_ns_of (o_freq c) = Some p -> in_u 32 (o_initial_mode c) ->
  main_holds (shm_init c) m (fun _ m' => exists pid, has_header (header_of pid p) (o_initial_mode c) m').
Proof.
  intros Hp Hmode. unfold shm_init. rewrite Hp. cbn [defined].
  apply (holds_op _ _ (fun _ => True) (fun _ => has_header zero_header 0)); [done|done| |intros _ m0 H0].
  { intros m1 [] m2 _ ->. split; [done|]. apply fresh_zero. }
  eapply store_holds; [exact H0|]. clear m m0 H0. intros m H0.
  eapply store_holds; [exact H0|]. clear m H0. intros m H0.
  eapply (holds_op _ _ _ (fun _ => _)); [apply has_header_stable|exact H0|intros m1 pid m2 H1 ->; exact H1|].
  clear m H0. intros pid m H0.
  eapply store_holds; [exact H0|]. clear m H0. intros m H0.
  change (main_holds (do (StoreHeader (store_period p));; do (StoreHeader (store_n_joints (Z.of_nat SO101_NJ)));;
    do (StoreHeader store_names);; do (MStoreModeReq (o_initial_mode c));; do (StoreMagic SO101_SHM_MAGIC)) m
    (fun _ m' => exists pid, has_header (header_of pid p) (o_initial_mode c) m')).
  do 3 (eapply store_holds; [exact H0|]; clear m H0; intros m H0).
  eapply (holds_op _ _ _ (fun _ => has_header _ (o_initial_mode c))); [apply has_header_stable|exact H0| |].
  { intros m1 [] m2 [E Hf] ->. split; [exact E|]. cbn. rewrite wrap_u_id by done. by eapply fresh_mode. }
  clear m H0. intros _ m H0 m1 Hc [] m2 ->. exists pid.
  destruct (has_header_stable _ _ _ _ Hc H0) as [E Hf]. split; [|exact Hf].
  cbn. by rewrite E.
Qed.

(** Operations that leave the header and the fields of [fresh_shared] alone. *)
Definition header_free (R : Type) (e : main_ev R) : Prop :=
  match e with ZeroShm | StoreHeader _ | MStoreModeReq _ | StoreMagic _ => False | _ => True end.

Lemma header_free_step R (e : main_ev R) m r m' h mode :
  header_free R e -> main_step R e m r m' -> has_header h mode m -> has_header h mode m'.
Proof.
  intros He Hs [H1 H2]. destruct e; try done; cbn in Hs;
    first [by subst|by destruct Hs; subst|idtac].
  destruct r; subst; [|done]. split; [done|]. destruct H2 as (B1 & B2 & B3 & B4 & B5 & B6).
  unfold fresh_shared. destruct s; cbn; split_and!; try done; auto with typed.
Qed.

Lemma quiet_holds {A} (p : prog main_ev A) (Q : A -> Prop) h mode m :
  only header_free p -> never_undef p -> returns Q p -> has_header h mode m ->
  main_holds p m (fun a m' => Q a /\ has_header h mode m').
Proof.
  revert m. induction p as [a| |R e k IH]; intros m Ho Hu Hr Hm; [by split|done|].
  destruct Ho as [He Hk]. intros m1 H1 r m2 H2. apply IH; [apply Hk|apply Hu|apply Hr|].
  eapply header_free_step; [exact He|exact H2|]. by eapply has_header_stable.
Qed.

Lemma any_holds {A} (p : prog main_ev A) (Q : A -> Prop) m :
  never_undef p -> returns Q p -> main_holds p m (fun a _ => Q a).
Proof.
  revert m. induction p as [a| |R e k IH]; intros m Hu Hr; [done..|].
  intros m1 H1 r m2 H2. apply IH; [apply Hu|apply Hr].
Qed.

Lemma open_bus_total a port c : never_undef (open_bus a port c) /\ returns (fun _ => True) (open_bus a port c).
Proof. unfold open_bus. split; intros rc; cbn; destruct (negb _); by intros []. Qed.

Lemma sems_create_quiet c :
  only header_free (sems_create c) /\ never_undef (sems_create c) /\ returns (fun _ => True) (sems_create c).
Proof.
  unfold sems_create. split_and!.
  - do 6 (apply only_bind; [by apply only_do|intros ?]).
    repeat first [apply only_ret | by apply only_do | apply only_bind; [|intros ?]
                 | match goal with |- only _ (if ?b then _ else _) => destruct b end].
  - intros ? ? old lock ready ?. cbn. destruct (_ || _); [intros [] [|]; cbn; by try intros []|].
    destruct (negb _); [|done]. intros [|]; cbn; [intros [|]; by try intros []|by intros []].
  - intros ? ? old lock ready ?. cbn. destruct (_ || _); [intros [] [|]; cbn; by try intros []|].
    destruct (negb _); [|done]. intros [|]; cbn; [intros [|]; by try intros []|by intros []].
Qed.

(** Six joints as [calib_load] guarantees them. *)
Definition arm_loaded (arm : calib_arm) : Prop :=
  length arm = SO101_NJ /\ forall k j, arm !! k = Some j -> joint_loaded k j.

Lemma calib_loaded f arm : calib_load f = inr arm -> arm_loaded arm.
Proof. destruct f as [bs|]; [|done]. intros H. by apply load_joints_loaded in H. Qed.

(** What [main] has established when it starts the threads. *)
Definition set_up_for (c : conf) (cal_l cal_f : calib_arm) (m : main_mem) : Prop :=
  arm_loaded cal_l /\ arm_loaded cal_f /\ header_for c (mm_header m) /\
  fresh_shared (o_initial_mode c) (mm_shared m).

Lemma shm_create_holds c p m :
  period_ns_of (o_freq c) = Some p -> in_u 32 (o_initial_mode c) ->
  main_holds (shm_create c) m (fun ok m' =>
    if ok : bool then exists pid, has_header (header_of pid p) (o_initial_mode c) m' else True).
Proof.
  intros Hp Hmode. unfold shm_create. apply holds_next. intros fd m1. destruct (negb fd); [by next_op|].
  apply holds_next. intros locked m2. destruct (negb locked); [by do 2 next_op|].
  apply (holds_seq _ _ _ _ _ (fun _ _ => True)).
  { destruct (negb _); [|done]. apply holds_next. intros ok m3. destruct ok; [done|]. by intros ? ? ? ? ?. }
  intros _ m3 _. next_op. apply holds_next. intros ok m4. destruct (negb ok); [by do 2 next_op|].
  apply holds_next. intros ok' m5. destruct (negb ok'); [by do 2 next_op|].
  apply (holds_seq _ _ _ _ _ (fun _ m' => exists pid, has_header (header_of pid p) (o_initial_mode c) m'));
    [by apply shm_init_holds|].
  by intros _ ? H.
Qed.

Lemma header_of_for c pid p : period_ns_of (o_freq c) = Some p -> header_for c (header_of pid p).
Proof.
  intros Hp. unfold header_for, header_of. cbn. split_and!; try done. rewrite Hp, wrap_u_id; [done|].
  unfold period_ns_of in Hp. destruct (d_trunc _) as [z|]; [|done]. cbn in Hp.
  destruct (Z.leb_spec 0 z), (Z.ltb_spec z (2 ^ 32)); try done. by injection Hp as <-.
Qed.

(** C16: what [main] has set up when it starts the threads.  Whatever calls fail and
    whatever clients of an earlier daemon still do to the segment meanwhile, [main_setup]
    either gives up with status 1, or leaves two loaded calibrations, a complete header,
    and the segment in the state the theorems on the threads start from: no fault, no
    answer, the initial mode requested, every field a value of its type, and a mode that
    is safe. *)
Theorem startup_sets_up c lcal fcal p m :
  period_ns_of (o_freq c) = Some p ->
  In (o_initial_mode c) [SO101_MODE_IDLE; SO101_MODE_TELEOP; SO101_MODE_HOLD] ->
  main_holds (main_setup c lcal fcal) m (fun r m' =>
    match r with
    | inl rc => rc = 1
    | inr (cal_l, cal_f) => set_up_for c cal_l cal_f m' /\ set_up (mm_shared m')
    end).
Proof.
  intros Hp Hin. assert (Hmode : in_u 32 (o_initial_mode c))
    by (destruct Hin as [<-|[<-|[<-|[]]]]; by vm_compute).
  unfold main_setup. apply holds_next. intros lf m1.
  destruct (calib_load lf) as [e|cal_l] eqn:El; [by next_op|].
  apply holds_next. intros ff m2. destruct (calib_load ff) as [e|cal_f] eqn:Ef; [by next_op|].
  eapply holds_seq; [apply any_holds; apply open_bus_total|]. intros ok m5 _. destruct (negb ok); [done|].
  eapply holds_seq; [apply any_holds; apply open_bus_total|]. intros ok' m6 _. destruct (negb ok'); [done|].
  eapply holds_seq; [by eapply shm_create_holds|]. intros [|] m7 H7; cbn [negb]; [|done].
  destruct H7 as [pid H7]. destruct (sems_create_quiet c) as (Q1 & Q2 & Q3).
  eapply holds_seq; [exact (quiet_holds _ _ _ _ m7 Q1 Q2 Q3 H7)|].
  intros [|] m8 [_ [Hh Hf]]; cbn [negb]; [|by next_op]. split.
  - split_and!; [by eapply calib_loaded|by eapply calib_loaded| |done]. rewrite Hh. by apply header_of_for.
  - destruct Hf as (F1 & F2 & _ & _ & _ & Ft). split; [done|]. rewrite F1, F2.
    unfold mode_safe. split; [cbn in *; tauto|]. split; [done|]. split; [done|].
    split; [done|]. intros E. rewrite E in Hin. by destruct Hin as [H|[H|[H|[]]]].
Qed.

(** ** Configurations *)

Definition conf_ok (c : conf) : Prop :=
  In (o_initial_mode c) [SO101_MODE_IDLE; SO101_MODE_TELEOP; SO101_MODE_HOLD] /\
  in_s 32 (o_max_step c) /\ in_s 32 (o_ramp_step c) /\ in_s 32 (o_temp_limit c) /\
  in_s 32 (o_bus_timeout_ms c) /\ in_s 32 (o_prio c) /\ in_s 32 (o_cpu c) /\
  (o_ipc_mode c = MODE_ALL \/ o_ipc_mode c = MODE_GROUP).

Lemma parse_mode_in s m : parse_mode s = Some m -> In m [SO101_MODE_IDLE; SO101_MODE_TELEOP; SO101_MODE_HOLD].
Proof.
  unfold parse_mode. destruct (_ =? _)%string; [intros [= <-]; by left|].
  destruct (_ =? _)%string; [intros [= <-]; by right; left|].
  destruct (_ =? _)%string; [intros [= <-]; by right; right; left|done].
Qed.

Lemma atoi_int s : in_s 32 (atoi s).
Proof. apply wrap_s_range. lia. Qed.

Lemma apply_option_ok atof getgrnam c o c' :
  conf_ok c -> apply_option atof getgrnam c o = inr c' -> conf_ok c'.
Proof.
  destruct o as [ch arg], c as [lp fp lc fc freq rt prio cpu ms rs tl tmo ec im gid md].
  intros (H1 & H2 & H3 & H4 & H5 & H6 & H7 & H8). unfold apply_option.
  pose proof (atoi_int arg) as Ha.
  repeat match goal with |- context [if ?b then _ else _] => destruct b; [try (intros [= <-]; by split_and!)|] end;
    try done.
  - destruct (getgrnam arg); [|done]. intros [= <-]. split_and!; try done. by right.
  - destruct (parse_mode arg) as [m|] eqn:Em; [|done]. intros [= <-]. split_and!; try done.
    by eapply parse_mode_in.
Qed.

Lemma parse_options_ok atof getgrnam opts : forall c c',
  conf_ok c -> parse_options atof getgrnam c opts = inr c' -> conf_ok c'.
Proof.
  induction opts as [|o opts IH]; intros c c' Hc H; [by injection H as <-|]. cbn [parse_options] in H.
  destruct (apply_option _ _ c o) as [l|c1] eqn:E; [done|]. eapply IH; [|exact H].
  by eapply apply_option_ok.
Qed.

Lemma default_conf_ok : conf_ok default_conf.
Proof. unfold conf_ok. cbn -[in_s]. split_and!; try (by vm_compute); by left. Qed.

(** C40: what the options and their check guarantee the threads.  A configuration [main]
    goes on with requests IDLE, TELEOP or HOLD, has steps of at least one tick, names two
    calibration files, and has the access mode 0666 or 0660; with the two calibrations
    loaded, a positive period, steps that fit 16 bits and joint ranges of the servo it is a
    context the theorems on the control thread hold for.  (These last four are assumed:
    the check lets a rate through that is not a number or whose period is 0 and any step
    above 0, and [calib_load] any ascending range.) *)
Theorem options_accepted atof getgrnam opts c lcal fcal :
  parse_options atof getgrnam default_conf opts = inr c -> check_options c = Some (lcal, fcal) ->
  o_leader_calib c = Some lcal /\ o_follower_calib c = Some fcal /\
  d_leb (o_freq c) (d_of_Z 0) = false /\ 0 < o_max_step c /\ 0 < o_ramp_step c /\ conf_ok c /\
  forall p cal_l cal_f,
    period_of (o_freq c) = Some p -> 0 < p -> o_max_step c <= 32767 -> o_ramp_step c <= 32767 ->
    arm_loaded cal_l -> arm_loaded cal_f -> Forall servo_joint cal_l -> Forall servo_joint cal_f ->
    ctx_ok (ctx_of c p cal_l cal_f).
Proof.
  intros Hp Hck. pose proof (parse_options_ok _ _ _ _ _ default_conf_ok Hp) as Hok.
  unfold check_options in Hck.
  destruct (o_leader_calib c) as [l|]; [|done]. destruct (o_follower_calib c) as [f|]; [|done].
  destruct (d_leb (o_freq c) (d_of_Z 0)) eqn:Ef; [done|].
  destruct (Z.leb_spec (o_max_step c) 0); [done|]. destruct (Z.leb_spec (o_ramp_step c) 0); [done|].
  injection Hck as -> ->. split_and!; try done.
  intros p cal_l cal_f _ Hp0 Hms Hrs [Hl _] [Hf _] Hsl Hsf. unfold ctx_ok. cbn. by split_and!.
Qed.

(** A rate that is not a number passes the check, and one above 10^9 has period 0. *)
Definition conf_with_rate (freq : double) : conf :=
  mk_conf "l" "f" (Some "a") (Some "b") freq false 80 (-1) 50 6 60 4 false 0 NO_GID MODE_ALL.
Example nan_rate : check_options (conf_with_rate SpecFloat.S754_nan) = Some ("a", "b") /\
  period_of SpecFloat.S754_nan = None.
Proof. done. Qed.
Example fast_rate : check_options (conf_with_rate (d_of_Z 2000000000)) = Some ("a", "b") /\
  period_of (d_of_Z 2000000000) = Some 0.
Proof. by vm_compute. Qed.
(** A rate of 0.2 Hz has a period the header's [uint32_t] cannot hold. *)
Example slow_rate : check_options (conf_with_rate (d_div (d_of_Z 1) (d_of_Z 5))) = Some ("a", "b") /\
  period_ns_of (d_div (d_of_Z 1) (d_of_Z 5)) = None.
Proof. by vm_compute. Qed.

(** ** The watchdog *)

(** How far a notification has come: none is due, or what comes next is to look the
    socket's name up, to open a socket, to send to the name over it, to close it. *)
Inductive ping := NoPing | PingName | PingSocket (path : string) | PingSend (fd : Z) (path : string) | PingClose (fd : Z).

(** What has been seen: the cycle and the beat at the last check, the last snapshot,
    and the notification under way. *)
Record seen := mk_seen { n_cur : Z * Z; n_snap : so101_sample; n_ping : ping }.

(** An absolute path or an abstract name, that fits [sun_path]. *)
Definition usable (path : string) : bool :=
  existsb (Z.eqb (at_ (str path) 0)) (str "/@") && (length (str path) <? 108)%nat.

(** A check -- a snapshot and then the beat -- at which both counters have moved since
    the check before makes a notification due; nothing else does.  It then goes its
    whole way before the next wait: the name is looked up, and if it is usable and a
    socket can be had, exactly one datagram with the message about that snapshot is sent
    to it and the socket closed.  Nothing is sent at other times. *)
Definition honest (n : seen) (o : obs main_ev) : option seen :=
  let '(mk_seen cur snap st) := n in
  match o with
  | Obs e r =>
      match e in main_ev R return R -> option seen with
      | SigTimedWait _ => fun _ => match st with NoPing => Some n | _ => None end
      | MainRead _ => fun s => match st with NoPing => Some (mk_seen cur (default snap s) NoPing) | _ => None end
      | LoadBeat => fun beat =>
          let moved := negb (s_cycle snap =? cur.1) && negb (beat =? cur.2) in
          match st with
          | NoPing => Some (mk_seen (s_cycle snap, beat) snap (if moved then PingName else NoPing))
          | _ => None
          end
      | Getenv name => fun env =>
          match st with
          | PingName =>
              if (name =? "NOTIFY_SOCKET")%string then
                Some (mk_seen cur snap
                  (match env with Some p => if usable p then PingSocket p else NoPing | None => NoPing end))
              else None
          | _ => None
          end
      | Socket => fun fd =>
          match st with
          | PingSocket p => Some (mk_seen cur snap (if fd <? 0 then NoPing else PingSend fd p))
          | _ => None
          end
      | SendTo fd' path' msg => fun _ =>
          match st with
          | PingSend fd p =>
              if bool_decide (fd' = fd /\ path' = sun_path (str p) /\
                              msg = take 255 (msg_bytes (MsgWatchdog snap)))
              then Some (mk_seen cur snap (PingClose fd)) else None
          | _ => None
          end
      | CloseSocket fd' => fun _ =>
          match st with
          | PingClose fd => if fd' =? fd then Some (mk_seen cur snap NoPing) else None
          | _ => None
          end
      | _ => fun _ => Some n
      end r
  end.

(** Between two checks. *)
Definition between_checks (lc lb : Z) (n : seen) : Prop := n_cur n = (lc, lb) /\ n_ping n = NoPing.

Lemma usable_path path :
  usable path = ((at_ (str path) 0 =? 47) || (at_ (str path) 0 =? 64)) && negb (SUN_PATH <=? length (str path))%nat.
Proof.
  unfold usable, SUN_PATH. rewrite Nat.leb_antisym, negb_involutive. f_equal.
  change (str "/@") with [47; 64]. cbn [existsb]. by rewrite orb_false_r.
Qed.

Lemma notify_honest cur snap :
  obeys honest (sd_notifyf (MsgWatchdog snap)) (mk_seen cur snap PingName)
    (fun _ n => between_checks cur.1 cur.2 n).
Proof.
  unfold sd_notifyf. apply obeys_do. intros env. eexists. split; [reflexivity|].
  assert (Hq : between_checks cur.1 cur.2 (mk_seen cur snap NoPing)) by (by destruct cur).
  destruct env as [path|]; [|exact Hq]. rewrite usable_path. cbv zeta.
  destruct (_ || _); cbn [negb andb]; [|exact Hq].
  destruct (_ <=? _)%nat; cbn [negb]; [exact Hq|]. apply obeys_do. intros fd. eexists. split; [reflexivity|].
  destruct (fd <? 0); [exact Hq|]. apply obeys_do. intros []. eexists. split.
  { unfold honest. rewrite bool_decide_eq_true_2 by done. reflexivity. }
  intros []. eexists. split; [unfold honest; rewrite Z.eqb_refl; reflexivity|exact Hq].
Qed.

Lemma watchdog_honest_loop fuel chk : forall lc lb h n,
  between_checks lc lb n -> obeys honest (watchdog_loop fuel chk lc lb h) n (fun _ _ => True).
Proof.
  induction fuel as [|fuel IH]; intros lc lb h [cur snap st] [Hc Hd]; [done|].
  cbn in Hc, Hd. subst cur st. cbn [watchdog_loop].
  apply obeys_do. intros sig. eexists. split; [reflexivity|].
  destruct (_ || _); [intros []; by eexists|].
  apply obeys_do. intros [s|]; [|eexists; (split; [reflexivity|]); by apply IH].
  exists (mk_seen (lc, lb) s NoPing). split; [reflexivity|].
  apply obeys_do. intros beat. cbv zeta. set (alive := negb (s_cycle s =? lc) && negb (beat =? lb)).
  exists (mk_seen (s_cycle s, beat) s (if alive then PingName else NoPing)). split; [reflexivity|].
  apply (obeys_seq _ _ _ _ (fun _ n => between_checks (s_cycle s) beat n)); [|by intros _ n; apply IH].
  destruct alive eqn:Ea.
  - eapply obeys_seq; [by apply (notify_honest (s_cycle s, beat) s)|].
    intros a n Hn. cbn beta in Hn. clear a. destruct (negb h); [|done]. intros []. exists n. split; [|exact Hn].
    clear Hn. by destruct n.
  - destruct h; [|done]. intros []. by eexists.
Qed.

(** The notifications of an execution, and the checks. *)
Definition sent_of (o : obs main_ev) : bool :=
  match o with Obs e _ => match e with SendTo _ _ _ => true | _ => false end end.
Definition pings (tr : list (obs main_ev)) : list (obs main_ev) := List.filter sent_of tr.
Definition cycle_of (o : obs main_ev) : option Z :=
  match o with
  | Obs e r => match e in main_ev R return R -> option Z with MainRead _ => fun s => s_cycle <$> s | _ => fun _ => None end r
  end.
Definition beat_of (o : obs main_ev) : option Z :=
  match o with
  | Obs e r => match e in main_ev R return R -> option Z with LoadBeat => fun b => Some b | _ => fun _ => None end r
  end.

(** A counter that stands still. *)
Definition still (f : obs main_ev -> option Z) (v : Z) (o : obs main_ev) : Prop := forall x, f o = Some x -> x = v.
Definition stuck (f : obs main_ev -> option Z) (tr : list (obs main_ev)) : Prop := exists v, Forall (still f v) tr.

(** How many notifications may still follow, one of the two counters being at [v] from
    now on: the one under way, and one if the counter was not at [v] before. *)
Definition sends_now (n : seen) : nat :=
  match n_ping n with PingName | PingSocket _ | PingSend _ _ => 1%nat | _ => 0%nat end.
Definition sends_later (proj : Z * Z -> Z) (v : Z) (n : seen) : nat :=
  if proj (n_cur n) =? v then 0%nat else 1%nat.

Section Stuck.
Context (proj : Z * Z -> Z) (v : Z) (quiet : obs main_ev -> Prop) (J : seen -> Prop).
Context (Hproj : proj = fst \/ proj = snd).
Context (J_step : forall n o n', J n -> quiet o -> honest n o = Some n' -> J n').
Context (J_check : forall n b, J n -> quiet (Obs LoadBeat b) -> proj (s_cycle (n_snap n), b) = v).

(** One event spends at most what it takes from the bound. *)
Lemma honest_spends n o n' :
  J n -> quiet o -> honest n o = Some n' ->
  ((if sent_of o then 1 else 0) + (sends_now n' + sends_later proj v n') <=
   sends_now n + sends_later proj v n)%nat.
Proof.
  intros HJ Hs H. destruct n as [cur snap st], o as [R e r].
  destruct e; cbn in H; try (injection H as <-; cbn; lia).
  - destruct st; try done. destruct (name =? _)%string; [|done].
    injection H as <-. unfold sends_now, sends_later. cbn.
    destruct r as [p|]; [destruct (usable p)|]; cbn; lia.
  - destruct st; try done. injection H as <-. done.
  - destruct st; try done. injection H as <-. done.
  - destruct st; try done. injection H as <-.
    pose proof (J_check _ _ HJ Hs) as E. cbn [n_snap] in E.
    unfold sends_now, sends_later. cbn [n_cur n_ping sent_of]. rewrite E, Z.eqb_refl.
    destruct (Z.eqb_spec (proj cur) v) as [Ev|_]; [|repeat case_match; lia].
    destruct Hproj as [-> | ->]; cbn in E, Ev; rewrite E, Ev, Z.eqb_refl; cbn [negb]; rewrite ?andb_false_r; cbn; lia.
  - destruct st; try done. injection H as <-. unfold sends_now, sends_later. cbn. destruct (r <? 0); cbn; lia.
  - destruct st; try done. case_bool_decide; [|done]. injection H as <-. unfold sends_now, sends_later. cbn. lia.
  - destruct st; try done. destruct (_ =? _); [|done]. injection H as <-. unfold sends_now, sends_later. cbn. lia.
Qed.

Lemma stuck_pings tr : forall n n',
  J n -> Forall quiet tr -> watch_run honest n tr = Some n' ->
  (length (pings tr) <= sends_now n + sends_later proj v n)%nat.
Proof.
  induction tr as [|o tr IH]; intros n n' HJ Hs H; [cbn; lia|]. inversion_clear Hs as [|? ? Ho Hs'].
  unfold watch_run in H. cbn [fold_left mbind option_bind] in H.
  destruct (honest n o) as [n1|] eqn:E1; [|by clear -H; exfalso; induction tr; [done|auto]].
  pose proof (honest_spends n o n1 HJ Ho E1) as Hsp.
  specialize (IH n1 n' (J_step _ _ _ HJ Ho E1) Hs' H). unfold pings in *. cbn [List.filter].
  destruct (sent_of o); cbn [length]; lia.
Qed.
End Stuck.

Definition snapshot_of_cycle (v : Z) : so101_sample :=
  mk_sample v 0 0 0 0 0 0 0 false false false [] [] [] [] [] [] [] [] [] 0 0 0 0 0 0 0 0 0.

(** C9: systemd hears that the daemon is alive exactly when both threads are.  In every
    execution of the main loop, at every moment: a check at which both the snapshot's
    cycle and the supervisor's beat have moved since the check before is followed,
    before the next wait, by one datagram with WATCHDOG=1 and that snapshot's status,
    sent to the address in NOTIFY_SOCKET over a fresh socket that is closed again --
    unless there is no such address or no socket to be had -- and no message is sent
    otherwise; so once either counter stands still, at most one more message follows,
    whatever the other one does. *)
Theorem watchdog_honest fuel chk lc lb h tr p :
  evolves (watchdog_loop fuel chk lc lb h) tr p ->
  is_Some (watch_run honest (mk_seen (lc, lb) sample_zero NoPing) tr) /\
  (stuck cycle_of tr \/ stuck beat_of tr -> (length (pings tr) <= 1)%nat).
Proof.
  intros He.
  assert (Hrun : forall s, exists n, watch_run honest (mk_seen (lc, lb) s NoPing) tr = Some n).
  { intros s. assert (Hb : between_checks lc lb (mk_seen (lc, lb) s NoPing)) by done.
    destruct (obeys_evolves honest _ (mk_seen (lc, lb) s NoPing) (fun _ _ => True) _ _
      (watchdog_honest_loop fuel chk lc lb h _ Hb) He) as (n & Hn & _). by exists n. }
  split; [destruct (Hrun sample_zero) as [n Hn]; by exists n|].
  assert (Hnow : forall proj (v : Z) s,
    (sends_now (mk_seen (lc, lb) s NoPing) + sends_later proj v (mk_seen (lc, lb) s NoPing) <= 1)%nat).
  { intros proj v s. unfold sends_now, sends_later. cbn [n_cur n_ping]. destruct (_ =? v); lia. }
  intros [[v Hv]|[v Hv]].
  - destruct (Hrun (snapshot_of_cycle v)) as [n Hn].
    etransitivity; [|apply (Hnow fst v (snapshot_of_cycle v))].
    eapply (stuck_pings fst v (still cycle_of v) (fun n => s_cycle (n_snap n) = v)); [by left| | |done|exact Hv|exact Hn].
    + intros [cur snap st] [R e r] n' HJ Ho H. cbn in HJ.
      destruct e; cbn in H; try (by injection H as <-); destruct st; try done;
        try (case_bool_decide; [|done]); try (destruct (_ =? _); [|done]); try (by injection H as <-).
      * destruct (_ =? _)%string; [|done]. by injection H as <-.
      * injection H as <-. cbn. destruct r as [s|]; [|done]. by apply Ho.
    + by intros n0 b H _.
  - destruct (Hrun sample_zero) as [n Hn].
    etransitivity; [|apply (Hnow snd v sample_zero)].
    eapply (stuck_pings snd v (still beat_of v) (fun _ => True)); [by right|done| |done|exact Hv|exact Hn].
    intros n0 b _ H. by apply H.
Qed.

(** ** An execution *)

Section Play.
(** Every call succeeds; the checks to come, then SIGTERM. *)
Definition play_main (R : Type) (e : main_ev R) : M (list (Z * Z)) R := fun l =>
  match e in main_ev R return option (R * list (Z * Z)) with
  | ReadFile _ => Some (Some (print_arm (json_indent 4) follower_arm), l)
  | OpenBus _ _ => Some (0, l)
  | SetBus _ _ _ | CloseBus _ => Some (tt, l)
  | OpenShm _ | FlockShm | ChownShm _ | TruncateShm _ | MapShm => Some (true, l)
  | ChmodShm _ | CloseShm | UnmapShm | UnlinkShm | ZeroShm | StoreHeader _ | MStoreModeReq _ | StoreMagic _ => Some (tt, l)
  | MainPid => Some (4242, l)
  | SemUnlink _ | SemClose _ => Some (tt, l)
  | Umask _ => Some (18, l)
  | SemOpen _ _ _ => Some (true, l)
  | ErrnoExists => Some (false, l)
  | ChownSem _ _ => Some (true, l)
  | BlockSignals => Some (tt, l)
  | LockMemory => Some (true, l)
  | StoreRun _ => Some (tt, l)
  | CreateThread _ _ _ => Some (0, l)
  | JoinThread _ => Some (tt, l)
  | Getenv name => Some (if (name =? "NOTIFY_SOCKET")%string then Some "/run/systemd/notify"%string else None, l)
  | SigTimedWait _ => match l with [] => Some (SIGTERM, l) | _ => Some (-1, l) end
  | MainRead _ => match l with [] => Some (Some sample_zero, l) | (c, _) :: _ => Some (Some (snapshot_of_cycle c), l) end
  | LoadBeat => match l with [] => Some (0, l) | (_, b) :: l => Some (b, l) end
  | Socket => Some (7, l)
  | SendTo _ _ _ | CloseSocket _ => Some (tt, l)
  | Say _ => Some (tt, l)
  end.

Definition trace_of {A} (p : prog main_ev A) (l : list (Z * Z)) : list (obs main_ev) :=
  match interp_log play_main p l with Some (tr, _, _) => tr | None => [] end.
End Play.

(** Two healthy checks, then a supervisor whose beat stands still. *)
Definition demo_checks : list (Z * Z) := [(100, 50); (200, 100); (300, 100); (400, 100)].
Definition demo_watch : prog main_ev unit := watchdog_loop 9 (check_interval 2000000) 0 0 true.

Lemma watchdog_honest_witness :
  length (pings (trace_of demo_watch demo_checks)) = 2%nat /\
  is_Some (watch_run honest (mk_seen (0, 0) sample_zero NoPing) (trace_of demo_watch demo_checks)) /\
  (stuck cycle_of (trace_of demo_watch demo_checks) \/ stuck beat_of (trace_of demo_watch demo_checks) ->
   (length (pings (trace_of demo_watch demo_checks)) <= 1)%nat).
Proof.
  split; [vm_compute; reflexivity|].
  destruct (interp_log play_main demo_watch demo_checks) as [[[tr a] l]|] eqn:E.
  - assert (Et : trace_of demo_watch demo_checks = tr) by (unfold trace_of; by rewrite E). rewrite Et.
    apply (watchdog_honest 9 (check_interval 2000000) 0 0 true tr (Ret a)).
    apply run_evolves. eapply interp_log_run. exact E.
  - exfalso. assert (N : (if interp_log play_main demo_watch demo_checks is Some _ then true else false) = true)
      by (vm_compute; reflexivity). rewrite E in N. discriminate N.
Defined.

(** The options of the service file, and a whole life of the daemon. *)
Definition hundred (_ : string) : double := d_of_Z 100.
Definition demo_group (_ : string) : option Z := Some 998.
Definition demo_opts : list (ascii * string) :=
  [("L"%char, "leader.json"%string); ("F"%char, "follower.json"%string); ("r"%char, EmptyString);
   ("g"%char, "so101"%string); ("s"%char, "30"%string); ("m"%char, "teleop"%string)].
Definition demo_main : prog main_ev Z := main hundred demo_group 9 demo_opts.


(** When the second [sem_open] fails, [main] gives up with status 1 and leaves the
    first semaphore's name. *)
Definition play_one_sem (R : Type) (e : main_ev R) : M (list (Z * Z)) R := fun l =>
  match e in main_ev R return option (R * list (Z * Z)) -> option (R * list (Z * Z)) with
  | SemOpen SemReady _ _ => fun _ => Some (false, l)
  | _ => fun r => r
  end (play_main R e l).
Example sem_open_leaks :
  match interp_log play_one_sem demo_main [] with
  | Some (tr, rc, _) => rc = 1 /\ w_names <$> watch_run order (nothing no_names) tr = Some (mk_names false true false)
  | None => False
  end.
Proof. vm_compute. split; reflexivity. Qed.

Definition demo_conf : conf :=
  mk_conf "/dev/so101_leader" "/dev/so101_follower" (Some "leader.json"%string) (Some "follower.json"%string)
    (d_of_Z 100) true 80 (-1) 30 6 60 4 false SO101_MODE_TELEOP 998 MODE_GROUP.

Lemma follower_arm_loaded : arm_loaded follower_arm.
Proof. apply (calib_loaded (Some (print_arm (json_indent 4) follower_arm))). vm_compute. reflexivity. Qed.

Lemma options_accepted_witness :
  In (o_initial_mode demo_conf) [SO101_MODE_IDLE; SO101_MODE_TELEOP; SO101_MODE_HOLD] /\
  ctx_ok (ctx_of demo_conf 10000000 follower_arm follower_arm).
Proof.
  destruct (options_accepted hundred demo_group demo_opts demo_conf "leader.json" "follower.json")
    as (_ & _ & _ & _ & _ & Hok & H).
  - vm_compute. reflexivity.
  - vm_compute. reflexivity.
  - split; [apply Hok|].
    assert (Hs : Forall servo_joint follower_arm) by apply demo_ctx_ok.
    apply H; [vm_compute; reflexivity|lia|cbn; lia|cbn; lia|exact follower_arm_loaded|exact follower_arm_loaded|exact Hs|exact Hs].
Defined.

Lemma startup_sets_up_witness :
  main_holds (main_setup demo_conf "leader.json" "follower.json")
    (mk_mem zero_header teleop_segment) (fun r m' =>
    match r with
    | inl rc => rc = 1
    | inr (cal_l, cal_f) => set_up_for demo_conf cal_l cal_f m' /\ set_up (mm_shared m')
    end).
Proof.
  apply (startup_sets_up demo_conf "leader.json" "follower.json" 10000000).
  - vm_compute. reflexivity.
  - right. left. reflexivity.
Defined.
