(* ===== verification/Tool.v ===== *)
(** * The bus diagnostics (driver/tools/fts_tool.c)

    [main] and its four commands on the bus of [Bus].  A command returns its exit status
    and the lines it prints, by their arguments. *)

From Stdlib Require Import Ascii SpecFloat.
From stdpp Require Import strings.
From S2P Require Import Prelude Os Protocol Bus Sim BusProps BusFrames Calib Libc Double.

Definition MAX_IDS : Z := 16.

Definition fts_strerror (code : Z) : string :=
  if code =? FTS_OK then "ok"
  else if code =? FTS_ERR_IO then "I/O error"
  else if code =? FTS_ERR_TIMEOUT then "timeout (no response)"
  else if code =? FTS_ERR_CHECKSUM then "checksum error"
  else if code =? FTS_ERR_BAD_PKT then "malformed packet"
  else if code =? FTS_ERR_ARG then "invalid argument"
  else if code =? FTS_ERR_ID then "response from unexpected ID"
  else "unknown error".

Inductive tool_line :=
| RawError (why : string) | TxDump (bs : list Z) | RxDump (bs : list Z) | AdapterEchoes | NoEcho | NoBytes
| ScanRow (id model status : Z) (rtt : double) | ServosFound (n : Z)
| ReadFailed (why : string) | StateHeader | StateRow (id pos vel load volt temp : Z)
| AllFailed (iters : Z) | BenchHead (iters fail : Z) | BenchStats (min mean p50 p99 max : double)
| BenchRate (hz : double) | BusStats (s : fts_stats)
| OpenFailed (port why : string) | ToolUsage.

(** [cmp_double]: the sign of the difference. *)
Definition cmp_double (x y : double) : Z := Z.b2z (d_ltb y x) - Z.b2z (d_ltb x y).

(** [qsort] with it. *)
Fixpoint insert_double (x : double) (l : list double) : list double :=
  match l with
  | [] => [x]
  | y :: l => if cmp_double x y <=? 0 then x :: y :: l else y :: insert_double x l
  end.
Definition qsort_double (l : list double) : list double := fold_right insert_double [] l.

(** [0.99] *)
Definition d_099 : double := S754_finite false 8917127262193582 (-53).

Section Tool.
Context {W : Type} {os : OS W}.
#[local] Abbreviation T A := (M (fts_bus * W) (A * list tool_line)).

Definition now_us : M (fts_bus * W) double :=
  ts ← sys os_clock;
  mret (d_add (d_mul (d_of_Z (tv_sec ts)) (d_of_Z 1000000)) (d_div (d_of_Z (tv_nsec ts)) (d_of_Z 1000))).

Definition cmd_raw (fuel : nat) (id : Z) : T Z :=
  '(n, tx, rx) ← fts_raw_ping fuel (u8 id) 256 50;
  if n <? 0 then mret (1, [RawError (fts_strerror n)])
  else
    mret (0, [TxDump tx; RxDump rx;
              if (Z.of_nat (length tx) <=? n) && bool_decide (take (length tx) rx = tx) then AdapterEchoes
              else if 0 <? n then NoEcho else NoBytes]).

(** The IDs from [id] on, [n] of them. *)
Fixpoint scan_loop (fuel n : nat) (id found : Z) : T Z :=
  match n with
  | O => mret (found, [])
  | S n =>
      t0 ← now_us;
      rc ← fts_ping fuel (u8 id);
      t1 ← now_us;
      if rc =? FTS_OK then
        '(_, mdl) ← fts_read fuel (u8 id) 3 (Some [0; 0]) 2;
        bus ← get_bus;
        let mdl := default [] mdl in
        let row := ScanRow id (Z.lor (at_ mdl 0) (Z.shiftl (at_ mdl 1) 8)) (last_servo_error bus) (d_sub t1 t0) in
        '(found, rows) ← scan_loop fuel n (id + 1) (found + 1);
        mret (found, row :: rows)
      else scan_loop fuel n (id + 1) found
  end.

Definition cmd_scan (fuel : nat) (max_id : Z) : T Z :=
  '(found, rows) ← scan_loop fuel (Z.to_nat max_id) 1 0;
  mret (if found =? 0 then 1 else 0, rows ++ [ServosFound found]).

(** The row of the [i]th servo; [d] are its eight bytes. *)
Definition state_row (id : Z) (d : list Z) : tool_line :=
  let word i := u16 (Z.lor (at_ d i) (Z.shiftl (at_ d (i + 1)) 8)) in
  StateRow id (fts_decode_sm (word 0%nat) 15) (fts_decode_sm (word 2%nat) 15) (fts_decode_sm (word 4%nat) 10)
    (at_ d 6) (at_ d 7).
Fixpoint state_rows (ids : list Z) (buf : list Z) : list tool_line :=
  match ids with
  | [] => []
  | id :: ids => state_row id buf :: state_rows ids (drop 8 buf)
  end.

Definition cmd_state (fuel : nat) (n : Z) : T Z :=
  let ids := map (fun i => u8 (Z.of_nat i + 1)) (List.seq 0 (Z.to_nat n)) in
  '(rc, buf) ← fts_sync_read fuel ids STS_PRESENT_POSITION 8 (Some (replicate (Z.to_nat MAX_IDS * 8) 0));
  if negb (rc =? 0) then mret (1, [ReadFailed (fts_strerror rc)])
  else mret (0, StateHeader :: state_rows ids (default [] buf)).

(** The latencies of the reads that succeed, in order, and how many fail. *)
Fixpoint bench_loop (fuel iters : nat) : M (fts_bus * W) (list double * Z) :=
  match iters with
  | O => mret ([], 0)
  | S iters =>
      t0 ← now_us;
      '(rc, _) ← fts_sync_read fuel [1; 2; 3; 4; 5; 6] STS_PRESENT_POSITION 2 (Some (replicate 12 0));
      t1 ← now_us;
      '(lat, fail) ← bench_loop fuel iters;
      if rc =? FTS_OK then mret (d_sub t1 t0 :: lat, fail) else mret (lat, fail + 1)
  end.

(** An element of the array; out of its bounds, nothing. *)
Definition bench_line (lat : list double) : option tool_line :=
  let ok := Z.of_nat (length lat) in
  let mean := d_div (fold_left d_add lat (d_of_Z 0)) (d_of_Z ok) in
  i99 ← d_to_s 32 (d_mul (d_of_Z ok) d_099);
  first ← lat !! 0%nat;
  p50 ← lat !! Z.to_nat (ok / 2);
  p99 ← (if 0 <=? i99 then lat !! Z.to_nat i99 else None);
  last ← lat !! Z.to_nat (ok - 1);
  Some (BenchStats first mean p50 p99 last).

(** [alloc]: the call of [malloc] succeeds. *)
Definition cmd_bench (fuel : nat) (alloc : bool) (iters : Z) : M (fts_bus * W) (Z * list tool_line) :=
  if negb alloc then mret (1, [])
  else
    '(lat, fail) ← bench_loop fuel (Z.to_nat iters);
    match lat with
    | [] => mret (1, [AllFailed iters])
    | _ =>
        let lat := qsort_double lat in
        bus ← get_bus;
        match bench_line lat with
        | None => out_of_fuel
        | Some line =>
            let mean := d_div (fold_left d_add lat (d_of_Z 0)) (d_of_Z (Z.of_nat (length lat))) in
            mret (0, [BenchHead iters fail; line; BenchRate (d_div (d_of_Z 1000000) mean); BusStats (stats bus)])
        end
    end.

Definition tool_command (fuel : nat) (alloc : bool) (cmd : string) (arg : Z) : T Z :=
  if (cmd =? "raw")%string then cmd_raw fuel (if 0 <? arg then arg else 1)
  else if (cmd =? "scan")%string then cmd_scan fuel (if 0 <? arg then arg else 10)
  else if (cmd =? "state")%string then cmd_state fuel (if (0 <? arg) && (arg <=? MAX_IDS) then arg else 6)
  else if (cmd =? "bench")%string then cmd_bench fuel alloc (if 0 <? arg then arg else 1000)
  else mret (2, [ToolUsage]).

(** The options [getopt] returns: echo and time-out. *)
Fixpoint tool_options (opts : list (ascii * string)) (echo : bool) (timeout : Z) : option (bool * Z) :=
  match opts with
  | [] => Some (echo, timeout)
  | (ch, optarg) :: opts =>
      if (ch =? "e")%char then tool_options opts true timeout
      else if (ch =? "t")%char then tool_options opts echo (atoi optarg)
      else None
  end.

(** [main]: the options, then the arguments that are not options. *)
Definition tool_main (fuel : nat) (alloc : bool) (opts : list (ascii * string)) (args : list string) : T Z :=
  match tool_options opts false 10, args with
  | Some (echo, timeout), port :: cmd :: rest =>
      let arg := match rest with a :: _ => atoi a | [] => -1 end in
      rc ← fts_open port 1000000;
      if negb (rc =? 0) then mret (1, [OpenFailed port (fts_strerror rc)])
      else
        upd_bus (set_echo echo);;
        upd_bus (set_timeout timeout);;
        r ← tool_command fuel alloc cmd arg;
        fts_close;;
        mret r
  | _, _ => mret (2, [ToolUsage])
  end.
End Tool.

Example d_099_value : d_to_s 64 (d_mul d_099 (d_of_Z 1000000)) = Some 990000.
Proof. reflexivity. Qed.
