(* ===== verification/ToolThms.v ===== *)
(** * What the bus diagnostics do to the servos

    [fts_tool] only reads: whatever it puts on the line is PING, READ and SYNC_READ
    packets.  And what its [state] command shows are the servos' own answers. *)

From stdpp Require Import strings.
From S2P Require Import Prelude Os Protocol Bus Sim BusProps BusFrames Calib Libc Double Tool.

(** ** What a computation writes *)

(** Packets of a kind, one after the other, each perhaps cut short by a write error. *)
Inductive sent (ok : list Z -> Prop) : list Z -> Prop :=
| sent_nothing : sent ok []
| sent_packet out pkt n : sent ok out -> ok pkt -> sent ok (out ++ take n pkt).

Lemma sent_one ok pkt n : ok pkt -> sent ok (take n pkt).
Proof. intros H. exact (sent_packet ok [] pkt n (sent_nothing ok) H). Qed.

Lemma sent_app ok o1 o2 : sent ok o1 -> sent ok o2 -> sent ok (o1 ++ o2).
Proof.
  intros H1 H2. induction H2 as [|out pkt n _ IH H]; [by rewrite app_nil_r|].
  rewrite app_assoc. by constructor.
Qed.

Section Wires.
Context {W : Type} {os : OS W} {laws : OSLaws W} {stream : OSStream W} (ok : list Z -> Prop).

(** It keeps the bus in order, and writes only such packets. *)
Definition wires {A} (m : M (fts_bus * W) A) : Prop :=
  forall s r s', bus_ok s.1 -> m s = Some (r, s') ->
    bus_ok s'.1 /\ same_settings s.1 s'.1 /\
    exists out, os_output s'.2 (fd s.1) = os_output s.2 (fd s.1) ++ out /\ sent ok out.

Lemma wires_bind {A B} (m : M (fts_bus * W) A) (f : A -> M (fts_bus * W) B) :
  wires m -> (forall a, wires (f a)) -> wires (m ≫= f).
Proof.
  intros Hm Hf s r s' Hs (a & s1 & H1 & H2)%M_bind_some.
  destruct (Hm _ _ _ Hs H1) as (Hb1 & Hs1 & o1 & E1 & S1).
  destruct (Hf _ _ _ _ Hb1 H2) as (Hb2 & Hs2 & o2 & E2 & S2).
  split; [done|]. split; [by eapply same_settings_trans|].
  exists (o1 ++ o2). rewrite (proj1 Hs1) in E2. rewrite E2, E1, app_assoc. split; [done|by apply sent_app].
Qed.

(** It writes nothing. *)
Lemma wires_quiet {A} (m : M (fts_bus * W) A) :
  (forall s r s', bus_ok s.1 -> m s = Some (r, s') -> bus_ok s'.1 /\ same_settings s.1 s'.1) ->
  (forall fd, kept (fun w => os_output w fd) m) -> wires m.
Proof.
  intros Hb Hk s r s' Hs E. destruct (Hb _ _ _ Hs E) as [H1 H2]. split; [done|]. split; [done|].
  exists []. rewrite app_nil_r. split; [by apply (Hk (fd s.1) _ _ _ E)|constructor].
Qed.

Lemma wires_ret {A} (a : A) : wires (mret a).
Proof. apply wires_quiet; [by intros s r s' Hs [= <- <-]|]. intros fd. apply kept_ret. Qed.

Lemma wires_fuel {A} : wires (@out_of_fuel (fts_bus * W) A).
Proof. done. Qed.

Lemma wires_get : wires (get_bus (W := W)).
Proof. apply wires_quiet; [by intros s r s' Hs [= <- <-]|]. intros fd. apply kept_get. Qed.

Lemma wires_now_us : wires now_us.
Proof.
  apply wires_quiet.
  - intros [b w] r s' Hs E. unfold now_us in E. mrun_in E. by injection E as <- <-.
  - intros fd. unfold now_us. apply kept_bind; [apply kept_sys; auto with kept|]. intros ts. apply kept_ret.
Qed.

Lemma wires_rx fuel id cap : wires (rx_status fuel id cap).
Proof.
  apply wires_quiet; [intros s r s' Hs E; by apply (rx_status_ok _ _ _ _ _ _ E)|].
  intros fd. apply kept_rx; auto with kept.
Qed.

Lemma write_all_prefix fuel f buf b w rc s' :
  write_all fuel f buf (b, w) = Some (rc, s') ->
  exists n, os_output s'.2 f = os_output w f ++ take n buf.
Proof.
  revert buf w. induction fuel as [|fuel IH]; intros buf w E; [done|].
  cbn [write_all] in E. destruct buf as [|x buf].
  { injection E as <- <-. exists 0%nat. by rewrite app_nil_r. }
  set (l := x :: buf) in *. mrun_in E.
  pose proof (write_output f l w) as Ho. pose proof (write_output_fail f l w) as Hf.
  destruct (os_write f l w) as [r w1]. cbn [fst snd] in *. destruct r as [k| |].
  - destruct (IH _ _ E) as [n Hn]. exists (k + n)%nat.
    rewrite Hn, (Ho k eq_refl), <- app_assoc. by rewrite take_take_drop.
  - destruct (IH _ _ E) as [n Hn]. exists n. by rewrite Hn, Hf.
  - injection E as <- <-. exists 0%nat. rewrite app_nil_r. by apply Hf.
Qed.

Lemma tx_packet_sent fuel pkt s rc s' :
  tx_packet fuel pkt s = Some (rc, s') ->
  exists n, os_output s'.2 (fd s.1) = os_output s.2 (fd s.1) ++ take n pkt.
Proof.
  destruct s as [b w]. unfold tx_packet. intros E. mrun_in E.
  apply M_bind_some in E as (rc1 & [b1 w1] & E1 & E).
  destruct (write_all_prefix _ _ _ _ _ _ _ E1) as [n Hn]. rewrite flush_output in Hn. cbn [fst snd] in *.
  exists n. rewrite <- Hn. clear Hn E1.
  cut (kept (fun w => os_output w (fd b))
    (if negb (rc1 =? 0) then mret rc1
     else upd_bus (set_stats count_tx);;
          if echo b then now ← now_ms; rc ← swallow_echo fuel (length pkt) (now + timeout_ms b);
            if rc <? 0 then mret rc else upd_bus (drop_rx (length pkt));; mret FTS_OK
          else mret FTS_OK)); [intros Hk; exact (Hk _ _ _ E)|].
  destruct (negb _); [apply kept_ret|]. apply kept_bind; [apply kept_upd|intros _].
  destruct (echo b); [|apply kept_ret]. apply kept_bind; [apply kept_now; auto with kept|intros now].
  apply kept_bind; [apply kept_echo; auto with kept|intros rc2].
  destruct (rc2 <? 0); [apply kept_ret|]. apply kept_bind; [apply kept_upd|intros _; apply kept_ret].
Qed.

Lemma wires_tx fuel pkt : ok pkt -> wires (tx_packet fuel pkt).
Proof.
  intros Hok s r s' Hs E. destruct (tx_packet_exact _ _ _ _ _ E) as (H1 & H2 & _).
  destruct (tx_packet_sent _ _ _ _ _ E) as [n Hn]. split; [done|]. split; [done|].
  exists (take n pkt). split; [done|by apply sent_one].
Qed.

End Wires.

Create HintDb wire.
#[export] Hint Resolve wires_ret wires_fuel wires_get wires_now_us wires_rx wires_tx : wire.

(** Through the binds and the branches, down to the transactions. *)
Ltac wire :=
  repeat first
    [ progress eauto 3 with wire
    | apply wires_bind; [|intros ?]
    | match goal with |- wires _ (if ?b then _ else _) => destruct b end
    | match goal with |- wires _ (match ?x with _ => _ end) => destruct x end ].

Section Transactions.
Context {W : Type} {os : OS W} {laws : OSLaws W} {stream : OSStream W} (ok : list Z -> Prop).

Lemma raw_loop_bus fuel cap deadline got s r s' :
  raw_loop fuel cap deadline got s = Some (r, s') -> s'.1 = s.1.
Proof.
  revert got s. induction fuel as [|fuel IH]; intros got [b w] E; [done|]. cbn [raw_loop] in E.
  destruct (_ <? _)%nat; [|by injection E as <- <-].
  destruct (now_ms_run b w) as (now & w1 & Hnow & _). rewrite (bind_run _ _ _ _ _ Hnow) in E. cbn beta in E.
  cbv zeta in E. destruct (_ <=? 0); [by injection E as <- <-|]. mrun_in E.
  destruct (os_poll _ _ _) as [p w2]. cbn [fst snd] in E.
  destruct p; try (by injection E as <- <-). mrun_in E.
  destruct (os_read _ _ _) as [x w3]. cbn [fst snd] in E.
  destruct x as [[|y bs]| |]; try (by injection E as <- <-). by apply IH in E.
Qed.

Lemma wires_raw fuel id cap wait :
  (forall id, ok (fts_build_packet id FTS_INST_PING [])) -> wires ok (fts_raw_ping fuel id cap wait).
Proof.
  intros Hok s r s' Hs E. destruct s as [b w]. unfold fts_raw_ping in E. mrun_in E.
  set (pkt := fts_build_packet id FTS_INST_PING []) in *.
  apply M_bind_some in E as (rc1 & [b1 w1] & E1 & E).
  destruct (write_all_prefix _ _ _ _ _ _ _ E1) as [n Hn]. rewrite flush_output in Hn.
  destruct (write_all_exact _ _ _ _ _ _ _ E1) as (Hb1 & _). cbn [fst snd] in *. subst b1.
  assert (Hrest : s'.1 = b /\ os_output s'.2 (fd b) = os_output w1 (fd b)).
  { destruct (negb _); [by injection E as <- <-|].
    destruct (now_ms_run b w1) as (now & w2 & Hnow & (_ & _ & _ & _ & Ho) & _).
    rewrite (bind_run _ _ _ _ _ Hnow) in E. cbn beta in E.
    apply M_bind_some in E as (got & s2 & E2 & E). injection E as <- <-.
    split; [by apply raw_loop_bus in E2|]. cbn [fst snd] in *. rewrite <- Ho.
    assert (Hk : kept (fun w => os_output w (fd b)) (raw_loop fuel cap (now + wait) []))
      by (apply kept_raw_loop; auto with kept).
    exact (Hk _ _ _ E2). }
  destruct Hrest as [-> Ho]. split; [done|]. split; [done|].
  exists (take n pkt). rewrite Ho. split; [done|apply sent_one, Hok].
Qed.

Lemma wires_ping fuel id :
  (forall id, ok (fts_build_packet id FTS_INST_PING [])) -> wires ok (fts_ping fuel id).
Proof. intros H. unfold fts_ping. wire. Qed.

Lemma wires_read fuel id addr out len :
  (forall id l, ok (fts_build_packet id FTS_INST_READ l)) -> wires ok (fts_read fuel id addr out len).
Proof. intros H. unfold fts_read. wire. Qed.

Lemma wires_sync_loop fuel ids k len out fe : wires ok (sync_read_loop fuel ids k len out fe).
Proof. revert k out fe. induction ids as [|id ids IH]; intros k out fe; cbn [sync_read_loop]; wire. Qed.
#[local] Hint Resolve wires_sync_loop : wire.

Lemma wires_sync_read fuel ids addr len out :
  (forall l, ok (fts_build_packet FTS_BROADCAST_ID FTS_INST_SYNC_READ l)) ->
  wires ok (fts_sync_read fuel ids addr len out).
Proof. intros H. unfold fts_sync_read. wire. Qed.
End Transactions.

(** ** The commands *)

(** The packets that make a servo answer and do nothing else. *)
Definition read_only (pkt : list Z) : Prop :=
  exists id inst params, pkt = fts_build_packet id inst params /\
    In inst [FTS_INST_PING; FTS_INST_READ; FTS_INST_SYNC_READ].

Section Commands.
Context {W : Type} {os : OS W} {laws : OSLaws W} {stream : OSStream W}.

Lemma ping_read_only id : read_only (fts_build_packet id FTS_INST_PING []).
Proof. do 3 eexists. split; [done|]. by left. Qed.
Lemma read_read_only id l : read_only (fts_build_packet id FTS_INST_READ l).
Proof. do 3 eexists. split; [done|]. right. by left. Qed.
Lemma sync_read_only l : read_only (fts_build_packet FTS_BROADCAST_ID FTS_INST_SYNC_READ l).
Proof. do 3 eexists. split; [done|]. right. right. by left. Qed.

#[local] Hint Resolve wires_raw wires_ping wires_read wires_sync_read ping_read_only read_read_only
  sync_read_only : wire.

Lemma wires_scan fuel n id found : wires read_only (scan_loop fuel n id found).
Proof. revert id found. induction n as [|n IH]; intros id found; cbn [scan_loop]; wire. Qed.

Lemma wires_bench fuel n : wires read_only (bench_loop fuel n).
Proof. induction n as [|n IH]; cbn [bench_loop]; wire. Qed.
#[local] Hint Resolve wires_scan wires_bench : wire.

Lemma wires_command fuel alloc cmd arg : wires read_only (tool_command fuel alloc cmd arg).
Proof. unfold tool_command, cmd_raw, cmd_scan, cmd_state, cmd_bench. wire. Qed.

(** ** The commands return *)

Section Return.
Context (fuel : nat) (Hintr : forall w : W, (256 + os_intr w < fuel)%nat).

(** A bus without echo and with enough fuel for its time-out. *)
Definition ready (b : fts_bus) : Prop :=
  bus_ok b /\ echo b = false /\ (rx_fuel (timeout_ms b) <= fuel)%nat.

Definition ends {A} (m : M (fts_bus * W) A) : Prop :=
  forall s, ready s.1 -> exists r s', m s = Some (r, s') /\ ready s'.1.

Lemma ready_settings b b' : ready b -> bus_ok b' -> same_settings b b' -> ready b'.
Proof. intros (_ & He & Hf) Hb (_ & Ht & Hec). unfold ready. rewrite Ht, Hec. by split_and!. Qed.

Lemma ends_bind {A B} (m : M (fts_bus * W) A) (f : A -> M (fts_bus * W) B) :
  ends m -> (forall a, ends (f a)) -> ends (m ≫= f).
Proof.
  intros Hm Hf s Hs. destruct (Hm s Hs) as (r & s1 & E & H1). rewrite (bind_run _ _ _ _ _ E). by apply Hf.
Qed.

Lemma ends_ret {A} (a : A) : ends (mret a).
Proof. intros s Hs. by exists a, s. Qed.

Lemma ends_get : ends (get_bus (W := W)).
Proof. intros s Hs. by exists s.1, s. Qed.

Lemma ends_now_us : ends now_us.
Proof. intros [b w] Hs. unfold now_us. mrun. by do 2 eexists. Qed.

Lemma ends_rx id cap : ends (rx_status fuel id cap).
Proof.
  intros s Hs. destruct (rx_status_total fuel id cap s) as [[r s'] E]; [apply Hs..|].
  destruct (rx_status_ok _ _ _ _ _ _ E) as [Hb Hse]; [apply Hs|].
  exists r, s'. split; [done|by eapply ready_settings].
Qed.

Lemma ends_tx id inst params : ends (tx_packet fuel (fts_build_packet id inst params)).
Proof.
  intros s Hs. destruct (tx_packet_total fuel (fts_build_packet id inst params) s) as [[rc s'] E]; [apply Hs| |].
  { pose proof (length_build_packet id inst params). pose proof (Hintr (os_flush_in (fd s.1) s.2)). lia. }
  destruct (tx_packet_exact _ _ _ _ _ E) as (Hse & Hb & _).
  exists rc, s'. split; [done|by eapply ready_settings].
Qed.

Create HintDb ends.
#[local] Hint Resolve ends_ret ends_get ends_now_us ends_rx ends_tx : ends.
Ltac ends_tac :=
  repeat first
    [ progress eauto 3 with ends
    | apply ends_bind; [|intros ?]
    | match goal with |- ends (if ?b then _ else _) => destruct b end
    | match goal with |- ends (match ?x with _ => _ end) => destruct x end ].

Lemma ends_ping id : ends (fts_ping fuel id).
Proof. unfold fts_ping. ends_tac. Qed.
Lemma ends_read id addr out len : ends (fts_read fuel id addr out len).
Proof. unfold fts_read. ends_tac. Qed.
Lemma ends_sync_loop ids k len out fe : ends (sync_read_loop fuel ids k len out fe).
Proof. revert k out fe. induction ids as [|id ids IH]; intros k out fe; cbn [sync_read_loop]; ends_tac. Qed.
#[local] Hint Resolve ends_ping ends_read ends_sync_loop : ends.
Lemma ends_sync_read ids addr len out : ends (fts_sync_read fuel ids addr len out).
Proof. unfold fts_sync_read. ends_tac. Qed.
#[local] Hint Resolve ends_sync_read : ends.

(** Every turn of the raw receive loop that goes on has received a byte. *)
Lemma raw_loop_ends n cap deadline got s :
  (cap - length got < n)%nat -> is_Some (raw_loop n cap deadline got s).
Proof.
  revert got s. induction n as [|n IH]; intros got [b w] Hn; [lia|]. cbn [raw_loop].
  destruct (Nat.ltb_spec (length got) cap); [|by eexists].
  destruct (now_ms_run b w) as (now & w1 & Hnow & _). rewrite (bind_run _ _ _ _ _ Hnow). cbv zeta.
  destruct (_ <=? 0); [by eexists|]. mrun. destruct (os_poll _ _ _) as [p w2]. cbn [fst snd].
  destruct p; try by eexists. mrun. destruct (os_read _ _ _) as [x w3]. cbn [fst snd].
  destruct x as [[|y bs]| |]; try by eexists. apply IH. rewrite length_app. cbn. lia.
Qed.

Lemma ends_raw id cap wait : (cap < fuel)%nat -> ends (fts_raw_ping fuel id cap wait).
Proof.
  intros Hcap [b w] Hs. unfold fts_raw_ping. mrun. set (pkt := fts_build_packet id FTS_INST_PING []).
  destruct (write_all_total fuel (fd b) pkt b (os_flush_in (fd b) w)) as [[rc [b1 w1]] E].
  { pose proof (Hintr (os_flush_in (fd b) w)). pose proof (length_build_packet id FTS_INST_PING []) as Hl.
    fold pkt in Hl. lia. }
  rewrite (bind_run _ _ _ _ _ E). destruct (write_all_exact _ _ _ _ _ _ _ E) as (Hb1 & _).
  cbn [fst snd] in *. subst b1. destruct (negb _); [by do 2 eexists|].
  destruct (now_ms_run b w1) as (now & w2 & Hnow & _). rewrite (bind_run _ _ _ _ _ Hnow).
  destruct (raw_loop_ends fuel cap (now + wait) [] (b, w2)) as [[got s2] E2]; [cbn; lia|].
  rewrite (bind_run _ _ _ _ _ E2). do 2 eexists. split; [done|].
  apply raw_loop_bus in E2. cbn [fst] in *. by rewrite E2.
Qed.

Lemma ends_scan n id found : ends (scan_loop fuel n id found).
Proof. revert id found. induction n as [|n IH]; intros id found; cbn [scan_loop]; ends_tac. Qed.

Lemma ends_bench n : ends (bench_loop fuel n).
Proof. induction n as [|n IH]; cbn [bench_loop]; ends_tac. Qed.
#[local] Hint Resolve ends_scan ends_bench : ends.

(** ** The 99th percentile

    [(int)(ok * 0.99)] in [double] is an index of the array; checked up to the default
    number of iterations. *)
Definition p99_ok (ok : Z) : bool :=
  match d_to_s 32 (d_mul (d_of_Z ok) d_099) with Some i => (0 <=? i) && (i <? ok) | None => false end.

Lemma p99_in_bounds : forallb p99_ok (map Z.of_nat (List.seq 1 1000)) = true.
Proof. vm_compute. reflexivity. Qed.

Lemma bench_line_some lat :
  (0 < length lat <= 1000)%nat -> is_Some (bench_line lat).
Proof.
  intros Hl. unfold bench_line. set (ok := Z.of_nat (length lat)).
  assert (Hp : p99_ok ok = true).
  { pose proof p99_in_bounds as H. rewrite forallb_forall in H. apply H, in_map, in_seq. lia. }
  unfold p99_ok in Hp. destruct (d_to_s 32 _) as [i|]; [|done]. cbn [mbind option_bind].
  apply andb_true_iff in Hp as [H0 H1%Z.ltb_lt]. rewrite H0. apply Z.leb_le in H0.
  assert (Hat : forall j, (j < length lat)%nat -> exists x, lat !! j = Some x)
    by (intros j Hj; by apply lookup_lt_is_Some_2).
  destruct (Hat 0%nat) as [x0 ->]; [lia|].
  destruct (Hat (Z.to_nat (ok / 2))) as [x1 ->]; [apply Nat2Z.inj_lt; rewrite Z2Nat.id; Z.to_euclidean_division_equations; lia|].
  destruct (Hat (Z.to_nat i)) as [x2 ->]; [lia|]. destruct (Hat (Z.to_nat (ok - 1))) as [x3 ->]; [lia|].
  by eexists.
Qed.

Lemma length_qsort l : length (qsort_double l) = length l.
Proof.
  unfold qsort_double. induction l as [|x l IH]; [done|]. cbn [fold_right length]. rewrite <- IH.
  generalize (fold_right insert_double [] l). intros m. induction m as [|y m IHm]; [done|].
  cbn [insert_double]. destruct (_ <=? _); [done|]. cbn [length]. by rewrite IHm.
Qed.

Lemma bench_length n s lat fail s' :
  bench_loop fuel n s = Some ((lat, fail), s') -> (length lat <= n)%nat.
Proof.
  revert s lat fail s'. induction n as [|n IH]; intros s lat fail s' E; cbn [bench_loop] in E;
    [by injection E as <- <- <-|].
  apply M_bind_some in E as (t0 & s1 & _ & E). apply M_bind_some in E as ([rc out] & s2 & _ & E).
  apply M_bind_some in E as (t1 & s3 & _ & E). apply M_bind_some in E as ([lat' fail'] & s4 & E4 & E).
  apply IH in E4. destruct (rc =? FTS_OK); injection E as <- <- <-; cbn [length]; lia.
Qed.

Lemma ends_cmd_bench alloc iters : iters <= 1000 -> ends (cmd_bench fuel alloc iters).
Proof.
  intros Hi s Hs. unfold cmd_bench. destruct (negb alloc); [by do 2 eexists|].
  destruct (ends_bench (Z.to_nat iters) s Hs) as ([lat fail] & s1 & E & Hs1).
  rewrite (bind_run _ _ _ _ _ E). cbn beta iota. apply bench_length in E.
  destruct lat as [|x lat]; [by do 2 eexists|]. cbn beta iota. mrun.
  destruct (bench_line_some (qsort_double (x :: lat))) as [line Hline].
  { rewrite length_qsort. cbn [length] in *. lia. }
  rewrite Hline. by do 2 eexists.
Qed.

Lemma ends_command alloc cmd arg :
  (256 < fuel)%nat -> arg <= 1000 -> ends (tool_command fuel alloc cmd arg).
Proof.
  intros Hf Ha. unfold tool_command, cmd_raw, cmd_scan, cmd_state.
  destruct (_ =? _)%string; [apply ends_bind; [by apply ends_raw|]; intros ?; ends_tac|].
  destruct (_ =? _)%string; [ends_tac|]. destruct (_ =? _)%string; [ends_tac|].
  destruct (_ =? _)%string; [|ends_tac]. apply ends_cmd_bench. destruct (0 <? arg); lia.
Qed.
End Return.
End Commands.

(** ** The properties *)

(** C20: [fts_tool] never moves a servo nor enables torque, as its header says.  Whatever
    the command and the servos' answers, what it writes to the port is a sequence of PING,
    READ and SYNC_READ packets (the last bytes of one are missing where the port failed).
    And it comes back: on an adapter without echo, with fuel for the time-out, every
    command returns, [bench] with up to its default of 1000 iterations. *)
Theorem tool_read_only {W} {os : OS W} {laws : OSLaws W} {stream : OSStream W} fuel alloc cmd arg b (w : W) :
  bus_ok b ->
  (forall r s', tool_command fuel alloc cmd arg (b, w) = Some (r, s') ->
     exists out, os_output s'.2 (fd b) = os_output w (fd b) ++ out /\ sent read_only out) /\
  (echo b = false -> (rx_fuel (timeout_ms b) <= fuel)%nat -> (forall w : W, (256 + os_intr w < fuel)%nat) ->
   arg <= 1000 -> is_Some (tool_command fuel alloc cmd arg (b, w))).
Proof.
  intros Hb. split.
  - intros r s' E. destruct (wires_command fuel alloc cmd arg (b, w) r s' Hb E) as (_ & _ & Hout). exact Hout.
  - intros He Ht Hi Ha. destruct (ends_command fuel Hi alloc cmd arg) with (s := (b, w)) as (r & s' & E & _);
      [specialize (Hi w); lia|done|done|]. by eexists.
Qed.

Definition demo_scan : option ((Z * list tool_line) * (fts_bus * sim)) :=
  tool_command 400 true "scan" 2 (sim_bus, mk_sim 5000 [frame 1 0 []; frame 1 0 [9; 3]] [] [3]).

Lemma tool_read_only_witness :
  exists r s', demo_scan = Some (r, s') /\ r.1 = 0 /\ In (ServosFound 1) r.2 /\
  exists out, sm_tx s'.2 = [] ++ out /\ sent read_only out.
Proof.
  unfold demo_scan.
  destruct (tool_read_only 400 true "scan" 2 sim_bus (mk_sim 5000 [frame 1 0 []; frame 1 0 [9; 3]] [] [3])
    ltac:(split; [cbn; lia|constructor])) as [H _].
  destruct (tool_command _ _ _ _ _) as [[r s']|] eqn:E; [|vm_compute in E; discriminate E].
  specialize (H r s' eq_refl). exists r, s'. split; [reflexivity|].
  vm_compute in E. injection E as <- <-. split; [reflexivity|]. split; [cbn; tauto|]. exact H.
Defined.

(** The row of a reply. *)
Definition reply_row (id : Z) (p : fts_packet) : tool_line := state_row id (take 8 (pkt_data p)).

Lemma state_row_app id a rest : length a = 8%nat -> state_row id (a ++ rest) = state_row id a.
Proof. intros Ha. unfold state_row. by rewrite !at_app_l by lia. Qed.

Lemma state_rows_replies ids ps y :
  Forall2 (reply 8) ids ps -> state_rows ids (payloads 8 ps ++ y) = zip_with reply_row ids ps.
Proof.
  induction 1 as [|id p ids ps [_ Hp] _ IH]; [done|]. cbn [state_rows zip_with].
  change (payloads 8 (p :: ps)) with (take 8 (pkt_data p) ++ payloads 8 ps).
  rewrite <- app_assoc, state_row_app by done. f_equal.
  rewrite drop_app, Hp, Nat.sub_diag, drop_0, drop_ge by lia. exact IH.
Qed.

Definition state_ids (n : Z) : list Z := map (fun i => u8 (Z.of_nat i + 1)) (List.seq 0 (Z.to_nat n)).

(** What [fts_tool state] prints is what the servos said.  If it exits with 0, the
    next packets on the line after the request are replies of the servos 1 .. n in this
    order, and row [i] shows the decoded bytes of servo [i]'s own reply. *)
Theorem tool_state_sound {W} {os : OS W} {laws : OSLaws W} {stream : OSStream W} fuel n b (w : W) lines s' :
  0 < n <= MAX_IDS -> echo b = false -> no_overflow (flushed b w) ->
  cmd_state fuel n (b, w) = Some ((0, lines), s') ->
  exists ps, Forall2 (reply 8) (state_ids n) ps /\
    drain_all (flushed b w) = (ps ++ (packets s').1, (packets s').2) /\
    lines = StateHeader :: zip_with reply_row (state_ids n) ps.
Proof.
  unfold MAX_IDS. intros Hn He Hno Hrun. unfold cmd_state in Hrun. fold (state_ids n) in Hrun.
  apply M_bind_some in Hrun as ([rc buf] & s1 & E & Hrun).
  assert (Hl : length (state_ids n) = Z.to_nat n) by (unfold state_ids; by rewrite length_map, length_seq).
  destruct (Z.eqb_spec rc 0) as [->|Hrc]; cbn [negb] in Hrun; [|done]. injection Hrun as <- <-.
  assert (Hs : replicate (Z.to_nat MAX_IDS * 8) 0
               = replicate (Z.to_nat n * 8) 0 ++ replicate ((16 - Z.to_nat n) * 8) 0).
  { rewrite <- replicate_add. f_equal. change (Z.to_nat MAX_IDS) with 16%nat. lia. }
  rewrite Hs in E.
  assert (Hok : sync_read_ok (state_ids n) 8).
  { split; [intros H; rewrite H in Hl; cbn in Hl; lia|]. split; [lia|]. rewrite Hl. lia. }
  destruct (sync_read_replies _ _ _ _ _ _ _ _ _ _ Hok He ltac:(by rewrite length_replicate, Hl) Hno E)
    as (ps & Hf & Hd & ->).
  exists ps. split; [done|]. split; [done|]. cbn [default]. f_equal. by apply state_rows_replies.
Qed.

(** Servo 1 at 2048, servo 2 at -1040 with velocity -3; a stray byte first. *)
Definition state_line : sim :=
  sim_line ([0x12] ++ frame 1 0 [0; 8; 0; 0; 0; 0; 50; 30] ++ frame 2 0 [16; 132; 3; 128; 0; 0; 49; 31]).

Lemma tool_state_sound_witness :
  exists lines s', cmd_state 400 2 (sim_bus, state_line) = Some ((0, lines), s') /\
    lines = [StateHeader; StateRow 1 2048 0 0 50 30; StateRow 2 (-1040) (-3) 0 49 31] /\
    exists ps, Forall2 (reply 8) (state_ids 2) ps /\ lines = StateHeader :: zip_with reply_row (state_ids 2) ps.
Proof.
  destruct (cmd_state 400 2 (sim_bus, state_line)) as [[[rc lines] s']|] eqn:E; [|vm_compute in E; discriminate E].
  assert (Hrc : rc = 0) by (vm_compute in E; by injection E). subst rc. exists lines, s'. split; [reflexivity|].
  split; [vm_compute in E; by injection E|].
  destruct (tool_state_sound 400 2 sim_bus state_line lines s') as (ps & Hf & _ & Hl).
  - unfold MAX_IDS. lia.
  - reflexivity.
  - apply no_overflow_short. vm_compute. lia.
  - exact E.
  - exists ps. split; [exact Hf|exact Hl].
Defined.

(** IDs past 255 wrap around to 0, and 254 is the broadcast address, which every servo of
    the line answers at once: [scan] with more than 253 addresses does not only see
    servos. *)
Example scan_wraps : u8 254 = FTS_BROADCAST_ID /\ u8 257 = 1.
Proof. done. Qed.
