(* ===== verification/Log.v ===== *)
(** * The recorder (daemon/tools/so101_log.c)

    [main] as a program over the segment, the output file, the clock and the signals: it
    polls the seqlock and writes every new cycle as one row.  A row, like every text, is
    given by its arguments. *)

From Stdlib Require Import Ascii.
From stdpp Require Import strings.
From S2P Require Import Prelude Os Float32 Calib Shm Layout Prog Double Client.

(** ** Definitions *)

Inductive log_text :=
| LogUsage | LogNotFound | LogMismatch | LogPerror (path : string) | LogRecording (path : string) (limited : bool)
| LogStopped | LogSummary (rows missed : Z) (path : string).

Inductive log_ev : Type -> Type :=
| LogShmOpen : log_ev bool
| LogMmap : log_ev bool
| LogMagic : log_ev Z
| LogVersion : log_ev Z
| LogSize : log_ev Z
| LogFopen (path : string) : log_ev bool
| LogHeader : log_ev unit                                  (* the names of the columns *)
| LogSignals : log_ev unit                                 (* SIGINT, SIGTERM set g_stop *)
| LogGStop : log_ev bool
| LogRead (max_tries : nat) : log_ev (option so101_sample)
| LogRow (s : so101_sample) (t : double) : log_ev unit
| LogPause (t : timespec) : log_ev unit
| LogClose : log_ev unit
| LogSay (l : log_text) : log_ev unit.

Record log_conf := mk_log_conf { lo_out : string; lo_dur : double; lo_poll : double }.
Definition default_log_conf : log_conf := mk_log_conf "so101_log.csv" (d_of_Z 0) (d_of_Z 500).

Section Log.
(** libc's [atof]. *)
Context (atof : string -> double).

Fixpoint log_options (c : log_conf) (opts : list (ascii * string)) : option log_conf :=
  match opts with
  | [] => Some (if d_leb (lo_poll c) (d_of_Z 0) then mk_log_conf (lo_out c) (lo_dur c) (d_of_Z 500) else c)
  | (ch, optarg) :: opts =>
      if (ch =? "o")%char then log_options (mk_log_conf optarg (lo_dur c) (lo_poll c)) opts
      else if (ch =? "d")%char then log_options (mk_log_conf (lo_out c) (atof optarg) (lo_poll c)) opts
      else if (ch =? "p")%char then log_options (mk_log_conf (lo_out c) (lo_dur c) (atof optarg)) opts
      else None
  end.

(** The segment, mapped, with the header of this version. *)
Definition log_attach : prog log_ev bool :=
  opened ← do LogShmOpen;
  if negb opened then do (LogSay LogNotFound);; mret false
  else
    mapped ← do LogMmap;
    ok ← (if negb mapped then mret false
          else
            magic ← do LogMagic;
            if negb (magic =? SO101_SHM_MAGIC) then mret false
            else
              version ← do LogVersion;
              if negb (version =? SO101_SHM_VERSION) then mret false
              else size ← do LogSize; mret (size =? SHM_SIZE));
    if ok : bool then mret true else do (LogSay LogMismatch);; mret false.

(** [poll_ns] and [pause]; nothing if the conversion overflows. *)
Definition log_pause (poll_hz : double) : option timespec :=
  ns ← d_to_s 64 (d_div (d_of_Z 1000000000) poll_hz);
  Some (mk_timespec (Z.quot ns 1000000000) (Z.rem ns 1000000000)).

(** A new cycle: [first], [t0] and [missed] after it. *)
Definition log_count (s : so101_sample) (last first t0 missed : Z) : Z * Z * Z :=
  if first =? 0 then (s_cycle s, s_t_mono_ns s, missed)
  else if u64 (last + 1) <? s_cycle s then (first, t0, missed + i64 (s_cycle s - last - 1))
  else (first, t0, missed).

Definition log_time (s : so101_sample) (t0 : Z) : double :=
  d_div (d_of_Z (s_t_mono_ns s - t0)) (d_of_Z 1000000000).

(** The [while] loop, at most [fuel] turns: the rows written and the cycles missed. *)
Fixpoint log_loop (fuel : nat) (pause : timespec) (dur : double) (last first t0 rows missed : Z)
    : prog log_ev (Z * Z) :=
  match fuel with
  | O => Undef
  | S fuel =>
      stop ← do LogGStop;
      if stop : bool then mret (rows, missed)
      else
        magic ← do LogMagic;
        if negb (magic =? SO101_SHM_MAGIC) then do (LogSay LogStopped);; mret (rows, missed)
        else
          s ← do (LogRead 100);
          match s with
          | Some s =>
              if negb (s_cycle s =? last) then
                let c := log_count s last first t0 missed in
                let t := log_time s c.1.2 in
                do (LogRow s t);;
                if d_ltb (d_of_Z 0) dur && d_leb dur t then mret (rows + 1, c.2)
                else do (LogPause pause);; log_loop fuel pause dur (s_cycle s) c.1.1 c.1.2 (rows + 1) c.2
              else do (LogPause pause);; log_loop fuel pause dur last first t0 rows missed
          | None => do (LogPause pause);; log_loop fuel pause dur last first t0 rows missed
          end
  end.

Definition log_main (fuel : nat) (opts : list (ascii * string)) : prog log_ev Z :=
  match log_options default_log_conf opts with
  | None => do (LogSay LogUsage);; mret 2
  | Some c =>
      ok ← log_attach;
      if negb ok then mret 1
      else
        opened ← do (LogFopen (lo_out c));
        if negb opened then do (LogSay (LogPerror (lo_out c)));; mret 1
        else
          do LogHeader;;
          do LogSignals;;
          pause ← defined (log_pause (lo_poll c));
          do (LogSay (LogRecording (lo_out c) (d_ltb (d_of_Z 0) (lo_dur c))));;
          r ← log_loop fuel pause (lo_dur c) 0 0 0 0 0;
          do LogClose;;
          do (LogSay (LogSummary r.1 r.2 (lo_out c)));;
          mret 0
  end.
End Log.

(** ** What is recorded *)

Definition log_read (o : obs log_ev) : option so101_sample :=
  match o with
  | Obs e r =>
      match e in log_ev R return R -> option so101_sample with LogRead _ => fun s => s | _ => fun _ => None end r
  end.
Definition log_row (o : obs log_ev) : option so101_sample :=
  match o with
  | Obs e r =>
      match e in log_ev R return R -> option so101_sample with LogRow s _ => fun _ => Some s | _ => fun _ => None end r
  end.
Definition log_summary (o : obs log_ev) : option (Z * Z) :=
  match o with
  | Obs e r =>
      match e in log_ev R return R -> option (Z * Z) with
      | LogSay (LogSummary rows missed _) => fun _ => Some (rows, missed)
      | _ => fun _ => None
      end r
  end.

(** The snapshots with a cycle other than the one before, [last] at first. *)
Fixpoint news (last : Z) (l : list so101_sample) : list so101_sample :=
  match l with
  | [] => []
  | s :: l => if s_cycle s =? last then news last l else s :: news (s_cycle s) l
  end.

(** The cycle counter only grows, and stays below 2^63. *)
Fixpoint ascending (last : Z) (l : list so101_sample) : Prop :=
  match l with [] => True | s :: l => last <= s_cycle s < 2 ^ 63 /\ ascending (s_cycle s) l end.

(** The last cycle recorded. *)
Fixpoint final (last : Z) (l : list so101_sample) : Z :=
  match l with [] => last | s :: l => final (s_cycle s) l end.

Lemma final_news last l : final last (news last l) = final last l.
Proof.
  revert last. induction l as [|s l IH]; intros last; [done|]. cbn [news final].
  destruct (Z.eqb_spec (s_cycle s) last) as [->|]; [apply IH|]. cbn [final]. apply IH.
Qed.

(** The cycle before the recording: [last], or the one before the first row. *)
Definition base (first last : Z) (l : list so101_sample) : Z :=
  match l with s :: _ => if first =? 0 then s_cycle s - 1 else last | [] => last end.

(** The loop from the middle of a recording. *)
Definition recorded (tr : list (obs log_ev)) (last first rows missed : Z) (r : Z * Z) : Prop :=
  let l := omap log_row tr in
  l = news last (omap log_read tr) /\ omap log_summary tr = [] /\
  r.1 = rows + Z.of_nat (length l) /\
  (0 <= last -> (first = 0 <-> last = 0) -> ascending last (omap log_read tr) ->
   r.2 = missed + (final last l - base first last l) - Z.of_nat (length l)).

Lemma log_count_missed s last first t0 missed :
  0 <= last -> last <= s_cycle s < 2 ^ 63 -> s_cycle s <> last -> (first = 0 <-> last = 0) ->
  (log_count s last first t0 missed).2 = missed + (if first =? 0 then 0 else s_cycle s - last - 1) /\
  (log_count s last first t0 missed).1.1 <> 0.
Proof.
  intros H0 H1 H2 Hf. unfold log_count.
  destruct (Z.eqb_spec first 0) as [->|Hn]; cbn [fst snd]; [split; lia|].
  rewrite (wrap_u_id 64) by clia.
  destruct (Z.ltb_spec (last + 1) (s_cycle s)); cbn [fst snd]; [|split; lia].
  rewrite (wrap_s_id 64) by clia. split; lia.
Qed.

(** A turn without a new cycle; one that writes a row. *)
Lemma recorded_skip o tr last first rows missed r :
  log_row o = None -> log_summary o = None ->
  match log_read o with Some s => s_cycle s = last | None => True end ->
  recorded tr last first rows missed r -> recorded (o :: tr) last first rows missed r.
Proof.
  intros H1 H2 H3 H. unfold recorded in *. cbn [omap list_omap]. rewrite H1, H2.
  destruct (log_read o) as [s|]; [|done]. destruct H as (E & Hs & Hr & Hm).
  split_and!; [by rewrite E at 1; cbn [news]; rewrite H3, Z.eqb_refl|done|done|].
  intros H0 Hf [_ Ha]. rewrite H3 in Ha. auto.
Qed.

Lemma recorded_row s n t tr last first t0 rows missed r :
  s_cycle s <> last ->
  let c := log_count s last first t0 missed in
  recorded tr (s_cycle s) c.1.1 (rows + 1) c.2 r ->
  recorded (Obs (LogRead n) (Some s) :: Obs (LogRow s t) tt :: tr) last first rows missed r.
Proof.
  intros Hne c (E & Hs & Hr & Hm). unfold recorded. cbn [omap list_omap log_row log_read log_summary].
  cbn [news length final base]. rewrite (proj2 (Z.eqb_neq _ _) Hne).
  split_and!; [by rewrite E at 1|done|lia|].
  intros H0 Hf [Hlt Ha].
  destruct (log_count_missed s last first t0 missed H0 Hlt Hne Hf) as [Hc Hc1].
  fold c in Hc, Hc1. rewrite Hm, Hc by (done || lia).
  assert (Hb : base c.1.1 (s_cycle s) (omap log_row tr) = s_cycle s)
    by (unfold base; destruct (omap log_row tr); [done|]; by rewrite (proj2 (Z.eqb_neq _ _) Hc1)).
  rewrite Hb. destruct (Z.eqb_spec first 0); lia.
Qed.

Definition quiet (o : obs log_ev) : Prop := log_row o = None /\ log_summary o = None /\ log_read o = None.

Lemma quiet_omap tr : Forall quiet tr -> omap log_row tr = [] /\ omap log_summary tr = [] /\ omap log_read tr = [].
Proof.
  induction 1 as [|o tr (H1 & H2 & H3) _ (I1 & I2 & I3)]; [done|]. cbn [omap list_omap].
  rewrite H1, H2, H3. by split_and!.
Qed.

Lemma recorded_end tr last first rows missed :
  Forall quiet tr -> recorded tr last first rows missed (rows, missed).
Proof.
  intros (E1 & E2 & E3)%quiet_omap. unfold recorded. rewrite E1, E2, E3. cbn. split_and!; lia || done.
Qed.

Lemma log_loop_recorded fuel pause dur : forall last first t0 rows missed tr r,
  run (log_loop fuel pause dur last first t0 rows missed) tr r -> recorded tr last first rows missed r.
Proof.
  induction fuel as [|fuel IH]; intros last first t0 rows missed tr r Hr; [done|].
  cbn [log_loop] in Hr.
  apply run_do in Hr as (stop & tr1 & -> & Hr). apply recorded_skip; [done..|].
  destruct stop; [destruct Hr as [-> ->]; by apply recorded_end|].
  apply run_do in Hr as (magic & tr2 & -> & Hr). apply recorded_skip; [done..|].
  destruct (negb _).
  { apply run_do in Hr as ([] & tr3 & -> & -> & ->). apply recorded_end. by repeat constructor. }
  apply run_do in Hr as (os & tr3 & -> & Hr).
  assert (Hpause : forall tr last first t0 rows missed r,
    run (do (LogPause pause);; log_loop fuel pause dur last first t0 rows missed) tr r ->
    recorded tr last first rows missed r).
  { intros tr' l f t rw ms r' ([] & tr4 & -> & H)%run_do. apply recorded_skip; [done..|]. by eapply IH. }
  destruct os as [s|]; [|apply recorded_skip; [done..|]; by eapply Hpause].
  destruct (Z.eqb_spec (s_cycle s) last) as [E|E]; cbn [negb] in Hr.
  { apply recorded_skip; [done..|]. by eapply Hpause. }
  apply run_do in Hr as ([] & tr4 & -> & Hr). apply (recorded_row _ _ _ _ _ _ t0); [done|].
  destruct (_ && _); [destruct Hr as [-> ->]; by apply recorded_end|]. by eapply Hpause.
Qed.

Lemma attach_quiet tr ok : run log_attach tr ok -> Forall quiet tr.
Proof.
  intros Hr.
  assert (H : only (fun R e => forall r, quiet (Obs e r)) log_attach).
  { unfold log_attach. repeat first [apply only_ret | apply only_bind; [|intros ?]
      | match goal with |- only _ (if ?b then _ else _) => destruct b end | apply only_do; done]. }
  pose proof (only_run _ _ _ _ H Hr) as Hq. eapply List.Forall_impl; [|exact Hq]. intros [R e r] Ho. apply Ho.
Qed.

(** What holds of a file without rows. *)
Lemma quiet_nothing tr : Forall quiet tr ->
  omap log_row tr = news 0 (omap log_read tr) /\
  forall rows missed, (rows, missed) ∈ omap log_summary tr ->
    rows = Z.of_nat (length (omap log_row tr)) /\
    (ascending 0 (omap log_read tr) ->
     match omap log_row tr with
     | s :: l => rows + missed = final (s_cycle s) l - s_cycle s + 1
     | [] => missed = 0
     end).
Proof.
  intros (-> & -> & ->)%quiet_omap. split; [done|]. by intros rows missed ?%not_elem_of_nil.
Qed.

(** C22: the recorder writes every new cycle once.  In every recording, whatever it polls
    and whenever it is stopped, the rows of the file are the snapshots it read without the
    repetitions, in order, and the number of rows it reports is theirs; and as long as the
    cycle counter only grows, the cycles it reports as missed are exactly those between
    the first row and the last that have none. *)
Theorem log_writes_new_cycles atof fuel opts tr rc :
  run (log_main atof fuel opts) tr rc ->
  omap log_row tr = news 0 (omap log_read tr) /\
  forall rows missed, (rows, missed) ∈ omap log_summary tr ->
    rows = Z.of_nat (length (omap log_row tr)) /\
    (ascending 0 (omap log_read tr) ->
     match omap log_row tr with
     | s :: l => rows + missed = final (s_cycle s) l - s_cycle s + 1
     | [] => missed = 0
     end).
Proof.
  unfold log_main. intros Hr. destruct (log_options atof default_log_conf opts) as [c|];
    [|by apply run_do in Hr as ([] & t1 & -> & -> & _); apply quiet_nothing; repeat constructor].
  apply run_bind in Hr as (t1 & ok & t2 & -> & H1 & Hr). pose proof (attach_quiet _ _ H1) as Q1.
  destruct ok; cbn [negb] in Hr; [|destruct Hr as [-> _]; rewrite app_nil_r; by apply quiet_nothing].
  apply run_do in Hr as (opened & t3 & -> & Hr). destruct opened; cbn [negb] in Hr.
  2: { apply run_do in Hr as ([] & t4 & -> & -> & _). apply quiet_nothing, Forall_app.
       split; [done|by repeat constructor]. }
  apply run_do in Hr as ([] & t4 & -> & Hr). apply run_do in Hr as ([] & t5 & -> & Hr).
  apply run_defined in Hr as (pause & _ & Hr). apply run_do in Hr as ([] & t6 & -> & Hr).
  apply run_bind in Hr as (t7 & r & t8 & -> & H7 & Hr). apply log_loop_recorded in H7.
  apply run_do in Hr as ([] & t9 & -> & Hr). apply run_do in Hr as ([] & t10 & -> & -> & _).
  destruct (quiet_omap _ Q1) as (E1 & E2 & E3), H7 as (F1 & F2 & F3 & F4).
  rewrite !omap_app, E1, E2, E3. cbn [omap list_omap log_row log_summary log_read app].
  rewrite !omap_app, F2. cbn [omap list_omap log_row log_summary log_read app]. rewrite !app_nil_r.
  split; [exact F1|]. intros rows missed [= -> ->]%list_elem_of_singleton. split; [lia|].
  intros Ha. specialize (F4 ltac:(lia) ltac:(done) Ha). cbn zeta in *. unfold base in F4.
  destruct (omap log_row t7) as [|s l]; cbn [length final] in *; [lia|]. cbn [Z.eqb] in F4. lia.
Qed.

(** A world to evaluate the recorder in: the cycles it will read, then SIGINT. *)
Definition cycle_sample (n : Z) : so101_sample :=
  mk_sample n 0 0 0 0 0 0 0 false false false [0] [0] [0] [0] [0] [0] [0] [0] [0] 0 0 0 0 0 0 0 0 0.
Definition log_world (R : Type) (e : log_ev R) : M (list Z) R := fun l =>
  match e in log_ev R return option (R * list Z) with
  | LogShmOpen => Some (true, l)
  | LogMmap => Some (true, l)
  | LogMagic => Some (SO101_SHM_MAGIC, l)
  | LogVersion => Some (SO101_SHM_VERSION, l)
  | LogSize => Some (SHM_SIZE, l)
  | LogFopen _ => Some (true, l)
  | LogGStop => Some (match l with [] => true | _ => false end, l)
  | LogRead _ => Some (option_map cycle_sample (hd_error l), tl l)
  | LogHeader | LogSignals | LogRow _ _ | LogPause _ | LogClose | LogSay _ => Some (tt, l)
  end.

Definition log_trace : list (obs log_ev) :=
  match interp_log log_world (log_main (fun _ => d_of_Z 0) 10 []) [7; 7; 8; 11] with
  | Some (tr, _, _) => tr
  | None => []
  end.

Lemma log_writes_new_cycles_witness :
  map s_cycle (omap log_row log_trace) = [7; 8; 11] /\ omap log_summary log_trace = [(3, 2)] /\
  omap log_row log_trace = news 0 (omap log_read log_trace) /\
  (ascending 0 (omap log_read log_trace) -> 3 + 2 = 11 - 7 + 1).
Proof.
  split; [vm_compute; reflexivity|]. split; [vm_compute; reflexivity|].
  assert (Hr : run (log_main (fun _ => d_of_Z 0) 10 []) log_trace 0).
  { eapply (interp_log_run log_world _ [7; 7; 8; 11]). vm_compute. reflexivity. }
  destruct (log_writes_new_cycles _ _ _ _ _ Hr) as [H1 H2]. split; [exact H1|].
  intros Ha. destruct (H2 3 2 ltac:(vm_compute; left)) as [_ H3]. exact (H3 Ha).
Defined.
